(** * hottohts: the protocol engine of the HottoH stove driver

    A shallow embedding of the TypeScript sources

    - [request.ts]  (the frame encoder [Request]),
    - [client.ts]   (the polling client [HottohRemoteClient]),
    - [hottoht.ts]  (the register and bit-field accessors of [Hottoh]),

    together with the properties of the protocol specification that can be
    stated over it. *)

From Stdlib Require Import ZArith List Bool Lia.
From Stdlib.Strings Require Import String Ascii Byte.
Import ListNotations.
Local Open Scope Z_scope.

Set Implicit Arguments.

(** ** JavaScript strings and buffers

    A JavaScript string is a sequence of UTF-16 code units; [length] is the
    number of code units.  A [Buffer] is a sequence of bytes. *)

Definition jsstring := list Z.
Definition Buffer := list byte.

(** String literals of the source, all of them ASCII. *)
Definition lit (s : string) : jsstring :=
  map (fun a => Z.of_N (N_of_ascii a)) (list_ascii_of_string s).

Definition jsstring_eqb (a b : jsstring) : bool :=
  if list_eq_dec Z.eq_dec a b then true else false.

(** [s.includes(c)] for a one-character needle. *)
Definition includes (c : Z) (s : jsstring) : bool := existsb (Z.eqb c) s.

(** [s.split(c)] for a one-character separator: never the empty array. *)
Fixpoint split (sep : Z) (s : jsstring) : list jsstring :=
  match s with
  | [] => [[]]
  | c :: s' =>
      if c =? sep then [] :: split sep s'
      else match split sep s' with
           | h :: t => (c :: h) :: t
           | [] => [[c]]
           end
  end.

(** [a.join(c)] for an array of strings. *)
Fixpoint join (sep : Z) (a : list jsstring) : jsstring :=
  match a with
  | [] => []
  | [x] => x
  | x :: rest => x ++ sep :: join sep rest
  end.

Definition semicolon : Z := 59.
Definition newline : Z := 10.

(** *** Numbers rendered in a radix: [n.toString(16)] *)

Definition digit_char (d : Z) : Z :=
  if d <? 10 then 48 + d else 97 + (d - 10).

Fixpoint to_digits (fuel : nat) (radix n : Z) (acc : jsstring) : jsstring :=
  match fuel with
  | O => acc
  | S fuel' =>
      let acc' := digit_char (n mod radix) :: acc in
      if n / radix =? 0 then acc' else to_digits fuel' radix (n / radix) acc'
  end.

(** [n.toString(16)] for a non-negative integer [n]. *)
Definition toString16 (n : Z) : jsstring :=
  to_digits (S (Z.to_nat (Z.log2 n))) 16 n [].

(** [s.toUpperCase()] on the ASCII letters (it is applied to the output of
    [toString(16)] only). *)
Definition toUpperCase (s : jsstring) : jsstring :=
  map (fun c => if (97 <=? c) && (c <=? 122) then c - 32 else c) s.

(** [s.padStart(n, c)] for a one-character pad. *)
Definition padStart (n : nat) (c : Z) (s : jsstring) : jsstring :=
  repeat c (n - List.length s) ++ s.

(** *** [Buffer.from(s, 'utf-8')] *)

Definition byte_of_Z (z : Z) : byte :=
  match Byte.of_N (Z.to_N (z mod 256)) with
  | Some b => b
  | None => x00
  end.

Definition Z_of_byte (b : byte) : Z := Z.of_N (Byte.to_N b).

Definition is_high_surrogate (c : Z) : bool := (0xD800 <=? c) && (c <=? 0xDBFF).
Definition is_low_surrogate (c : Z) : bool := (0xDC00 <=? c) && (c <=? 0xDFFF).

(** UTF-8 bytes of a code point. *)
Definition utf8_of_code_point (cp : Z) : Buffer :=
  if cp <? 0x80 then [byte_of_Z cp]
  else if cp <? 0x800 then
    [byte_of_Z (Z.lor 0xC0 (Z.shiftr cp 6));
     byte_of_Z (Z.lor 0x80 (Z.land cp 0x3F))]
  else if cp <? 0x10000 then
    [byte_of_Z (Z.lor 0xE0 (Z.shiftr cp 12));
     byte_of_Z (Z.lor 0x80 (Z.land (Z.shiftr cp 6) 0x3F));
     byte_of_Z (Z.lor 0x80 (Z.land cp 0x3F))]
  else
    [byte_of_Z (Z.lor 0xF0 (Z.shiftr cp 18));
     byte_of_Z (Z.lor 0x80 (Z.land (Z.shiftr cp 12) 0x3F));
     byte_of_Z (Z.lor 0x80 (Z.land (Z.shiftr cp 6) 0x3F));
     byte_of_Z (Z.lor 0x80 (Z.land cp 0x3F))].

Definition replacement_character : Z := 0xFFFD.

(** A surrogate pair is one code point; a lone surrogate is encoded as
    U+FFFD. *)
Fixpoint Buffer_from_utf8 (s : jsstring) : Buffer :=
  match s with
  | [] => []
  | c :: rest =>
      if is_high_surrogate c then
        match rest with
        | lo :: rest' =>
            if is_low_surrogate lo then
              utf8_of_code_point
                (0x10000 + Z.shiftl (c - 0xD800) 10 + (lo - 0xDC00))
                ++ Buffer_from_utf8 rest'
            else utf8_of_code_point replacement_character ++ Buffer_from_utf8 rest
        | [] => utf8_of_code_point replacement_character
        end
      else if is_low_surrogate c then
        utf8_of_code_point replacement_character ++ Buffer_from_utf8 rest
      else utf8_of_code_point c ++ Buffer_from_utf8 rest
  end.

(** *** [buffer.toString('utf-8')]

    The decoder replaces every ill-formed sequence by U+FFFD, byte ranges as
    in the WHATWG Encoding Standard; a sequence cut by the end of the buffer
    is ill-formed. *)

Record utf8_state := {
  remaining : nat;       (* continuation bytes still expected *)
  code_point : Z;        (* bits gathered so far *)
  lower : Z;             (* bounds of the next continuation byte *)
  upper : Z
}.

Definition utf8_idle : utf8_state :=
  {| remaining := 0; code_point := 0; lower := 0x80; upper := 0xBF |}.

(** A byte met while no sequence is open. *)
Definition utf8_lead (b : Z) : list Z * utf8_state :=
  if b <=? 0x7F then ([b], utf8_idle)
  else if (0xC2 <=? b) && (b <=? 0xDF) then
    ([], {| remaining := 1; code_point := Z.land b 0x1F;
            lower := 0x80; upper := 0xBF |})
  else if (0xE0 <=? b) && (b <=? 0xEF) then
    ([], {| remaining := 2; code_point := Z.land b 0xF;
            lower := if b =? 0xE0 then 0xA0 else 0x80;
            upper := if b =? 0xED then 0x9F else 0xBF |})
  else if (0xF0 <=? b) && (b <=? 0xF4) then
    ([], {| remaining := 3; code_point := Z.land b 0x7;
            lower := if b =? 0xF0 then 0x90 else 0x80;
            upper := if b =? 0xF4 then 0x8F else 0xBF |})
  else ([replacement_character], utf8_idle).

Definition utf8_step (st : utf8_state) (b : Z) : list Z * utf8_state :=
  match remaining st with
  | O => utf8_lead b
  | S r =>
      if (lower st <=? b) && (b <=? upper st) then
        let cp := Z.lor (Z.shiftl (code_point st) 6) (Z.land b 0x3F) in
        match r with
        | O => ([cp], utf8_idle)
        | S _ => ([], {| remaining := r; code_point := cp;
                         lower := 0x80; upper := 0xBF |})
        end
      else
        (* the open sequence is ill-formed; the byte is read again *)
        let '(out, st') := utf8_lead b in
        (replacement_character :: out, st')
  end.

Fixpoint utf8_decode (st : utf8_state) (bs : Buffer) : list Z :=
  match bs with
  | [] => match remaining st with
          | O => []
          | S _ => [replacement_character]
          end
  | b :: bs' =>
      let '(out, st') := utf8_step st (Z_of_byte b) in
      out ++ utf8_decode st' bs'
  end.

(** UTF-16 code units of a code point. *)
Definition utf16_of_code_point (cp : Z) : jsstring :=
  if cp <? 0x10000 then [cp]
  else [0xD800 + Z.shiftr (cp - 0x10000) 10;
        0xDC00 + Z.land (cp - 0x10000) 0x3FF].

Definition Buffer_toString_utf8 (data : Buffer) : jsstring :=
  flat_map utf16_of_code_point (utf8_decode utf8_idle data).

(** ** The [crc] package: [crc.crc16ccitt]

    [request.ts] imports the checksum from the npm package [crc]; its
    [crc16ccitt] is the table-driven loop below, started at [0xffff]. *)

Module Crc.

Definition TABLE : list Z :=
  [ 0x0000; 0x1021; 0x2042; 0x3063; 0x4084; 0x50a5; 0x60c6; 0x70e7;
    0x8108; 0x9129; 0xa14a; 0xb16b; 0xc18c; 0xd1ad; 0xe1ce; 0xf1ef;
    0x1231; 0x0210; 0x3273; 0x2252; 0x52b5; 0x4294; 0x72f7; 0x62d6;
    0x9339; 0x8318; 0xb37b; 0xa35a; 0xd3bd; 0xc39c; 0xf3ff; 0xe3de;
    0x2462; 0x3443; 0x0420; 0x1401; 0x64e6; 0x74c7; 0x44a4; 0x5485;
    0xa56a; 0xb54b; 0x8528; 0x9509; 0xe5ee; 0xf5cf; 0xc5ac; 0xd58d;
    0x3653; 0x2672; 0x1611; 0x0630; 0x76d7; 0x66f6; 0x5695; 0x46b4;
    0xb75b; 0xa77a; 0x9719; 0x8738; 0xf7df; 0xe7fe; 0xd79d; 0xc7bc;
    0x48c4; 0x58e5; 0x6886; 0x78a7; 0x0840; 0x1861; 0x2802; 0x3823;
    0xc9cc; 0xd9ed; 0xe98e; 0xf9af; 0x8948; 0x9969; 0xa90a; 0xb92b;
    0x5af5; 0x4ad4; 0x7ab7; 0x6a96; 0x1a71; 0x0a50; 0x3a33; 0x2a12;
    0xdbfd; 0xcbdc; 0xfbbf; 0xeb9e; 0x9b79; 0x8b58; 0xbb3b; 0xab1a;
    0x6ca6; 0x7c87; 0x4ce4; 0x5cc5; 0x2c22; 0x3c03; 0x0c60; 0x1c41;
    0xedae; 0xfd8f; 0xcdec; 0xddcd; 0xad2a; 0xbd0b; 0x8d68; 0x9d49;
    0x7e97; 0x6eb6; 0x5ed5; 0x4ef4; 0x3e13; 0x2e32; 0x1e51; 0x0e70;
    0xff9f; 0xefbe; 0xdfdd; 0xcffc; 0xbf1b; 0xaf3a; 0x9f59; 0x8f78;
    0x9188; 0x81a9; 0xb1ca; 0xa1eb; 0xd10c; 0xc12d; 0xf14e; 0xe16f;
    0x1080; 0x00a1; 0x30c2; 0x20e3; 0x5004; 0x4025; 0x7046; 0x6067;
    0x83b9; 0x9398; 0xa3fb; 0xb3da; 0xc33d; 0xd31c; 0xe37f; 0xf35e;
    0x02b1; 0x1290; 0x22f3; 0x32d2; 0x4235; 0x5214; 0x6277; 0x7256;
    0xb5ea; 0xa5cb; 0x95a8; 0x8589; 0xf56e; 0xe54f; 0xd52c; 0xc50d;
    0x34e2; 0x24c3; 0x14a0; 0x0481; 0x7466; 0x6447; 0x5424; 0x4405;
    0xa7db; 0xb7fa; 0x8799; 0x97b8; 0xe75f; 0xf77e; 0xc71d; 0xd73c;
    0x26d3; 0x36f2; 0x0691; 0x16b0; 0x6657; 0x7676; 0x4615; 0x5634;
    0xd94c; 0xc96d; 0xf90e; 0xe92f; 0x99c8; 0x89e9; 0xb98a; 0xa9ab;
    0x5844; 0x4865; 0x7806; 0x6827; 0x18c0; 0x08e1; 0x3882; 0x28a3;
    0xcb7d; 0xdb5c; 0xeb3f; 0xfb1e; 0x8bf9; 0x9bd8; 0xabbb; 0xbb9a;
    0x4a75; 0x5a54; 0x6a37; 0x7a16; 0x0af1; 0x1ad0; 0x2ab3; 0x3a92;
    0xfd2e; 0xed0f; 0xdd6c; 0xcd4d; 0xbdaa; 0xad8b; 0x9de8; 0x8dc9;
    0x7c26; 0x6c07; 0x5c64; 0x4c45; 0x3ca2; 0x2c83; 0x1ce0; 0x0cc1;
    0xef1f; 0xff3e; 0xcf5d; 0xdf7c; 0xaf9b; 0xbfba; 0x8fd9; 0x9ff8;
    0x6e17; 0x7e36; 0x4e55; 0x5e74; 0x2e93; 0x3eb2; 0x0ed1; 0x1ef0 ].

(** One round of the loop:
    [crc = (TABLE[((crc >> 8) ^ byte) & 0xff] ^ (crc << 8)) & 0xffff]. *)
Definition update (crc : Z) (b : byte) : Z :=
  Z.land
    (Z.lxor
       (nth (Z.to_nat (Z.land (Z.lxor (Z.shiftr crc 8) (Z_of_byte b)) 0xff))
            TABLE 0)
       (Z.shiftl crc 8))
    0xffff.

Definition crc16ccitt (current : Buffer) : Z :=
  fold_left update current 0xffff.

End Crc.

(** ** CRC-16/CCITT-FALSE, bit by bit

    The checksum as the protocol names it: a 16-bit shift register, polynomial
    [0x1021], initial value [0xFFFF], bytes fed most significant bit first
    (no reflection), no final exclusive-or. *)

Module CcittFalse.

Definition poly : Z := 0x1021.
Definition init : Z := 0xFFFF.

Definition shift (reg : Z) : Z :=
  if Z.testbit reg 15
  then Z.lxor (Z.shiftl reg 1 mod 65536) poly
  else Z.shiftl reg 1 mod 65536.

Definition shift8 (reg : Z) : Z :=
  shift (shift (shift (shift (shift (shift (shift (shift reg))))))).

Definition feed (reg : Z) (b : byte) : Z :=
  shift8 (Z.lxor reg (Z.shiftl (Z_of_byte b) 8)).

Definition checksum (data : Buffer) : Z := fold_left feed data init.

End CcittFalse.

(** ** [request.ts] *)

Module Command.
Definition DAT : jsstring := lit "DAT".
End Command.

Module CommandMode.
Definition READ : jsstring := lit "R".
Definition WRITE : jsstring := lit "W".
Definition EXECUTE : jsstring := lit "E".
End CommandMode.

Module Request.

Record t := new_fields {
  command : jsstring;
  mode : jsstring;
  parameters : list jsstring;
  id : Z;
  request : jsstring
}.

Definition _getParameters (parameters : list jsstring) : jsstring :=
  join semicolon parameters ++ lit ";".

(** [paramString.length.toString(16).toUpperCase().padStart(4, '0')] *)
Definition lenParameters (paramString : jsstring) : jsstring :=
  padStart 4 48 (toUpperCase (toString16 (Z.of_nat (List.length paramString)))).

Definition _getRawData (command mode : jsstring) (parameters : list jsstring)
  : jsstring :=
  let paramString := _getParameters parameters in
  lenParameters paramString ++ command ++ mode ++ paramString.

Definition _getCrc (message : jsstring) : jsstring :=
  let crcValue := Crc.crc16ccitt (Buffer_from_utf8 message) in
  padStart 4 48 (toUpperCase (toString16 crcValue)).

Definition _buildRawPacket (command mode : jsstring)
  (parameters : list jsstring) : jsstring :=
  let strSocketId := lit "00000" in
  let strRawData := _getRawData command mode parameters in
  let strData := strSocketId ++ lit "C---" ++ strRawData in
  let strCrc := _getCrc strData in
  lit "#" ++ strData ++ strCrc ++ [newline].

(** The constructor; the socket id is stored and never used. *)
Definition new (command mode : jsstring) (parameters : list jsstring) (id : Z)
  : t :=
  new_fields command mode parameters id
    (_buildRawPacket command mode parameters).

Definition getRequest (r : t) : Buffer := Buffer_from_utf8 (request r).

End Request.

(** ** Completions and errors *)

Inductive error :=
| TypeError
| Error (message : string)
| SystemError (code : string).

Inductive completion (A : Type) : Type :=
| Normal (a : A)
| Throw (e : error).
Arguments Normal {A} a.
Arguments Throw {A} e.

(** ** [client.ts] *)

Module HottohRemoteClient.

(** The [await]s of [__dial], in the order of the source: the three reads
    and the write of the drain loop. *)
Inductive await_point := AwaitInfo | AwaitData | AwaitData2 | AwaitSetData.

(** A request in flight: the listeners [onData] and [onError] that
    [_sendRequestAndWaitForResponse] attached to the socket, its 60 s timer,
    and the [await] of [__dial] its promise settles. *)
Record request_in_flight := {
  timeout : nat;
  awaited_at : await_point
}.

(** The fields of the class the methods below read or write, followed by the
    part of the runtime they act on: the [once('connect')] handlers of
    [__connect], the requests in flight (in the order their listeners were
    attached), the pending [loop] timers with their delays, and the source of
    timer handles. *)
Record t := {
  _info : option (list jsstring);
  _data : option (list jsstring);
  _data2 : option (list jsstring);
  _writeRequest : bool;
  _writeParameters : list (list jsstring);
  __isConnected : bool;
  __endRequest : bool;
  _responseBuffer : jsstring;
  _loopTimeout : option nat;
  connectHandlers : nat;
  inFlight : list request_in_flight;
  loopTimers : list (nat * Z);
  nextTimer : nat
}.

(** The state after the constructor. *)
Definition new : t :=
  {| _info := None; _data := None; _data2 := None;
     _writeRequest := false; _writeParameters := [];
     __isConnected := false; __endRequest := false;
     _responseBuffer := []; _loopTimeout := None;
     connectHandlers := 0; inFlight := []; loopTimers := []; nextTimer := 0 |}.

(** What the client does to the socket and to the timers. *)
Inductive action :=
| socket_connect
| socket_write (data : Buffer)
| socket_end
| setTimeout_loop (handle : nat) (ms : Z)
| setTimeout_request (handle : nat) (ms : Z)
| clearTimeout (handle : nat)
| unhandledRejection (e : error).

(** *** State, output and exceptions *)

Definition M (A : Type) : Type := t -> completion A * t * list action.

Definition ret {A} (a : A) : M A := fun c => (Normal a, c, []).

Definition bind {A B} (m : M A) (f : A -> M B) : M B :=
  fun c =>
    match m c with
    | (Normal a, c1, o1) =>
        let '(r, c2, o2) := f a c1 in (r, c2, o1 ++ o2)
    | (Throw e, c1, o1) => (Throw e, c1, o1)
    end.

Notation "x <- m ;; k" := (bind m (fun x => k))
  (at level 61, m at next level, right associativity).
Notation "m ;; k" := (bind m (fun _ => k))
  (at level 61, right associativity).

Definition this : M t := fun c => (Normal c, c, []).
Definition assign (f : t -> t) : M unit := fun c => (Normal tt, f c, []).
Definition emit (a : action) : M unit := fun c => (Normal tt, c, [a]).
Definition throw {A} (e : error) : M A := fun c => (Throw e, c, []).

Definition try_catch {A} (body : M A) (handler : error -> M A) : M A :=
  fun c =>
    match body c with
    | (Normal a, c1, o1) => (Normal a, c1, o1)
    | (Throw e, c1, o1) =>
        let '(r, c2, o2) := handler e c1 in (r, c2, o1 ++ o2)
    end.

Fixpoint forEach {A} (l : list A) (f : A -> M unit) : M unit :=
  match l with
  | [] => ret tt
  | x :: l' => f x ;; forEach l' f
  end.

Fixpoint times (n : nat) (m : M unit) : M unit :=
  match n with
  | O => ret tt
  | S n' => m ;; times n' m
  end.

(** *** Field updates *)

Definition set__info v c :=
  {| _info := v; _data := _data c; _data2 := _data2 c;
     _writeRequest := _writeRequest c; _writeParameters := _writeParameters c;
     __isConnected := __isConnected c; __endRequest := __endRequest c;
     _responseBuffer := _responseBuffer c; _loopTimeout := _loopTimeout c;
     connectHandlers := connectHandlers c; inFlight := inFlight c;
     loopTimers := loopTimers c; nextTimer := nextTimer c |}.
Definition set__data v c :=
  {| _info := _info c; _data := v; _data2 := _data2 c;
     _writeRequest := _writeRequest c; _writeParameters := _writeParameters c;
     __isConnected := __isConnected c; __endRequest := __endRequest c;
     _responseBuffer := _responseBuffer c; _loopTimeout := _loopTimeout c;
     connectHandlers := connectHandlers c; inFlight := inFlight c;
     loopTimers := loopTimers c; nextTimer := nextTimer c |}.
Definition set__data2 v c :=
  {| _info := _info c; _data := _data c; _data2 := v;
     _writeRequest := _writeRequest c; _writeParameters := _writeParameters c;
     __isConnected := __isConnected c; __endRequest := __endRequest c;
     _responseBuffer := _responseBuffer c; _loopTimeout := _loopTimeout c;
     connectHandlers := connectHandlers c; inFlight := inFlight c;
     loopTimers := loopTimers c; nextTimer := nextTimer c |}.
Definition set__writeRequest v c :=
  {| _info := _info c; _data := _data c; _data2 := _data2 c;
     _writeRequest := v; _writeParameters := _writeParameters c;
     __isConnected := __isConnected c; __endRequest := __endRequest c;
     _responseBuffer := _responseBuffer c; _loopTimeout := _loopTimeout c;
     connectHandlers := connectHandlers c; inFlight := inFlight c;
     loopTimers := loopTimers c; nextTimer := nextTimer c |}.
Definition set__writeParameters v c :=
  {| _info := _info c; _data := _data c; _data2 := _data2 c;
     _writeRequest := _writeRequest c; _writeParameters := v;
     __isConnected := __isConnected c; __endRequest := __endRequest c;
     _responseBuffer := _responseBuffer c; _loopTimeout := _loopTimeout c;
     connectHandlers := connectHandlers c; inFlight := inFlight c;
     loopTimers := loopTimers c; nextTimer := nextTimer c |}.
Definition set___isConnected v c :=
  {| _info := _info c; _data := _data c; _data2 := _data2 c;
     _writeRequest := _writeRequest c; _writeParameters := _writeParameters c;
     __isConnected := v; __endRequest := __endRequest c;
     _responseBuffer := _responseBuffer c; _loopTimeout := _loopTimeout c;
     connectHandlers := connectHandlers c; inFlight := inFlight c;
     loopTimers := loopTimers c; nextTimer := nextTimer c |}.
Definition set___endRequest v c :=
  {| _info := _info c; _data := _data c; _data2 := _data2 c;
     _writeRequest := _writeRequest c; _writeParameters := _writeParameters c;
     __isConnected := __isConnected c; __endRequest := v;
     _responseBuffer := _responseBuffer c; _loopTimeout := _loopTimeout c;
     connectHandlers := connectHandlers c; inFlight := inFlight c;
     loopTimers := loopTimers c; nextTimer := nextTimer c |}.
Definition set__responseBuffer v c :=
  {| _info := _info c; _data := _data c; _data2 := _data2 c;
     _writeRequest := _writeRequest c; _writeParameters := _writeParameters c;
     __isConnected := __isConnected c; __endRequest := __endRequest c;
     _responseBuffer := v; _loopTimeout := _loopTimeout c;
     connectHandlers := connectHandlers c; inFlight := inFlight c;
     loopTimers := loopTimers c; nextTimer := nextTimer c |}.
Definition set__loopTimeout v c :=
  {| _info := _info c; _data := _data c; _data2 := _data2 c;
     _writeRequest := _writeRequest c; _writeParameters := _writeParameters c;
     __isConnected := __isConnected c; __endRequest := __endRequest c;
     _responseBuffer := _responseBuffer c; _loopTimeout := v;
     connectHandlers := connectHandlers c; inFlight := inFlight c;
     loopTimers := loopTimers c; nextTimer := nextTimer c |}.
Definition set_connectHandlers v c :=
  {| _info := _info c; _data := _data c; _data2 := _data2 c;
     _writeRequest := _writeRequest c; _writeParameters := _writeParameters c;
     __isConnected := __isConnected c; __endRequest := __endRequest c;
     _responseBuffer := _responseBuffer c; _loopTimeout := _loopTimeout c;
     connectHandlers := v; inFlight := inFlight c;
     loopTimers := loopTimers c; nextTimer := nextTimer c |}.
Definition set_inFlight v c :=
  {| _info := _info c; _data := _data c; _data2 := _data2 c;
     _writeRequest := _writeRequest c; _writeParameters := _writeParameters c;
     __isConnected := __isConnected c; __endRequest := __endRequest c;
     _responseBuffer := _responseBuffer c; _loopTimeout := _loopTimeout c;
     connectHandlers := connectHandlers c; inFlight := v;
     loopTimers := loopTimers c; nextTimer := nextTimer c |}.
Definition set_loopTimers v c :=
  {| _info := _info c; _data := _data c; _data2 := _data2 c;
     _writeRequest := _writeRequest c; _writeParameters := _writeParameters c;
     __isConnected := __isConnected c; __endRequest := __endRequest c;
     _responseBuffer := _responseBuffer c; _loopTimeout := _loopTimeout c;
     connectHandlers := connectHandlers c; inFlight := inFlight c;
     loopTimers := v; nextTimer := nextTimer c |}.
Definition set_nextTimer v c :=
  {| _info := _info c; _data := _data c; _data2 := _data2 c;
     _writeRequest := _writeRequest c; _writeParameters := _writeParameters c;
     __isConnected := __isConnected c; __endRequest := __endRequest c;
     _responseBuffer := _responseBuffer c; _loopTimeout := _loopTimeout c;
     connectHandlers := connectHandlers c; inFlight := inFlight c;
     loopTimers := loopTimers c; nextTimer := v |}.

(** *** Timers *)

(** A fresh timer handle. *)
Definition newTimer : M nat :=
  c <- this ;;
  assign (set_nextTimer (S (nextTimer c))) ;;
  ret (nextTimer c).

Definition without_timer (handle : nat) (l : list (nat * Z)) : list (nat * Z) :=
  filter (fun t => negb (Nat.eqb (fst t) handle)) l.

Definition without_request (handle : nat) (l : list request_in_flight)
  : list request_in_flight :=
  filter (fun r => negb (Nat.eqb (timeout r) handle)) l.

(** [this._loopTimeout = setTimeout(() => this.loop(), ms)] *)
Definition schedule_loop (ms : Z) : M unit :=
  handle <- newTimer ;;
  c <- this ;;
  assign (set_loopTimers (loopTimers c ++ [(handle, ms)])) ;;
  emit (setTimeout_loop handle ms) ;;
  assign (set__loopTimeout (Some handle)).

(** [if (this._loopTimeout) { clearTimeout(this._loopTimeout);
    this._loopTimeout = null; }] *)
Definition clear_loopTimeout : M unit :=
  c <- this ;;
  match _loopTimeout c with
  | Some handle =>
      assign (set_loopTimers (without_timer handle (loopTimers c))) ;;
      emit (clearTimeout handle) ;;
      assign (set__loopTimeout None)
  | None => ret tt
  end.

(** *** The methods *)

Definition isConnected (c : t) : bool := __isConnected c.

Definition _extractData (data : jsstring) : list jsstring :=
  split semicolon data.

(** The body of the promise: the listeners are attached, the request is
    written, the 60 s timer is armed.  The promise settles in [onData],
    [onError] or [onTimeout] below. *)
Definition _sendRequestAndWaitForResponse (request : Buffer)
  (awaited : await_point) : M unit :=
  handle <- newTimer ;;
  c <- this ;;
  assign (set_inFlight
            (inFlight c ++ [{| timeout := handle; awaited_at := awaited |}])) ;;
  emit (socket_write request) ;;
  emit (setTimeout_request handle 60000).

Definition _get_data (command : jsstring) (parameters : list jsstring)
  (awaited : await_point) : M unit :=
  let request := Request.new command CommandMode.READ parameters 0 in
  _sendRequestAndWaitForResponse (Request.getRequest request) awaited.

Definition _set_data (parameters : list jsstring) (awaited : await_point)
  : M unit :=
  let request := Request.new (lit "DAT") CommandMode.WRITE parameters 0 in
  _sendRequestAndWaitForResponse (Request.getRequest request) awaited.

Definition sendCommand (parameters : list jsstring) : M bool :=
  assign (set__writeRequest true) ;;
  c <- this ;;
  assign (set__writeParameters (_writeParameters c ++ [parameters])) ;;
  ret true.

Definition __disconnect : M unit :=
  assign (set___isConnected false) ;;
  try_catch (emit socket_end) (fun _ => ret tt).

(** How a promise settles. *)
Inductive settled :=
| Fulfilled (response : list jsstring)
| Rejected (e : error).

Definition await (s : settled) : M (list jsstring) :=
  match s with
  | Fulfilled response => ret response
  | Rejected e => throw e
  end.

(** [__dial] from the head of its [while] loop to its next [await] or to the
    end of the [try] block. *)
Definition __dial_while : M unit :=
  c <- this ;;
  if (0 <? List.length (_writeParameters c))%nat && negb (__endRequest c) then
    match nth_error (_writeParameters c) 0 with
    | Some param => _set_data param AwaitSetData
    | None => throw TypeError     (* [undefined.join] *)
    end
  else
    assign (set__writeRequest false) ;;
    c <- this ;;
    if negb (__endRequest c) then schedule_loop 1000 else ret tt.

Definition __dial_catch (e : error) : M unit :=
  assign (set___isConnected false) ;;
  c <- this ;;
  if negb (__endRequest c) then schedule_loop 5000 else ret tt.

(** [__dial] from its start to its first [await]. *)
Definition __dial : M unit :=
  c <- this ;;
  if negb (__isConnected c) || __endRequest c then ret tt
  else try_catch (_get_data (lit "INF") [lit ""] AwaitInfo) __dial_catch.

(** [__dial] from the [await] that has just settled to the next one, inside
    the [try] block. *)
Definition __dial_resume (awaited : await_point) (s : settled) : M unit :=
  try_catch
    (response <- await s ;;
     match awaited with
     | AwaitInfo =>
         assign (set__info (Some response)) ;;
         _get_data (lit "DAT") [lit "0"] AwaitData
     | AwaitData =>
         assign (set__data (Some response)) ;;
         _get_data (lit "DAT") [lit "2"] AwaitData2
     | AwaitData2 =>
         assign (set__data2 (Some response)) ;;
         __dial_while
     | AwaitSetData =>
         c <- this ;;
         assign (set__writeParameters (tl (_writeParameters c))) ;;
         __dial_while
     end)
    __dial_catch.

(** A call whose promise nobody awaits: an error that escapes it is an
    unhandled rejection. *)
Definition unawaited (m : M unit) : M unit :=
  try_catch m (fun e => emit (unhandledRejection e)).

(** What [this._socket.connect(port, address)] does before it returns. *)
Inductive connect_call :=
| connecting
| connect_throws (code : string).

Definition __connect (outcome : connect_call) : M unit :=
  try_catch
    (c <- this ;;
     assign (set_connectHandlers (S (connectHandlers c))) ;;
     emit socket_connect ;;
     match outcome with
     | connecting => ret tt
     | connect_throws code => throw (SystemError code)
     end)
    (fun error =>
       assign (set___isConnected false) ;;
       match error with
       | SystemError code =>
           if String.eqb code "EISCONN" then
             assign (set___isConnected true) ;;
             schedule_loop 1000
           else schedule_loop 5000
       | _ => schedule_loop 5000
       end).

Definition loop (outcome : connect_call) : M unit :=
  clear_loopTimeout ;;
  c <- this ;;
  if __endRequest c then ret tt
  else if __isConnected c then unawaited __dial
  else __connect outcome.

Definition start (outcome : connect_call) : M unit :=
  assign (set___endRequest false) ;;
  loop outcome.

Definition stop : M unit :=
  assign (set___endRequest true) ;;
  clear_loopTimeout ;;
  __disconnect.

(** *** The listeners *)

(** [onData]: the promise is fulfilled when the buffer holds a newline. *)
Definition onData (r : request_in_flight) (data : Buffer)
  : M (option (list jsstring)) :=
  c <- this ;;
  assign (set__responseBuffer (_responseBuffer c ++ Buffer_toString_utf8 data)) ;;
  c <- this ;;
  if includes newline (_responseBuffer c) then
    let response := hd [] (split newline (_responseBuffer c)) in
    assign (set__responseBuffer []) ;;
    (* cleanup() *)
    emit (clearTimeout (timeout r)) ;;
    c <- this ;;
    assign (set_inFlight (without_request (timeout r) (inFlight c))) ;;
    (* resolve(...) *)
    ret (Some (_extractData response))
  else ret None.

(** [onError] and the timer callback: [cleanup()], then the promise is
    rejected. *)
Definition cleanup_and_reject (r : request_in_flight) : M unit :=
  emit (clearTimeout (timeout r)) ;;
  c <- this ;;
  assign (set_inFlight (without_request (timeout r) (inFlight c))).

(** The handlers of [_setupSocketEventHandlers]. *)
Definition closeHandler : M unit := assign (set___isConnected false).
Definition endHandler : M unit := assign (set___isConnected false).
Definition errorHandler : M unit := assign (set___isConnected false).

(** The handler [__connect] attaches with [once('connect', ...)]. *)
Definition connectHandler : M unit :=
  assign (set___isConnected true) ;;
  loop connecting.

(** *** Events

    The calls of the public interface, the events of the socket and the
    timers that fire.  A call that reaches [this._socket.connect] carries
    what that call does. *)
Inductive event :=
| call_start (outcome : connect_call)
| call_stop
| call_sendCommand (parameters : list jsstring)
| socket_on_connect
| socket_on_data (data : Buffer)
| socket_on_error (e : error)
| socket_on_close
| socket_on_end
| loop_timer_fires (handle : nat) (outcome : connect_call)
| request_timer_fires (handle : nat).

(** The listeners of ['data'] run in the order they were attached, each on
    the same chunk; the promises they fulfil resume [__dial] afterwards, in
    the same order. *)
Fixpoint emit_data (listeners : list request_in_flight) (data : Buffer)
  : M (list (await_point * list jsstring)) :=
  match listeners with
  | [] => ret []
  | r :: rest =>
      fulfilled <- onData r data ;;
      later <- emit_data rest data ;;
      ret match fulfilled with
          | Some response => (awaited_at r, response) :: later
          | None => later
          end
  end.

Definition handle (e : event) : M unit :=
  match e with
  | call_start outcome => start outcome
  | call_stop => stop
  | call_sendCommand parameters => sendCommand parameters ;; ret tt
  | socket_on_connect =>
      c <- this ;;
      assign (set_connectHandlers 0) ;;
      times (connectHandlers c) connectHandler
  | socket_on_data data =>
      c <- this ;;
      fulfilled <- emit_data (inFlight c) data ;;
      forEach fulfilled
        (fun p => unawaited (__dial_resume (fst p) (Fulfilled (snd p))))
  | socket_on_error e =>
      c <- this ;;
      errorHandler ;;
      forEach (inFlight c) cleanup_and_reject ;;
      forEach (inFlight c)
        (fun r => unawaited (__dial_resume (awaited_at r) (Rejected e)))
  | socket_on_close => closeHandler
  | socket_on_end => endHandler
  | loop_timer_fires handle outcome =>
      c <- this ;;
      if existsb (fun t => Nat.eqb (fst t) handle) (loopTimers c) then
        assign (set_loopTimers (without_timer handle (loopTimers c))) ;;
        loop outcome
      else ret tt
  | request_timer_fires handle =>
      c <- this ;;
      forEach (filter (fun r => Nat.eqb (timeout r) handle) (inFlight c))
        (fun r =>
           cleanup_and_reject r ;;
           unawaited (__dial_resume (awaited_at r)
                        (Rejected (Error "Socket timeout"))))
  end.

(** One event, and a sequence of events, from a state. *)
Definition step (c : t) (e : event) : t * list action :=
  let '(_, c', out) := handle e c in (c', out).

Fixpoint run (c : t) (events : list event) : t * list action :=
  match events with
  | [] => (c, [])
  | e :: rest =>
      let '(c1, o1) := step c e in
      let '(c2, o2) := run c1 rest in
      (c2, o1 ++ o2)
  end.

(** The frames written, and the delays of the [loop] timers set. *)
Definition writes (out : list action) : list Buffer :=
  flat_map (fun a => match a with socket_write b => [b] | _ => [] end) out.

Definition connects (out : list action) : nat :=
  List.length (filter (fun a => match a with socket_connect => true | _ => false end) out).

Definition loop_delays (out : list action) : list Z :=
  flat_map (fun a => match a with setTimeout_loop _ ms => [ms] | _ => [] end) out.

Definition rejections (out : list action) : list error :=
  flat_map (fun a => match a with unhandledRejection e => [e] | _ => [] end) out.

End HottohRemoteClient.
(** ** JavaScript values of the accessors *)

(** The numbers [parseInt] returns: an integer or [NaN].  The integer is kept
    exactly; a double holds it exactly up to 2^53, far above any field of the
    protocol. *)
Inductive number := NaN | Int (z : Z).

(** [a === b] on numbers. *)
Definition number_strict_eq (a b : number) : bool :=
  match a, b with
  | Int x, Int y => x =? y
  | _, _ => false
  end.

(** White space as [parseInt] skips it. *)
Definition is_white_space (c : Z) : bool :=
  existsb (Z.eqb c)
    [0x9; 0xA; 0xB; 0xC; 0xD; 0x20; 0xA0; 0x1680; 0x2000; 0x2001; 0x2002;
     0x2003; 0x2004; 0x2005; 0x2006; 0x2007; 0x2008; 0x2009; 0x200A; 0x2028;
     0x2029; 0x202F; 0x205F; 0x3000; 0xFEFF].

Fixpoint trim_start (s : jsstring) : jsstring :=
  match s with
  | c :: s' => if is_white_space c then trim_start s' else s
  | [] => []
  end.

Definition digit_value (c : Z) : option Z :=
  if (48 <=? c) && (c <=? 57) then Some (c - 48)
  else if (97 <=? c) && (c <=? 122) then Some (c - 87)
  else if (65 <=? c) && (c <=? 90) then Some (c - 55)
  else None.

(** The longest prefix of digits of the radix; [None] when it is empty. *)
Fixpoint parse_digits (radix : Z) (s : jsstring) (acc : option Z) : option Z :=
  match s with
  | [] => acc
  | c :: s' =>
      match digit_value c with
      | Some d =>
          if d <? radix then
            parse_digits radix s'
              (Some (radix * match acc with Some a => a | None => 0 end + d))
          else acc
      | None => acc
      end
  end.

(** [parseInt(s)] with no radix given. *)
Definition parseInt_string (s : jsstring) : number :=
  let s1 := trim_start s in
  let '(sign, s2) :=
    match s1 with
    | 45 :: r => (-1, r)
    | 43 :: r => (1, r)
    | _ => (1, s1)
    end in
  let '(radix, s3) :=
    match s2 with
    | 48 :: x :: r => if (x =? 120) || (x =? 88) then (16, r) else (10, s2)
    | _ => (10, s2)
    end in
  match parse_digits radix s3 None with
  | Some v => Int (sign * v)
  | None => NaN
  end.

(** [(type >> i) & 1] starts from [ToInt32]. *)
Definition ToInt32 (n : number) : Z :=
  match n with
  | NaN => 0
  | Int z => (z + 2 ^ 31) mod 2 ^ 32 - 2 ^ 31
  end.

(** ** [const.ts]

    The enumerations [hottoht.ts] imports.  Their members are the ones the
    accessors name; the numbers they stand for are parameters of the
    development (see [Section Accessors]). *)

Module Const.

Inductive StoveRegisters :=
  | INDEX_FW | INDEX_WIFI | INDEX_PAGE | INDEX_BITMAP_VISIBLE | INDEX_VALID
  | INDEX_STOVE_ON | INDEX_ECO_MODE | INDEX_TIMER_ON | INDEX_AMBIENT_T1
  | INDEX_AMBIENT_T1_SET | INDEX_AMBIENT_T1_SET_MAX
  | INDEX_AMBIENT_T1_SET_MIN | INDEX_AMBIENT_T2 | INDEX_AMBIENT_T2_SET
  | INDEX_AMBIENT_T2_SET_MAX | INDEX_AMBIENT_T2_SET_MIN | INDEX_ROOM_TEMP_3
  | INDEX_ROOM_TEMP_3_SET | INDEX_ROOM_TEMP_3_SET_MAX
  | INDEX_ROOM_TEMP_3_SET_MIN | INDEX_WATER | INDEX_WATER_SET
  | INDEX_WATER_SET_MAX | INDEX_WATER_SET_MIN | INDEX_SMOKE_T
  | INDEX_POWER_LEVEL | INDEX_POWER_SET | INDEX_POWER_MAX | INDEX_POWER_MIN
  | INDEX_FAN_SMOKE | INDEX_FAN_1 | INDEX_FAN_1_SET | INDEX_FAN_1_SET_MAX
  | INDEX_FAN_2 | INDEX_FAN_2_SET | INDEX_FAN_2_SET_MAX | INDEX_FAN_3
  | INDEX_FAN_3_SET | INDEX_FAN_3_SET_MAX | INDEX_FLOW_SWITCH
  | INDEX_GENERIC_PUMP | INDEX_AIREX_1 | INDEX_AIREX_2 | INDEX_AIREX_3
  | INDEX_PUFFER | INDEX_PUFFER_SET | INDEX_PUFFER_SET_MIN
  | INDEX_PUFFER_SET_MAX | INDEX_BOILER | INDEX_BOILER_SET
  | INDEX_BOILER_SET_MIN | INDEX_BOILER_SET_MAX | INDEX_DHW | INDEX_DHW_SET
  | INDEX_DHW_SET_MIN | INDEX_DHW_SET_MAX | INDEX_MANUFACTURER
  | INDEX_STOVE_TYPE | INDEX_STOVE_STATE.

Inductive StoveState :=
  | STATUS_OFF | STATUS_STARTING_1 | STATUS_STARTING_2 | STATUS_STARTING_3
  | STATUS_STARTING_4 | STATUS_STARTING_5 | STATUS_STARTING_6
  | STATUS_STARTING_7 | STATUS_POWER | STATUS_STOPPING_1
  | STATUS_STOPPING_2 | STATUS_ECO_STOP_1 | STATUS_ECO_STOP_2
  | STATUS_ECO_STOP_3 | STATUS_LOW_PELLET | STATUS_END_PELLET
  | STATUS_BLACK_OUT | STATUS_INGNITION_FAILED | STATUS_ANTI_FREEZE
  | STATUS_COVER_OPEN | STATUS_NO_PELLET.

Inductive StoveManufacturer :=
| STOVE_MANUFACTURER_CMG
| STOVE_MANUFACTURER_EDILKAMIN.

End Const.

(** ** [hottoht.ts] *)

Module Hottoh.
Import Const.

Record t := { client : HottohRemoteClient.t }.

Section Accessors.

(** The values of the enumerations of [const.ts]. *)
Variable StoveRegisters_value : StoveRegisters -> nat.
Variable StoveState_value : StoveState -> Z.
Variable StoveManufacturer_value : StoveManufacturer -> Z.

(** Doubles that need not be integers, with the two operations the accessors
    apply to them: [parseFloat(v)] and [(n / 10).toString()]. *)
Variable double : Type.
Variable parseFloat : jsstring -> double.
Variable double_toString : double -> jsstring.
Variable tenth_toString : number -> jsstring.

Inductive value :=
| Null
| Undefined
| Str (s : jsstring)
| Num (n : number)
| Float (f : double)
| Bool (b : bool)
| Booleans (a : list bool).

Definition Number_toString (n : number) : jsstring :=
  match n with
  | NaN => lit "NaN"
  | Int z =>
      if z <? 0 then
        lit "-" ++ to_digits (S (Z.to_nat (Z.log2 (- z)))) 10 (- z) []
      else to_digits (S (Z.to_nat (Z.log2 z))) 10 z []
  end.

Definition ToString (v : value) : jsstring :=
  match v with
  | Null => lit "null"
  | Undefined => lit "undefined"
  | Str s => s
  | Num n => Number_toString n
  | Float f => double_toString f
  | Bool true => lit "true"
  | Bool false => lit "false"
  | Booleans a =>
      join 44 (map (fun b : bool => if b then lit "true" else lit "false") a)
  end.

Definition parseInt (v : value) : number := parseInt_string (ToString v).

(** [a === b] where [b] is a string. *)
Definition strict_eq_string (a : value) (b : jsstring) : bool :=
  match a with
  | Str s => jsstring_eqb s b
  | _ => false
  end.

Definition is_null (v : value) : bool :=
  match v with
  | Null => true
  | _ => false
  end.

(** [!slot] for a snapshot slot: [null] is falsy, an array is truthy. *)
Definition not_slot (slot : option (list jsstring)) : bool :=
  match slot with
  | None => true
  | Some _ => false
  end.

(** [slot[index]]: a [TypeError] on [null], [undefined] past the end. *)
Definition at_index (slot : option (list jsstring)) (index : StoveRegisters)
  : completion value :=
  match slot with
  | None => Throw TypeError
  | Some fields =>
      match nth_error fields (StoveRegisters_value index) with
      | Some field => Normal (Str field)
      | None => Normal Undefined
      end
  end.

Definition bind {A B} (m : completion A) (f : A -> completion B)
  : completion B :=
  match m with
  | Normal a => f a
  | Throw e => Throw e
  end.

Notation "x <- m ;; k" := (bind m (fun x => k))
  (at level 61, m at next level, right associativity).

Definition _info (h : t) := HottohRemoteClient._info (client h).
Definition _data (h : t) := HottohRemoteClient._data (client h).
Definition _data2 (h : t) := HottohRemoteClient._data2 (client h).

Definition isConnected (h : t) : completion value :=
  Normal (Bool (HottohRemoteClient.isConnected (client h))).

(** *** Internal data accessors *)

Definition _getFirmwareVersion (h : t) : completion value :=
  if not_slot (_info h) then Normal Null
  else at_index (_info h) INDEX_FW.

Definition _getWifiSignal (h : t) : completion value :=
  if not_slot (_info h) then Normal Null
  else at_index (_info h) INDEX_WIFI.

Definition _getPageIndex (h : t) : completion value :=
  if not_slot (_data h) then Normal Null
  else at_index (_data h) INDEX_PAGE.

Definition _getManufacturer (h : t) : completion value :=
  if not_slot (_data h) then Normal Null
  else
    v <- at_index (_data h) INDEX_MANUFACTURER ;;
    if number_strict_eq (parseInt v)
         (Int (StoveManufacturer_value STOVE_MANUFACTURER_CMG))
    then Normal (Str (lit "CMG"))
    else
      v <- at_index (_data h) INDEX_MANUFACTURER ;;
      if number_strict_eq (parseInt v)
           (Int (StoveManufacturer_value STOVE_MANUFACTURER_EDILKAMIN))
      then Normal (Str (lit "EdilKamin"))
      else at_index (_data h) INDEX_MANUFACTURER.

Definition _getIsBitmapVisible (h : t) : completion value :=
  if not_slot (_data h) then Normal Null
  else at_index (_data h) INDEX_BITMAP_VISIBLE.

Definition _getIsValid (h : t) : completion value :=
  if not_slot (_data h) then Normal Null
  else at_index (_data h) INDEX_VALID.

Definition _getStoveType (h : t) : completion value :=
  if not_slot (_data h) then Normal Null
  else
    v <- at_index (_data h) INDEX_STOVE_TYPE ;;
    Normal (Num (parseInt v)).

(** [switch (state) { case StoveState.X: return ...; default: ... }]: the
    first case whose label is strictly equal to the scrutinee. *)
Definition switch {A} (scrutinee : number) (cases : list (StoveState * A))
  (default : A) : A :=
  match find (fun c => number_strict_eq scrutinee
                         (Int (StoveState_value (fst c)))) cases with
  | Some c => snd c
  | None => default
  end.

Definition _getStoveState_cases : list (StoveState * completion value) :=
  map (fun c => (fst c, Normal (Str (lit (snd c)))))
  [ (STATUS_OFF, "switched_off");
    (STATUS_STARTING_1, "starting_1_check");
    (STATUS_STARTING_2, "starting_2_clean_all");
    (STATUS_STARTING_3, "starting_3_loading");
    (STATUS_STARTING_4, "starting_4_waiting");
    (STATUS_STARTING_5, "starting_5_waiting");
    (STATUS_STARTING_6, "starting_6_ignition");
    (STATUS_STARTING_7, "starting_7_stabilization");
    (STATUS_POWER, "power");
    (STATUS_STOPPING_1, "stopping_1_wait_standby");
    (STATUS_STOPPING_2, "stopping_2_wait_standby");
    (STATUS_ECO_STOP_1, "eco_stop_1_standby");
    (STATUS_ECO_STOP_2, "eco_stop_2");
    (STATUS_ECO_STOP_3, "eco_stop_3");
    (STATUS_LOW_PELLET, "low_pellet");
    (STATUS_END_PELLET, "end_pellet");
    (STATUS_BLACK_OUT, "black_out");
    (STATUS_INGNITION_FAILED, "error_ignition_failed");
    (STATUS_ANTI_FREEZE, "anti_freeze");
    (STATUS_COVER_OPEN, "error_cover_open");
    (STATUS_NO_PELLET, "error_no_pellet") ]%string.

Definition _getStoveState (h : t) : completion value :=
  if not_slot (_data h) then Normal (Str (lit "not_connected"))
  else
    v <- at_index (_data h) INDEX_STOVE_STATE ;;
    let state := parseInt v in
    switch state _getStoveState_cases
      (at_index (_data h) INDEX_STOVE_STATE).

Definition _getStoveIsOn (h : t) : completion value :=
  if not_slot (_data h) then Normal Null
  else
    v <- at_index (_data h) INDEX_STOVE_ON ;;
    Normal (Str (if strict_eq_string v (lit "1") then lit "on" else lit "off")).

Definition _getEcoMode (h : t) : completion value :=
  if not_slot (_data h) then Normal Null
  else
    v <- at_index (_data h) INDEX_ECO_MODE ;;
    Normal (Str (if strict_eq_string v (lit "1") then lit "on" else lit "off")).

Definition _getChronoMode (h : t) : completion value :=
  if not_slot (_data h) then Normal Null
  else
    v <- at_index (_data h) INDEX_TIMER_ON ;;
    Normal (Str (if strict_eq_string v (lit "1") then lit "on" else lit "off")).

Definition _getTemperatureRoom1 (h : t) : completion value :=
  if not_slot (_data h) then Normal Null
  else
    v <- at_index (_data h) INDEX_AMBIENT_T1 ;;
    Normal (Str (tenth_toString (parseInt v))).

Definition _getSetTemperatureRoom1 (h : t) : completion value :=
  if not_slot (_data h) then Normal Null
  else
    v <- at_index (_data h) INDEX_AMBIENT_T1_SET ;;
    Normal (Str (tenth_toString (parseInt v))).

Definition _getSetMaxTemperatureRoom1 (h : t) : completion value :=
  if not_slot (_data h) then Normal Null
  else
    v <- at_index (_data h) INDEX_AMBIENT_T1_SET_MAX ;;
    Normal (Str (tenth_toString (parseInt v))).

Definition _getSetMinTemperatureRoom1 (h : t) : completion value :=
  if not_slot (_data h) then Normal Null
  else
    v <- at_index (_data h) INDEX_AMBIENT_T1_SET_MIN ;;
    Normal (Str (tenth_toString (parseInt v))).

Definition _getTemperatureRoom2 (h : t) : completion value :=
  if not_slot (_data h) then Normal Null
  else
    v <- at_index (_data h) INDEX_AMBIENT_T2 ;;
    Normal (Str (tenth_toString (parseInt v))).

Definition _getSetTemperatureRoom2 (h : t) : completion value :=
  if not_slot (_data h) then Normal Null
  else
    v <- at_index (_data h) INDEX_AMBIENT_T2_SET ;;
    Normal (Str (tenth_toString (parseInt v))).

Definition _getSetMaxTemperatureRoom2 (h : t) : completion value :=
  if not_slot (_data h) then Normal Null
  else
    v <- at_index (_data h) INDEX_AMBIENT_T2_SET_MAX ;;
    Normal (Str (tenth_toString (parseInt v))).

Definition _getSetMinTemperatureRoom2 (h : t) : completion value :=
  if not_slot (_data h) then Normal Null
  else
    v <- at_index (_data h) INDEX_AMBIENT_T2_SET_MIN ;;
    Normal (Str (tenth_toString (parseInt v))).

Definition _getTemperatureRoom3 (h : t) : completion value :=
  if not_slot (_data2 h) then Normal Null
  else
    v <- at_index (_data2 h) INDEX_ROOM_TEMP_3 ;;
    Normal (Str (tenth_toString (parseInt v))).

Definition _getSetTemperatureRoom3 (h : t) : completion value :=
  if not_slot (_data2 h) then Normal Null
  else
    v <- at_index (_data2 h) INDEX_ROOM_TEMP_3_SET ;;
    Normal (Str (tenth_toString (parseInt v))).

Definition _getSetMaxTemperatureRoom3 (h : t) : completion value :=
  if not_slot (_data2 h) then Normal Null
  else
    v <- at_index (_data2 h) INDEX_ROOM_TEMP_3_SET_MAX ;;
    Normal (Str (tenth_toString (parseInt v))).

Definition _getSetMinTemperatureRoom3 (h : t) : completion value :=
  if not_slot (_data2 h) then Normal Null
  else
    v <- at_index (_data2 h) INDEX_ROOM_TEMP_3_SET_MIN ;;
    Normal (Str (tenth_toString (parseInt v))).

Definition _getTemperatureWater (h : t) : completion value :=
  if not_slot (_data h) then Normal Null
  else
    v <- at_index (_data h) INDEX_WATER ;;
    Normal (Str (tenth_toString (parseInt v))).

Definition _getSetTemperatureWater (h : t) : completion value :=
  if not_slot (_data h) then Normal Null
  else
    v <- at_index (_data h) INDEX_WATER_SET ;;
    Normal (Str (tenth_toString (parseInt v))).

Definition _getSetMaxTemperatureWater (h : t) : completion value :=
  if not_slot (_data h) then Normal Null
  else
    v <- at_index (_data h) INDEX_WATER_SET_MAX ;;
    Normal (Str (tenth_toString (parseInt v))).

Definition _getSetMinTemperatureWater (h : t) : completion value :=
  if not_slot (_data h) then Normal Null
  else
    v <- at_index (_data h) INDEX_WATER_SET_MIN ;;
    Normal (Str (tenth_toString (parseInt v))).

Definition _getSmokeTemperature (h : t) : completion value :=
  if not_slot (_data h) then Normal Null
  else
    v <- at_index (_data h) INDEX_SMOKE_T ;;
    Normal (Str (tenth_toString (parseInt v))).

Definition _getPowerLevel (h : t) : completion value :=
  if not_slot (_data h) then Normal Null
  else at_index (_data h) INDEX_POWER_LEVEL.

Definition _getSetPowerLevel (h : t) : completion value :=
  if not_slot (_data h) then Normal Null
  else at_index (_data h) INDEX_POWER_SET.

Definition _getSetMaxPowerLevel (h : t) : completion value :=
  if not_slot (_data h) then Normal Null
  else at_index (_data h) INDEX_POWER_MAX.

Definition _getSetMinPowerLevel (h : t) : completion value :=
  if not_slot (_data h) then Normal Null
  else at_index (_data h) INDEX_POWER_MIN.

Definition _getSpeedFanSmoke (h : t) : completion value :=
  if not_slot (_data h) then Normal Null
  else at_index (_data h) INDEX_FAN_SMOKE.

Definition _getSpeedFan1 (h : t) : completion value :=
  if not_slot (_data h) then Normal Null
  else at_index (_data h) INDEX_FAN_1.

Definition _getSetSpeedFan1 (h : t) : completion value :=
  if not_slot (_data h) then Normal Null
  else at_index (_data h) INDEX_FAN_1_SET.

Definition _getSetMaxSpeedFan1 (h : t) : completion value :=
  if not_slot (_data h) then Normal Null
  else at_index (_data h) INDEX_FAN_1_SET_MAX.

Definition _getSpeedFan2 (h : t) : completion value :=
  if not_slot (_data h) then Normal Null
  else at_index (_data h) INDEX_FAN_2.

Definition _getSetSpeedFan2 (h : t) : completion value :=
  if not_slot (_data h) then Normal Null
  else at_index (_data h) INDEX_FAN_2_SET.

Definition _getSetMaxSpeedFan2 (h : t) : completion value :=
  if not_slot (_data h) then Normal Null
  else at_index (_data h) INDEX_FAN_2_SET_MAX.

Definition _getSpeedFan3 (h : t) : completion value :=
  if not_slot (_data h) then Normal Null
  else at_index (_data h) INDEX_FAN_3.

Definition _getSetSpeedFan3 (h : t) : completion value :=
  if not_slot (_data h) then Normal Null
  else at_index (_data h) INDEX_FAN_3_SET.

Definition _getSetMaxSpeedFan3 (h : t) : completion value :=
  if not_slot (_data h) then Normal Null
  else at_index (_data h) INDEX_FAN_3_SET_MAX.

Definition _getFlowSwitch (h : t) : completion value :=
  if not_slot (_data2 h) then Normal Null
  else at_index (_data2 h) INDEX_FLOW_SWITCH.

Definition _getGenericPump (h : t) : completion value :=
  if not_slot (_data2 h) then Normal Null
  else at_index (_data2 h) INDEX_GENERIC_PUMP.

Definition _getAirEx1 (h : t) : completion value :=
  if not_slot (_data2 h) then Normal Null
  else at_index (_data2 h) INDEX_AIREX_1.

Definition _getAirEx2 (h : t) : completion value :=
  if not_slot (_data2 h) then Normal Null
  else at_index (_data2 h) INDEX_AIREX_2.

Definition _getAirEx3 (h : t) : completion value :=
  if not_slot (_data2 h) then Normal Null
  else at_index (_data2 h) INDEX_AIREX_3.

Definition _getPuffer (h : t) : completion value :=
  if not_slot (_data2 h) then Normal Null
  else at_index (_data2 h) INDEX_PUFFER.

Definition _getSetPuffer (h : t) : completion value :=
  if not_slot (_data2 h) then Normal Null
  else at_index (_data2 h) INDEX_PUFFER_SET.

Definition _getSetMinPuffer (h : t) : completion value :=
  if not_slot (_data2 h) then Normal Null
  else at_index (_data2 h) INDEX_PUFFER_SET_MIN.

Definition _getSetMaxPuffer (h : t) : completion value :=
  if not_slot (_data2 h) then Normal Null
  else at_index (_data2 h) INDEX_PUFFER_SET_MAX.

Definition _getBoiler (h : t) : completion value :=
  if not_slot (_data2 h) then Normal Null
  else at_index (_data2 h) INDEX_BOILER.

Definition _getSetBoiler (h : t) : completion value :=
  if not_slot (_data2 h) then Normal Null
  else at_index (_data2 h) INDEX_BOILER_SET.

Definition _getSetMinBoiler (h : t) : completion value :=
  if not_slot (_data2 h) then Normal Null
  else at_index (_data2 h) INDEX_BOILER_SET_MIN.

Definition _getSetMaxBoiler (h : t) : completion value :=
  if not_slot (_data2 h) then Normal Null
  else at_index (_data2 h) INDEX_BOILER_SET_MAX.

Definition _getDhw (h : t) : completion value :=
  if not_slot (_data2 h) then Normal Null
  else at_index (_data2 h) INDEX_DHW.

Definition _getSetDhw (h : t) : completion value :=
  if not_slot (_data2 h) then Normal Null
  else at_index (_data2 h) INDEX_DHW_SET.

Definition _getSetMinDhw (h : t) : completion value :=
  if not_slot (_data2 h) then Normal Null
  else at_index (_data2 h) INDEX_DHW_SET_MIN.

Definition _getSetMaxDhw (h : t) : completion value :=
  if not_slot (_data2 h) then Normal Null
  else at_index (_data2 h) INDEX_DHW_SET_MAX.

(** *** High-level getters *)

Definition getSmokeTemperature (h : t) : completion value :=
  v <- _getSmokeTemperature h ;;
  if is_null v then Normal Null
  else Normal (Float (parseFloat (ToString v))).

Definition getWaterTemperature (h : t) : completion value :=
  v <- _getTemperatureWater h ;;
  if is_null v then Normal Null
  else Normal (Float (parseFloat (ToString v))).

Definition getSetWaterTemperature (h : t) : completion value :=
  v <- _getSetTemperatureWater h ;;
  if is_null v then Normal Null
  else Normal (Float (parseFloat (ToString v))).

Definition getSetMinWaterTemperature (h : t) : completion value :=
  v <- _getSetMinTemperatureWater h ;;
  if is_null v then Normal Null
  else Normal (Float (parseFloat (ToString v))).

Definition getSetMaxWaterTemperature (h : t) : completion value :=
  v <- _getSetMaxTemperatureWater h ;;
  if is_null v then Normal Null
  else Normal (Float (parseFloat (ToString v))).

Definition getSpeedFanSmoke (h : t) : completion value :=
  v <- _getSpeedFanSmoke h ;;
  if is_null v then Normal Null
  else Normal (Float (parseFloat (ToString v))).

Definition getTemperatureRoom1 (h : t) : completion value :=
  v <- _getTemperatureRoom1 h ;;
  if is_null v then Normal Null
  else Normal (Float (parseFloat (ToString v))).

Definition getSetTemperatureRoom1 (h : t) : completion value :=
  v <- _getSetTemperatureRoom1 h ;;
  if is_null v then Normal Null
  else Normal (Float (parseFloat (ToString v))).

Definition getSetMinTemperatureRoom1 (h : t) : completion value :=
  v <- _getSetMinTemperatureRoom1 h ;;
  if is_null v then Normal Null
  else Normal (Float (parseFloat (ToString v))).

Definition getSetMaxTemperatureRoom1 (h : t) : completion value :=
  v <- _getSetMaxTemperatureRoom1 h ;;
  if is_null v then Normal Null
  else Normal (Float (parseFloat (ToString v))).

Definition getTemperatureRoom2 (h : t) : completion value :=
  v <- _getTemperatureRoom2 h ;;
  if is_null v then Normal Null
  else Normal (Float (parseFloat (ToString v))).

Definition getSetTemperatureRoom2 (h : t) : completion value :=
  v <- _getSetTemperatureRoom2 h ;;
  if is_null v then Normal Null
  else Normal (Float (parseFloat (ToString v))).

Definition getSetMinTemperatureRoom2 (h : t) : completion value :=
  v <- _getSetMinTemperatureRoom2 h ;;
  if is_null v then Normal Null
  else Normal (Float (parseFloat (ToString v))).

Definition getSetMaxTemperatureRoom2 (h : t) : completion value :=
  v <- _getSetMaxTemperatureRoom2 h ;;
  if is_null v then Normal Null
  else Normal (Float (parseFloat (ToString v))).

Definition getTemperatureRoom3 (h : t) : completion value :=
  v <- _getTemperatureRoom3 h ;;
  if is_null v then Normal Null
  else Normal (Float (parseFloat (ToString v))).

Definition getSetTemperatureRoom3 (h : t) : completion value :=
  v <- _getSetTemperatureRoom3 h ;;
  if is_null v then Normal Null
  else Normal (Float (parseFloat (ToString v))).

Definition getSetMinTemperatureRoom3 (h : t) : completion value :=
  v <- _getSetMinTemperatureRoom3 h ;;
  if is_null v then Normal Null
  else Normal (Float (parseFloat (ToString v))).

Definition getSetMaxTemperatureRoom3 (h : t) : completion value :=
  v <- _getSetMaxTemperatureRoom3 h ;;
  if is_null v then Normal Null
  else Normal (Float (parseFloat (ToString v))).

Definition getSpeedFan1 (h : t) : completion value :=
  v <- _getSpeedFan1 h ;;
  if is_null v then Normal Null
  else Normal (Num (parseInt v)).

Definition getSetSpeedFan1 (h : t) : completion value :=
  v <- _getSetSpeedFan1 h ;;
  if is_null v then Normal Null
  else Normal (Num (parseInt v)).

Definition getSetMaxSpeedFan1 (h : t) : completion value :=
  v <- _getSetMaxSpeedFan1 h ;;
  if is_null v then Normal Null
  else Normal (Num (parseInt v)).

Definition getSpeedFan2 (h : t) : completion value :=
  v <- _getSpeedFan2 h ;;
  if is_null v then Normal Null
  else Normal (Float (parseFloat (ToString v))).

Definition getSetSpeedFan2 (h : t) : completion value :=
  v <- _getSetSpeedFan2 h ;;
  if is_null v then Normal Null
  else Normal (Float (parseFloat (ToString v))).

Definition getSetMaxSpeedFan2 (h : t) : completion value :=
  v <- _getSetMaxSpeedFan2 h ;;
  if is_null v then Normal Null
  else Normal (Float (parseFloat (ToString v))).

Definition getSpeedFan3 (h : t) : completion value :=
  v <- _getSpeedFan3 h ;;
  if is_null v then Normal Null
  else Normal (Float (parseFloat (ToString v))).

Definition getSetSpeedFan3 (h : t) : completion value :=
  v <- _getSetSpeedFan3 h ;;
  if is_null v then Normal Null
  else Normal (Float (parseFloat (ToString v))).

Definition getSetMaxSpeedFan3 (h : t) : completion value :=
  v <- _getSetMaxSpeedFan3 h ;;
  if is_null v then Normal Null
  else Normal (Float (parseFloat (ToString v))).

Definition getPowerLevel (h : t) : completion value :=
  v <- _getPowerLevel h ;;
  if is_null v then Normal Null
  else Normal (Float (parseFloat (ToString v))).

Definition getSetPowerLevel (h : t) : completion value :=
  v <- _getSetPowerLevel h ;;
  if is_null v then Normal Null
  else Normal (Float (parseFloat (ToString v))).

Definition getSetMinPowerLevel (h : t) : completion value :=
  v <- _getSetMinPowerLevel h ;;
  if is_null v then Normal Null
  else Normal (Float (parseFloat (ToString v))).

Definition getSetMaxPowerLevel (h : t) : completion value :=
  v <- _getSetMaxPowerLevel h ;;
  if is_null v then Normal Null
  else Normal (Float (parseFloat (ToString v))).

Definition getAirEx1 (h : t) : completion value :=
  v <- _getAirEx1 h ;;
  if is_null v then Normal Null
  else Normal (Float (parseFloat (ToString v))).

Definition getAirEx2 (h : t) : completion value :=
  v <- _getAirEx2 h ;;
  if is_null v then Normal Null
  else Normal (Float (parseFloat (ToString v))).

Definition getAirEx3 (h : t) : completion value :=
  v <- _getAirEx3 h ;;
  if is_null v then Normal Null
  else Normal (Float (parseFloat (ToString v))).

(** [state || ""] keeps a truthy state. *)
Definition falsy (v : value) : bool :=
  match v with
  | Null | Undefined => true
  | Str s => match s with [] => true | _ => false end
  | Num NaN => true
  | Num (Int z) => z =? 0
  | Bool b => negb b
  | Float _ | Booleans _ => false
  end.

Definition getAction (h : t) : completion value :=
  state <- _getStoveState h ;;
  let state_or_empty := if falsy state then Str (lit "") else state in
  let included l := existsb (strict_eq_string state_or_empty) (map lit l) in
  if included ["switched_off"; "black_out"; "eco_stop_2"; "eco_stop_3"]%string
  then Normal (Str (lit "off"))
  else if included ["starting_1_check"]%string
  then Normal (Str (lit "check"))
  else if included ["starting_2_clean_all"]%string
  then Normal (Str (lit "clean_all"))
  else if included ["starting_3_loading"]%string
  then Normal (Str (lit "loading"))
  else if included ["starting_4_waiting"; "starting_5_waiting"]%string
  then Normal (Str (lit "waiting"))
  else if included ["starting_6_ignition"]%string
  then Normal (Str (lit "ignition"))
  else if included ["starting_7_stabilization"]%string
  then Normal (Str (lit "stabilization"))
  else if included ["power"]%string
  then Normal (Str (lit "heating"))
  else if included ["stopping_1_wait_standby"; "stopping_2_wait_standby"]%string
  then Normal (Str (lit "stopping"))
  else if included ["eco_stop_1_standby"; "standby"]%string
  then Normal (Str (lit "idle"))
  else Normal state.

Definition getIsOn (h : t) : completion value :=
  v <- _getStoveIsOn h ;;
  Normal (Bool (strict_eq_string v (lit "on"))).

Definition getEcoMode (h : t) : completion value :=
  v <- _getEcoMode h ;;
  Normal (Bool (strict_eq_string v (lit "on"))).

Definition getChronoMode (h : t) : completion value :=
  v <- _getChronoMode h ;;
  Normal (Bool (strict_eq_string v (lit "on"))).

Definition getMode (h : t) : completion value := _getStoveIsOn h.

Definition getFirmware (h : t) : completion value := _getFirmwareVersion h.

Definition getWifi (h : t) : completion value := _getWifiSignal h.

Definition getManufacturer (h : t) : completion value := _getManufacturer h.

Definition getName (h : t) : completion value :=
  m <- getManufacturer h ;;
  if is_null m then Normal Null
  else Normal (Str (lit "Stove " ++ ToString m)).

Definition getWaterPump (h : t) : completion value :=
  v <- _getGenericPump h ;;
  if is_null v then Normal Null
  else Normal (Bool (negb (number_strict_eq (parseInt v) (Int 0)))).

(** *** Bit-field methods *)

Definition _getStoveTypeBitArray (h : t) : completion (list bool) :=
  type <- _getStoveType h ;;
  match type with
  | Null => Normal (repeat false 16)
  | Num type =>
      Normal (map (fun i => Z.land (Z.shiftr (ToInt32 type) i) 1 =? 1)
                [15; 14; 13; 12; 11; 10; 9; 8; 7; 6; 5; 4; 3; 2; 1; 0])
  | _ => Throw TypeError
  end.

(** [bits[i]] as a value, and as a condition. *)
Definition bit_at (bits : list bool) (i : nat) : value :=
  match nth_error bits i with
  | Some b => Bool b
  | None => Undefined
  end.

Definition truthy_at (bits : list bool) (i : nat) : bool :=
  match nth_error bits i with
  | Some b => b
  | None => false
  end.

Definition isBoilerEnabled (h : t) : completion value :=
  bits <- _getStoveTypeBitArray h ;;
  Normal (bit_at bits 6).

Definition isDomesticHotWaterEnabled (h : t) : completion value :=
  bits <- _getStoveTypeBitArray h ;;
  Normal (bit_at bits 5).

Definition getFanNumber (h : t) : completion value :=
  bits <- _getStoveTypeBitArray h ;;
  Normal (Num (Int ((if truthy_at bits 2 then 2 else 0)
                    + (if truthy_at bits 3 then 1 else 0)))).

Definition isTempRoom1Enabled (h : t) : completion value :=
  bits <- _getStoveTypeBitArray h ;;
  Normal (bit_at bits 0).

Definition isTempRoom2Enabled (h : t) : completion value :=
  bits <- _getStoveTypeBitArray h ;;
  Normal (bit_at bits 7).

Definition isTempRoom3Enabled (h : t) : completion value :=
  bits <- _getStoveTypeBitArray h ;;
  Normal (bit_at bits 8).

Definition isTempWaterEnabled (h : t) : completion value :=
  bits <- _getStoveTypeBitArray h ;;
  Normal (bit_at bits 1).

Definition isPumpEnabled (h : t) : completion value :=
  bits <- _getStoveTypeBitArray h ;;
  Normal (bit_at bits 11).

Definition isFlowSwitchEnabled (h : t) : completion value :=
  bits <- _getStoveTypeBitArray h ;;
  Normal (bit_at bits 10).

Definition isPufferEnabled (h : t) : completion value :=
  bits <- _getStoveTypeBitArray h ;;
  Normal (bit_at bits 9).

Definition isBoilerTempEnabled (h : t) : completion value :=
  bits <- _getStoveTypeBitArray h ;;
  Normal (bit_at bits 4).

Definition isDhwEnabled (h : t) : completion value :=
  bits <- _getStoveTypeBitArray h ;;
  Normal (bit_at bits 3).

Definition isAirEx1Enabled (h : t) : completion value :=
  bits <- _getStoveTypeBitArray h ;;
  Normal (bit_at bits 12).

Definition isAirEx2Enabled (h : t) : completion value :=
  bits <- _getStoveTypeBitArray h ;;
  Normal (bit_at bits 13).

Definition isAirEx3Enabled (h : t) : completion value :=
  bits <- _getStoveTypeBitArray h ;;
  Normal (bit_at bits 14).

Definition isGenericPumpEnabled (h : t) : completion value :=
  bits <- _getStoveTypeBitArray h ;;
  Normal (bit_at bits 15).

(** *** The public accessors *)

(** The internal accessors that return a field or [null]. *)
Definition field_accessors : list (t -> completion value) :=
  [ _getFirmwareVersion; _getWifiSignal; _getPageIndex; _getManufacturer;
    _getIsBitmapVisible; _getIsValid; _getStoveType; _getStoveIsOn;
    _getEcoMode; _getChronoMode; _getTemperatureRoom1;
    _getSetTemperatureRoom1; _getSetMaxTemperatureRoom1;
    _getSetMinTemperatureRoom1; _getTemperatureRoom2;
    _getSetTemperatureRoom2; _getSetMaxTemperatureRoom2;
    _getSetMinTemperatureRoom2; _getTemperatureRoom3;
    _getSetTemperatureRoom3; _getSetMaxTemperatureRoom3;
    _getSetMinTemperatureRoom3; _getTemperatureWater;
    _getSetTemperatureWater; _getSetMaxTemperatureWater;
    _getSetMinTemperatureWater; _getSmokeTemperature; _getPowerLevel;
    _getSetPowerLevel; _getSetMaxPowerLevel; _getSetMinPowerLevel;
    _getSpeedFanSmoke; _getSpeedFan1; _getSetSpeedFan1;
    _getSetMaxSpeedFan1; _getSpeedFan2; _getSetSpeedFan2;
    _getSetMaxSpeedFan2; _getSpeedFan3; _getSetSpeedFan3;
    _getSetMaxSpeedFan3; _getFlowSwitch; _getGenericPump; _getAirEx1;
    _getAirEx2; _getAirEx3; _getPuffer; _getSetPuffer; _getSetMinPuffer;
    _getSetMaxPuffer; _getBoiler; _getSetBoiler; _getSetMinBoiler;
    _getSetMaxBoiler; _getDhw; _getSetDhw; _getSetMinDhw; _getSetMaxDhw ].

(** The internal field accessors, each with the slot it tests for [null]
    and then indexes. *)
Definition field_slots
  : list ((t -> completion value) * (t -> option (list jsstring))) :=
  [ (_getFirmwareVersion, _info); (_getWifiSignal, _info);
    (_getPageIndex, _data); (_getManufacturer, _data);
    (_getIsBitmapVisible, _data); (_getIsValid, _data);
    (_getStoveType, _data); (_getStoveIsOn, _data); (_getEcoMode, _data);
    (_getChronoMode, _data); (_getTemperatureRoom1, _data);
    (_getSetTemperatureRoom1, _data); (_getSetMaxTemperatureRoom1, _data);
    (_getSetMinTemperatureRoom1, _data); (_getTemperatureRoom2, _data);
    (_getSetTemperatureRoom2, _data); (_getSetMaxTemperatureRoom2, _data);
    (_getSetMinTemperatureRoom2, _data); (_getTemperatureRoom3, _data2);
    (_getSetTemperatureRoom3, _data2); (_getSetMaxTemperatureRoom3, _data2);
    (_getSetMinTemperatureRoom3, _data2); (_getTemperatureWater, _data);
    (_getSetTemperatureWater, _data); (_getSetMaxTemperatureWater, _data);
    (_getSetMinTemperatureWater, _data); (_getSmokeTemperature, _data);
    (_getPowerLevel, _data); (_getSetPowerLevel, _data);
    (_getSetMaxPowerLevel, _data); (_getSetMinPowerLevel, _data);
    (_getSpeedFanSmoke, _data); (_getSpeedFan1, _data);
    (_getSetSpeedFan1, _data); (_getSetMaxSpeedFan1, _data);
    (_getSpeedFan2, _data); (_getSetSpeedFan2, _data);
    (_getSetMaxSpeedFan2, _data); (_getSpeedFan3, _data);
    (_getSetSpeedFan3, _data); (_getSetMaxSpeedFan3, _data);
    (_getFlowSwitch, _data2); (_getGenericPump, _data2); (_getAirEx1, _data2);
    (_getAirEx2, _data2); (_getAirEx3, _data2); (_getPuffer, _data2);
    (_getSetPuffer, _data2); (_getSetMinPuffer, _data2);
    (_getSetMaxPuffer, _data2); (_getBoiler, _data2); (_getSetBoiler, _data2);
    (_getSetMinBoiler, _data2); (_getSetMaxBoiler, _data2); (_getDhw, _data2);
    (_getSetDhw, _data2); (_getSetMinDhw, _data2); (_getSetMaxDhw, _data2) ].

(** Every method of the class that reads the snapshots. *)
Definition accessors : list (t -> completion value) :=
  field_accessors ++
  [ _getStoveState; getSmokeTemperature; getWaterTemperature;
    getSetWaterTemperature; getSetMinWaterTemperature;
    getSetMaxWaterTemperature; getSpeedFanSmoke; getTemperatureRoom1;
    getSetTemperatureRoom1; getSetMinTemperatureRoom1;
    getSetMaxTemperatureRoom1; getTemperatureRoom2;
    getSetTemperatureRoom2; getSetMinTemperatureRoom2;
    getSetMaxTemperatureRoom2; getTemperatureRoom3;
    getSetTemperatureRoom3; getSetMinTemperatureRoom3;
    getSetMaxTemperatureRoom3; getSpeedFan1; getSetSpeedFan1;
    getSetMaxSpeedFan1; getSpeedFan2; getSetSpeedFan2;
    getSetMaxSpeedFan2; getSpeedFan3; getSetSpeedFan3;
    getSetMaxSpeedFan3; getPowerLevel; getSetPowerLevel;
    getSetMinPowerLevel; getSetMaxPowerLevel; getAirEx1; getAirEx2;
    getAirEx3; getAction; getIsOn; getEcoMode; getChronoMode; getMode;
    getName; getFirmware; getWifi; getManufacturer; getWaterPump;
    isBoilerEnabled; isDomesticHotWaterEnabled; getFanNumber;
    isTempRoom1Enabled; isTempRoom2Enabled; isTempRoom3Enabled;
    isTempWaterEnabled; isPumpEnabled; isFlowSwitchEnabled;
    isPufferEnabled; isBoilerTempEnabled; isDhwEnabled; isAirEx1Enabled;
    isAirEx2Enabled; isAirEx3Enabled; isGenericPumpEnabled;
    fun h => bits <- _getStoveTypeBitArray h ;; Normal (Booleans bits) ].

End Accessors.

End Hottoh.

(** ** [hottoht.ts]: the methods of [Hottoh] that act on the client

    [connect], [disconnect] and the setters run on [this.client]; they are
    computations on the state of the client. *)

Module HottohCommands.
Import HottohRemoteClient.

(** The members of the enumeration [StoveCommands] of [const.ts] that the
    setters name. *)
Inductive StoveCommands :=
| PARAM_AMBIANCE_TEMPERATURE_1
| INCONNU_4
| PARAM_NIVEAU_PUISSANCE
| PARAM_NIVEAU_FAN_1
| PARAM_NIVEAU_FAN_2
| PARAM_NIVEAU_FAN_3
| PARAM_ECO_MODE
| PARAM_CHRONO_ON_OFF
| PARAM_ON_OFF.

(** How a promise made by [new Promise] is settled when it is returned. *)
Inductive promise (A : Type) : Type :=
| resolved (a : A)
| rejected (e : error).
Arguments resolved {A} a.
Arguments rejected {A} e.

Section Setters.

(** [String(StoveCommands.X)], whatever the members stand for. *)
Variable String_of_command : StoveCommands -> jsstring.

(** The numbers the setters take, with [value * 10] and [String(value)]. *)
Variable double : Type.
Variable times_ten : double -> double.
Variable String_of_number : double -> jsstring.

Definition connect (outcome : connect_call) : M unit := start outcome.

Definition disconnect : M unit := stop.

Definition _extractData (data : jsstring) : list jsstring :=
  split semicolon data.

Definition _getMac : jsstring := lit "aabbccddeeff".

Definition setTemperature (value : double) : M (promise bool) :=
  try_catch
    (sendCommand [String_of_command PARAM_AMBIANCE_TEMPERATURE_1;
                  String_of_number (times_ten value)] ;;
     ret (resolved true))
    (fun err => ret (rejected err)).

Definition setWaterTemperature (value : double) : M bool :=
  try_catch
    (sendCommand [String_of_command INCONNU_4;
                  String_of_number (times_ten value)])
    (fun e => throw e).

Definition setPowerLevel (value : double) : M bool :=
  try_catch
    (sendCommand [String_of_command PARAM_NIVEAU_PUISSANCE;
                  String_of_number value])
    (fun e => throw e).

Definition setSpeedFan1 (value : double) : M bool :=
  try_catch
    (sendCommand [String_of_command PARAM_NIVEAU_FAN_1;
                  String_of_number value])
    (fun e => throw e).

Definition setSpeedFan2 (value : double) : M bool :=
  try_catch
    (sendCommand [String_of_command PARAM_NIVEAU_FAN_2;
                  String_of_number value])
    (fun e => throw e).

Definition setSpeedFan3 (value : double) : M bool :=
  try_catch
    (sendCommand [String_of_command PARAM_NIVEAU_FAN_3;
                  String_of_number value])
    (fun e => throw e).

Definition setEcoModeOn : M bool :=
  try_catch
    (sendCommand [String_of_command PARAM_ECO_MODE; lit "1"])
    (fun e => throw e).

Definition setEcoModeOff : M bool :=
  try_catch
    (sendCommand [String_of_command PARAM_ECO_MODE; lit "0"])
    (fun e => throw e).

Definition setChronoModeOn : M bool :=
  try_catch
    (sendCommand [String_of_command PARAM_CHRONO_ON_OFF; lit "1"])
    (fun e => throw e).

Definition setChronoModeOff : M bool :=
  try_catch
    (sendCommand [String_of_command PARAM_CHRONO_ON_OFF; lit "0"])
    (fun e => throw e).

Definition setOn : M bool :=
  try_catch
    (sendCommand [String_of_command PARAM_ON_OFF; lit "1"])
    (fun e => throw e).

Definition setOff : M bool :=
  try_catch
    (sendCommand [String_of_command PARAM_ON_OFF; lit "0"])
    (fun e => throw e).

(** A call of one of the setters. *)
Inductive setter :=
| call_setTemperature (value : double)
| call_setWaterTemperature (value : double)
| call_setPowerLevel (value : double)
| call_setSpeedFan1 (value : double)
| call_setSpeedFan2 (value : double)
| call_setSpeedFan3 (value : double)
| call_setEcoModeOn
| call_setEcoModeOff
| call_setChronoModeOn
| call_setChronoModeOff
| call_setOn
| call_setOff.

(** The call run on the client; [true] stands for a promise resolved with
    [true] in the case of [setTemperature]. *)
Definition call (s : setter) : M bool :=
  match s with
  | call_setTemperature value =>
      p <- setTemperature value ;;
      match p with
      | resolved b => ret b
      | rejected e => throw e
      end
  | call_setWaterTemperature value => setWaterTemperature value
  | call_setPowerLevel value => setPowerLevel value
  | call_setSpeedFan1 value => setSpeedFan1 value
  | call_setSpeedFan2 value => setSpeedFan2 value
  | call_setSpeedFan3 value => setSpeedFan3 value
  | call_setEcoModeOn => setEcoModeOn
  | call_setEcoModeOff => setEcoModeOff
  | call_setChronoModeOn => setChronoModeOn
  | call_setChronoModeOff => setChronoModeOff
  | call_setOn => setOn
  | call_setOff => setOff
  end.

(** The calls of a list, one after the other. *)
Fixpoint calls (l : list setter) : M unit :=
  match l with
  | [] => ret tt
  | s :: rest => call s ;; calls rest
  end.

End Setters.

Arguments call_setEcoModeOn {double}.
Arguments call_setEcoModeOff {double}.
Arguments call_setChronoModeOn {double}.
Arguments call_setChronoModeOff {double}.
Arguments call_setOn {double}.
Arguments call_setOff {double}.

End HottohCommands.
(** ** The client before its revision

    The repository holds an earlier text of [client.ts] as well.  Requests
    are built and responses read as in the current text; [start], [stop],
    [loop], [__connect] and [__dial] differ: there is no [_loopTimeout], no
    test of [__endRequest] in [loop] or [__dial], the constructor attaches no
    listener, and [__connect] attaches an ['error'] listener of its own at
    every call.  The model covers [start], [stop], [sendCommand] and what
    they lead to; the methods [connect] and [check] are not called. *)

Module LegacyClient.
Import HottohRemoteClient.

(** The listeners of ['error'], in the order they were attached: the one of
    [__connect], and [onError] of the request whose timer is [handle]. *)
Inductive error_listener :=
| retry
| onError (handle : nat).

(** The fields and the runtime of the current client (its field
    [_loopTimeout] is not a field of this text and is never set), and the
    listeners of ['error']. *)
Record t := {
  client : HottohRemoteClient.t;
  errorListeners : list error_listener
}.

Definition new : t :=
  {| client := HottohRemoteClient.new; errorListeners := [] |}.

Definition L (A : Type) : Type := t -> completion A * t * list action.

Definition unit_L {A} (a : A) : L A := fun s => (Normal a, s, []).

Definition bind_L {A B} (m : L A) (f : A -> L B) : L B :=
  fun s =>
    match m s with
    | (Normal a, s1, o1) =>
        let '(r, s2, o2) := f a s1 in (r, s2, o1 ++ o2)
    | (Throw e, s1, o1) => (Throw e, s1, o1)
    end.

Notation "x <~ m ;; k" := (bind_L m (fun x => k))
  (at level 61, m at next level, right associativity).
Notation "m ;;; k" := (bind_L m (fun _ => k))
  (at level 61, right associativity).

(** A computation on the fields shared with the current client. *)
Definition lift {A} (m : M A) : L A :=
  fun s =>
    let '(r, c, out) := m (client s) in
    (r, {| client := c; errorListeners := errorListeners s |}, out).

Definition self : L t := fun s => (Normal s, s, []).

Definition throw_L {A} (e : error) : L A := fun s => (Throw e, s, []).

Definition try_catch_L {A} (body : L A) (handler : error -> L A) : L A :=
  fun s =>
    match body s with
    | (Normal a, s1, o1) => (Normal a, s1, o1)
    | (Throw e, s1, o1) =>
        let '(r, s2, o2) := handler e s1 in (r, s2, o1 ++ o2)
    end.

Fixpoint forEach_L {A} (l : list A) (f : A -> L unit) : L unit :=
  match l with
  | [] => unit_L tt
  | x :: l' => f x ;;; forEach_L l' f
  end.

Fixpoint times_L (n : nat) (m : L unit) : L unit :=
  match n with
  | O => unit_L tt
  | S n' => m ;;; times_L n' m
  end.

Definition set_errorListeners (v : list error_listener) : L unit :=
  fun s => (Normal tt, {| client := client s; errorListeners := v |}, []).

(** [this._socket.on('error', listener)] *)
Definition on_error (listener : error_listener) : L unit :=
  s <~ self ;;
  set_errorListeners (errorListeners s ++ [listener]).

(** [this._socket.removeListener('error', onError)] *)
Definition removeListener_error (handle : nat) : L unit :=
  s <~ self ;;
  set_errorListeners
    (filter (fun l => match l with
                      | onError h => negb (Nat.eqb h handle)
                      | retry => true
                      end) (errorListeners s)).

(** [setTimeout(() => this.loop(), ms)]: the handle is not kept. *)
Definition setTimeout_of_loop (ms : Z) : M unit :=
  handle <- newTimer ;;
  c <- this ;;
  assign (set_loopTimers (loopTimers c ++ [(handle, ms)])) ;;
  emit (setTimeout_loop handle ms).

(** *** The methods *)

Definition _sendRequestAndWaitForResponse (request : Buffer)
  (awaited : await_point) : L unit :=
  handle <~ lift newTimer ;;
  s <~ self ;;
  lift (assign (set_inFlight
                  (inFlight (client s)
                     ++ [{| timeout := handle; awaited_at := awaited |}]))) ;;;
  on_error (onError handle) ;;;
  lift (emit (socket_write request)) ;;;
  lift (emit (setTimeout_request handle 60000)).

Definition _get_data (command : jsstring) (parameters : list jsstring)
  (awaited : await_point) : L unit :=
  let request := Request.new command CommandMode.READ parameters 0 in
  _sendRequestAndWaitForResponse (Request.getRequest request) awaited.

Definition _set_data (parameters : list jsstring) (awaited : await_point)
  : L unit :=
  let request := Request.new (lit "DAT") CommandMode.WRITE parameters 0 in
  _sendRequestAndWaitForResponse (Request.getRequest request) awaited.

Definition sendCommand (parameters : list jsstring) : L bool :=
  lift (HottohRemoteClient.sendCommand parameters).

(** [__dial] from the head of its [while] loop to its next [await] or to the
    end of the [try] block. *)
Definition __dial_while : L unit :=
  s <~ self ;;
  if (0 <? List.length (_writeParameters (client s)))%nat then
    match nth_error (_writeParameters (client s)) 0 with
    | Some param => _set_data param AwaitSetData
    | None => throw_L TypeError
    end
  else
    lift (assign (set__writeParameters [])) ;;;
    lift (assign (set__writeRequest false)) ;;;
    lift (setTimeout_of_loop 1000).

Definition __dial_catch (e : error) : L unit :=
  lift (assign (set___isConnected false)) ;;;
  lift (setTimeout_of_loop 5000).

(** [__dial] from its start to its first [await]. *)
Definition __dial : L unit :=
  s <~ self ;;
  if negb (__isConnected (client s)) then unit_L tt
  else try_catch_L (_get_data (lit "INF") [lit ""] AwaitInfo) __dial_catch.

(** [__dial] from the [await] that has just settled to the next one. *)
Definition __dial_resume (awaited : await_point) (r : settled) : L unit :=
  try_catch_L
    (response <~ lift (await r) ;;
     match awaited with
     | AwaitInfo =>
         lift (assign (set__info (Some response))) ;;;
         _get_data (lit "DAT") [lit "0"] AwaitData
     | AwaitData =>
         lift (assign (set__data (Some response))) ;;;
         _get_data (lit "DAT") [lit "2"] AwaitData2
     | AwaitData2 =>
         lift (assign (set__data2 (Some response))) ;;;
         __dial_while
     | AwaitSetData =>
         s <~ self ;;
         lift (assign (set__writeParameters
                         (tl (_writeParameters (client s))))) ;;;
         __dial_while
     end)
    __dial_catch.

(** A call whose promise nobody awaits. *)
Definition unawaited_L (m : L unit) : L unit :=
  try_catch_L m (fun e => lift (emit (unhandledRejection e))).

(** [__connect]: the callback given to [socket.connect] is a listener of
    ['connect'] for one event; the exception of [socket.connect] is caught,
    with two timers for [EISCONN] and one otherwise; the ['error'] listener
    is attached whatever happened. *)
Definition __connect (outcome : connect_call) : L unit :=
  lift
    (try_catch
       (c <- this ;;
        assign (set_connectHandlers (S (connectHandlers c))) ;;
        emit socket_connect ;;
        match outcome with
        | connecting => ret tt
        | connect_throws code => throw (SystemError code)
        end)
       (fun error =>
          assign (set___isConnected false) ;;
          match error with
          | SystemError code =>
              if String.eqb code "EISCONN" then setTimeout_of_loop 5000
              else ret tt
          | _ => ret tt
          end ;;
          setTimeout_of_loop 5000)) ;;;
  on_error retry.

Definition loop (outcome : connect_call) : L unit :=
  s <~ self ;;
  if __isConnected (client s) then unawaited_L __dial
  else __connect outcome.

Definition start (outcome : connect_call) : L unit :=
  s <~ self ;;
  if negb (__endRequest (client s)) then loop outcome else unit_L tt.

Definition stop : L unit :=
  lift (assign (set___endRequest true)) ;;;
  lift (emit socket_end).

(** *** The listeners *)

(** The callback of [socket.connect]. *)
Definition connectHandler : L unit :=
  lift (assign (set___isConnected true)) ;;;
  loop connecting.

(** The ['error'] listener of [__connect]. *)
Definition retryListener : L unit :=
  lift (assign (set___isConnected false)) ;;;
  lift (setTimeout_of_loop 5000).

(** [cleanup()] *)
Definition cleanup (handle : nat) : L unit :=
  lift (emit (clearTimeout handle)) ;;;
  s <~ self ;;
  lift (assign (set_inFlight (without_request handle (inFlight (client s))))) ;;;
  removeListener_error handle.

(** [onData]: the promise is fulfilled when the buffer holds a newline. *)
Definition onData (r : request_in_flight) (data : Buffer)
  : L (option (list jsstring)) :=
  s <~ self ;;
  lift (assign (set__responseBuffer
                  (_responseBuffer (client s) ++ Buffer_toString_utf8 data))) ;;;
  s <~ self ;;
  if includes newline (_responseBuffer (client s)) then
    let response := hd [] (split newline (_responseBuffer (client s))) in
    lift (assign (set__responseBuffer [])) ;;;
    cleanup (timeout r) ;;;
    unit_L (Some (_extractData response))
  else unit_L None.

(** *** Events *)

Fixpoint emit_data (listeners : list request_in_flight) (data : Buffer)
  : L (list (await_point * list jsstring)) :=
  match listeners with
  | [] => unit_L []
  | r :: rest =>
      fulfilled <~ onData r data ;;
      later <~ emit_data rest data ;;
      unit_L match fulfilled with
             | Some response => (awaited_at r, response) :: later
             | None => later
             end
  end.

(** The listeners of ['error'] run in the order they were attached; the
    promises rejected resume [__dial] afterwards, in the same order. *)
Fixpoint emit_error (listeners : list error_listener)
  (requests : list request_in_flight) : L (list await_point) :=
  match listeners with
  | [] => unit_L []
  | retry :: rest => retryListener ;;; emit_error rest requests
  | onError handle :: rest =>
      cleanup handle ;;;
      later <~ emit_error rest requests ;;
      unit_L (map awaited_at
                (filter (fun r => Nat.eqb (timeout r) handle) requests)
                ++ later)
  end.

(** An ['error'] that finds no listener is thrown by the emitter. *)
Definition handle (e : event) : L unit :=
  match e with
  | call_start outcome => start outcome
  | call_stop => stop
  | call_sendCommand parameters => sendCommand parameters ;;; unit_L tt
  | socket_on_connect =>
      s <~ self ;;
      lift (assign (set_connectHandlers 0)) ;;;
      times_L (connectHandlers (client s)) connectHandler
  | socket_on_data data =>
      s <~ self ;;
      fulfilled <~ emit_data (inFlight (client s)) data ;;
      forEach_L fulfilled
        (fun p => unawaited_L (__dial_resume (fst p) (Fulfilled (snd p))))
  | socket_on_error e =>
      s <~ self ;;
      match errorListeners s with
      | [] => throw_L e
      | listeners =>
          rejected <~ emit_error listeners (inFlight (client s)) ;;
          forEach_L rejected
            (fun awaited => unawaited_L (__dial_resume awaited (Rejected e)))
      end
  | socket_on_close => unit_L tt
  | socket_on_end => unit_L tt
  | loop_timer_fires handle outcome =>
      s <~ self ;;
      if existsb (fun t => Nat.eqb (fst t) handle) (loopTimers (client s)) then
        lift (assign (set_loopTimers
                        (without_timer handle (loopTimers (client s))))) ;;;
        loop outcome
      else unit_L tt
  | request_timer_fires handle =>
      s <~ self ;;
      forEach_L
        (filter (fun r => Nat.eqb (timeout r) handle) (inFlight (client s)))
        (fun r =>
           cleanup (timeout r) ;;;
           unawaited_L (__dial_resume (awaited_at r)
                          (Rejected (Error "Socket timeout"))))
  end.

Definition step (s : t) (e : event) : t * list action :=
  let '(_, s', out) := handle e s in (s', out).

Fixpoint run (s : t) (events : list event) : t * list action :=
  match events with
  | [] => (s, [])
  | e :: rest =>
      let '(s1, o1) := step s e in
      let '(s2, o2) := run s1 rest in
      (s2, o1 ++ o2)
  end.

End LegacyClient.
(** ** [dispose]

    [dispose] stops the client, takes every listener off the socket,
    destroys it and sets [this._socket] to [null].  The timers of the
    requests in flight are not cleared, and the methods can still be called
    afterwards.  The model extends the one of [HottohRemoteClient] by the
    call of [dispose]; [connect] and [check] are not called. *)

Module Disposal.
Import HottohRemoteClient.

Inductive action :=
| of_client (a : HottohRemoteClient.action)
| socket_removeAllListeners
| socket_destroy
| uncaughtException (e : error).

(** The client, whether [this._socket] is [null], and the requests whose
    listeners are gone while their timers run. *)
Record t := {
  client : HottohRemoteClient.t;
  _socket_null : bool;
  orphans : list request_in_flight
}.

Definition new : t :=
  {| client := HottohRemoteClient.new; _socket_null := false; orphans := [] |}.

Definition D (A : Type) : Type := t -> completion A * t * list action.

Definition unit_D {A} (a : A) : D A := fun s => (Normal a, s, []).

Definition bind_D {A B} (m : D A) (f : A -> D B) : D B :=
  fun s =>
    match m s with
    | (Normal a, s1, o1) =>
        let '(r, s2, o2) := f a s1 in (r, s2, o1 ++ o2)
    | (Throw e, s1, o1) => (Throw e, s1, o1)
    end.

Notation "x <~ m ;; k" := (bind_D m (fun x => k))
  (at level 61, m at next level, right associativity).
Notation "m ;;; k" := (bind_D m (fun _ => k))
  (at level 61, right associativity).

(** A computation of the client itself. *)
Definition lift {A} (m : M A) : D A :=
  fun s =>
    let '(r, c, out) := m (client s) in
    (r, {| client := c; _socket_null := _socket_null s;
           orphans := orphans s |}, map of_client out).

Definition self : D t := fun s => (Normal s, s, []).

Definition emit_D (a : action) : D unit := fun s => (Normal tt, s, [a]).

Definition throw_D {A} (e : error) : D A := fun s => (Throw e, s, []).

Definition try_catch_D {A} (body : D A) (handler : error -> D A) : D A :=
  fun s =>
    match body s with
    | (Normal a, s1, o1) => (Normal a, s1, o1)
    | (Throw e, s1, o1) =>
        let '(r, s2, o2) := handler e s1 in (r, s2, o1 ++ o2)
    end.

Fixpoint forEach_D {A} (l : list A) (f : A -> D unit) : D unit :=
  match l with
  | [] => unit_D tt
  | x :: l' => f x ;;; forEach_D l' f
  end.

Definition set__socket_null (v : bool) : D unit :=
  fun s =>
    (Normal tt,
     {| client := client s; _socket_null := v; orphans := orphans s |}, []).

Definition set_orphans (v : list request_in_flight) : D unit :=
  fun s =>
    (Normal tt,
     {| client := client s; _socket_null := _socket_null s; orphans := v |},
     []).

(** *** The methods, with [this._socket] that may be [null] *)

(** A use of [this._socket]: a [TypeError] when it is [null]. *)
Definition the_socket : D unit :=
  s <~ self ;;
  if _socket_null s then throw_D TypeError else unit_D tt.

Definition __disconnect : D unit :=
  lift (assign (set___isConnected false)) ;;;
  try_catch_D (the_socket ;;; lift (emit socket_end)) (fun _ => unit_D tt).

Definition stop : D unit :=
  lift (assign (set___endRequest true)) ;;;
  lift clear_loopTimeout ;;;
  __disconnect.

(** [__connect]: [this._socket.once] is inside the [try] block, and a
    [TypeError] has no [code]. *)
Definition __connect (outcome : connect_call) : D unit :=
  s <~ self ;;
  if _socket_null s then
    lift (assign (set___isConnected false)) ;;;
    lift (schedule_loop 5000)
  else lift (HottohRemoteClient.__connect outcome).

(** [__dial]: with no socket the promise of the first request is rejected
    with the [TypeError] of [this._socket.on], which the [catch] block
    receives. *)
Definition __dial : D unit :=
  s <~ self ;;
  if _socket_null s then
    if negb (__isConnected (client s)) || __endRequest (client s)
    then unit_D tt
    else lift (__dial_catch TypeError)
  else lift (HottohRemoteClient.__dial).

Definition loop (outcome : connect_call) : D unit :=
  lift clear_loopTimeout ;;;
  s <~ self ;;
  if __endRequest (client s) then unit_D tt
  else if __isConnected (client s) then
    try_catch_D __dial (fun e => lift (emit (unhandledRejection e)))
  else __connect outcome.

Definition start (outcome : connect_call) : D unit :=
  lift (assign (set___endRequest false)) ;;;
  loop outcome.

Definition dispose : D unit :=
  stop ;;;
  s <~ self ;;
  (if _socket_null s then unit_D tt
   else
     (* removeAllListeners *)
     emit_D socket_removeAllListeners ;;;
     lift (assign (set_connectHandlers 0)) ;;;
     set_orphans (orphans s ++ inFlight (client s)) ;;;
     lift (assign (set_inFlight [])) ;;;
     (* destroy *)
     emit_D socket_destroy) ;;;
  set__socket_null true ;;;
  lift (assign (set__info None)) ;;;
  lift (assign (set__data None)) ;;;
  lift (assign (set__data2 None)) ;;;
  lift (assign (set__writeParameters [])).

(** *** Events *)

Inductive event :=
| of_session (e : HottohRemoteClient.event)
| call_dispose.

(** The timer of a request whose listeners are gone: [cleanup()] clears the
    timer and then uses [this._socket]; the promise is rejected only if
    that succeeds. *)
Definition onTimeout_orphan (r : request_in_flight) : D unit :=
  lift (emit (clearTimeout (timeout r))) ;;;
  s <~ self ;;
  set_orphans (without_request (timeout r) (orphans s)) ;;;
  the_socket ;;;
  lift (unawaited (__dial_resume (awaited_at r)
                     (Rejected (Error "Socket timeout")))).

(** With [this._socket] set to [null] the socket that was destroyed has no
    listener left: its events reach nobody, and an ['error'] with no listener
    is thrown by the emitter. *)
Definition handle (e : event) : D unit :=
  match e with
  | call_dispose => dispose
  | of_session e =>
      s <~ self ;;
      match e with
      | call_start outcome => start outcome
      | call_stop => stop
      | call_sendCommand parameters =>
          lift (sendCommand parameters) ;;; unit_D tt
      | loop_timer_fires handle outcome =>
          if existsb (fun t => Nat.eqb (fst t) handle)
               (loopTimers (client s)) then
            lift (assign (set_loopTimers
                            (without_timer handle (loopTimers (client s))))) ;;;
            loop outcome
          else unit_D tt
      | request_timer_fires handle =>
          lift (HottohRemoteClient.handle e) ;;;
          forEach_D
            (filter (fun r => Nat.eqb (timeout r) handle) (orphans s))
            onTimeout_orphan
      | socket_on_error err =>
          if _socket_null s then throw_D err
          else lift (HottohRemoteClient.handle e)
      | socket_on_connect | socket_on_data _
      | socket_on_close | socket_on_end =>
          if _socket_null s then unit_D tt
          else lift (HottohRemoteClient.handle e)
      end
  end.

(** An exception that leaves a listener or a timer callback is uncaught. *)
Definition step (s : t) (e : event) : t * list action :=
  let '(_, s', out) :=
    try_catch_D (handle e) (fun err => emit_D (uncaughtException err)) s in
  (s', out).

Fixpoint run (s : t) (events : list event) : t * list action :=
  match events with
  | [] => (s, [])
  | e :: rest =>
      let '(s1, o1) := step s e in
      let '(s2, o2) := run s1 rest in
      (s2, o1 ++ o2)
  end.

(** What the client itself did. *)
Definition of_the_client (out : list action) : list HottohRemoteClient.action :=
  flat_map (fun a => match a with of_client a' => [a'] | _ => [] end) out.

Definition uncaught (out : list action) : list error :=
  flat_map (fun a => match a with uncaughtException e => [e] | _ => [] end)
    out.

End Disposal.
(** ** [connect] and [check]

    [check] connects, sends one [DAT 0] read, ends the socket and answers
    whether the response had any field.  The model is one call of [check] on
    a client that is not polling, and the events of the socket and of the
    timer after it; no other method is called meanwhile. *)

Module CheckCall.
Import HottohRemoteClient.

Inductive action :=
| of_client (a : HottohRemoteClient.action)
| socket_removeAllListeners
| socket_destroy
| new_Socket.

(** Where the call is: at one of its two [await]s, or returned (the promise
    of [check] fulfilled with [answer]). *)
Inductive point :=
| AwaitConnect
| AwaitResponse (timeout : nat)
| Returned (answer : bool).

(** The client, whether the listeners of [connect] are attached, and the
    point the call has reached. *)
Record t := {
  client : HottohRemoteClient.t;
  connectListeners : bool;
  reached : point
}.

(** The state in which [check] is called on the client [c]. *)
Definition called_on (c : HottohRemoteClient.t) : t :=
  {| client := c; connectListeners := false; reached := AwaitConnect |}.

Definition C (A : Type) : Type := t -> completion A * t * list action.

Definition unit_C {A} (a : A) : C A := fun s => (Normal a, s, []).

Definition bind_C {A B} (m : C A) (f : A -> C B) : C B :=
  fun s =>
    match m s with
    | (Normal a, s1, o1) =>
        let '(r, s2, o2) := f a s1 in (r, s2, o1 ++ o2)
    | (Throw e, s1, o1) => (Throw e, s1, o1)
    end.

Notation "x <~ m ;; k" := (bind_C m (fun x => k))
  (at level 61, m at next level, right associativity).
Notation "m ;;; k" := (bind_C m (fun _ => k))
  (at level 61, right associativity).

Definition lift {A} (m : M A) : C A :=
  fun s =>
    let '(r, c, out) := m (client s) in
    (r, {| client := c; connectListeners := connectListeners s;
           reached := reached s |}, map of_client out).

Definition self : C t := fun s => (Normal s, s, []).

Definition emit_C (a : action) : C unit := fun s => (Normal tt, s, [a]).

Definition throw_C {A} (e : error) : C A := fun s => (Throw e, s, []).

Definition try_catch_C {A} (body : C A) (handler : error -> C A) : C A :=
  fun s =>
    match body s with
    | (Normal a, s1, o1) => (Normal a, s1, o1)
    | (Throw e, s1, o1) =>
        let '(r, s2, o2) := handler e s1 in (r, s2, o1 ++ o2)
    end.

Definition set_connectListeners (v : bool) : C unit :=
  fun s =>
    (Normal tt,
     {| client := client s; connectListeners := v; reached := reached s |},
     []).

Definition set_reached (v : point) : C unit :=
  fun s =>
    (Normal tt,
     {| client := client s; connectListeners := connectListeners s;
        reached := v |}, []).

(** *** The methods *)

(** [_resetSocket]: the listeners go with the old socket; the new one has
    the handlers of [_setupSocketEventHandlers]. *)
Definition _resetSocket : C unit :=
  emit_C socket_removeAllListeners ;;;
  set_connectListeners false ;;;
  emit_C socket_destroy ;;;
  emit_C new_Socket.

(** The executor of the promise of [connect]: an exception of
    [socket.connect] rejects the promise. *)
Definition connect (outcome : connect_call) : C unit :=
  s <~ self ;;
  (if __isConnected (client s) then _resetSocket else unit_C tt) ;;;
  set_connectListeners true ;;;
  lift (emit socket_connect) ;;;
  match outcome with
  | connecting => unit_C tt
  | connect_throws code => throw_C (SystemError code)
  end.

(** The executor of the promise of [_sendRequestAndWaitForResponse]. *)
Definition _sendRequestAndWaitForResponse (request : Buffer) : C unit :=
  handle <~ lift newTimer ;;
  set_reached (AwaitResponse handle) ;;;
  lift (emit (socket_write request)) ;;;
  lift (emit (setTimeout_request handle 60000)).

Definition _get_data (command : jsstring) (parameters : list jsstring)
  : C unit :=
  let request := Request.new command CommandMode.READ parameters 0 in
  _sendRequestAndWaitForResponse (Request.getRequest request).

Definition check_catch (e : error) : C unit := set_reached (Returned false).

(** [check] from its start to its first [await]. *)
Definition check (outcome : connect_call) : C unit :=
  try_catch_C (connect outcome ;;; set_reached AwaitConnect) check_catch.

(** [check] from the first [await] to the second. *)
Definition check_connected : C unit :=
  try_catch_C (_get_data (lit "DAT") [lit "0"]) check_catch.

(** [check] from the second [await] to its end. *)
Definition check_answered (data : list jsstring) : C unit :=
  try_catch_C
    (lift (emit socket_end) ;;;
     set_reached (Returned (0 <? List.length data)%nat))
    check_catch.

(** *** The listeners *)

(** [connectHandler] of [connect]. *)
Definition connectHandler : C unit :=
  lift (assign (set___isConnected true)) ;;;
  set_connectListeners false ;;;
  s <~ self ;;
  match reached s with
  | AwaitConnect => check_connected
  | _ => unit_C tt
  end.

(** [errorHandler] of [connect]. *)
Definition connect_errorHandler (err : error) : C unit :=
  lift (assign (set___isConnected false)) ;;;
  set_connectListeners false ;;;
  s <~ self ;;
  match reached s with
  | AwaitConnect => check_catch err
  | _ => unit_C tt
  end.

Definition cleanup (handle : nat) : C unit :=
  lift (emit (clearTimeout handle)).

(** [onData] of the request. *)
Definition onData (handle : nat) (data : Buffer) : C unit :=
  s <~ self ;;
  lift (assign (set__responseBuffer
                  (_responseBuffer (client s) ++ Buffer_toString_utf8 data))) ;;;
  s <~ self ;;
  if includes newline (_responseBuffer (client s)) then
    let response := hd [] (split newline (_responseBuffer (client s))) in
    lift (assign (set__responseBuffer [])) ;;;
    cleanup handle ;;;
    check_answered (_extractData response)
  else unit_C tt.

(** [onError] of the request and the callback of its timer. *)
Definition cleanup_and_reject (handle : nat) (err : error) : C unit :=
  cleanup handle ;;;
  check_catch err.

(** *** Events *)

Inductive event :=
| socket_on_connect
| socket_on_data (data : Buffer)
| socket_on_error (e : error)
| socket_on_close
| socket_on_end
| request_timer_fires (handle : nat).

Definition handle (e : event) : C unit :=
  match e with
  | socket_on_connect =>
      s <~ self ;;
      if connectListeners s then connectHandler else unit_C tt
  | socket_on_data data =>
      s <~ self ;;
      match reached s with
      | AwaitResponse h => onData h data
      | _ => unit_C tt
      end
  | socket_on_error err =>
      s <~ self ;;
      lift errorHandler ;;;
      (if connectListeners s then connect_errorHandler err else unit_C tt) ;;;
      match reached s with
      | AwaitResponse h => cleanup_and_reject h err
      | _ => unit_C tt
      end
  | socket_on_close => lift closeHandler
  | socket_on_end => lift endHandler
  | request_timer_fires handle =>
      s <~ self ;;
      match reached s with
      | AwaitResponse h =>
          if Nat.eqb h handle
          then cleanup_and_reject h (Error "Socket timeout")
          else unit_C tt
      | _ => unit_C tt
      end
  end.

Definition step (s : t) (e : event) : t * list action :=
  let '(_, s', out) := handle e s in (s', out).

Fixpoint run (s : t) (events : list event) : t * list action :=
  match events with
  | [] => (s, [])
  | e :: rest =>
      let '(s1, o1) := step s e in
      let '(s2, o2) := run s1 rest in
      (s2, o1 ++ o2)
  end.

(** [check()] called on the client [c], then the events. *)
Definition session (outcome : connect_call) (events : list event)
  (c : HottohRemoteClient.t) : t * list action :=
  let '(_, s0, o0) := check outcome (called_on c) in
  let '(s1, o1) := run s0 events in
  (s1, o0 ++ o1).

Definition of_the_client (out : list action) : list HottohRemoteClient.action :=
  flat_map (fun a => match a with of_client a' => [a'] | _ => [] end) out.

End CheckCall.
(** ** Reading hexadecimal digits *)

Definition is_upper_hex_digit (c : Z) : bool :=
  ((48 <=? c) && (c <=? 57)) || ((65 <=? c) && (c <=? 70)).

Definition hex_digit_value (c : Z) : Z :=
  if c <=? 57 then c - 48 else c - 55.

(** The number a string of hexadecimal digits denotes. *)
Definition hex_value (s : jsstring) : Z :=
  fold_left (fun v c => 16 * v + hex_digit_value c) s 0.

(** How many hexadecimal digits a non-negative integer needs. *)
Definition hex_width (n : Z) : nat := S (Z.to_nat (Z.log2 n / 4)).

(** ** Lines received from the socket *)

(** The text before the first occurrence of a character. *)
Fixpoint text_before (c : Z) (s : jsstring) : jsstring :=
  match s with
  | [] => []
  | x :: s' => if x =? c then [] else x :: text_before c s'
  end.

(** The text after the first occurrence of a character. *)
Fixpoint text_after (c : Z) (s : jsstring) : jsstring :=
  match s with
  | [] => []
  | x :: s' => if x =? c then s' else text_after c s'
  end.

(** What the response buffer holds once the chunks have been appended to it,
    each decoded on its own. *)
Definition received (buffer : jsstring) (chunks : list Buffer) : jsstring :=
  buffer ++ flat_map Buffer_toString_utf8 chunks.

(** A response as the socket delivers it: chunks that leave the line open,
    then the chunk that holds its newline. *)
Record delivery := {
  before : list Buffer;
  last : Buffer
}.

Definition chunks (d : delivery) : list Buffer := before d ++ [last d].

Definition delivers (buffer : jsstring) (d : delivery) (line : jsstring) : Prop :=
  includes newline (received buffer (before d)) = false
  /\ includes newline (received buffer (chunks d)) = true
  /\ line = text_before newline (received buffer (chunks d)).

(** The listener of one request called on chunk after chunk, until it
    fulfils the promise. *)
Fixpoint listen (r : HottohRemoteClient.request_in_flight)
  (chunks : list Buffer)
  : HottohRemoteClient.M (option (list jsstring)) :=
  match chunks with
  | [] => HottohRemoteClient.ret None
  | data :: rest =>
      HottohRemoteClient.bind (HottohRemoteClient.onData r data)
        (fun fulfilled =>
           match fulfilled with
           | Some response => HottohRemoteClient.ret (Some response)
           | None => listen r rest
           end)
  end.

(** A method run from a state: the state and the output it leaves. *)
Definition exec {A} (m : HottohRemoteClient.M A) (c : HottohRemoteClient.t)
  : HottohRemoteClient.t * list HottohRemoteClient.action :=
  let '(_, c', out) := m c in (c', out).

Definition DAT : jsstring := lit "DAT".
Definition INF : jsstring := lit "INF".

(** The request [new Request(command, mode, parameters).getRequest()]. *)
Definition frame (command mode : jsstring) (parameters : list jsstring)
  : Buffer :=
  Request.getRequest (Request.new command mode parameters 0).

(** A method run from a state, then a sequence of events. *)
Definition exec_then {A} (m : HottohRemoteClient.M A)
  (events : list HottohRemoteClient.event) (c : HottohRemoteClient.t)
  : HottohRemoteClient.t * list HottohRemoteClient.action :=
  let '(c0, o0) := exec m c in
  let '(c1, o1) := HottohRemoteClient.run c0 events in
  (c1, o0 ++ o1).

(** The three snapshot slots. *)
Definition snapshots (c : HottohRemoteClient.t) :=
  (HottohRemoteClient._info c, HottohRemoteClient._data c,
   HottohRemoteClient._data2 c).

(** The chunks of a delivery as events of the socket. *)
Definition data_events (ds : list delivery) : list HottohRemoteClient.event :=
  map HottohRemoteClient.socket_on_data (flat_map chunks ds).

(** What the drain loop has done once the responses of the parameters
    [sent] have been delivered and [rest] is still queued: [result] is the
    state and the output since the loop was entered in state [c]. *)
Definition drain_outcome (c : HottohRemoteClient.t)
  (sent rest : list (list jsstring))
  (result : HottohRemoteClient.t * list HottohRemoteClient.action) : Prop :=
  let '(c', out) := result in
  HottohRemoteClient.writes out
  = map (frame (lit "DAT") CommandMode.WRITE) (sent ++ firstn 1 rest)
  /\ HottohRemoteClient._writeParameters c' = rest
  /\ snapshots c' = snapshots c
  /\ HottohRemoteClient.__isConnected c' = HottohRemoteClient.__isConnected c
  /\ HottohRemoteClient.__endRequest c' = false
  /\ HottohRemoteClient.rejections out = []
  /\ HottohRemoteClient.connects out = 0%nat
  /\ HottohRemoteClient._responseBuffer c' = []
  /\ match rest with
     | [] =>
         HottohRemoteClient.inFlight c' = []
         /\ HottohRemoteClient.loop_delays out = [1000]
         /\ exists h,
              HottohRemoteClient._loopTimeout c' = Some h
              /\ HottohRemoteClient.loopTimers c'
                 = HottohRemoteClient.loopTimers c ++ [(h, 1000)]
     | _ :: _ =>
         HottohRemoteClient.loop_delays out = []
         /\ HottohRemoteClient.loopTimers c' = HottohRemoteClient.loopTimers c
         /\ exists r,
              HottohRemoteClient.inFlight c' = [r]
              /\ HottohRemoteClient.awaited_at r
                 = HottohRemoteClient.AwaitSetData
     end.

(** [loop] first clears the timer it was called from. *)
Definition cleared (c : HottohRemoteClient.t) : HottohRemoteClient.t :=
  match HottohRemoteClient._loopTimeout c with
  | Some h =>
      HottohRemoteClient.set__loopTimeout None
        (HottohRemoteClient.set_loopTimers
           (HottohRemoteClient.without_timer h (HottohRemoteClient.loopTimers c))
           c)
  | None => c
  end.

Definition cleared_output (c : HottohRemoteClient.t)
  : list HottohRemoteClient.action :=
  match HottohRemoteClient._loopTimeout c with
  | Some h => [HottohRemoteClient.clearTimeout h]
  | None => []
  end.

(** An exchange fails by its 60 s timer or by an error of the socket. *)
Definition fails (r : HottohRemoteClient.request_in_flight)
  (e : HottohRemoteClient.event) : Prop :=
  e = HottohRemoteClient.request_timer_fires (HottohRemoteClient.timeout r)
  \/ exists err, e = HottohRemoteClient.socket_on_error err.



(** A method that leaves the queue of parameters as it found it. *)
Definition keeps_queue {A} (m : HottohRemoteClient.M A) : Prop :=
  forall c,
    HottohRemoteClient._writeParameters (snd (fst (m c)))
    = HottohRemoteClient._writeParameters c.


(** One step of the table-driven update on a 16-bit register [x] fed the
    byte 0: the table entry of the high byte against the low byte moved up. *)
Definition table_row (x : Z) : Z :=
  Z.lxor (nth (Z.to_nat (Z.shiftr x 8)) Crc.TABLE 0)
         (Z.shiftl (Z.land x 0xff) 8).

(** The integers [start], [start + 1], ..., [n] of them. *)
Fixpoint zrange (n : nat) (start : Z) : list Z :=
  match n with
  | O => []
  | S n' => start :: zrange n' (start + 1)
  end.

(** ** The enumerations of [const.ts], for the examples

    The numbers below are used by the examples only.  The register indices
    are the ones the example script of the repository prints next to each
    accessor; the state codes number the members in the order of the
    [switch]. *)
Definition sample_registers (r : Const.StoveRegisters) : nat :=
  match r with
  | Const.INDEX_FW => 1
  | Const.INDEX_WIFI => 2
  | Const.INDEX_PAGE => 0
  | Const.INDEX_BITMAP_VISIBLE => 2
  | Const.INDEX_VALID => 3
  | Const.INDEX_STOVE_ON => 6
  | Const.INDEX_ECO_MODE => 7
  | Const.INDEX_TIMER_ON => 8
  | Const.INDEX_AMBIENT_T1 => 9
  | Const.INDEX_AMBIENT_T1_SET => 10
  | Const.INDEX_AMBIENT_T1_SET_MAX => 11
  | Const.INDEX_AMBIENT_T1_SET_MIN => 12
  | Const.INDEX_AMBIENT_T2 => 13
  | Const.INDEX_AMBIENT_T2_SET => 14
  | Const.INDEX_AMBIENT_T2_SET_MAX => 15
  | Const.INDEX_AMBIENT_T2_SET_MIN => 16
  | Const.INDEX_ROOM_TEMP_3 => 17
  | Const.INDEX_ROOM_TEMP_3_SET => 18
  | Const.INDEX_ROOM_TEMP_3_SET_MAX => 19
  | Const.INDEX_ROOM_TEMP_3_SET_MIN => 20
  | Const.INDEX_WATER => 17
  | Const.INDEX_WATER_SET => 18
  | Const.INDEX_WATER_SET_MAX => 20
  | Const.INDEX_WATER_SET_MIN => 19
  | Const.INDEX_SMOKE_T => 21
  | Const.INDEX_POWER_LEVEL => 22
  | Const.INDEX_POWER_SET => 23
  | Const.INDEX_POWER_MAX => 25
  | Const.INDEX_POWER_MIN => 24
  | Const.INDEX_FAN_SMOKE => 26
  | Const.INDEX_FAN_1 => 27
  | Const.INDEX_FAN_1_SET => 28
  | Const.INDEX_FAN_1_SET_MAX => 29
  | Const.INDEX_FAN_2 => 30
  | Const.INDEX_FAN_2_SET => 31
  | Const.INDEX_FAN_2_SET_MAX => 32
  | Const.INDEX_FAN_3 => 33
  | Const.INDEX_FAN_3_SET => 34
  | Const.INDEX_FAN_3_SET_MAX => 35
  | Const.INDEX_FLOW_SWITCH => 1
  | Const.INDEX_GENERIC_PUMP => 2
  | Const.INDEX_AIREX_1 => 3
  | Const.INDEX_AIREX_2 => 4
  | Const.INDEX_AIREX_3 => 5
  | Const.INDEX_PUFFER => 6
  | Const.INDEX_PUFFER_SET => 7
  | Const.INDEX_PUFFER_SET_MIN => 8
  | Const.INDEX_PUFFER_SET_MAX => 9
  | Const.INDEX_BOILER => 10
  | Const.INDEX_BOILER_SET => 11
  | Const.INDEX_BOILER_SET_MIN => 12
  | Const.INDEX_BOILER_SET_MAX => 13
  | Const.INDEX_DHW => 14
  | Const.INDEX_DHW_SET => 15
  | Const.INDEX_DHW_SET_MIN => 16
  | Const.INDEX_DHW_SET_MAX => 17
  | Const.INDEX_MANUFACTURER => 0
  | Const.INDEX_STOVE_TYPE => 4
  | Const.INDEX_STOVE_STATE => 5
  end%nat.

Definition sample_states (s : Const.StoveState) : Z :=
  match s with
  | Const.STATUS_OFF => 0
  | Const.STATUS_STARTING_1 => 1
  | Const.STATUS_STARTING_2 => 2
  | Const.STATUS_STARTING_3 => 3
  | Const.STATUS_STARTING_4 => 4
  | Const.STATUS_STARTING_5 => 5
  | Const.STATUS_STARTING_6 => 6
  | Const.STATUS_STARTING_7 => 7
  | Const.STATUS_POWER => 8
  | Const.STATUS_STOPPING_1 => 9
  | Const.STATUS_STOPPING_2 => 10
  | Const.STATUS_ECO_STOP_1 => 11
  | Const.STATUS_ECO_STOP_2 => 12
  | Const.STATUS_ECO_STOP_3 => 13
  | Const.STATUS_LOW_PELLET => 14
  | Const.STATUS_END_PELLET => 15
  | Const.STATUS_BLACK_OUT => 16
  | Const.STATUS_INGNITION_FAILED => 17
  | Const.STATUS_ANTI_FREEZE => 18
  | Const.STATUS_COVER_OPEN => 19
  | Const.STATUS_NO_PELLET => 20
  end.

Definition sample_manufacturers (m : Const.StoveManufacturer) : Z :=
  match m with
  | Const.STOVE_MANUFACTURER_CMG => 9
  | Const.STOVE_MANUFACTURER_EDILKAMIN => 1
  end.

(** ** The lifecycle states and the capability flags, as tables *)

(** Every member of [StoveState]. *)
Definition all_states : list Const.StoveState :=
  [ Const.STATUS_OFF; Const.STATUS_STARTING_1; Const.STATUS_STARTING_2;
    Const.STATUS_STARTING_3; Const.STATUS_STARTING_4; Const.STATUS_STARTING_5;
    Const.STATUS_STARTING_6; Const.STATUS_STARTING_7; Const.STATUS_POWER;
    Const.STATUS_STOPPING_1; Const.STATUS_STOPPING_2; Const.STATUS_ECO_STOP_1;
    Const.STATUS_ECO_STOP_2; Const.STATUS_ECO_STOP_3; Const.STATUS_LOW_PELLET;
    Const.STATUS_END_PELLET; Const.STATUS_BLACK_OUT; Const.STATUS_INGNITION_FAILED;
    Const.STATUS_ANTI_FREEZE; Const.STATUS_COVER_OPEN; Const.STATUS_NO_PELLET ].

(** The name of each lifecycle state. *)
Definition state_name (s : Const.StoveState) : string :=
  match s with
  | Const.STATUS_OFF => "switched_off"
  | Const.STATUS_STARTING_1 => "starting_1_check"
  | Const.STATUS_STARTING_2 => "starting_2_clean_all"
  | Const.STATUS_STARTING_3 => "starting_3_loading"
  | Const.STATUS_STARTING_4 => "starting_4_waiting"
  | Const.STATUS_STARTING_5 => "starting_5_waiting"
  | Const.STATUS_STARTING_6 => "starting_6_ignition"
  | Const.STATUS_STARTING_7 => "starting_7_stabilization"
  | Const.STATUS_POWER => "power"
  | Const.STATUS_STOPPING_1 => "stopping_1_wait_standby"
  | Const.STATUS_STOPPING_2 => "stopping_2_wait_standby"
  | Const.STATUS_ECO_STOP_1 => "eco_stop_1_standby"
  | Const.STATUS_ECO_STOP_2 => "eco_stop_2"
  | Const.STATUS_ECO_STOP_3 => "eco_stop_3"
  | Const.STATUS_LOW_PELLET => "low_pellet"
  | Const.STATUS_END_PELLET => "end_pellet"
  | Const.STATUS_BLACK_OUT => "black_out"
  | Const.STATUS_INGNITION_FAILED => "error_ignition_failed"
  | Const.STATUS_ANTI_FREEZE => "anti_freeze"
  | Const.STATUS_COVER_OPEN => "error_cover_open"
  | Const.STATUS_NO_PELLET => "error_no_pellet"
  end.

Section CapabilityFlags.

Variable StoveRegisters_value : Const.StoveRegisters -> nat.
Variable double : Type.
Variable double_toString : double -> jsstring.

(** The capability flags with the bit of the stove type each one reads,
    bit 0 the least significant. *)
Definition capability_flags
  : list ((Hottoh.t -> completion (Hottoh.value double)) * Z) :=
  [ (Hottoh.isBoilerEnabled StoveRegisters_value double_toString, 9);
    (Hottoh.isDomesticHotWaterEnabled StoveRegisters_value double_toString, 10);
    (Hottoh.isTempRoom1Enabled StoveRegisters_value double_toString, 15);
    (Hottoh.isTempRoom2Enabled StoveRegisters_value double_toString, 8);
    (Hottoh.isTempRoom3Enabled StoveRegisters_value double_toString, 7);
    (Hottoh.isTempWaterEnabled StoveRegisters_value double_toString, 14);
    (Hottoh.isPumpEnabled StoveRegisters_value double_toString, 4);
    (Hottoh.isFlowSwitchEnabled StoveRegisters_value double_toString, 5);
    (Hottoh.isPufferEnabled StoveRegisters_value double_toString, 6);
    (Hottoh.isBoilerTempEnabled StoveRegisters_value double_toString, 11);
    (Hottoh.isDhwEnabled StoveRegisters_value double_toString, 12);
    (Hottoh.isAirEx1Enabled StoveRegisters_value double_toString, 3);
    (Hottoh.isAirEx2Enabled StoveRegisters_value double_toString, 2);
    (Hottoh.isAirEx3Enabled StoveRegisters_value double_toString, 1);
    (Hottoh.isGenericPumpEnabled StoveRegisters_value double_toString, 0) ].

End CapabilityFlags.

(** A client that holds the given data snapshot and nothing else. *)
Definition with_data (fields : list jsstring) : Hottoh.t :=
  {| Hottoh.client :=
       HottohRemoteClient.set__data (Some fields) HottohRemoteClient.new |}.

(** A data snapshot of nine fields, the stove type and the stove state
    given. *)
Definition sample_fields (stove_type stove_state : string) : list jsstring :=
  [lit "0"; lit "0"; lit "0"; lit "1"; lit stove_type; lit stove_state;
   lit "1"; lit "0"; lit "0"].

(** The examples use no double that is not an integer. *)
Definition no_parseFloat (s : jsstring) : unit := tt.
Definition no_double_toString (f : unit) : jsstring := [].
Definition no_tenth_toString (n : number) : jsstring := [].

(** ** States and responses for the examples *)

Definition bytes (s : string) : Buffer := Buffer_from_utf8 (lit s).

Definition line_feed : string := String (ascii_of_nat 10) EmptyString.

(** A connected client with one command queued, and the responses of a
    cycle, the first of them in two chunks. *)
Definition sample_client : HottohRemoteClient.t :=
  HottohRemoteClient.set__writeParameters [[lit "5"; lit "1"]]
    (HottohRemoteClient.set___isConnected true HottohRemoteClient.new).

Definition sample_info : delivery :=
  {| before := [bytes "HOTTOH;1"]; last := bytes (".7;42" ++ line_feed) |}.
Definition sample_data : delivery :=
  {| before := []; last := bytes ("0;1;2" ++ line_feed) |}.
Definition sample_data2 : delivery :=
  {| before := []; last := bytes ("2;0;0" ++ line_feed) |}.
Definition sample_ack : delivery :=
  {| before := []; last := bytes ("OK" ++ line_feed) |}.

(** A cycle waiting for its second read: [_info] is new, the request for
    [_data] is in flight. *)
Definition sample_reading : HottohRemoteClient.t :=
  HottohRemoteClient.set_inFlight
    [{| HottohRemoteClient.timeout := 1;
        HottohRemoteClient.awaited_at := HottohRemoteClient.AwaitData |}]
    (HottohRemoteClient.set_nextTimer 2
       (HottohRemoteClient.set__info (Some [lit "HOTTOH"; lit "1.7"; lit "42"])
          sample_client)).


(** ** The action of each lifecycle state, and the bits of the stove type *)

(** What [getAction] answers for each member of [StoveState]. *)
Definition action_name (s : Const.StoveState) : string :=
  match s with
  | Const.STATUS_OFF | Const.STATUS_BLACK_OUT | Const.STATUS_ECO_STOP_2
  | Const.STATUS_ECO_STOP_3 => "off"
  | Const.STATUS_STARTING_1 => "check"
  | Const.STATUS_STARTING_2 => "clean_all"
  | Const.STATUS_STARTING_3 => "loading"
  | Const.STATUS_STARTING_4 | Const.STATUS_STARTING_5 => "waiting"
  | Const.STATUS_STARTING_6 => "ignition"
  | Const.STATUS_STARTING_7 => "stabilization"
  | Const.STATUS_POWER => "heating"
  | Const.STATUS_STOPPING_1 | Const.STATUS_STOPPING_2 => "stopping"
  | Const.STATUS_ECO_STOP_1 => "idle"
  | Const.STATUS_LOW_PELLET => "low_pellet"
  | Const.STATUS_END_PELLET => "end_pellet"
  | Const.STATUS_INGNITION_FAILED => "error_ignition_failed"
  | Const.STATUS_ANTI_FREEZE => "anti_freeze"
  | Const.STATUS_COVER_OPEN => "error_cover_open"
  | Const.STATUS_NO_PELLET => "error_no_pellet"
  end.

(** Bit [k] of a stove type, bit 0 the least significant; [NaN] has none. *)
Definition type_bit (n : number) (k : Z) : bool :=
  match n with
  | NaN => false
  | Int z => Z.testbit z k
  end.

(** The two bits above bit 12 of a stove type, as a number. *)
Definition fan_bits (n : number) : Z :=
  match n with
  | NaN => 0
  | Int z => (z / 4096) mod 4
  end.

(** The integers a double holds exactly, [Number.isSafeInteger]; the numbers
    of the model stand for the numbers of the program within this range. *)
Definition safe_integer (n : number) : Prop :=
  match n with
  | NaN => True
  | Int z => - (2 ^ 53) < z < 2 ^ 53
  end.

(** A client that holds the given second data snapshot and nothing else. *)
Definition with_data2 (fields : list jsstring) : Hottoh.t :=
  {| Hottoh.client :=
       HottohRemoteClient.set__data2 (Some fields) HottohRemoteClient.new |}.

(** ** Strings and bytes *)

(** The code units of a JavaScript string are 16-bit numbers. *)
Definition code_units (s : jsstring) : Prop :=
  Forall (fun c => 0 <= c < 65536) s.

(** A string of ASCII characters. *)
Definition ascii_text (s : jsstring) : Prop := Forall (fun c => c < 0x80) s.

(** The byte of the line feed. *)
Definition line_feed_byte : byte := x0a.

(** A string of code units with no line feed among them. *)
Definition line_text (s : jsstring) : Prop :=
  Forall (fun c => 0 <= c < 65536 /\ c <> newline) s.

(** ** Events and states of the client, for the properties *)

(** The events that neither call [start] nor report a connection. *)
Definition passive (e : HottohRemoteClient.event) : Prop :=
  match e with
  | HottohRemoteClient.call_start _ | HottohRemoteClient.socket_on_connect =>
      False
  | _ => True
  end.

(** What is pending on the client's behalf: the handlers of ['connect'], the
    requests in flight and the [loop] timers. *)
Definition pending (c : HottohRemoteClient.t) : nat :=
  HottohRemoteClient.connectHandlers c
  + List.length (HottohRemoteClient.inFlight c)
  + List.length (HottohRemoteClient.loopTimers c).

(** The events of a session in which [start] is not called again and
    [socket.connect] does not throw. *)
Definition orderly (e : HottohRemoteClient.event) : Prop :=
  match e with
  | HottohRemoteClient.call_start _ => False
  | HottohRemoteClient.loop_timer_fires _ (HottohRemoteClient.connect_throws _) =>
      False
  | _ => True
  end.


(** ** Poll cycles, as the socket answers them *)

(** A response and the line it carries. *)
Record exchange := {
  exchange_chunks : delivery;
  exchange_line : jsstring
}.

Definition arrives (x : exchange) : Prop :=
  delivers [] (exchange_chunks x) (exchange_line x).

(** The three responses of a cycle. *)
Record poll := {
  poll_info : exchange;
  poll_data : exchange;
  poll_data2 : exchange
}.

Definition answered (p : poll) : Prop :=
  arrives (poll_info p) /\ arrives (poll_data p) /\ arrives (poll_data2 p).

(** The snapshots a cycle leaves. *)
Definition polled (p : poll) :=
  (Some (HottohRemoteClient._extractData (exchange_line (poll_info p))),
   Some (HottohRemoteClient._extractData (exchange_line (poll_data p))),
   Some (HottohRemoteClient._extractData (exchange_line (poll_data2 p)))).

(** The three reads of a cycle. *)
Definition reads : list Buffer :=
  [frame (lit "INF") CommandMode.READ [lit ""];
   frame (lit "DAT") CommandMode.READ [lit "0"];
   frame (lit "DAT") CommandMode.READ [lit "2"]].

(** The events of cycle after cycle: the responses of a cycle, then its
    1000 ms timer.  A cycle whose first timer handle is [h] uses [h], [h+1]
    and [h+2] for its requests and [h+3] for the timer. *)
Fixpoint polling (h : nat) (cycles : list poll)
  : list HottohRemoteClient.event :=
  match cycles with
  | [] => []
  | p :: rest =>
      data_events [exchange_chunks (poll_info p);
                   exchange_chunks (poll_data p);
                   exchange_chunks (poll_data2 p)]
      ++ HottohRemoteClient.loop_timer_fires (h + 3)
           HottohRemoteClient.connecting
      :: polling (h + 4) rest
  end.

(** The snapshots after the cycles, [before] if there was none. *)
Definition last_polled (before_them : option (list jsstring)
                                      * option (list jsstring)
                                      * option (list jsstring))
  (cycles : list poll) :=
  match rev cycles with
  | p :: _ => polled p
  | [] => before_them
  end.

(** ** The command each setter queues *)

Section SetterTable.

Variable String_of_command : HottohCommands.StoveCommands -> jsstring.
Variable double : Type.
Variable times_ten : double -> double.
Variable String_of_number : double -> jsstring.

(** The register a setter writes and the value it gives it. *)
Definition queued (s : HottohCommands.setter double) : list jsstring :=
  match s with
  | HottohCommands.call_setTemperature value =>
      [String_of_command HottohCommands.PARAM_AMBIANCE_TEMPERATURE_1;
       String_of_number (times_ten value)]
  | HottohCommands.call_setWaterTemperature value =>
      [String_of_command HottohCommands.INCONNU_4;
       String_of_number (times_ten value)]
  | HottohCommands.call_setPowerLevel value =>
      [String_of_command HottohCommands.PARAM_NIVEAU_PUISSANCE;
       String_of_number value]
  | HottohCommands.call_setSpeedFan1 value =>
      [String_of_command HottohCommands.PARAM_NIVEAU_FAN_1;
       String_of_number value]
  | HottohCommands.call_setSpeedFan2 value =>
      [String_of_command HottohCommands.PARAM_NIVEAU_FAN_2;
       String_of_number value]
  | HottohCommands.call_setSpeedFan3 value =>
      [String_of_command HottohCommands.PARAM_NIVEAU_FAN_3;
       String_of_number value]
  | HottohCommands.call_setEcoModeOn =>
      [String_of_command HottohCommands.PARAM_ECO_MODE; lit "1"]
  | HottohCommands.call_setEcoModeOff =>
      [String_of_command HottohCommands.PARAM_ECO_MODE; lit "0"]
  | HottohCommands.call_setChronoModeOn =>
      [String_of_command HottohCommands.PARAM_CHRONO_ON_OFF; lit "1"]
  | HottohCommands.call_setChronoModeOff =>
      [String_of_command HottohCommands.PARAM_CHRONO_ON_OFF; lit "0"]
  | HottohCommands.call_setOn =>
      [String_of_command HottohCommands.PARAM_ON_OFF; lit "1"]
  | HottohCommands.call_setOff =>
      [String_of_command HottohCommands.PARAM_ON_OFF; lit "0"]
  end.

End SetterTable.

(** Commands and numbers for the examples: the codes are decimal numbers,
    the values integers. *)
Definition sample_commands (c : HottohCommands.StoveCommands) : jsstring :=
  match c with
  | HottohCommands.PARAM_AMBIANCE_TEMPERATURE_1 => lit "1"
  | HottohCommands.INCONNU_4 => lit "4"
  | HottohCommands.PARAM_NIVEAU_PUISSANCE => lit "2"
  | HottohCommands.PARAM_NIVEAU_FAN_1 => lit "3"
  | HottohCommands.PARAM_NIVEAU_FAN_2 => lit "5"
  | HottohCommands.PARAM_NIVEAU_FAN_3 => lit "6"
  | HottohCommands.PARAM_ECO_MODE => lit "7"
  | HottohCommands.PARAM_CHRONO_ON_OFF => lit "8"
  | HottohCommands.PARAM_ON_OFF => lit "0"
  end.

(** A call that returns a value, that is, does not throw. *)
Definition returns {A} (m : completion A) : Prop := exists v, m = Normal v.

(** The earlier client after [stop()] has set its flag. *)
Definition ended (s : LegacyClient.t) : LegacyClient.t :=
  {| LegacyClient.client :=
       HottohRemoteClient.set___endRequest true (LegacyClient.client s);
     LegacyClient.errorListeners := LegacyClient.errorListeners s |}.

Definition is_start (e : HottohRemoteClient.event) : bool :=
  match e with
  | HottohRemoteClient.call_start _ => true
  | _ => false
  end.

(** The events other than the calls of [start()]. *)
Definition without_start (events : list HottohRemoteClient.event)
  : list HottohRemoteClient.event :=
  filter (fun e => negb (is_start e)) events.

(** A computation that neither reads nor writes [__endRequest]. *)
Definition framed {A} (m : HottohRemoteClient.M A) : Prop :=
  forall c,
    m (HottohRemoteClient.set___endRequest true c)
    = let '(r, c', o) := m c in
      (r, HottohRemoteClient.set___endRequest true c', o).

Definition respects {A} (m : LegacyClient.L A) : Prop :=
  forall s, m (ended s) = let '(r, s', o) := m s in (r, ended s', o).

(** Attempts that fail one after the other: an ['error'] event, then the
    [k] timers it has set fire, from handle [h] on, and [socket.connect]
    returns each time. *)
Fixpoint failures (errors : list error) (h k : nat)
  : list HottohRemoteClient.event :=
  match errors with
  | [] => []
  | e :: rest =>
      HottohRemoteClient.socket_on_error e
      :: map (fun i => HottohRemoteClient.loop_timer_fires i
                         HottohRemoteClient.connecting) (seq h k)
      ++ failures rest (h + k) (2 * k)
  end.

(** What the next events of a client that retries depend on: [k] listeners
    of [__connect], no request in flight, the timers of [loop] that are
    pending, the next timer handle and the callbacks waiting for
    ['connect']. *)
Definition retrying (s : LegacyClient.t) (k : nat) (timers : list (nat * Z))
    (h m : nat) : Prop :=
  LegacyClient.errorListeners s = repeat LegacyClient.retry k /\
  HottohRemoteClient.inFlight (LegacyClient.client s) = [] /\
  HottohRemoteClient.loopTimers (LegacyClient.client s) = timers /\
  HottohRemoteClient.nextTimer (LegacyClient.client s) = h /\
  HottohRemoteClient.connectHandlers (LegacyClient.client s) = m.

Definition timers_from (h k : nat) : list (nat * Z) :=
  map (fun i => (i, 5000)) (seq h k).

(** The timers of [loop] fire one after the other, from handle [h] on. *)
Fixpoint retries_from (h : nat) (outcomes : list HottohRemoteClient.connect_call)
  : list Disposal.event :=
  match outcomes with
  | [] => []
  | o :: rest =>
      Disposal.of_session (HottohRemoteClient.loop_timer_fires h o)
      :: retries_from (S h) rest
  end.

(** A client without socket that waits for the timer [h] to try again. *)
Definition waits_without_socket (s : Disposal.t) (h : nat) : Prop :=
  Disposal._socket_null s = true
  /\ HottohRemoteClient.__endRequest (Disposal.client s) = false
  /\ HottohRemoteClient.__isConnected (Disposal.client s) = false
  /\ HottohRemoteClient._loopTimeout (Disposal.client s) = Some h
  /\ (exists l,
        HottohRemoteClient.loopTimers (Disposal.client s) = l ++ [(h, 5000)])
  /\ HottohRemoteClient.nextTimer (Disposal.client s) = S h.

(** A client disposed of while the request for [_data] is in flight. *)
Definition sample_in_use : Disposal.t :=
  {| Disposal.client := sample_reading;
     Disposal._socket_null := false;
     Disposal.orphans := [] |}.

(** A response that is an empty line. *)
Definition sample_empty_line : delivery :=
  {| before := []; last := bytes line_feed |}.

(** A client that is not polling: no handler of ['connect'], no request in
    flight and no timer of [loop] is pending. *)
Definition at_rest (c : HottohRemoteClient.t) : Prop :=
  HottohRemoteClient.connectHandlers c = 0%nat
  /\ HottohRemoteClient.inFlight c = []
  /\ HottohRemoteClient.loopTimers c = [].
(** * Properties *)

(** ** The table-driven checksum computes CRC-16/CCITT-FALSE *)

Section CrcRefinement.

Lemma land_lxor_distr a b c :
  Z.land (Z.lxor a b) c = Z.lxor (Z.land a c) (Z.land b c).
Proof.
  apply Z.bits_inj'; intros n _.
  rewrite !Z.land_spec, !Z.lxor_spec, !Z.land_spec.
  destruct (Z.testbit a n), (Z.testbit b n), (Z.testbit c n); reflexivity.
Qed.

Lemma lxor_bound n a b :
  0 <= n -> 0 <= a < 2 ^ n -> 0 <= b < 2 ^ n -> 0 <= Z.lxor a b < 2 ^ n.
Proof.
  intros Hn Ha Hb.
  assert (H0 : 0 <= Z.lxor a b) by (apply Z.lxor_nonneg; lia).
  split; [exact H0|].
  destruct (Z.eq_dec (Z.lxor a b) 0) as [E|E]; [rewrite E; lia|].
  assert (Hn' : 0 < n).
  { destruct (Z.eq_dec n 0) as [->|]; [|lia].
    change (2 ^ 0) with 1 in *.
    assert (a = 0) by lia. assert (b = 0) by lia. subst. contradiction E.
    reflexivity. }
  apply Z.log2_lt_pow2; [lia|].
  pose proof (Z.log2_lxor a b ltac:(lia) ltac:(lia)) as Hl.
  assert (Z.log2 a < n).
  { destruct (Z.eq_dec a 0) as [->|]; [simpl; lia|apply Z.log2_lt_pow2; lia]. }
  assert (Z.log2 b < n).
  { destruct (Z.eq_dec b 0) as [->|]; [simpl; lia|apply Z.log2_lt_pow2; lia]. }
  lia.
Qed.

Lemma Z_of_byte_range b : 0 <= Z_of_byte b < 256.
Proof.
  unfold Z_of_byte. pose proof (Byte.to_N_bounded b) as H.
  generalize dependent (Byte.to_N b). intros; lia.
Qed.

Lemma in_zrange n : forall start x,
  start <= x < start + Z.of_nat n -> In x (zrange n start).
Proof.
  induction n as [|n IH]; intros start x Hx.
  - lia.
  - cbn [zrange]. destruct (Z.eq_dec start x) as [->|Hne].
    + now left.
    + right. apply IH. lia.
Qed.

Ltac by_bits :=
  apply Z.bits_inj'; intros ?n ?Hn;
  repeat rewrite ?Z.lxor_spec, ?Z.land_spec;
  repeat match goal with
         | |- context [Z.testbit ?a ?n] => destruct (Z.testbit a n)
         end;
  reflexivity.

(** The register shift is linear over exclusive-or. *)
Lemma shift_lxor a b :
  CcittFalse.shift (Z.lxor a b)
  = Z.lxor (CcittFalse.shift a) (CcittFalse.shift b).
Proof.
  unfold CcittFalse.shift.
  rewrite Z.lxor_spec, Z.shiftl_lxor.
  change 65536 with (2 ^ 16). rewrite <- !Z.land_ones by lia.
  rewrite land_lxor_distr.
  generalize (Z.land (Z.shiftl a 1) (Z.ones 16)).
  generalize (Z.land (Z.shiftl b 1) (Z.ones 16)).
  generalize CcittFalse.poly. intros p mb ma.
  destruct (Z.testbit a 15), (Z.testbit b 15); cbn [xorb]; by_bits.
Qed.

Lemma shift8_lxor a b :
  CcittFalse.shift8 (Z.lxor a b)
  = Z.lxor (CcittFalse.shift8 a) (CcittFalse.shift8 b).
Proof. unfold CcittFalse.shift8. now rewrite !shift_lxor. Qed.

(** A register value is its high byte moved up, exclusive-or its low byte. *)
Lemma high_low_bytes x :
  x = Z.lxor (Z.shiftl (Z.shiftr x 8) 8) (Z.land x 0xff).
Proof.
  apply Z.bits_inj'; intros n Hn.
  change 0xff with (Z.ones 8).
  rewrite Z.lxor_spec, Z.land_spec, Z.shiftl_spec by lia.
  destruct (Z.lt_ge_cases n 8) as [Hlt|Hge].
  - rewrite (Z.testbit_neg_r _ (n - 8)) by lia.
    rewrite Z.ones_spec_low by lia.
    now rewrite andb_true_r.
  - rewrite Z.shiftr_spec by lia.
    rewrite Z.ones_spec_high by lia.
    replace (n - 8 + 8) with n by lia.
    now rewrite andb_false_r, xorb_false_r.
Qed.

(** The table holds the register after eight shifts of a high byte ... *)
Lemma shift8_high_all :
  forallb (fun h => CcittFalse.shift8 (Z.shiftl h 8)
                    =? nth (Z.to_nat h) Crc.TABLE 0)
          (zrange 256 0) = true.
Proof. vm_compute. reflexivity. Qed.

(** ... and eight shifts move a low byte up unchanged. *)
Lemma shift8_low_all :
  forallb (fun l => CcittFalse.shift8 l =? Z.shiftl l 8) (zrange 256 0) = true.
Proof. vm_compute. reflexivity. Qed.

Lemma shift8_table x :
  0 <= x < 65536 -> CcittFalse.shift8 x = table_row x.
Proof.
  intros Hx.
  assert (Hh : 0 <= Z.shiftr x 8 < 256).
  { rewrite Z.shiftr_div_pow2 by lia. change (2 ^ 8) with 256.
    split; [apply Z.div_pos; lia|apply Z.div_lt_upper_bound; lia]. }
  assert (Hl : 0 <= Z.land x 0xff < 256).
  { change 0xff with (Z.ones 8). rewrite Z.land_ones by lia.
    apply Z.mod_pos_bound. lia. }
  rewrite (high_low_bytes x) at 1.
  rewrite shift8_lxor. unfold table_row.
  pose proof shift8_high_all as H1. pose proof shift8_low_all as H2.
  rewrite forallb_forall in H1, H2.
  f_equal.
  - apply Z.eqb_eq, H1, in_zrange. lia.
  - apply Z.eqb_eq, H2, in_zrange. lia.
Qed.

Lemma table_entries_16bit :
  forallb (fun t => (0 <=? t) && (t <? 65536)) Crc.TABLE = true.
Proof. vm_compute. reflexivity. Qed.

Lemma table_nth_range i : 0 <= nth i Crc.TABLE 0 < 65536.
Proof.
  destruct (Nat.lt_ge_cases i (List.length Crc.TABLE)) as [Hi|Hi].
  - pose proof table_entries_16bit as H.
    rewrite forallb_forall in H.
    specialize (H _ (nth_In Crc.TABLE 0 Hi)).
    apply andb_true_iff in H. lia.
  - rewrite nth_overflow by exact Hi. lia.
Qed.

Lemma update_range crc b : 0 <= Crc.update crc b < 65536.
Proof.
  unfold Crc.update.
  change 0xffff with (Z.ones 16).
  rewrite Z.land_ones by lia.
  apply Z.mod_pos_bound. lia.
Qed.

(** One round of the library loop is one byte fed to the shift register. *)
Lemma update_feed crc b :
  0 <= crc < 65536 -> Crc.update crc b = CcittFalse.feed crc b.
Proof.
  intros Hc.
  pose proof (Z_of_byte_range b) as Hb.
  set (B := Z_of_byte b) in *.
  assert (Hs : 0 <= Z.shiftl B 8 < 2 ^ 16).
  { rewrite Z.shiftl_mul_pow2 by lia. change (2 ^ 8) with 256.
    change (2 ^ 16) with 65536. lia. }
  assert (Hx : 0 <= Z.lxor crc (Z.shiftl B 8) < 65536).
  { apply (lxor_bound (n:=16)); [lia| |exact Hs]. change (2 ^ 16) with 65536. lia. }
  unfold CcittFalse.feed. fold B.
  rewrite shift8_table by exact Hx.
  unfold table_row, Crc.update. fold B.
  (* the index *)
  assert (Hhi : 0 <= Z.shiftr crc 8 < 2 ^ 8).
  { rewrite Z.shiftr_div_pow2 by lia. change (2 ^ 8) with 256.
    split; [apply Z.div_pos; lia|apply Z.div_lt_upper_bound; lia]. }
  assert (Hidx : Z.land (Z.lxor (Z.shiftr crc 8) B) 0xff
                 = Z.shiftr (Z.lxor crc (Z.shiftl B 8)) 8).
  { rewrite Z.shiftr_lxor, Z.shiftr_shiftl_l by lia.
    change (8 - 8) with 0. rewrite Z.shiftl_0_r.
    change 0xff with (Z.ones 8). rewrite Z.land_ones by lia.
    apply Z.mod_small.
    apply (lxor_bound (n:=8)); [lia|exact Hhi|]. change (2 ^ 8) with 256. lia. }
  rewrite Hidx.
  set (T := nth _ Crc.TABLE 0).
  assert (HT : 0 <= T < 65536) by apply table_nth_range.
  (* the low byte moves up *)
  rewrite !land_lxor_distr.
  f_equal.
  - change 0xffff with (Z.ones 16). rewrite Z.land_ones by lia.
    apply Z.mod_small. change (2 ^ 16) with 65536. lia.
  - assert (Hz : Z.land (Z.shiftl B 8) 0xff = 0).
    { change 0xff with (Z.ones 8). rewrite Z.land_ones by lia.
      rewrite Z.shiftl_mul_pow2 by lia. apply Z.mod_mul. lia. }
    rewrite Hz, Z.lxor_0_r.
    change 0xffff with (Z.ones 16). change 0xff with (Z.ones 8).
    rewrite !Z.land_ones by lia.
    rewrite !Z.shiftl_mul_pow2 by lia.
    change (2 ^ 16) with (2 ^ 8 * 2 ^ 8).
    rewrite Z.mul_mod_distr_r by lia. reflexivity.
Qed.

Lemma fold_update_feed data : forall crc,
  0 <= crc < 65536 ->
  fold_left Crc.update data crc = fold_left CcittFalse.feed data crc
  /\ 0 <= fold_left Crc.update data crc < 65536.
Proof.
  induction data as [|b data IH]; intros crc Hc; simpl.
  - split; [reflexivity|exact Hc].
  - rewrite <- update_feed by exact Hc.
    apply IH, update_range.
Qed.

(** The library function is CRC-16/CCITT-FALSE. *)
Lemma crc16ccitt_is_ccitt_false data :
  Crc.crc16ccitt data = CcittFalse.checksum data.
Proof.
  unfold Crc.crc16ccitt, CcittFalse.checksum, CcittFalse.init.
  apply fold_update_feed. lia.
Qed.

Lemma crc16ccitt_range data : 0 <= Crc.crc16ccitt data < 65536.
Proof. unfold Crc.crc16ccitt. apply fold_update_feed. lia. Qed.

End CrcRefinement.

(** ** Hexadecimal rendering *)

Section Hexadecimal.

Lemma to_digits_app fuel : forall n acc,
  to_digits fuel 16 n acc = to_digits fuel 16 n [] ++ acc.
Proof.
  induction fuel as [|fuel IH]; intros n acc; cbn [to_digits].
  - reflexivity.
  - destruct (n / 16 =? 0); [reflexivity|].
    rewrite (IH _ (_ :: acc)), (IH _ [_]), <- app_assoc. reflexivity.
Qed.

Lemma to_digits_S fuel n :
  to_digits (S fuel) 16 n [] =
  if n / 16 =? 0 then [digit_char (n mod 16)]
  else to_digits fuel 16 (n / 16) [] ++ [digit_char (n mod 16)].
Proof.
  cbn [to_digits]. destruct (n / 16 =? 0); [reflexivity|apply to_digits_app].
Qed.

Lemma upper_digit d :
  0 <= d < 16 ->
  let c := (if (97 <=? digit_char d) && (digit_char d <=? 122)
            then digit_char d - 32 else digit_char d) in
  is_upper_hex_digit c = true /\ hex_digit_value c = d.
Proof.
  intros Hd. unfold digit_char, is_upper_hex_digit, hex_digit_value.
  destruct (d <? 10) eqn:E; [apply Z.ltb_lt in E|apply Z.ltb_ge in E].
  - replace ((97 <=? 48 + d) && (48 + d <=? 122)) with false
      by (symmetry; apply andb_false_iff; left; apply Z.leb_gt; lia).
    cbv zeta. split.
    + apply orb_true_iff; left; apply andb_true_iff; split; apply Z.leb_le; lia.
    + replace (48 + d <=? 57) with true by (symmetry; apply Z.leb_le; lia). lia.
  - replace ((97 <=? 97 + (d - 10)) && (97 + (d - 10) <=? 122)) with true
      by (symmetry; apply andb_true_iff; split; apply Z.leb_le; lia).
    cbv zeta. split.
    + apply orb_true_iff; right; apply andb_true_iff; split; apply Z.leb_le; lia.
    + replace (97 + (d - 10) - 32 <=? 57) with false
        by (symmetry; apply Z.leb_gt; lia). lia.
Qed.

Lemma hex_value_snoc s c :
  hex_value (s ++ [c]) = 16 * hex_value s + hex_digit_value c.
Proof. unfold hex_value. rewrite fold_left_app. reflexivity. Qed.

Lemma small_quotient n : 0 <= n -> n / 16 = 0 -> n < 16.
Proof.
  intros Hn Hq. pose proof (Z.div_mod n 16 ltac:(lia)) as E.
  pose proof (Z.mod_pos_bound n 16 ltac:(lia)). lia.
Qed.

(** The digits of [toString(16)], upper-cased, are hexadecimal digits that
    denote the number, and there are [hex_width] of them. *)
Lemma to_digits_correct fuel : forall n,
  0 <= n < 16 ^ Z.of_nat (S fuel) ->
  let s := toUpperCase (to_digits (S fuel) 16 n []) in
  forallb is_upper_hex_digit s = true /\ hex_value s = n
  /\ List.length s = hex_width n.
Proof.
  induction fuel as [|fuel IH]; intros n Hn; cbv zeta; rewrite to_digits_S;
    pose proof (Z.mod_pos_bound n 16 ltac:(lia)) as Hm;
    destruct (upper_digit Hm) as [Hc Hv]; cbv zeta in Hc, Hv;
    (destruct (n / 16 =? 0) eqn:E;
     [apply Z.eqb_eq in E|apply Z.eqb_neq in E]).
  1, 3:
    pose proof (small_quotient (proj1 Hn) E) as Hs;
    rewrite Z.mod_small in * by lia;
    cbn [toUpperCase map forallb]; rewrite Hc;
    unfold hex_value; cbn [fold_left]; rewrite Hv;
    repeat split; try reflexivity; try lia;
    unfold hex_width; cbn [List.length]; f_equal;
    (destruct (Z.eq_dec n 0) as [->|]; [reflexivity|]);
    assert (Z.log2 n < 4) by (apply Z.log2_lt_pow2; lia);
    pose proof (Z.log2_nonneg n);
    now rewrite Z.div_small by lia.
  - change (16 ^ Z.of_nat 1) with 16 in Hn.
    rewrite Z.div_small in E by lia. contradiction.
  - assert (Hq : 0 <= n / 16 < 16 ^ Z.of_nat (S fuel)).
    { split; [apply Z.div_pos; lia|].
      apply Z.div_lt_upper_bound; [lia|].
      rewrite (Nat2Z.inj_succ (S fuel)), Z.pow_succ_r in Hn by lia. lia. }
    destruct (IH _ Hq) as (Ha & Hb & Hl). cbv zeta in Ha, Hb, Hl.
    unfold toUpperCase in *. rewrite map_app. cbn [map].
    rewrite forallb_app, hex_value_snoc, length_app.
    cbn [forallb List.length]. rewrite Ha, Hb, Hc, Hv, Hl.
    repeat split; try reflexivity.
    + pose proof (Z.div_mod n 16 ltac:(lia)). lia.
    + unfold hex_width.
      assert (16 <= n).
      { destruct (Z.lt_ge_cases n 16); [|assumption].
        rewrite Z.div_small in E by lia. contradiction. }
      assert (4 <= Z.log2 n) by (apply Z.log2_le_pow2; lia).
      assert (Hlog : Z.log2 (n / 16) = Z.log2 n - 4).
      { change 16 with (2 ^ 4). rewrite <- Z.shiftr_div_pow2 by lia.
        rewrite Z.log2_shiftr by lia. lia. }
      rewrite Hlog.
      replace (Z.log2 n) with (Z.log2 n - 4 + 1 * 4) at 2 by lia.
      rewrite Z.div_add by lia.
      assert (0 <= (Z.log2 n - 4) / 4) by (apply Z.div_pos; lia).
      rewrite Z2Nat.inj_add by lia. cbn. lia.
Qed.

Lemma toString16_fuel n :
  0 <= n -> n < 16 ^ Z.of_nat (S (Z.to_nat (Z.log2 n))).
Proof.
  intros Hn.
  rewrite Nat2Z.inj_succ, Z2Nat.id by apply Z.log2_nonneg.
  destruct (Z.eq_dec n 0) as [->|Hne]; [reflexivity|].
  pose proof (Z.log2_spec n ltac:(lia)) as [_ Hlt].
  eapply Z.lt_le_trans; [exact Hlt|].
  apply Z.pow_le_mono_l. lia.
Qed.

Lemma upper_toString16 n :
  0 <= n ->
  let s := toUpperCase (toString16 n) in
  forallb is_upper_hex_digit s = true /\ hex_value s = n
  /\ List.length s = hex_width n.
Proof.
  intros Hn. unfold toString16.
  apply to_digits_correct. split; [exact Hn|apply toString16_fuel, Hn].
Qed.

Lemma hex_value_zeros k s : hex_value (repeat 48 k ++ s) = hex_value s.
Proof.
  unfold hex_value. rewrite fold_left_app.
  replace (fold_left _ (repeat 48 k) 0) with 0; [reflexivity|].
  induction k as [|k IH]; [reflexivity|]. cbn. exact IH.
Qed.

(** [n.toString(16).toUpperCase().padStart(4, '0')]: upper-case hexadecimal
    digits that denote [n], four of them or as many as [n] needs. *)
Lemma hex4_correct n :
  0 <= n ->
  let s := padStart 4 48 (toUpperCase (toString16 n)) in
  forallb is_upper_hex_digit s = true /\ hex_value s = n
  /\ List.length s = Nat.max 4 (hex_width n).
Proof.
  intros Hn. destruct (upper_toString16 Hn) as (Ha & Hb & Hl).
  cbv zeta in *. unfold padStart.
  rewrite forallb_app, hex_value_zeros, length_app, repeat_length, Ha, Hb, Hl.
  repeat split; [|lia].
  rewrite andb_true_r.
  generalize (4 - hex_width n)%nat. intros k.
  induction k as [|k IH]; [reflexivity|exact IH].
Qed.

Lemma hex_width_16bit n : 0 <= n < 65536 -> (hex_width n <= 4)%nat.
Proof.
  intros Hn. unfold hex_width.
  destruct (Z.eq_dec n 0) as [->|]; [cbn; lia|].
  assert (Z.log2 n < 16) by (apply Z.log2_lt_pow2; lia).
  pose proof (Z.log2_nonneg n).
  assert (Z.log2 n / 4 < 4) by (apply Z.div_lt_upper_bound; lia).
  assert (0 <= Z.log2 n / 4) by (apply Z.div_pos; lia).
  lia.
Qed.

Lemma hex_width_large n : 65536 <= n -> (4 < hex_width n)%nat.
Proof.
  intros Hn. unfold hex_width.
  assert (16 <= Z.log2 n) by (apply Z.log2_le_pow2; lia).
  assert (4 <= Z.log2 n / 4) by (apply Z.div_le_lower_bound; lia).
  lia.
Qed.

End Hexadecimal.

(** ** The request frame *)

Section RequestFrame.

Lemma lit_semicolon : lit ";" = [semicolon].
Proof. reflexivity. Qed.

Lemma getCrc_correct message :
  let checksum := Request._getCrc message in
  forallb is_upper_hex_digit checksum = true
  /\ hex_value checksum = CcittFalse.checksum (Buffer_from_utf8 message)
  /\ List.length checksum = 4%nat.
Proof.
  cbv zeta. unfold Request._getCrc.
  pose proof (crc16ccitt_range (Buffer_from_utf8 message)) as Hr.
  destruct (hex4_correct (proj1 Hr)) as (Ha & Hb & Hl). cbv zeta in Ha, Hb, Hl.
  rewrite Ha, Hb, Hl, crc16ccitt_is_ccitt_false.
  repeat split.
  rewrite <- crc16ccitt_is_ccitt_false.
  pose proof (hex_width_16bit Hr). lia.
Qed.

Lemma lenParameters_correct paramString :
  let n := Z.of_nat (List.length paramString) in
  let paramLength := Request.lenParameters paramString in
  forallb is_upper_hex_digit paramLength = true
  /\ hex_value paramLength = n
  /\ List.length paramLength = Nat.max 4 (hex_width n).
Proof.
  cbv zeta. unfold Request.lenParameters.
  apply hex4_correct. lia.
Qed.

End RequestFrame.

(** C1, as the code has it.  For every command, mode and parameter list the
    request is ["#" ++ body ++ checksum ++ "\n"] with
    [body = "00000" ++ "C---" ++ paramLength ++ command ++ mode ++ joined],
    where [joined] is the parameters joined with [";"] plus a trailing [";"];
    [paramLength] is the number of UTF-16 code units of [joined] in upper-case
    hexadecimal digits, padded with zeros to four digits and longer when the
    number needs more than four; [checksum] is the CRC-16/CCITT-FALSE of the
    UTF-8 bytes of [body] in exactly four upper-case hexadecimal digits. *)
Theorem encode_frame (command mode : jsstring) (parameters : list jsstring)
  (id : Z) :
  let joined := join semicolon parameters ++ lit ";" in
  let n := Z.of_nat (List.length joined) in
  exists paramLength checksum : jsstring,
    let body :=
      lit "00000" ++ lit "C---" ++ paramLength ++ command ++ mode ++ joined in
    Request.request (Request.new command mode parameters id)
    = lit "#" ++ body ++ checksum ++ [newline]
    /\ forallb is_upper_hex_digit paramLength = true
    /\ hex_value paramLength = n
    /\ List.length paramLength = Nat.max 4 (hex_width n)
    /\ (n < 65536 -> List.length paramLength = 4%nat)
    /\ forallb is_upper_hex_digit checksum = true
    /\ hex_value checksum = CcittFalse.checksum (Buffer_from_utf8 body)
    /\ List.length checksum = 4%nat.
Proof.
  cbv zeta.
  set (joined := join semicolon parameters ++ lit ";").
  exists (Request.lenParameters joined).
  exists (Request._getCrc
            (lit "00000" ++ lit "C---" ++ Request.lenParameters joined
               ++ command ++ mode ++ joined)).
  destruct (lenParameters_correct joined) as (Ha & Hb & Hl).
  cbv zeta in Ha, Hb, Hl.
  match goal with
  | |- context [Request._getCrc ?m] =>
      destruct (getCrc_correct m) as (Hc & Hd & He)
  end.
  cbv zeta in Hc, Hd, He.
  repeat split; try assumption.
  intros Hn. rewrite Hl.
  pose proof (hex_width_16bit (n:=Z.of_nat (List.length joined))
                ltac:(lia)).
  lia.
Qed.

(** The request that reads block 0: ["#00000C---0002DATR0;B6FC\n"]. *)
Lemma encode_frame_witness :
  exists paramLength checksum : jsstring,
    Request.request (Request.new (lit "DAT") CommandMode.READ [lit "0"] 0)
    = lit "#" ++ (lit "00000" ++ lit "C---" ++ paramLength ++ lit "DAT"
                    ++ CommandMode.READ ++ lit "0;")
        ++ checksum ++ [newline]
    /\ hex_value paramLength = 2
    /\ List.length paramLength = 4%nat
    /\ List.length checksum = 4%nat.
Proof.
  destruct (encode_frame (lit "DAT") CommandMode.READ [lit "0"] 0)
    as (paramLength & checksum & E & _ & Hv & _ & Hl & _ & _ & Hc).
  exists paramLength, checksum.
  split; [exact E|]. split; [exact Hv|]. split; [|exact Hc].
  apply Hl. reflexivity.
Defined.

(** A joined string of 65536 code units or more does not fit a four-digit
    length field. *)
Lemma long_parameters_length_field (command mode : jsstring)
  (parameters : list jsstring) (id : Z) :
  let joined := join semicolon parameters ++ lit ";" in
  65536 <= Z.of_nat (List.length joined) ->
  ~ exists paramLength checksum : jsstring,
      List.length paramLength = 4%nat
      /\ List.length checksum = 4%nat
      /\ Request.request (Request.new command mode parameters id)
         = lit "#" ++ (lit "00000" ++ lit "C---" ++ paramLength
                         ++ command ++ mode ++ joined)
             ++ checksum ++ [newline].
Proof.
  cbv zeta. intros Hlong (paramLength & checksum & H4 & C4 & E).
  apply (f_equal (@List.length Z)) in E.
  cbn [Request.request Request.new] in E.
  unfold Request._buildRawPacket, Request._getRawData,
    Request._getParameters in E.
  match type of E with
  | context [Request._getCrc ?m] =>
      destruct (getCrc_correct m) as (_ & _ & He)
  end.
  destruct (lenParameters_correct (join semicolon parameters ++ lit ";"))
    as (_ & _ & Hl).
  cbv zeta in He, Hl.
  revert E He Hl Hlong.
  generalize (Request._getCrc
    (lit "00000" ++ lit "C---"
       ++ Request.lenParameters (join semicolon parameters ++ lit ";")
       ++ command ++ mode ++ join semicolon parameters ++ lit ";")).
  generalize (Request.lenParameters (join semicolon parameters ++ lit ";")).
  generalize (join semicolon parameters ++ lit ";").
  intros joined len crc E He Hl Hlong.
  repeat rewrite ?length_app, ?length_cons in E.
  pose proof (hex_width_large Hlong).
  lia.
Qed.

(** C1 as stated fails on a long parameter: with one parameter of 65535
    characters the joined string has 65536 code units, the length field is
    ["10000"], and no frame with a four-digit length field is the request. *)
Lemma encode_length_field_five_digits :
  let parameters := [repeat 97 (Z.to_nat 65535)] in
  let joined := join semicolon parameters ++ lit ";" in
  Request.lenParameters joined = lit "10000"
  /\ ~ exists paramLength checksum : jsstring,
         List.length paramLength = 4%nat
         /\ List.length checksum = 4%nat
         /\ Request.request
              (Request.new (lit "DAT") CommandMode.READ parameters 0)
            = lit "#" ++ (lit "00000" ++ lit "C---" ++ paramLength
                            ++ lit "DAT" ++ CommandMode.READ ++ joined)
                ++ checksum ++ [newline].
Proof.
  cbv zeta. split.
  - vm_compute. reflexivity.
  - apply long_parameters_length_field.
    cbn [join]. rewrite length_app, repeat_length.
    change (List.length (lit ";")) with 1%nat. lia.
Qed.

(** ** Joining and splitting the parameters *)

Section JoinSplit.

Lemma split_no_separator sep p :
  includes sep p = false -> split sep p = [p].
Proof.
  induction p as [|c p IH]; intros H; [reflexivity|].
  cbn in H |- *. apply orb_false_iff in H. destruct H as [Hc Hp].
  rewrite Z.eqb_sym, Hc, (IH Hp). reflexivity.
Qed.

Lemma split_app_separator sep p rest :
  includes sep p = false ->
  split sep (p ++ sep :: rest) = p :: split sep rest.
Proof.
  induction p as [|c p IH]; intros H.
  - cbn. now rewrite Z.eqb_refl.
  - cbn in H |- *. apply orb_false_iff in H. destruct H as [Hc Hp].
    rewrite Z.eqb_sym, Hc, (IH Hp). reflexivity.
Qed.

Lemma split_join_trailing sep parameters :
  parameters <> [] ->
  Forall (fun p => includes sep p = false) parameters ->
  split sep (join sep parameters ++ [sep]) = parameters ++ [[]].
Proof.
  induction parameters as [|p rest IH]; intros Hne Hall; [contradiction|].
  inversion Hall as [|? ? Hp Hrest]; subst.
  destruct rest as [|q rest].
  - cbn [join app]. now rewrite split_app_separator.
  - change (join sep (p :: q :: rest)) with (p ++ sep :: join sep (q :: rest)).
    rewrite <- app_assoc. cbn [app].
    rewrite split_app_separator by exact Hp.
    rewrite IH by (congruence || assumption). reflexivity.
Qed.

End JoinSplit.

(** C7, as the code has it.  For every non-empty parameter list whose
    parameters contain no [";"], splitting the joined-parameters text of the
    request on [";"], as the response decoder does, yields the parameters
    followed by one empty string: the trailing [";"] of the request closes the
    last parameter and opens an empty field. *)
Theorem split_joined_parameters (parameters : list jsstring) :
  parameters <> [] ->
  Forall (fun p => includes semicolon p = false) parameters ->
  HottohRemoteClient._extractData (Request._getParameters parameters)
  = parameters ++ [[]].
Proof.
  intros Hne Hall.
  unfold HottohRemoteClient._extractData, Request._getParameters.
  rewrite lit_semicolon. now apply split_join_trailing.
Qed.

Lemma split_joined_parameters_witness :
  HottohRemoteClient._extractData
    (Request._getParameters [lit "21"; lit "1"])
  = [lit "21"; lit "1"] ++ [[]].
Proof.
  apply split_joined_parameters.
  - discriminate.
  - repeat constructor.
Defined.

(** C7 as stated fails: the parameters of [DAT 0] do not come back. *)
Lemma split_joined_parameters_not_identity :
  HottohRemoteClient._extractData (Request._getParameters [lit "0"])
  <> [lit "0"].
Proof. vm_compute. discriminate. Qed.

(** The empty parameter list comes back as two empty strings. *)
Lemma split_joined_no_parameters :
  HottohRemoteClient._extractData (Request._getParameters []) = [[]; []].
Proof. reflexivity. Qed.

(** ** The response accumulator *)

Section Accumulator.
Import HottohRemoteClient.

Lemma includes_app c a b : includes c (a ++ b) = includes c a || includes c b.
Proof. unfold includes. apply existsb_app. Qed.

Lemma split_head_text_before c s : hd [] (split c s) = text_before c s.
Proof.
  induction s as [|x s IH]; [reflexivity|].
  cbn [split text_before]. destruct (x =? c); [reflexivity|].
  destruct (split c s) as [|h t] eqn:E; cbn in IH |- *; now rewrite <- IH.
Qed.

Lemma received_cons buffer data rest :
  received buffer (data :: rest)
  = received (buffer ++ Buffer_toString_utf8 data) rest.
Proof. unfold received. cbn [flat_map]. now rewrite app_assoc. Qed.

Lemma received_nil buffer : received buffer [] = buffer.
Proof. unfold received. cbn. apply app_nil_r. Qed.

Lemma includes_received_cons buffer data rest :
  includes newline (received buffer (data :: rest)) = false ->
  includes newline (buffer ++ Buffer_toString_utf8 data) = false.
Proof.
  rewrite received_cons. unfold received. rewrite includes_app.
  intros H. now apply orb_false_iff in H.
Qed.

(** A chunk that leaves the line open is appended to the buffer. *)
Lemma onData_open r data c :
  includes newline (_responseBuffer c ++ Buffer_toString_utf8 data) = false ->
  onData r data c
  = (Normal None,
     set__responseBuffer (_responseBuffer c ++ Buffer_toString_utf8 data) c,
     []).
Proof.
  intros H. unfold onData, bind, this, assign, ret.
  cbn -[includes Buffer_toString_utf8 split].
  rewrite H. reflexivity.
Qed.

(** The chunk that closes the line: the text before the first newline is
    split on [";"], the buffer is emptied, the listeners and the timer of the
    request are removed. *)
Lemma onData_closed r data c :
  includes newline (_responseBuffer c ++ Buffer_toString_utf8 data) = true ->
  onData r data c
  = (Normal (Some (_extractData
                     (text_before newline
                        (_responseBuffer c ++ Buffer_toString_utf8 data)))),
     set_inFlight (without_request (timeout r) (inFlight c))
       (set__responseBuffer [] c),
     [clearTimeout (timeout r)]).
Proof.
  intros H. unfold onData, bind, this, assign, ret, emit.
  cbn -[includes Buffer_toString_utf8 split].
  rewrite H. cbn -[includes Buffer_toString_utf8 split].
  rewrite split_head_text_before. reflexivity.
Qed.

Lemma listen_delivery r d : forall c line,
  delivers (_responseBuffer c) d line ->
  listen r (chunks d) c
  = (Normal (Some (_extractData line)),
     set_inFlight (without_request (timeout r) (inFlight c))
       (set__responseBuffer [] c),
     [clearTimeout (timeout r)]).
Proof.
  destruct d as [bef lst]. unfold delivers, chunks. cbn [before last].
  induction bef as [|data bef IH]; intros c line (Hopen & Hclosed & ->).
  - cbn [app] in *. cbn [listen]. unfold bind at 1.
    unfold received in Hclosed |- *. cbn [flat_map] in Hclosed |- *.
    rewrite app_nil_r in Hclosed |- *.
    rewrite (onData_closed r lst c Hclosed). reflexivity.
  - cbn [app] in *. cbn [listen]. unfold bind at 1.
    rewrite (onData_open r data c (includes_received_cons _ _ _ Hopen)).
    rewrite received_cons in Hopen.
    rewrite (received_cons _ data (bef ++ [lst])) in Hclosed |- *.
    rewrite (IH (set__responseBuffer
                   (_responseBuffer c ++ Buffer_toString_utf8 data) c)
                (text_before newline
                   (received (_responseBuffer c ++ Buffer_toString_utf8 data)
                      (bef ++ [lst])))).
    + reflexivity.
    + cbn. repeat split; assumption.
Qed.

End Accumulator.

(** C5, as the code has it.  For every sequence of byte chunks received
    from the socket, each decoded on its own and appended to the buffer: once
    a chunk completes a line the promise of the request is fulfilled with the
    text before the first newline split on [";"]; only that first line is
    used, and the buffer is emptied, so that whatever followed the newline is
    discarded. *)
Theorem accumulator_first_line (c : HottohRemoteClient.t)
  (r : HottohRemoteClient.request_in_flight) (d : delivery) :
  includes newline (received (HottohRemoteClient._responseBuffer c) (before d))
  = false ->
  includes newline (received (HottohRemoteClient._responseBuffer c) (chunks d))
  = true ->
  let text := received (HottohRemoteClient._responseBuffer c) (chunks d) in
  exists c' out,
    listen r (chunks d) c
    = (Normal (Some (split semicolon (text_before newline text))), c', out)
    /\ HottohRemoteClient._responseBuffer c' = []
    /\ HottohRemoteClient._info c' = HottohRemoteClient._info c
    /\ HottohRemoteClient._data c' = HottohRemoteClient._data c
    /\ HottohRemoteClient._data2 c' = HottohRemoteClient._data2 c.
Proof.
  intros Hopen Hclosed. cbv zeta.
  eexists _, _. split.
  - apply listen_delivery. repeat split; assumption.
  - repeat split.
Qed.

Lemma accumulator_first_line_witness :
  let c := HottohRemoteClient.new in
  let r := {| HottohRemoteClient.timeout := 0;
              HottohRemoteClient.awaited_at := HottohRemoteClient.AwaitInfo |} in
  let d := {| before := [bytes "HOTTOH;1."]; last := bytes ("7;42" ++ line_feed) |} in
  exists c' out,
    listen r (chunks d) c
    = (Normal (Some [lit "HOTTOH"; lit "1.7"; lit "42"]), c', out)
    /\ HottohRemoteClient._responseBuffer c' = []
    /\ HottohRemoteClient._info c' = HottohRemoteClient._info c
    /\ HottohRemoteClient._data c' = HottohRemoteClient._data c
    /\ HottohRemoteClient._data2 c' = HottohRemoteClient._data2 c.
Proof.
  intros c r d.
  exact (accumulator_first_line c r d eq_refl eq_refl).
Defined.

(** C5 as stated fails: when one chunk holds two lines the first one is the
    response and the second one is lost; the buffer is empty afterwards, it
    does not hold ["c;d\n"]. *)
Lemma accumulator_drops_remainder :
  let r := {| HottohRemoteClient.timeout := 0;
              HottohRemoteClient.awaited_at := HottohRemoteClient.AwaitInfo |} in
  let data := bytes ("a;b" ++ line_feed ++ "c;d" ++ line_feed) in
  exists c' out,
    HottohRemoteClient.onData r data HottohRemoteClient.new
    = (Normal (Some [lit "a"; lit "b"]), c', out)
    /\ HottohRemoteClient._responseBuffer c' = []
    /\ HottohRemoteClient._responseBuffer c' <> lit ("c;d" ++ line_feed).
Proof.
  eexists _, _. split; [vm_compute; reflexivity|].
  split; [reflexivity|discriminate].
Qed.

(** ** The polling session *)

Section Session.
Import HottohRemoteClient.

#[local] Arguments Request.getRequest : simpl never.
#[local] Arguments Request.new : simpl never.
#[local] Arguments Buffer_toString_utf8 : simpl never.
#[local] Arguments includes : simpl never.
#[local] Arguments split : simpl never.
#[local] Arguments text_before : simpl never.
#[local] Arguments lit : simpl never.

Lemma run_app c e1 e2 :
  run c (e1 ++ e2)
  = let '(c1, o1) := run c e1 in
    let '(c2, o2) := run c1 e2 in
    (c2, o1 ++ o2).
Proof.
  revert c. induction e1 as [|e e1 IH]; intros c; cbn [app run].
  - destruct (run c e2). reflexivity.
  - destruct (step c e) as [c1 o1]. rewrite IH.
    destruct (run c1 e1) as [c2 o2]. destruct (run c2 e2) as [c3 o3].
    now rewrite app_assoc.
Qed.

Lemma writes_app a b : writes (a ++ b) = writes a ++ writes b.
Proof. apply flat_map_app. Qed.

Lemma loop_delays_app a b : loop_delays (a ++ b) = loop_delays a ++ loop_delays b.
Proof. apply flat_map_app. Qed.

Lemma rejections_app a b : rejections (a ++ b) = rejections a ++ rejections b.
Proof. apply flat_map_app. Qed.

Lemma connects_app a b : connects (a ++ b) = (connects a + connects b)%nat.
Proof. unfold connects. now rewrite filter_app, length_app. Qed.

(** *** The methods, run *)

Lemma sendRequest_run request awaited c :
  _sendRequestAndWaitForResponse request awaited c
  = (Normal tt,
     set_inFlight
       (inFlight c ++ [{| timeout := nextTimer c; awaited_at := awaited |}])
       (set_nextTimer (S (nextTimer c)) c),
     [socket_write request; setTimeout_request (nextTimer c) 60000]).
Proof. reflexivity. Qed.

Lemma schedule_loop_run ms c :
  schedule_loop ms c
  = (Normal tt,
     set__loopTimeout (Some (nextTimer c))
       (set_loopTimers (loopTimers c ++ [(nextTimer c, ms)])
          (set_nextTimer (S (nextTimer c)) c)),
     [setTimeout_loop (nextTimer c) ms]).
Proof. reflexivity. Qed.

Lemma dial_while_send c param rest :
  _writeParameters c = param :: rest ->
  __endRequest c = false ->
  __dial_while c
  = _sendRequestAndWaitForResponse (frame (lit "DAT") CommandMode.WRITE param)
      AwaitSetData c.
Proof.
  intros Hq He. unfold __dial_while, bind, this. cbn.
  rewrite Hq, He. reflexivity.
Qed.

Lemma dial_while_done c :
  _writeParameters c = [] ->
  __endRequest c = false ->
  __dial_while c
  = (Normal tt,
     set__loopTimeout (Some (nextTimer c))
       (set_loopTimers (loopTimers c ++ [(nextTimer c, 1000)])
          (set_nextTimer (S (nextTimer c)) (set__writeRequest false c))),
     [setTimeout_loop (nextTimer c) 1000]).
Proof.
  intros Hq He. unfold __dial_while, bind, this. cbn.
  rewrite Hq, He. cbn. rewrite He. reflexivity.
Qed.

Lemma dial_while_stopped c :
  __endRequest c = true ->
  __dial_while c = (Normal tt, set__writeRequest false c, []).
Proof.
  intros He. unfold __dial_while, bind, this. cbn.
  rewrite He, andb_false_r. cbn. rewrite He. reflexivity.
Qed.

Lemma dial_catch_run e c :
  __dial_catch e c
  = if __endRequest c then (Normal tt, set___isConnected false c, [])
    else (Normal tt,
          set__loopTimeout (Some (nextTimer c))
            (set_loopTimers (loopTimers c ++ [(nextTimer c, 5000)])
               (set_nextTimer (S (nextTimer c)) (set___isConnected false c))),
          [setTimeout_loop (nextTimer c) 5000]).
Proof.
  unfold __dial_catch, bind, this, assign. cbn.
  destruct (__endRequest c); reflexivity.
Qed.

(** The [while] loop never throws. *)
Lemma dial_while_normal c : exists c' out, __dial_while c = (Normal tt, c', out).
Proof.
  destruct (__endRequest c) eqn:He.
  - rewrite dial_while_stopped by exact He. eauto.
  - destruct (_writeParameters c) as [|p q] eqn:Hq.
    + rewrite dial_while_done by assumption. eauto.
    + rewrite (dial_while_send _ Hq He), sendRequest_run. eauto.
Qed.

Lemma try_catch_normal {A} (m : M A) handler c a c' out :
  m c = (Normal a, c', out) -> try_catch m handler c = (Normal a, c', out).
Proof. intros H. unfold try_catch. now rewrite H. Qed.

Lemma unawaited_normal m c c' out :
  m c = (Normal tt, c', out) -> unawaited m c = (Normal tt, c', out).
Proof. apply try_catch_normal. Qed.

(** [__dial] resumed by a rejected promise runs the [catch] block. *)
Lemma dial_resume_rejected awaited e c :
  unawaited (__dial_resume awaited (Rejected e)) c = __dial_catch e c.
Proof.
  unfold unawaited, __dial_resume, try_catch, await, throw, __dial_catch,
    bind, this, assign.
  cbn. destruct (__endRequest c); reflexivity.
Qed.

(** [__dial] resumed by a response: the slot is replaced and the next request
    is sent, or the [while] loop is entered. *)
Lemma dial_resume_info response c :
  unawaited (__dial_resume AwaitInfo (Fulfilled response)) c
  = _sendRequestAndWaitForResponse
      (frame (lit "DAT") CommandMode.READ [lit "0"]) AwaitData
      (set__info (Some response) c).
Proof. reflexivity. Qed.

Lemma dial_resume_data response c :
  unawaited (__dial_resume AwaitData (Fulfilled response)) c
  = _sendRequestAndWaitForResponse
      (frame (lit "DAT") CommandMode.READ [lit "2"]) AwaitData2
      (set__data (Some response) c).
Proof. reflexivity. Qed.

Lemma dial_resume_data2 response c :
  unawaited (__dial_resume AwaitData2 (Fulfilled response)) c
  = __dial_while (set__data2 (Some response) c).
Proof.
  destruct (dial_while_normal (set__data2 (Some response) c))
    as (c' & out & H).
  rewrite H. apply unawaited_normal, try_catch_normal.
  unfold bind, await, ret, assign. cbn -[__dial_while]. rewrite H.
  reflexivity.
Qed.

Lemma dial_resume_set_data response c :
  unawaited (__dial_resume AwaitSetData (Fulfilled response)) c
  = __dial_while (set__writeParameters (tl (_writeParameters c)) c).
Proof.
  destruct (dial_while_normal
              (set__writeParameters (tl (_writeParameters c)) c))
    as (c' & out & H).
  rewrite H. apply unawaited_normal, try_catch_normal.
  unfold bind, await, ret, assign, this. cbn -[__dial_while]. rewrite H.
  reflexivity.
Qed.

(** *** Events of the socket with one request in flight *)

Lemma without_request_single r : without_request (timeout r) [r] = [].
Proof. unfold without_request. cbn. now rewrite Nat.eqb_refl. Qed.

Lemma step_data_open r data c :
  inFlight c = [r] ->
  includes newline (_responseBuffer c ++ Buffer_toString_utf8 data) = false ->
  step c (socket_on_data data)
  = (set__responseBuffer (_responseBuffer c ++ Buffer_toString_utf8 data) c, []).
Proof.
  intros Hr Hopen. unfold step, handle, bind, this. rewrite Hr.
  cbn [emit_data]. unfold bind. rewrite (onData_open r data c Hopen).
  reflexivity.
Qed.

Lemma step_data_closed r data c :
  inFlight c = [r] ->
  includes newline (_responseBuffer c ++ Buffer_toString_utf8 data) = true ->
  step c (socket_on_data data)
  = let '(c1, o1) :=
      exec (unawaited
              (__dial_resume (awaited_at r)
                 (Fulfilled
                    (_extractData
                       (text_before newline
                          (_responseBuffer c ++ Buffer_toString_utf8 data))))))
        (set_inFlight [] (set__responseBuffer [] c)) in
    (c1, clearTimeout (timeout r) :: o1).
Proof.
  intros Hr Hclosed. unfold step, handle, bind, this. rewrite Hr.
  cbn [emit_data]. unfold bind. rewrite (onData_closed r data c Hclosed).
  rewrite Hr, without_request_single. cbn [ret forEach fst snd].
  unfold exec, bind.
  destruct (unawaited _ _) as [[res c1] o1].
  destruct res; cbn; now rewrite ?app_nil_r.
Qed.

(** A response delivered to the one request in flight resumes [__dial] with
    the line split on [";"], the buffer emptied. *)
Lemma run_delivery r d : forall c line,
  inFlight c = [r] ->
  delivers (_responseBuffer c) d line ->
  run c (map socket_on_data (chunks d))
  = let '(c1, o1) :=
      exec (unawaited
              (__dial_resume (awaited_at r) (Fulfilled (_extractData line))))
        (set_inFlight [] (set__responseBuffer [] c)) in
    (c1, clearTimeout (timeout r) :: o1).
Proof.
  destruct d as [bef lst]. unfold delivers, chunks. cbn [before last].
  induction bef as [|data bef IH]; intros c line Hr (Hopen & Hclosed & ->).
  - cbn [app map run] in *.
    unfold received in Hclosed |- *. cbn [flat_map] in Hclosed |- *.
    rewrite app_nil_r in Hclosed |- *.
    rewrite (@step_data_closed r lst c Hr Hclosed).
    destruct (exec _ _) as [c1 o1]. now rewrite app_nil_r.
  - cbn [app map run] in *.
    rewrite (@step_data_open r data c Hr (includes_received_cons _ _ _ Hopen)).
    rewrite received_cons in Hopen.
    rewrite (received_cons _ data (bef ++ [lst])) in Hclosed |- *.
    rewrite (IH (set__responseBuffer
                   (_responseBuffer c ++ Buffer_toString_utf8 data) c)
                (text_before newline
                   (received (_responseBuffer c ++ Buffer_toString_utf8 data)
                      (bef ++ [lst])))).
    + cbn. destruct (exec _ _) as [c1 o1]. reflexivity.
    + exact Hr.
    + cbn. repeat split; assumption.
Qed.


(** *** One write of the drain loop *)

(** From the head of the [while] loop with a parameter queued: the request is
    written, its response delivered, the parameter removed, and the loop is
    at its head again. *)
Lemma drain_one c param rest d line events :
  _writeParameters c = param :: rest ->
  __endRequest c = false ->
  inFlight c = [] ->
  delivers (_responseBuffer c) d line ->
  exec_then __dial_while (map socket_on_data (chunks d) ++ events) c
  = let '(c', out) :=
      exec_then __dial_while events
        (set__writeParameters rest
           (set__responseBuffer []
              (set_nextTimer (S (nextTimer c)) c))) in
    (c', [socket_write (frame DAT CommandMode.WRITE param);
          setTimeout_request (nextTimer c) 60000;
          clearTimeout (nextTimer c)] ++ out).
Proof.
  intros Hq He Hf Hd.
  unfold exec_then at 1, exec.
  rewrite (dial_while_send _ Hq He), sendRequest_run, run_app.
  erewrite run_delivery; [| rewrite Hf; reflexivity | exact Hd].
  cbn [awaited_at timeout]. unfold exec.
  rewrite dial_resume_set_data.
  match goal with
  | |- context [__dial_while ?a] =>
      replace a with
        (set__writeParameters rest
           (set__responseBuffer [] (set_nextTimer (S (nextTimer c)) c)))
        by (destruct c; cbn in *; subst; reflexivity)
  end.
  unfold exec_then, exec.
  destruct (__dial_while _) as [[res c1] o1].
  destruct (run c1 events) as [c2 o2]. reflexivity.
Qed.


Lemma data_events_cons d ds :
  data_events (d :: ds) = map socket_on_data (chunks d) ++ data_events ds.
Proof. unfold data_events. cbn [flat_map]. apply map_app. Qed.

(** The drain loop, response after response: the parameters are written in
    the order of the queue, one request each, and a parameter leaves the queue
    when its response has come. *)
Lemma drain_prefix ds : forall ls c sent rest,
  _writeParameters c = sent ++ rest ->
  Forall2 (delivers []) ds ls ->
  List.length ds = List.length sent ->
  __endRequest c = false ->
  inFlight c = [] ->
  _responseBuffer c = [] ->
  drain_outcome c sent rest (exec_then __dial_while (data_events ds) c).
Proof.
  induction ds as [|d ds IH]; intros ls c sent rest Hq Hds Hlen He Hf Hb.
  - destruct sent; [|discriminate]. cbn [app] in Hq |- *.
    unfold exec_then, exec, data_events. cbn [flat_map map run].
    destruct rest as [|p q].
    + rewrite (dial_while_done _ Hq He).
      destruct c; cbn in *; subst.
      repeat split; try reflexivity. eexists; split; reflexivity.
    + rewrite (dial_while_send _ Hq He), sendRequest_run.
      destruct c; cbn in *; subst.
      repeat split; try reflexivity. eexists; split; reflexivity.
  - destruct sent as [|p sent]; [discriminate|].
    inversion Hds as [|? l ? ls' Hd Hds']; subst.
    rewrite data_events_cons.
    rewrite <- Hb in Hd.
    rewrite (@drain_one c p (sent ++ rest) d l (data_events ds) Hq He Hf Hd).
    specialize (IH ls'
      (set__writeParameters (sent ++ rest)
         (set__responseBuffer [] (set_nextTimer (S (nextTimer c)) c)))
      sent rest eq_refl Hds' ltac:(cbn in Hlen; lia) He Hf eq_refl).
    destruct (exec_then __dial_while (data_events ds) _) as [c' out].
    unfold drain_outcome in *.
    destruct IH as (Hw & Hq' & Hs & Hc & He' & Hr & Hn & Hb' & Hrest).
    cbn [app writes rejections connects loop_delays flat_map filter
         List.length map].
    fold (writes out) (rejections out) (loop_delays out) (connects out).
    rewrite Hw, Hq', Hs, Hc, He', Hr, Hn, Hb'.
    repeat split; try reflexivity.
    destruct rest; exact Hrest.
Qed.


(** *** A request and its response *)

Lemma exec_then_ext {A B} (m : M A) (m' : M B) events c c' :
  exec m c = exec m' c' -> exec_then m events c = exec_then m' events c'.
Proof. intros H. unfold exec_then. now rewrite H. Qed.

Lemma exchange_then request awaited c d line events :
  inFlight c = [] ->
  delivers (_responseBuffer c) d line ->
  exec_then (_sendRequestAndWaitForResponse request awaited)
    (map socket_on_data (chunks d) ++ events) c
  = let '(c', out) :=
      exec_then
        (unawaited (__dial_resume awaited (Fulfilled (_extractData line))))
        events
        (set__responseBuffer [] (set_nextTimer (S (nextTimer c)) c)) in
    (c', [socket_write request; setTimeout_request (nextTimer c) 60000;
          clearTimeout (nextTimer c)] ++ out).
Proof.
  intros Hf Hd.
  unfold exec_then at 1, exec.
  rewrite sendRequest_run, run_app.
  erewrite run_delivery; [| rewrite Hf; reflexivity | exact Hd].
  cbn [awaited_at timeout]. unfold exec_then, exec.
  match goal with
  | |- context [unawaited ?m ?a] =>
      replace a with
        (set__responseBuffer [] (set_nextTimer (S (nextTimer c)) c))
        by (destruct c; cbn in *; subst; reflexivity)
  end.
  destruct (unawaited _ _) as [[res c1] o1].
  destruct (run c1 events) as [c2 o2]. reflexivity.
Qed.

(** Chunks that leave the line open only grow the buffer. *)
Lemma run_open r bef : forall c,
  inFlight c = [r] ->
  includes newline (received (_responseBuffer c) bef) = false ->
  run c (map socket_on_data bef)
  = (set__responseBuffer (received (_responseBuffer c) bef) c, []).
Proof.
  induction bef as [|data bef IH]; intros c Hr Hopen.
  - cbn [map run]. rewrite received_nil. destruct c; reflexivity.
  - cbn [map run].
    rewrite (@step_data_open r data c Hr (includes_received_cons _ _ _ Hopen)).
    rewrite received_cons in Hopen |- *.
    rewrite IH by (exact Hr || exact Hopen). reflexivity.
Qed.

(** With no request in flight a chunk has no listener. *)
Lemma step_data_idle data c :
  inFlight c = [] -> step c (socket_on_data data) = (c, []).
Proof. intros Hf. unfold step, handle, bind, this. rewrite Hf. reflexivity. Qed.


(** *** The start of a cycle *)

Lemma clear_loopTimeout_run c :
  clear_loopTimeout c = (Normal tt, cleared c, cleared_output c).
Proof.
  unfold clear_loopTimeout, cleared, cleared_output, bind, this.
  destruct (_loopTimeout c); reflexivity.
Qed.

Lemma dial_run c :
  __isConnected c = true ->
  __endRequest c = false ->
  unawaited __dial c
  = _sendRequestAndWaitForResponse (frame INF CommandMode.READ [lit ""])
      AwaitInfo c.
Proof.
  intros Hc He. unfold unawaited, __dial, try_catch, bind, this.
  rewrite Hc, He. reflexivity.
Qed.

Lemma cleared_fields c :
  __isConnected (cleared c) = __isConnected c
  /\ __endRequest (cleared c) = __endRequest c
  /\ inFlight (cleared c) = inFlight c
  /\ _responseBuffer (cleared c) = _responseBuffer c
  /\ _writeParameters (cleared c) = _writeParameters c
  /\ snapshots (cleared c) = snapshots c
  /\ nextTimer (cleared c) = nextTimer c.
Proof. unfold cleared. destruct (_loopTimeout c); repeat split. Qed.

Lemma loop_run_polling outcome c :
  __isConnected c = true ->
  __endRequest c = false ->
  loop outcome c
  = let '(res, c', out) := unawaited __dial (cleared c) in
    (res, c', cleared_output c ++ out).
Proof.
  intros Hc He. unfold loop, bind at 1. rewrite clear_loopTimeout_run.
  destruct (cleared_fields c) as (Hc' & He' & _).
  unfold bind, this. rewrite He', Hc', He, Hc. cbn.
  destruct (unawaited __dial (cleared c)) as [[res c1] o1].
  destruct res; now rewrite ?app_nil_r.
Qed.

(** The three reads of a cycle, then the drain loop. *)
Lemma read_phase c d1 d2 d3 l1 l2 l3 events :
  __isConnected c = true ->
  __endRequest c = false ->
  inFlight c = [] ->
  delivers (_responseBuffer c) d1 l1 ->
  delivers [] d2 l2 ->
  delivers [] d3 l3 ->
  exec_then (unawaited __dial) (data_events [d1; d2; d3] ++ events) c
  = let n := nextTimer c in
    let '(c', out) :=
      exec_then __dial_while events
        (set__data2 (Some (_extractData l3))
           (set__data (Some (_extractData l2))
              (set__info (Some (_extractData l1))
                 (set__responseBuffer [] (set_nextTimer (S (S (S n))) c))))) in
    (c', [socket_write (frame INF CommandMode.READ [lit ""]);
          setTimeout_request n 60000; clearTimeout n;
          socket_write (frame DAT CommandMode.READ [lit "0"]);
          setTimeout_request (S n) 60000; clearTimeout (S n);
          socket_write (frame DAT CommandMode.READ [lit "2"]);
          setTimeout_request (S (S n)) 60000; clearTimeout (S (S n))] ++ out).
Proof.
  intros Hc He Hf H1 H2 H3. cbv zeta.
  rewrite !data_events_cons.
  change (data_events []) with (@nil event). rewrite app_nil_r.
  rewrite <- !app_assoc.
  assert (ext : forall (m m' : M unit) evs a a',
             m a = m' a' -> exec_then m evs a = exec_then m' evs a').
  { intros m m' evs a a' E. apply exec_then_ext. unfold exec. now rewrite E. }
  rewrite (ext _ _ _ _ _ (@dial_run c Hc He)).
  rewrite (@exchange_then _ _ c d1 l1 _ Hf H1).
  rewrite (ext _ _ _ _ _ (dial_resume_info _ _)).
  rewrite (@exchange_then _ _ _ d2 l2 _); [|destruct c; exact Hf|exact H2].
  rewrite (ext _ _ _ _ _ (dial_resume_data _ _)).
  rewrite (@exchange_then _ _ _ d3 l3 _); [|destruct c; exact Hf|exact H3].
  rewrite (ext _ _ _ _ _ (dial_resume_data2 _ _)).
  match goal with
  | |- context [exec_then __dial_while events ?a] =>
      match goal with
      | |- _ = (let '(_, _) := exec_then __dial_while events ?b in _) =>
          replace a with b by (destruct c; reflexivity)
      end
  end.
  destruct (exec_then __dial_while events _) as [c' out]. reflexivity.
Qed.


(** *** A request that fails *)

Lemma step_timeout r c :
  inFlight c = [r] ->
  step c (request_timer_fires (timeout r))
  = let '(c1, o1) :=
      exec (__dial_catch (Error "Socket timeout")) (set_inFlight [] c) in
    (c1, clearTimeout (timeout r) :: o1).
Proof.
  intros Hr. unfold step, handle, bind at 1, this. rewrite Hr.
  cbn [filter]. rewrite Nat.eqb_refl. cbn [forEach].
  unfold cleanup_and_reject, bind, this, emit, assign, ret.
  cbn -[__dial_resume unawaited __dial_catch without_request].
  rewrite Hr, without_request_single.
  rewrite dial_resume_rejected. unfold exec.
  destruct (__dial_catch _ _) as [[res c1] o1].
  destruct res; cbn; now rewrite ?app_nil_r.
Qed.

Lemma step_error r e c :
  inFlight c = [r] ->
  step c (socket_on_error e)
  = let '(c1, o1) :=
      exec (__dial_catch e) (set_inFlight [] (set___isConnected false c)) in
    (c1, clearTimeout (timeout r) :: o1).
Proof.
  intros Hr. unfold step, handle, bind at 1, this. rewrite Hr.
  cbn [forEach].
  unfold errorHandler, cleanup_and_reject, bind, this, emit, assign, ret.
  cbn -[__dial_resume unawaited __dial_catch without_request].
  rewrite Hr, without_request_single.
  rewrite dial_resume_rejected. unfold exec.
  destruct (__dial_catch _ _) as [[res c1] o1].
  destruct res; cbn; now rewrite ?app_nil_r.
Qed.



Lemma loop_then outcome events c :
  __isConnected c = true ->
  __endRequest c = false ->
  exec_then (loop outcome) events c
  = let '(c', out) := exec_then (unawaited __dial) events (cleared c) in
    (c', cleared_output c ++ out).
Proof.
  intros Hc He. unfold exec_then, exec.
  rewrite (@loop_run_polling outcome c Hc He).
  destruct (unawaited __dial (cleared c)) as [[res c1] o1].
  destruct (run c1 events) as [c2 o2]. now rewrite app_assoc.
Qed.

(** While the line of a response is open nothing is stored. *)
Lemma exchange_open request awaited bef c :
  inFlight c = [] ->
  includes newline (received (_responseBuffer c) bef) = false ->
  snapshots
    (fst (exec_then (_sendRequestAndWaitForResponse request awaited)
            (map socket_on_data bef) c))
  = snapshots c.
Proof.
  intros Hf Hopen. unfold exec_then, exec. rewrite sendRequest_run.
  erewrite run_open; [reflexivity| rewrite Hf; reflexivity |exact Hopen].
Qed.

(** A cycle from the call of [__dial]. *)
Lemma dial_cycle c d1 d2 d3 l1 l2 l3 ds ls :
  __isConnected c = true ->
  __endRequest c = false ->
  inFlight c = [] ->
  delivers (_responseBuffer c) d1 l1 ->
  delivers [] d2 l2 ->
  delivers [] d3 l3 ->
  Forall2 (delivers []) ds ls ->
  List.length ds = List.length (_writeParameters c) ->
  let cycle events := exec_then (unawaited __dial) events c in
  let open bef := map socket_on_data bef in
  let '(c', out) := cycle (data_events (d1 :: d2 :: d3 :: ds)) in
  writes out
  = frame INF CommandMode.READ [lit ""]
    :: frame DAT CommandMode.READ [lit "0"]
    :: frame DAT CommandMode.READ [lit "2"]
    :: map (frame DAT CommandMode.WRITE) (_writeParameters c)
  /\ snapshots c'
     = (Some (split semicolon l1), Some (split semicolon l2),
        Some (split semicolon l3))
  /\ snapshots (fst (cycle (open (before d1)))) = snapshots c
  /\ snapshots (fst (cycle (data_events [d1] ++ open (before d2))))
     = (Some (split semicolon l1), _data c, _data2 c)
  /\ snapshots (fst (cycle (data_events [d1; d2] ++ open (before d3))))
     = (Some (split semicolon l1), Some (split semicolon l2), _data2 c)
  /\ _writeParameters c' = []
  /\ inFlight c' = []
  /\ __isConnected c' = true
  /\ loop_delays out = [1000]
  /\ (exists h, _loopTimeout c' = Some h /\ In (h, 1000) (loopTimers c'))
  /\ connects out = 0%nat
  /\ rejections out = [].
Proof.
  intros Hc He Hf H1 H2 H3 Hds Hlen. cbv beta zeta.
  assert (ext : forall (m m' : M unit) evs a a',
             m a = m' a' -> exec_then m evs a = exec_then m' evs a').
  { intros m m' evs a a' E. apply exec_then_ext. unfold exec. now rewrite E. }
  (* the stages *)
  assert (S1 : snapshots
                 (fst (exec_then (unawaited __dial)
                         (map socket_on_data (before d1)) c))
               = snapshots c).
  { rewrite (ext _ _ _ _ _ (@dial_run c Hc He)).
    apply exchange_open; [exact Hf|apply H1]. }
  assert (S2 : snapshots
                 (fst (exec_then (unawaited __dial)
                         (data_events [d1] ++ map socket_on_data (before d2))
                         c))
               = (Some (split semicolon l1), _data c, _data2 c)).
  { rewrite data_events_cons. change (data_events []) with (@nil event).
    rewrite app_nil_r.
    rewrite (ext _ _ _ _ _ (@dial_run c Hc He)).
    rewrite (@exchange_then _ _ c d1 l1 _ Hf H1).
    rewrite (ext _ _ _ _ _ (dial_resume_info _ _)).
    match goal with
    | |- context [exec_then (_sendRequestAndWaitForResponse ?rq ?aw) ?e ?a] =>
        pose proof (@exchange_open rq aw (before d2) a
                      ltac:(destruct c; exact Hf) ltac:(apply H2)) as E;
        destruct (exec_then (_sendRequestAndWaitForResponse rq aw) e a)
          as [cx ox]
    end.
    cbn [fst] in *. rewrite E. destruct c; reflexivity. }
  assert (S3 : snapshots
                 (fst (exec_then (unawaited __dial)
                         (data_events [d1; d2]
                            ++ map socket_on_data (before d3)) c))
               = (Some (split semicolon l1), Some (split semicolon l2),
                  _data2 c)).
  { rewrite !data_events_cons. change (data_events []) with (@nil event).
    rewrite app_nil_r, <- app_assoc.
    rewrite (ext _ _ _ _ _ (@dial_run c Hc He)).
    rewrite (@exchange_then _ _ c d1 l1 _ Hf H1).
    rewrite (ext _ _ _ _ _ (dial_resume_info _ _)).
    rewrite (@exchange_then _ _ _ d2 l2 _); [|destruct c; exact Hf|exact H2].
    rewrite (ext _ _ _ _ _ (dial_resume_data _ _)).
    match goal with
    | |- context [exec_then (_sendRequestAndWaitForResponse ?rq ?aw) ?e ?a] =>
        pose proof (@exchange_open rq aw (before d3) a
                      ltac:(destruct c; exact Hf) ltac:(apply H3)) as E;
        destruct (exec_then (_sendRequestAndWaitForResponse rq aw) e a)
          as [cx ox]
    end.
    cbn [fst] in *. rewrite E. destruct c; reflexivity. }
  rewrite S1, S2, S3. clear S1 S2 S3.
  (* the whole cycle *)
  change (data_events (d1 :: d2 :: d3 :: ds))
    with (data_events ([d1; d2; d3] ++ ds)).
  unfold data_events at 1. rewrite flat_map_app, map_app.
  fold (data_events [d1; d2; d3]) (data_events ds).
  rewrite (@read_phase c d1 d2 d3 l1 l2 l3 (data_events ds) Hc He Hf H1 H2 H3).
  cbv zeta.
  match goal with
  | |- context [exec_then __dial_while (data_events ds) ?a] =>
      pose proof (@drain_prefix ds ls a (_writeParameters c) []
                    ltac:(destruct c; cbn; now rewrite app_nil_r) Hds
                    ltac:(destruct c; exact Hlen)
                    ltac:(destruct c; exact He)
                    ltac:(destruct c; exact Hf)
                    ltac:(destruct c; reflexivity)) as Hdrain;
      destruct (exec_then __dial_while (data_events ds) a) as [c' out]
  end.
  unfold drain_outcome in Hdrain.
  destruct Hdrain as (Hw & Hq & Hs & Hcon & Hend & Hr & Hn & Hb & Hfl & Hdel
                      & h & Hh & Ht).
  rewrite app_nil_r in Hw.
  cbn [writes loop_delays connects rejections flat_map filter List.length app].
  fold (writes out) (loop_delays out) (rejections out) (connects out).
  rewrite Hw, Hq, Hs, Hcon, Hr, Hn, Hfl, Hdel.
  repeat split; try (destruct c; reflexivity || assumption).
  exists h. split; [exact Hh|]. rewrite Ht. apply in_or_app. right. now left.
Qed.

Lemma cleared_output_silent c :
  writes (cleared_output c) = []
  /\ loop_delays (cleared_output c) = []
  /\ connects (cleared_output c) = 0%nat
  /\ rejections (cleared_output c) = [].
Proof. unfold cleared_output. destruct (_loopTimeout c); repeat split. Qed.

End Session.


(** ** The queue of parameters, event by event *)

Section Queue.
Import HottohRemoteClient.

#[local] Arguments Request.getRequest : simpl never.
#[local] Arguments Request.new : simpl never.
#[local] Arguments Buffer_toString_utf8 : simpl never.
#[local] Arguments includes : simpl never.
#[local] Arguments split : simpl never.

Lemma keeps_ret {A} (a : A) : keeps_queue (ret a).
Proof. intros c. reflexivity. Qed.

Lemma keeps_this : keeps_queue this.
Proof. intros c. reflexivity. Qed.

Lemma keeps_emit a : keeps_queue (emit a).
Proof. intros c. reflexivity. Qed.

Lemma keeps_throw {A} e : keeps_queue (@throw A e).
Proof. intros c. reflexivity. Qed.

Lemma keeps_assign f :
  (forall c, _writeParameters (f c) = _writeParameters c) ->
  keeps_queue (assign f).
Proof. intros H c. apply H. Qed.

Lemma keeps_bind {A B} (m : M A) (f : A -> M B) :
  keeps_queue m -> (forall a, keeps_queue (f a)) -> keeps_queue (bind m f).
Proof.
  intros Hm Hf c. unfold bind. specialize (Hm c).
  destruct (m c) as [[[a|e] c1] o1]; cbn in Hm |- *; [|exact Hm].
  specialize (Hf a c1). destruct (f a c1) as [[r c2] o2]. cbn in Hf |- *.
  congruence.
Qed.

Lemma keeps_try_catch {A} (m : M A) handler :
  keeps_queue m -> (forall e, keeps_queue (handler e)) ->
  keeps_queue (try_catch m handler).
Proof.
  intros Hm Hh c. unfold try_catch. specialize (Hm c).
  destruct (m c) as [[[a|e] c1] o1]; cbn in Hm |- *; [exact Hm|].
  specialize (Hh e c1). destruct (handler e c1) as [[r c2] o2].
  cbn in Hh |- *. congruence.
Qed.

Lemma keeps_if {A} (b : bool) (m1 m2 : M A) :
  keeps_queue m1 -> keeps_queue m2 -> keeps_queue (if b then m1 else m2).
Proof. destruct b; auto. Qed.

Ltac keeps :=
  repeat first
    [ assumption
    | apply keeps_ret | apply keeps_this | apply keeps_emit | apply keeps_throw
    | apply keeps_assign; intros [] ; reflexivity
    | apply keeps_bind; [|intros ?]
    | apply keeps_try_catch; [|intros ?]
    | apply keeps_if
    | match goal with
      | |- keeps_queue (match ?x with _ => _ end) => destruct x
      end ].












Lemma keeps_onData r data : keeps_queue (onData r data).
Proof. unfold onData. keeps. Qed.

Lemma keeps_emit_data listeners data : keeps_queue (emit_data listeners data).
Proof.
  pose proof (keeps_onData). 
  induction listeners as [|r rest IH]; cbn [emit_data]; keeps.
  all: try apply keeps_onData.
Qed.




End Queue.

Lemma sample_info_delivers : delivers [] sample_info (lit "HOTTOH;1.7;42").
Proof. repeat split. Qed.
Lemma sample_data_delivers : delivers [] sample_data (lit "0;1;2").
Proof. repeat split. Qed.
Lemma sample_data2_delivers : delivers [] sample_data2 (lit "2;0;0").
Proof. repeat split. Qed.

(** The four frames of that cycle, byte for byte. *)
Lemma sample_frames :
  frame (lit "INF") CommandMode.READ [lit ""]
  = bytes ("#00000C---0001INFR;E765" ++ line_feed)
  /\ frame (lit "DAT") CommandMode.READ [lit "0"]
     = bytes ("#00000C---0002DATR0;B6FC" ++ line_feed)
  /\ frame (lit "DAT") CommandMode.READ [lit "2"]
     = bytes ("#00000C---0002DATR2;D09E" ++ line_feed)
  /\ frame (lit "DAT") CommandMode.WRITE [lit "5"; lit "1"]
     = bytes ("#00000C---0004DATW5;1;EE3E" ++ line_feed).
Proof. vm_compute. repeat split. Qed.









(** ** [stop] *)

Section Stop.
Import HottohRemoteClient.

#[local] Arguments Request.getRequest : simpl never.
#[local] Arguments Request.new : simpl never.
#[local] Arguments Buffer_toString_utf8 : simpl never.

Lemma loop_stopped outcome c :
  __endRequest c = true ->
  loop outcome c = (Normal tt, cleared c, cleared_output c).
Proof.
  intros He. unfold loop, bind at 1. rewrite clear_loopTimeout_run.
  destruct (cleared_fields c) as (_ & He' & _).
  unfold bind, this. rewrite He', He. cbn. now rewrite app_nil_r.
Qed.




Lemma stop_run c :
  step c call_stop
  = (set___isConnected false (cleared (set___endRequest true c)),
     cleared_output (set___endRequest true c) ++ [socket_end]).
Proof.
  unfold step, handle, stop, bind at 1, assign, bind at 1.
  rewrite clear_loopTimeout_run. cbn. reflexivity.
Qed.




End Stop.




(** ** The accessors of [Hottoh] *)

Section AccessorProperties.
Import Const.

Variable StoveRegisters_value : StoveRegisters -> nat.
Variable StoveState_value : StoveState -> Z.
Variable StoveManufacturer_value : StoveManufacturer -> Z.
Variable double : Type.
Variable parseFloat : jsstring -> double.
Variable double_toString : double -> jsstring.
Variable tenth_toString : number -> jsstring.

#[local] Abbreviation value := (Hottoh.value double).
#[local] Abbreviation Null := (Hottoh.Null double).
#[local] Abbreviation Str := (@Hottoh.Str double).
#[local] Abbreviation Num := (@Hottoh.Num double).
#[local] Abbreviation Bool := (@Hottoh.Bool double).
#[local] Abbreviation _getStoveType := (@Hottoh._getStoveType StoveRegisters_value double double_toString).
#[local] Abbreviation _getStoveState :=
  (@Hottoh._getStoveState StoveRegisters_value StoveState_value double
     double_toString).
#[local] Abbreviation _getStoveTypeBitArray :=
  (@Hottoh._getStoveTypeBitArray StoveRegisters_value double double_toString).

Lemma all_states_complete s : In s all_states.
Proof. destruct s; cbn; tauto. Qed.

Lemma all_states_NoDup : NoDup all_states.
Proof.
  unfold all_states.
  repeat (constructor; [cbn; intuition discriminate|]). constructor.
Qed.

(** The case list of the [switch] names every member once, in the order of
    [all_states], with the names of [state_name]. *)
Lemma switch_cases_table :
  @Hottoh._getStoveState_cases double
  = map (fun s => (s, Normal (Str (lit (state_name s))))) all_states.
Proof. reflexivity. Qed.

(** The [switch] on a state code: the name of the member. *)
Lemma switch_finds (default : completion value) s :
  (forall a b, StoveState_value a = StoveState_value b -> a = b) ->
  @Hottoh.switch StoveState_value (completion value)
    (Int (StoveState_value s)) (@Hottoh._getStoveState_cases double) default
  = Normal (Str (lit (state_name s))).
Proof.
  intros Hinj. unfold Hottoh.switch. rewrite switch_cases_table.
  assert (H : forall l, In s l ->
            find (fun c : StoveState * completion value =>
                    number_strict_eq (Int (StoveState_value s))
                      (Int (StoveState_value (fst c))))
              (map (fun s => (s, Normal (Str (lit (state_name s))))) l)
            = Some (s, Normal (Str (lit (state_name s))))).
  { induction l as [|x l IH]; intros Hin; [contradiction|].
    cbn [map find fst number_strict_eq].
    destruct (StoveState_value s =? StoveState_value x) eqn:E.
    - apply Z.eqb_eq, Hinj in E. now subst.
    - destruct Hin as [->|Hin]; [now rewrite Z.eqb_refl in E|now apply IH]. }
  now rewrite (H all_states (all_states_complete s)).
Qed.

(** The [switch] on anything else: the default. *)
Lemma switch_default (default : completion value) n :
  (forall s, n <> Int (StoveState_value s)) ->
  @Hottoh.switch StoveState_value (completion value) n
    (@Hottoh._getStoveState_cases double) default
  = default.
Proof.
  intros Hn. unfold Hottoh.switch.
  generalize (@Hottoh._getStoveState_cases double). intros cases.
  induction cases as [|[s v] cases IH]; [reflexivity|].
  cbn [find fst].
  replace (number_strict_eq n (Int (StoveState_value s))) with false;
    [exact IH|].
  destruct n as [|z]; [reflexivity|]. cbn.
  symmetry. apply Z.eqb_neq. intros ->. now apply (Hn s).
Qed.

(** C9, as the code has it.  Given a data snapshot, the stove-state lookup
    maps each of the twenty-one codes of [StoveState] to the name of its
    state, and a field that parses to none of them (another number, or no
    number) to the raw string of the field. *)
Theorem stove_state_lookup (h : Hottoh.t) (fields : list jsstring)
  (field : jsstring) :
  Hottoh._data h = Some fields ->
  nth_error fields (StoveRegisters_value INDEX_STOVE_STATE) = Some field ->
  (forall a b, StoveState_value a = StoveState_value b -> a = b) ->
  List.length all_states = 21%nat
  /\ NoDup all_states
  /\ (forall s, In s all_states)
  /\ (forall s,
        parseInt_string field = Int (StoveState_value s) ->
        _getStoveState h = Normal (Str (lit (state_name s))))
  /\ ((forall s, parseInt_string field <> Int (StoveState_value s)) ->
      _getStoveState h = Normal (Str field)).
Proof.
  intros Hd Hf Hinj.
  split; [reflexivity|]. split; [apply all_states_NoDup|].
  split; [apply all_states_complete|].
  assert (Hat : Hottoh.at_index StoveRegisters_value double (Hottoh._data h)
                  INDEX_STOVE_STATE = Normal (Str field)).
  { unfold Hottoh.at_index. now rewrite Hd, Hf. }
  split.
  - intros s Hs. unfold Hottoh._getStoveState. rewrite Hd. cbn [Hottoh.not_slot].
    rewrite <- Hd, Hat. cbn [Hottoh.bind]. unfold Hottoh.parseInt.
    cbn [Hottoh.ToString]. rewrite Hs. now apply switch_finds.
  - intros Hn. unfold Hottoh._getStoveState. rewrite Hd. cbn [Hottoh.not_slot].
    rewrite <- Hd, Hat. cbn [Hottoh.bind]. unfold Hottoh.parseInt.
    cbn [Hottoh.ToString]. now apply switch_default.
Qed.


(** *** The capability flags *)

#[local] Abbreviation flags :=
  (@capability_flags StoveRegisters_value double double_toString).
#[local] Abbreviation getFanNumber :=
  (@Hottoh.getFanNumber StoveRegisters_value double double_toString).

Ltac flags_by_computation H :=
  unfold capability_flags;
  repeat (apply Forall_cons || apply Forall_nil);
  cbn [fst snd];
  unfold Hottoh.isBoilerEnabled, Hottoh.isDomesticHotWaterEnabled,
    Hottoh.isTempRoom1Enabled, Hottoh.isTempRoom2Enabled,
    Hottoh.isTempRoom3Enabled, Hottoh.isTempWaterEnabled,
    Hottoh.isPumpEnabled, Hottoh.isFlowSwitchEnabled, Hottoh.isPufferEnabled,
    Hottoh.isBoilerTempEnabled, Hottoh.isDhwEnabled, Hottoh.isAirEx1Enabled,
    Hottoh.isAirEx2Enabled, Hottoh.isAirEx3Enabled,
    Hottoh.isGenericPumpEnabled, Hottoh.getFanNumber,
    Hottoh._getStoveTypeBitArray;
  rewrite H; reflexivity.

Lemma flag_bits :
  NoDup (map snd flags)
  /\ forall b, In b (map snd flags) <-> 0 <= b < 16 /\ b <> 13.
Proof.
  split.
  - cbn. repeat (constructor; [cbn; intuition discriminate|]). constructor.
  - intros b. cbn. split.
    + intros H. repeat (destruct H as [<-|H]; [lia|]). contradiction.
    + intros [Hb Hn].
      assert (b = 0 \/ b = 1 \/ b = 2 \/ b = 3 \/ b = 4 \/ b = 5 \/ b = 6
              \/ b = 7 \/ b = 8 \/ b = 9 \/ b = 10 \/ b = 11 \/ b = 12
              \/ b = 14 \/ b = 15) as H by lia.
      repeat (destruct H as [->|H]; [tauto|]). subst. tauto.
Qed.

(** C8, as the code has it.  A stove type of 0 gives every capability flag
    false and a fan count of 0.  A stove type with the single bit [k] set
    gives each flag true exactly when it reads bit [k]; the fifteen flags
    read the bits 0 to 15 except 13, one flag each, so that bit 13 sets no
    flag at all; bits 13 and 12 are the fan count, the latter shared with
    [isDhwEnabled]. *)
Theorem capability_flags_of_single_bit (h : Hottoh.t) (k : Z) :
  0 <= k < 16 ->
  _getStoveType h = Normal (Num (Int (2 ^ k))) ->
  Forall (fun flag => fst flag h = Normal (Bool (snd flag =? k))) flags
  /\ getFanNumber h
     = Normal (Num (Int (if k =? 13 then 2 else if k =? 12 then 1 else 0)))
  /\ NoDup (map snd flags)
  /\ (forall b, In b (map snd flags) <-> 0 <= b < 16 /\ b <> 13)
  /\ forall h0,
       _getStoveType h0 = Normal (Num (Int 0)) ->
       Forall (fun flag => fst flag h0 = Normal (Bool false)) flags
       /\ getFanNumber h0 = Normal (Num (Int 0)).
Proof.
  intros Hk H.
  assert (k = 0 \/ k = 1 \/ k = 2 \/ k = 3 \/ k = 4 \/ k = 5 \/ k = 6
          \/ k = 7 \/ k = 8 \/ k = 9 \/ k = 10 \/ k = 11 \/ k = 12
          \/ k = 13 \/ k = 14 \/ k = 15) as Hcases by lia.
  split; [|split; [|split; [apply flag_bits|split; [apply flag_bits|]]]].
  - repeat (destruct Hcases as [->|Hcases]; [flags_by_computation H|]).
    subst. flags_by_computation H.
  - repeat (destruct Hcases as [->|Hcases]; [flags_by_computation H|]).
    subst. flags_by_computation H.
  - intros h0 H0. split; flags_by_computation H0.
Qed.

End AccessorProperties.

(** *** Examples *)

Lemma stove_state_lookup_witness :
  let h := with_data (sample_fields "1" "8") in
  Hottoh._getStoveState sample_registers sample_states no_double_toString h
  = Normal (Hottoh.Str unit (lit "power"))
  /\ (parseInt_string (lit "99") <> Int (sample_states Const.STATUS_POWER)).
Proof.
  cbv zeta. split.
  - refine (proj1 (proj2 (proj2 (proj2
      (@stove_state_lookup sample_registers sample_states unit
         no_double_toString (with_data (sample_fields "1" "8"))
         (sample_fields "1" "8") (lit "8") eq_refl eq_refl _))))
      Const.STATUS_POWER eq_refl).
    intros a b; destruct a, b; (reflexivity || discriminate).
  - discriminate.
Defined.

(** C9 as stated counts twenty-two codes.  The [switch] has twenty-one
    cases, and whatever numbers the members of [StoveState] stand for, no
    twenty-two distinct numbers are all caught by a case. *)
Lemma stove_state_codes_are_twenty_one :
  List.length (@Hottoh._getStoveState_cases unit) = 21%nat
  /\ ~ exists (StoveState_value : Const.StoveState -> Z) (codes : list Z),
         NoDup codes
         /\ List.length codes = 22%nat
         /\ forall z, In z codes ->
              Hottoh.switch StoveState_value (Int z)
                (@Hottoh._getStoveState_cases unit) (Throw TypeError)
              <> Throw TypeError.
Proof.
  split; [reflexivity|].
  intros (sv & codes & Hnd & Hlen & Hall).
  assert (Hincl : incl codes (map sv all_states)).
  { intros z Hz.
    destruct (in_dec Z.eq_dec z (map sv all_states)) as [Hin|Hout];
      [exact Hin|].
    exfalso. apply (Hall z Hz). apply switch_default.
    intros s E. injection E as ->. apply Hout, in_map, all_states_complete. }
  pose proof (NoDup_incl_length Hnd Hincl) as Hle.
  rewrite length_map, Hlen in Hle. cbn in Hle. lia.
Qed.

Lemma capability_flags_of_single_bit_witness :
  let h := with_data (sample_fields "512" "0") in
  Hottoh.isBoilerEnabled sample_registers no_double_toString h
  = Normal (Hottoh.Bool unit true)
  /\ Hottoh.isTempRoom2Enabled sample_registers no_double_toString h
     = Normal (Hottoh.Bool unit false)
  /\ Hottoh.getFanNumber sample_registers no_double_toString h
     = Normal (Hottoh.Num unit (Int 0)).
Proof.
  cbv zeta.
  destruct (@capability_flags_of_single_bit sample_registers unit
              no_double_toString (with_data (sample_fields "512" "0")) 9
              ltac:(lia) eq_refl) as (Hflags & Hfan & _).
  inversion Hflags as [|? ? H1 Hrest]; subst.
  inversion Hrest as [|? ? _ Hrest2]; subst.
  inversion Hrest2 as [|? ? _ Hrest3]; subst.
  inversion Hrest3 as [|? ? H4 _]; subst.
  split; [exact H1|]. split; [exact H4|exact Hfan].
Defined.

(** C8 as stated fails on bit 13: the stove type 8192 has exactly one bit
    set, and every capability flag is false; the bit is the high bit of the
    fan count. *)
Lemma bit_13_sets_no_flag :
  let h := with_data (sample_fields "8192" "0") in
  Hottoh._getStoveType sample_registers no_double_toString h
  = Normal (Hottoh.Num unit (Int (2 ^ 13)))
  /\ Forall (fun flag => fst flag h = Normal (Hottoh.Bool unit false))
       (capability_flags sample_registers no_double_toString)
  /\ Hottoh.getFanNumber sample_registers no_double_toString h
     = Normal (Hottoh.Num unit (Int 2)).
Proof.
  cbv zeta. split; [reflexivity|]. split; [|reflexivity].
  unfold capability_flags.
  repeat (apply Forall_cons; [reflexivity|]). apply Forall_nil.
Qed.

(** ** More on the accessors of [Hottoh] *)

Section AccessorsAnySnapshot.
Import Const.

Variable StoveRegisters_value : StoveRegisters -> nat.
Variable StoveState_value : StoveState -> Z.
Variable StoveManufacturer_value : StoveManufacturer -> Z.
Variable double : Type.
Variable parseFloat : jsstring -> double.
Variable double_toString : double -> jsstring.
Variable tenth_toString : number -> jsstring.

#[local] Abbreviation value := (Hottoh.value double).
#[local] Abbreviation Null := (Hottoh.Null double).
#[local] Abbreviation Undefined := (Hottoh.Undefined double).
#[local] Abbreviation Str := (@Hottoh.Str double).
#[local] Abbreviation Num := (@Hottoh.Num double).
#[local] Abbreviation Bool := (@Hottoh.Bool double).
#[local] Abbreviation at_index := (@Hottoh.at_index StoveRegisters_value double).
#[local] Abbreviation _getStoveType :=
  (@Hottoh._getStoveType StoveRegisters_value double double_toString).
#[local] Abbreviation _getStoveState :=
  (@Hottoh._getStoveState StoveRegisters_value StoveState_value double
     double_toString).
#[local] Abbreviation _getStoveTypeBitArray :=
  (@Hottoh._getStoveTypeBitArray StoveRegisters_value double double_toString).
#[local] Abbreviation flags :=
  (@capability_flags StoveRegisters_value double double_toString).
#[local] Abbreviation getFanNumber :=
  (@Hottoh.getFanNumber StoveRegisters_value double double_toString).
#[local] Abbreviation isDhwEnabled :=
  (@Hottoh.isDhwEnabled StoveRegisters_value double double_toString).

(** *** The bits of the stove type *)

Lemma ToInt32_congruent z : ToInt32 (Int z) mod 2 ^ 32 = z mod 2 ^ 32.
Proof.
  unfold ToInt32. rewrite Zminus_mod_idemp_l.
  replace (z + 2 ^ 31 - 2 ^ 31) with z by ring. reflexivity.
Qed.

Lemma ToInt32_testbit z i :
  0 <= i < 32 -> Z.testbit (ToInt32 (Int z)) i = Z.testbit z i.
Proof.
  intros Hi.
  rewrite <- (Z.mod_pow2_bits_low (ToInt32 (Int z)) 32 i) by lia.
  rewrite ToInt32_congruent. apply Z.mod_pow2_bits_low. lia.
Qed.

Lemma shift_and_one a i :
  0 <= i -> (Z.land (Z.shiftr a i) 1 =? 1) = Z.testbit a i.
Proof.
  intros Hi. change 1 with (Z.ones 1) at 1. rewrite Z.land_ones by lia.
  change (2 ^ 1) with 2. rewrite <- Z.bit0_mod, Z.shiftr_spec by lia.
  rewrite Z.add_0_l. now destruct (Z.testbit a i).
Qed.

(** [((type >> i) & 1) === 1] is bit [i] of the number parsed. *)
Lemma bit_of_type n i :
  0 <= i < 32 ->
  (Z.land (Z.shiftr (ToInt32 n) i) 1 =? 1) = type_bit n i.
Proof.
  intros Hi. destruct n as [|z]; cbn [type_bit].
  - cbn [ToInt32]. rewrite Z.shiftr_0_l. reflexivity.
  - rewrite shift_and_one by lia. apply ToInt32_testbit, Hi.
Qed.

Lemma bit_array_of_type h n :
  _getStoveType h = Normal (Num n) ->
  _getStoveTypeBitArray h
  = Normal (map (type_bit n) [15; 14; 13; 12; 11; 10; 9; 8; 7; 6; 5; 4; 3; 2; 1; 0]).
Proof.
  intros H. unfold Hottoh._getStoveTypeBitArray. rewrite H.
  cbn [Hottoh.bind map]. rewrite !bit_of_type by lia. reflexivity.
Qed.

Ltac read_bit_array Hbits :=
  unfold Hottoh.isBoilerEnabled, Hottoh.isDomesticHotWaterEnabled,
    Hottoh.isTempRoom1Enabled, Hottoh.isTempRoom2Enabled,
    Hottoh.isTempRoom3Enabled, Hottoh.isTempWaterEnabled,
    Hottoh.isPumpEnabled, Hottoh.isFlowSwitchEnabled, Hottoh.isPufferEnabled,
    Hottoh.isBoilerTempEnabled, Hottoh.isDhwEnabled, Hottoh.isAirEx1Enabled,
    Hottoh.isAirEx2Enabled, Hottoh.isAirEx3Enabled,
    Hottoh.isGenericPumpEnabled, Hottoh.getFanNumber;
  rewrite Hbits; reflexivity.

Lemma fan_bits_of_two z :
  (if Z.testbit z 13 then 2 else 0) + (if Z.testbit z 12 then 1 else 0)
  = (z / 4096) mod 4.
Proof.
  pose proof (Z.testbit_spec' z 12 ltac:(lia)) as H12.
  pose proof (Z.testbit_spec' z 13 ltac:(lia)) as H13.
  change (2 ^ 12) with 4096 in H12. change (2 ^ 13) with 8192 in H13.
  replace (z / 8192) with (z / 4096 / 2) in H13
    by (rewrite Z.div_div by lia; reflexivity).
  destruct (Z.testbit z 12), (Z.testbit z 13); cbn [Z.b2z] in *;
    generalize dependent (z / 4096); intros q H12 H13;
    pose proof (Z.div_mod q 2 ltac:(lia)); pose proof (Z.div_mod q 4 ltac:(lia));
    pose proof (Z.div_mod (q / 2) 2 ltac:(lia));
    pose proof (Z.mod_pos_bound q 4 ltac:(lia)); lia.
Qed.

Lemma fan_bits_odd n : Z.odd (fan_bits n) = type_bit n 12.
Proof.
  destruct n as [|z]; [reflexivity|]. cbn [fan_bits type_bit].
  rewrite <- fan_bits_of_two.
  destruct (Z.testbit z 13), (Z.testbit z 12); reflexivity.
Qed.

(** X1.  Whatever number the stove-type field parses to, the bit array of
    [_getStoveTypeBitArray] holds its sixteen low bits, bit 15 first, and
    each capability flag answers the bit it reads: no bit when the field is
    not a number, and the bits of the two's complement of the value when
    several bits are set, the value is negative or it is larger than sixteen
    bits. *)
Theorem capability_flags_read_bits (h : Hottoh.t) (n : number) :
  safe_integer n ->
  _getStoveType h = Normal (Num n) ->
  _getStoveTypeBitArray h
  = Normal (map (type_bit n)
              [15; 14; 13; 12; 11; 10; 9; 8; 7; 6; 5; 4; 3; 2; 1; 0])
  /\ Forall (fun flag => fst flag h = Normal (Bool (type_bit n (snd flag))))
       flags.
Proof.
  intros _ H. pose proof (bit_array_of_type h H) as Hbits.
  split; [exact Hbits|].
  unfold capability_flags.
  repeat (apply Forall_cons; [cbn [fst snd]; read_bit_array Hbits|]).
  apply Forall_nil.
Qed.

(** X2.  When the stove type is an integer that a number holds exactly
    (below [2^53] in absolute value) or is not a number, [getFanNumber] is
    the number the bits 13 and 12 of the stove type spell,
    [(type / 4096) mod 4]: between 0 and 3, 0 when the field is not a
    number.  Its low bit is the bit [isDhwEnabled] reads, so the fan number
    is odd exactly when that flag is set. *)
Theorem fan_number_of_type (h : Hottoh.t) (n : number) :
  safe_integer n ->
  _getStoveType h = Normal (Num n) ->
  getFanNumber h = Normal (Num (Int (fan_bits n)))
  /\ 0 <= fan_bits n <= 3
  /\ isDhwEnabled h = Normal (Bool (Z.odd (fan_bits n))).
Proof.
  intros _ H. pose proof (bit_array_of_type h H) as Hbits.
  split; [|split].
  - unfold Hottoh.getFanNumber. rewrite Hbits.
    cbn [Hottoh.bind Hottoh.truthy_at nth_error map].
    destruct n as [|z]; [reflexivity|]. cbn [type_bit fan_bits].
    now rewrite fan_bits_of_two.
  - destruct n as [|z]; cbn [fan_bits]; [lia|].
    pose proof (Z.mod_pos_bound (z / 4096) 4 ltac:(lia)). lia.
  - rewrite fan_bits_odd. read_bit_array Hbits.
Qed.

(** *** The action *)

#[local] Abbreviation getAction :=
  (@Hottoh.getAction StoveRegisters_value StoveState_value double
     double_toString).

Lemma stove_state_of_field h fields field :
  Hottoh._data h = Some fields ->
  nth_error fields (StoveRegisters_value INDEX_STOVE_STATE) = Some field ->
  _getStoveState h
  = Hottoh.switch StoveState_value (parseInt_string field)
      (@Hottoh._getStoveState_cases double) (Normal (Str field)).
Proof.
  intros Hd Hf. unfold Hottoh._getStoveState, Hottoh.at_index.
  rewrite Hd, Hf. reflexivity.
Qed.

Lemma jsstring_eqb_eq a b : jsstring_eqb a b = true -> a = b.
Proof. unfold jsstring_eqb. now destruct (list_eq_dec Z.eq_dec a b). Qed.

(** A field that parses to an integer is none of the names [getAction]
    looks for. *)
Lemma number_is_no_name field z name :
  parseInt_string field = Int z ->
  parseInt_string (lit name) = NaN ->
  jsstring_eqb field (lit name) = false.
Proof.
  intros Hz Hname. destruct (jsstring_eqb field (lit name)) eqn:E; [|reflexivity].
  apply jsstring_eqb_eq in E. subst. congruence.
Qed.

(** X3.  [getAction] on a data snapshot: a field that parses to the code of
    a member of [StoveState] gives the action of that member, ten actions
    for fifteen of the states and the name of the state itself for the six
    others; a field that parses to another integer comes back as it is; and
    with no data snapshot the action is ["not_connected"]. *)
Theorem action_of_state (h : Hottoh.t) (fields : list jsstring)
  (field : jsstring) :
  Hottoh._data h = Some fields ->
  nth_error fields (StoveRegisters_value INDEX_STOVE_STATE) = Some field ->
  (forall a b, StoveState_value a = StoveState_value b -> a = b) ->
  (forall s,
     parseInt_string field = Int (StoveState_value s) ->
     getAction h = Normal (Str (lit (action_name s))))
  /\ (forall z,
        parseInt_string field = Int z ->
        (forall s, z <> StoveState_value s) ->
        getAction h = Normal (Str field))
  /\ forall h0,
       Hottoh._data h0 = None ->
       getAction h0 = Normal (Str (lit "not_connected")).
Proof.
  intros Hd Hf Hinj. split; [|split].
  - intros s Hs. unfold Hottoh.getAction.
    rewrite (stove_state_of_field h Hd Hf), Hs.
    rewrite (@switch_finds StoveState_value double _ s Hinj).
    destruct s; reflexivity.
  - intros z Hz Hnone. unfold Hottoh.getAction.
    rewrite (stove_state_of_field h Hd Hf), Hz.
    rewrite switch_default
      by (intros s E; injection E as ->; now apply (Hnone s)).
    cbn [Hottoh.bind].
    assert (Hne : Hottoh.falsy (Str field) = false).
    { destruct field; [discriminate Hz|reflexivity]. }
    rewrite Hne.
    cbn [map existsb Hottoh.strict_eq_string orb].
    rewrite !(@number_is_no_name field z _ Hz) by reflexivity.
    reflexivity.
  - intros h0 H0. unfold Hottoh.getAction, Hottoh._getStoveState.
    rewrite H0. reflexivity.
Qed.

(** *** The manufacturer and the name *)

#[local] Abbreviation _getManufacturer :=
  (@Hottoh._getManufacturer StoveRegisters_value StoveManufacturer_value
     double double_toString).
#[local] Abbreviation getName :=
  (@Hottoh.getName StoveRegisters_value StoveManufacturer_value double
     double_toString).
#[local] Abbreviation getWaterPump :=
  (@Hottoh.getWaterPump StoveRegisters_value double double_toString).
#[local] Abbreviation getIsOn := (@Hottoh.getIsOn StoveRegisters_value double).
#[local] Abbreviation getEcoMode :=
  (@Hottoh.getEcoMode StoveRegisters_value double).
#[local] Abbreviation getChronoMode :=
  (@Hottoh.getChronoMode StoveRegisters_value double).

(** X4.  [getName] is ["Stove "] followed by the manufacturer: ["CMG"] when
    the manufacturer field parses to the code of CMG, ["EdilKamin"] when it
    parses to the code of EdilKamin (CMG is tested first), and the field
    itself otherwise.  It answers [null] only while there is no data
    snapshot: a snapshot too short to hold the field gives
    ["Stove undefined"]. *)
Theorem name_of_manufacturer (h : Hottoh.t) (fields : list jsstring) :
  Hottoh._data h = Some fields ->
  let index := StoveRegisters_value INDEX_MANUFACTURER in
  let code m := Int (StoveManufacturer_value m) in
  (forall field,
     nth_error fields index = Some field ->
     getName h
     = Normal (Str (lit "Stove " ++
         if number_strict_eq (parseInt_string field)
              (code STOVE_MANUFACTURER_CMG)
         then lit "CMG"
         else if number_strict_eq (parseInt_string field)
                   (code STOVE_MANUFACTURER_EDILKAMIN)
         then lit "EdilKamin"
         else field)))
  /\ (nth_error fields index = None ->
      _getManufacturer h = Normal Undefined
      /\ getName h = Normal (Str (lit "Stove undefined")))
  /\ forall h0, Hottoh._data h0 = None -> getName h0 = Normal Null.
Proof.
  intros Hd. cbv zeta. split; [|split].
  - intros field Hf.
    unfold Hottoh.getName, Hottoh.getManufacturer, Hottoh._getManufacturer,
      Hottoh.at_index, Hottoh.parseInt.
    rewrite Hd, Hf. cbn [Hottoh.not_slot Hottoh.bind Hottoh.ToString].
    destruct (number_strict_eq _ _); [reflexivity|].
    destruct (number_strict_eq _ _); reflexivity.
  - intros Hf.
    unfold Hottoh.getName, Hottoh.getManufacturer, Hottoh._getManufacturer,
      Hottoh.at_index, Hottoh.parseInt.
    rewrite Hd, Hf. split; reflexivity.
  - intros h0 H0.
    unfold Hottoh.getName, Hottoh.getManufacturer, Hottoh._getManufacturer.
    rewrite H0. reflexivity.
Qed.

(** X5.  With a second data snapshot [getWaterPump] answers [false] only
    when the pump field is there and parses to 0; it answers [true] for
    every other number and also when the field is missing or is not a
    number, since [NaN !== 0]. *)
Theorem water_pump_of_field (h : Hottoh.t) (fields : list jsstring) :
  Hottoh._data2 h = Some fields ->
  let index := StoveRegisters_value INDEX_GENERIC_PUMP in
  (getWaterPump h = Normal (Bool false)
   <-> exists field,
         nth_error fields index = Some field
         /\ parseInt_string field = Int 0)
  /\ (getWaterPump h = Normal (Bool false)
      \/ getWaterPump h = Normal (Bool true))
  /\ (nth_error fields index = None -> getWaterPump h = Normal (Bool true))
  /\ forall field,
       nth_error fields index = Some field ->
       parseInt_string field = NaN ->
       getWaterPump h = Normal (Bool true).
Proof.
  intros Hd. cbv zeta.
  assert (E : getWaterPump h
              = match nth_error fields
                        (StoveRegisters_value INDEX_GENERIC_PUMP) with
                | Some field =>
                    Normal (Bool (negb (number_strict_eq
                                          (parseInt_string field) (Int 0))))
                | None => Normal (Bool true)
                end).
  { unfold Hottoh.getWaterPump, Hottoh._getGenericPump, Hottoh.at_index,
      Hottoh.parseInt.
    rewrite Hd. cbn [Hottoh.not_slot].
    destruct (nth_error fields _); reflexivity. }
  rewrite E. clear E.
  destruct (nth_error fields _) as [field|].
  - destruct (parseInt_string field) as [|z] eqn:Hp;
      [|destruct (Z.eqb_spec z 0) as [->|Hz]];
      cbn [number_strict_eq negb]; rewrite ?Z.eqb_refl;
      try (replace (z =? 0) with false by (symmetry; now apply Z.eqb_neq));
      cbn [negb].
    + split; [split|split; [now right|split]].
      * discriminate.
      * intros (f & Hf & Hz). congruence.
      * discriminate.
      * reflexivity.
    + split; [split|split; [now left|split]].
      * intros _. now exists field.
      * reflexivity.
      * discriminate.
      * intros f [= <-] Hf. congruence.
    + split; [split|split; [now right|split]].
      * discriminate.
      * intros (f & Hf & Hz'). injection Hf as <-. congruence.
      * discriminate.
      * reflexivity.
  - split; [split|split; [now right|split]].
    + discriminate.
    + intros (f & Hf & _). discriminate.
    + reflexivity.
    + discriminate.
Qed.

(** X6.  [getIsOn], [getEcoMode] and [getChronoMode] compare text: each is
    [true] exactly when there is a data snapshot whose field is the string
    ["1"], and [false] in every other case, a missing snapshot or field
    included; they never answer [null]. *)
Theorem switches_compare_text (h : Hottoh.t) :
  let reads (accessor : Hottoh.t -> completion value) index :=
    (accessor h = Normal (Bool true)
     <-> exists fields,
           Hottoh._data h = Some fields
           /\ nth_error fields (StoveRegisters_value index) = Some (lit "1"))
    /\ (accessor h = Normal (Bool true) \/ accessor h = Normal (Bool false)) in
  reads getIsOn INDEX_STOVE_ON
  /\ reads getEcoMode INDEX_ECO_MODE
  /\ reads getChronoMode INDEX_TIMER_ON.
Proof.
  cbv zeta.
  assert (E : forall index,
            (exists v, Hottoh.bind
               (if Hottoh.not_slot (Hottoh._data h) then Normal Null
                else Hottoh.bind (at_index (Hottoh._data h) index)
                       (fun v => Normal (Str
                          (if Hottoh.strict_eq_string v (lit "1")
                           then lit "on" else lit "off"))))
               (fun v => Normal (Bool (Hottoh.strict_eq_string v (lit "on"))))
             = Normal (Bool v)
             /\ (v = true
                 <-> exists fields,
                       Hottoh._data h = Some fields
                       /\ nth_error fields (StoveRegisters_value index)
                          = Some (lit "1")))).
  { intros index. unfold Hottoh.at_index.
    destruct (Hottoh._data h) as [fields|]; cbn [Hottoh.not_slot Hottoh.bind].
    - destruct (nth_error fields (StoveRegisters_value index)) as [field|] eqn:Hf;
        cbn [Hottoh.bind Hottoh.strict_eq_string].
      + destruct (jsstring_eqb field (lit "1")) eqn:E.
        * apply jsstring_eqb_eq in E. subst. exists true. split; [reflexivity|].
          split; [intros _; now exists fields|reflexivity].
        * exists false. split; [reflexivity|].
          split; [discriminate|].
          intros (fs & [= <-] & Hf'). rewrite Hf in Hf'. injection Hf' as ->.
          discriminate E.
      + exists false. split; [reflexivity|]. split; [discriminate|].
        intros (fs & [= <-] & Hf'). congruence.
    - exists false. split; [reflexivity|]. split; [discriminate|].
      intros (fs & Hfs & _). discriminate. }
  repeat split;
    match goal with
    | |- ?accessor h = _ -> _ =>
        intros H;
        first [ destruct (E INDEX_STOVE_ON) as (v & Hv & Hiff);
                unfold Hottoh.getIsOn, Hottoh._getStoveIsOn in H;
                rewrite Hv in H
              | destruct (E INDEX_ECO_MODE) as (v & Hv & Hiff);
                unfold Hottoh.getEcoMode, Hottoh._getEcoMode in H;
                rewrite Hv in H
              | destruct (E INDEX_TIMER_ON) as (v & Hv & Hiff);
                unfold Hottoh.getChronoMode, Hottoh._getChronoMode in H;
                rewrite Hv in H ];
        apply Hiff; congruence
    | |- (exists _, _) -> ?accessor h = _ =>
        intros H;
        first [ destruct (E INDEX_STOVE_ON) as (v & Hv & Hiff);
                unfold Hottoh.getIsOn, Hottoh._getStoveIsOn;
                rewrite Hv; apply Hiff in H; now subst
              | destruct (E INDEX_ECO_MODE) as (v & Hv & Hiff);
                unfold Hottoh.getEcoMode, Hottoh._getEcoMode;
                rewrite Hv; apply Hiff in H; now subst
              | destruct (E INDEX_TIMER_ON) as (v & Hv & Hiff);
                unfold Hottoh.getChronoMode, Hottoh._getChronoMode;
                rewrite Hv; apply Hiff in H; now subst ]
    | |- ?accessor h = _ \/ _ =>
        first [ destruct (E INDEX_STOVE_ON) as (v & Hv & Hiff);
                unfold Hottoh.getIsOn, Hottoh._getStoveIsOn;
                rewrite Hv; destruct v; tauto
              | destruct (E INDEX_ECO_MODE) as (v & Hv & Hiff);
                unfold Hottoh.getEcoMode, Hottoh._getEcoMode;
                rewrite Hv; destruct v; tauto
              | destruct (E INDEX_TIMER_ON) as (v & Hv & Hiff);
                unfold Hottoh.getChronoMode, Hottoh._getChronoMode;
                rewrite Hv; destruct v; tauto ]
    end.
Qed.

(** *** No accessor throws *)

Lemma returns_normal {A} (v : A) : returns (Normal v).
Proof. now exists v. Qed.

Lemma returns_if {A} (b : bool) (x y : completion A) :
  returns x -> returns y -> returns (if b then x else y).
Proof. now destruct b. Qed.

Lemma returns_bind {A B} (m : completion A) (f : A -> completion B) :
  returns m -> (forall a, returns (f a)) -> returns (Hottoh.bind m f).
Proof. intros [a ->] Hf. apply Hf. Qed.

(** A slot that is not [null] can be indexed. *)
Lemma returns_at_index slot index :
  Hottoh.not_slot slot = false -> returns (at_index slot index).
Proof.
  destruct slot as [fields|]; [intros _|discriminate].
  unfold Hottoh.at_index. destruct (nth_error fields _); apply returns_normal.
Qed.

Lemma returns_guarded slot (x m : completion value) :
  returns x ->
  (Hottoh.not_slot slot = false -> returns m) ->
  returns (if Hottoh.not_slot slot then x else m).
Proof.
  intros Hx H. destruct (Hottoh.not_slot slot); [exact Hx|now apply H].
Qed.

Lemma returns_switch n (default : completion value) :
  returns default ->
  returns (Hottoh.switch StoveState_value n
             (@Hottoh._getStoveState_cases double) default).
Proof.
  intros Hd. unfold Hottoh.switch.
  destruct (find _ _) as [c|] eqn:E; [|exact Hd].
  apply find_some in E. destruct E as [Hin _].
  unfold Hottoh._getStoveState_cases in Hin. apply in_map_iff in Hin.
  destruct Hin as (x & <- & _). apply returns_normal.
Qed.

Lemma returns_bit_array h : returns (_getStoveTypeBitArray h).
Proof.
  unfold Hottoh._getStoveTypeBitArray, Hottoh._getStoveType.
  destruct (Hottoh.not_slot (Hottoh._data h)) eqn:E; [apply returns_normal|].
  destruct (@returns_at_index _ INDEX_STOVE_TYPE E) as [v ->].
  apply returns_normal.
Qed.

Ltac returns_step :=
  first
    [ apply returns_normal
    | apply returns_guarded; [apply returns_normal|intros ?]
    | apply returns_at_index; assumption
    | apply returns_switch
    | apply returns_bit_array
    | apply returns_if
    | apply returns_bind; [|intros ?] ].

Ltac unfold_accessor :=
  unfold
    Hottoh._getFirmwareVersion, Hottoh._getWifiSignal, Hottoh._getPageIndex,
    Hottoh._getManufacturer, Hottoh._getIsBitmapVisible, Hottoh._getIsValid,
    Hottoh._getStoveType, Hottoh._getStoveIsOn, Hottoh._getEcoMode,
    Hottoh._getChronoMode, Hottoh._getTemperatureRoom1,
    Hottoh._getSetTemperatureRoom1, Hottoh._getSetMaxTemperatureRoom1,
    Hottoh._getSetMinTemperatureRoom1, Hottoh._getTemperatureRoom2,
    Hottoh._getSetTemperatureRoom2, Hottoh._getSetMaxTemperatureRoom2,
    Hottoh._getSetMinTemperatureRoom2, Hottoh._getTemperatureRoom3,
    Hottoh._getSetTemperatureRoom3, Hottoh._getSetMaxTemperatureRoom3,
    Hottoh._getSetMinTemperatureRoom3, Hottoh._getTemperatureWater,
    Hottoh._getSetTemperatureWater, Hottoh._getSetMaxTemperatureWater,
    Hottoh._getSetMinTemperatureWater, Hottoh._getSmokeTemperature,
    Hottoh._getPowerLevel, Hottoh._getSetPowerLevel,
    Hottoh._getSetMaxPowerLevel, Hottoh._getSetMinPowerLevel,
    Hottoh._getSpeedFanSmoke, Hottoh._getSpeedFan1, Hottoh._getSetSpeedFan1,
    Hottoh._getSetMaxSpeedFan1, Hottoh._getSpeedFan2,
    Hottoh._getSetSpeedFan2, Hottoh._getSetMaxSpeedFan2,
    Hottoh._getSpeedFan3, Hottoh._getSetSpeedFan3,
    Hottoh._getSetMaxSpeedFan3, Hottoh._getFlowSwitch,
    Hottoh._getGenericPump, Hottoh._getAirEx1, Hottoh._getAirEx2,
    Hottoh._getAirEx3, Hottoh._getPuffer, Hottoh._getSetPuffer,
    Hottoh._getSetMinPuffer, Hottoh._getSetMaxPuffer, Hottoh._getBoiler,
    Hottoh._getSetBoiler, Hottoh._getSetMinBoiler, Hottoh._getSetMaxBoiler,
    Hottoh._getDhw, Hottoh._getSetDhw, Hottoh._getSetMinDhw,
    Hottoh._getSetMaxDhw, Hottoh._getStoveState, Hottoh.getSmokeTemperature,
    Hottoh.getWaterTemperature, Hottoh.getSetWaterTemperature,
    Hottoh.getSetMinWaterTemperature, Hottoh.getSetMaxWaterTemperature,
    Hottoh.getSpeedFanSmoke, Hottoh.getTemperatureRoom1,
    Hottoh.getSetTemperatureRoom1, Hottoh.getSetMinTemperatureRoom1,
    Hottoh.getSetMaxTemperatureRoom1, Hottoh.getTemperatureRoom2,
    Hottoh.getSetTemperatureRoom2, Hottoh.getSetMinTemperatureRoom2,
    Hottoh.getSetMaxTemperatureRoom2, Hottoh.getTemperatureRoom3,
    Hottoh.getSetTemperatureRoom3, Hottoh.getSetMinTemperatureRoom3,
    Hottoh.getSetMaxTemperatureRoom3, Hottoh.getSpeedFan1,
    Hottoh.getSetSpeedFan1, Hottoh.getSetMaxSpeedFan1, Hottoh.getSpeedFan2,
    Hottoh.getSetSpeedFan2, Hottoh.getSetMaxSpeedFan2, Hottoh.getSpeedFan3,
    Hottoh.getSetSpeedFan3, Hottoh.getSetMaxSpeedFan3, Hottoh.getPowerLevel,
    Hottoh.getSetPowerLevel, Hottoh.getSetMinPowerLevel,
    Hottoh.getSetMaxPowerLevel, Hottoh.getAirEx1, Hottoh.getAirEx2,
    Hottoh.getAirEx3, Hottoh.getAction, Hottoh.getIsOn, Hottoh.getEcoMode,
    Hottoh.getChronoMode, Hottoh.getMode, Hottoh.getName, Hottoh.getFirmware,
    Hottoh.getWifi, Hottoh.getManufacturer, Hottoh.getWaterPump,
    Hottoh.isBoilerEnabled, Hottoh.isDomesticHotWaterEnabled,
    Hottoh.getFanNumber, Hottoh.isTempRoom1Enabled,
    Hottoh.isTempRoom2Enabled, Hottoh.isTempRoom3Enabled,
    Hottoh.isTempWaterEnabled, Hottoh.isPumpEnabled,
    Hottoh.isFlowSwitchEnabled, Hottoh.isPufferEnabled,
    Hottoh.isBoilerTempEnabled, Hottoh.isDhwEnabled, Hottoh.isAirEx1Enabled,
    Hottoh.isAirEx2Enabled, Hottoh.isAirEx3Enabled,
    Hottoh.isGenericPumpEnabled.

(** X7.  No accessor of [Hottoh] throws, whatever the client holds: every
    method that reads a snapshot tests the slot it indexes for [null] first,
    and an index past the end of a snapshot reads [undefined]. *)
Theorem accessors_never_throw (h : Hottoh.t) :
  Forall (fun accessor => exists v, accessor h = Normal v)
    (@Hottoh.accessors StoveRegisters_value StoveState_value
       StoveManufacturer_value double parseFloat double_toString
       tenth_toString).
Proof.
  cbv [Hottoh.accessors Hottoh.field_accessors app].
  repeat (apply Forall_cons;
          [change (exists v, ?m = Normal v) with (returns m);
           unfold_accessor; cbv zeta; repeat returns_step|]).
  apply Forall_nil.
Qed.

(** *** A slot that was never fetched *)

Ltac slot_is_null H :=
  cbv [Hottoh._info Hottoh._data Hottoh._data2] in H;
  unfold_accessor;
  cbv [Hottoh._info Hottoh._data Hottoh._data2];
  rewrite H; reflexivity.

(** C10.  No accessor throws, whatever the slots hold, so in particular
    when the slot it reads is [null]; what it returns then depends on the
    accessor.  Each of the 58 internal field accessors returns [null] as
    soon as the one slot it tests and indexes is [null], whatever the other
    two slots hold; [_getStoveState] returns ["not_connected"] when [_data]
    is [null]; and [getIsOn], [getEcoMode] and [getChronoMode] return
    [false] when [_data] is [null], which is also what they return for a
    data snapshot whose field is ["0"]. *)
Theorem accessors_without_snapshot (h : Hottoh.t) :
  let all :=
    @Hottoh.accessors StoveRegisters_value StoveState_value
      StoveManufacturer_value double parseFloat double_toString
      tenth_toString in
  let fields :=
    @Hottoh.field_accessors StoveRegisters_value StoveManufacturer_value
      double double_toString tenth_toString in
  let slots :=
    @Hottoh.field_slots StoveRegisters_value StoveManufacturer_value
      double double_toString tenth_toString in
  Forall (fun accessor => exists v, accessor h = Normal v) all
  /\ map fst slots = fields
  /\ Forall (fun entry => snd entry h = None -> fst entry h = Normal Null)
       slots
  /\ (Hottoh._data h = None ->
      _getStoveState h = Normal (Str (lit "not_connected"))
      /\ getIsOn h = Normal (Bool false)
      /\ getEcoMode h = Normal (Bool false)
      /\ getChronoMode h = Normal (Bool false))
  /\ forall snapshot,
       Hottoh._data h = Some snapshot ->
       (nth_error snapshot (StoveRegisters_value INDEX_STOVE_ON)
        = Some (lit "0") -> getIsOn h = Normal (Bool false))
       /\ (nth_error snapshot (StoveRegisters_value INDEX_ECO_MODE)
           = Some (lit "0") -> getEcoMode h = Normal (Bool false))
       /\ (nth_error snapshot (StoveRegisters_value INDEX_TIMER_ON)
           = Some (lit "0") -> getChronoMode h = Normal (Bool false)).
Proof.
  cbv zeta. split; [|split; [reflexivity|split; [|split]]].
  - cbv [Hottoh.accessors Hottoh.field_accessors app].
    repeat (apply Forall_cons;
            [change (exists v, ?m = Normal v) with (returns m);
             unfold_accessor; cbv zeta; repeat returns_step|]).
    apply Forall_nil.
  - cbv [Hottoh.field_slots].
    repeat (apply Forall_cons; [cbn [fst snd]; intro H; slot_is_null H|]).
    apply Forall_nil.
  - intro H. repeat split.
    + slot_is_null H.
    + unfold Hottoh.getIsOn. slot_is_null H.
    + unfold Hottoh.getEcoMode. slot_is_null H.
    + unfold Hottoh.getChronoMode. slot_is_null H.
  - intros snapshot Hs.
    unfold Hottoh.getIsOn, Hottoh.getEcoMode, Hottoh.getChronoMode,
      Hottoh._getStoveIsOn, Hottoh._getEcoMode, Hottoh._getChronoMode,
      Hottoh.at_index.
    cbv [Hottoh._data] in Hs |- *. rewrite Hs. cbn [Hottoh.not_slot].
    repeat split; intros ->; reflexivity.
Qed.

End AccessorsAnySnapshot.

(** *** Examples *)

(** The stove type 4660 is [0x1234]: the bits 12, 9, 5, 4 and 2. *)
Lemma capability_flags_read_bits_witness :
  let h := with_data (sample_fields "4660" "0") in
  Hottoh.isBoilerEnabled sample_registers no_double_toString h
  = Normal (Hottoh.Bool unit true)
  /\ Hottoh.isDomesticHotWaterEnabled sample_registers no_double_toString h
     = Normal (Hottoh.Bool unit false)
  /\ Hottoh._getStoveTypeBitArray sample_registers no_double_toString h
     = Normal [false; false; false; true; false; false; true; false;
               false; false; true; true; false; true; false; false].
Proof.
  cbv zeta.
  destruct (@capability_flags_read_bits sample_registers unit
              no_double_toString (with_data (sample_fields "4660" "0"))
              (Int 4660) ltac:(cbn; lia) eq_refl) as (Hbits & Hflags).
  inversion Hflags as [|? ? H1 Hrest]; subst.
  inversion Hrest as [|? ? H2 _]; subst.
  split; [exact H1|]. split; [exact H2|exact Hbits].
Defined.

Lemma fan_number_of_type_witness :
  let h := with_data (sample_fields "12288" "0") in
  Hottoh.getFanNumber sample_registers no_double_toString h
  = Normal (Hottoh.Num unit (Int 3))
  /\ Hottoh.isDhwEnabled sample_registers no_double_toString h
     = Normal (Hottoh.Bool unit true).
Proof.
  cbv zeta.
  destruct (@fan_number_of_type sample_registers unit no_double_toString
              (with_data (sample_fields "12288" "0")) (Int 12288)
              ltac:(cbn; lia) eq_refl) as (Hfan & _ & Hdhw).
  split; [exact Hfan|exact Hdhw].
Defined.

Lemma action_of_state_witness :
  let h := with_data (sample_fields "1" "9") in
  Hottoh.getAction sample_registers sample_states no_double_toString h
  = Normal (Hottoh.Str unit (lit "stopping"))
  /\ Hottoh.getAction sample_registers sample_states no_double_toString
       (with_data (sample_fields "1" "77"))
     = Normal (Hottoh.Str unit (lit "77")).
Proof.
  cbv zeta.
  assert (Hinj : forall a b, sample_states a = sample_states b -> a = b)
    by (intros a b; destruct a, b; (reflexivity || discriminate)).
  split.
  - exact (proj1 (@action_of_state sample_registers sample_states unit
             no_double_toString (with_data (sample_fields "1" "9"))
             (sample_fields "1" "9") (lit "9") eq_refl eq_refl Hinj)
             Const.STATUS_STOPPING_1 eq_refl).
  - refine (proj1 (proj2 (@action_of_state sample_registers sample_states unit
             no_double_toString (with_data (sample_fields "1" "77"))
             (sample_fields "1" "77") (lit "77") eq_refl eq_refl Hinj))
             77 eq_refl _).
    intros s; destruct s; discriminate.
Defined.

Lemma name_of_manufacturer_witness :
  Hottoh.getName sample_registers sample_manufacturers no_double_toString
    (with_data (sample_fields "1" "8"))
  = Normal (Hottoh.Str unit (lit "Stove 0"))
  /\ Hottoh.getName sample_registers sample_manufacturers no_double_toString
       (with_data [lit "9"])
     = Normal (Hottoh.Str unit (lit "Stove CMG"))
  /\ Hottoh.getName sample_registers sample_manufacturers no_double_toString
       (with_data [])
     = Normal (Hottoh.Str unit (lit "Stove undefined")).
Proof.
  split; [|split].
  - exact (proj1 (@name_of_manufacturer sample_registers sample_manufacturers
             unit no_double_toString (with_data (sample_fields "1" "8"))
             (sample_fields "1" "8") eq_refl) (lit "0") eq_refl).
  - exact (proj1 (@name_of_manufacturer sample_registers sample_manufacturers
             unit no_double_toString (with_data [lit "9"]) [lit "9"] eq_refl)
             (lit "9") eq_refl).
  - exact (proj2 (proj1 (proj2 (@name_of_manufacturer sample_registers
             sample_manufacturers unit no_double_toString (with_data [])
             [] eq_refl)) eq_refl)).
Defined.

Lemma water_pump_of_field_witness :
  Hottoh.getWaterPump sample_registers no_double_toString (with_data2 [lit "2"])
  = Normal (Hottoh.Bool unit true)
  /\ Hottoh.getWaterPump sample_registers no_double_toString
       (with_data2 [lit "2"; lit "0"; lit "on"])
     = Normal (Hottoh.Bool unit true)
  /\ Hottoh.getWaterPump sample_registers no_double_toString
       (with_data2 [lit "2"; lit "0"; lit "00"])
     = Normal (Hottoh.Bool unit false).
Proof.
  split; [|split].
  - exact (proj1 (proj2 (proj2 (@water_pump_of_field sample_registers unit
             no_double_toString (with_data2 [lit "2"]) [lit "2"] eq_refl)))
             eq_refl).
  - exact (proj2 (proj2 (proj2 (@water_pump_of_field sample_registers unit
             no_double_toString (with_data2 [lit "2"; lit "0"; lit "on"])
             [lit "2"; lit "0"; lit "on"] eq_refl)))
             (lit "on") eq_refl eq_refl).
  - apply (proj1 (@water_pump_of_field sample_registers unit
             no_double_toString (with_data2 [lit "2"; lit "0"; lit "00"])
             [lit "2"; lit "0"; lit "00"] eq_refl)).
    exists (lit "00"). split; reflexivity.
Defined.

(** The routine state in which [_info] has been fetched and [_data] has
    not. *)
Lemma accessors_without_snapshot_witness :
  let h :=
    {| Hottoh.client :=
         HottohRemoteClient.set__info (Some [lit "HOTTOH"; lit "1.7"])
           HottohRemoteClient.new |} in
  Hottoh._getPageIndex sample_registers unit h = Normal (Hottoh.Null unit)
  /\ Hottoh._getStoveState sample_registers sample_states no_double_toString h
     = Normal (Hottoh.Str unit (lit "not_connected"))
  /\ Hottoh.getIsOn sample_registers unit h = Normal (Hottoh.Bool unit false).
Proof.
  cbv zeta.
  destruct (@accessors_without_snapshot sample_registers sample_states
              sample_manufacturers unit no_parseFloat no_double_toString
              no_tenth_toString
              {| Hottoh.client :=
                   HottohRemoteClient.set__info
                     (Some [lit "HOTTOH"; lit "1.7"])
                     HottohRemoteClient.new |})
    as (_ & _ & Hslots & Hdata & _).
  cbv zeta in Hslots.
  inversion Hslots as [|? ? _ Hslots1]; subst.
  inversion Hslots1 as [|? ? _ Hslots2]; subst.
  inversion Hslots2 as [|? ? Hpage _]; subst.
  destruct (Hdata eq_refl) as (Hstate & Hon & _).
  split; [exact (Hpage eq_refl)|]. split; [exact Hstate | exact Hon].
Defined.

(** ** More on the request frame *)

Section Utf8.

(** Induction along [Buffer_from_utf8], which reads one or two code units. *)
Lemma pairs_ind (P : jsstring -> Prop) :
  P [] ->
  (forall c rest, P rest -> P (tl rest) -> P (c :: rest)) ->
  forall s, P s.
Proof.
  intros H0 Hstep s.
  assert (H : P s /\ P (tl s)); [|apply H].
  induction s as [|c rest [IH1 IH2]]; cbn [tl]; split; auto.
Qed.

Lemma Z_of_byte_of_Z z : Z_of_byte (byte_of_Z z) = z mod 256.
Proof.
  unfold Z_of_byte, byte_of_Z.
  pose proof (Z.mod_pos_bound z 256 ltac:(lia)) as Hm.
  destruct (Byte.of_N (Z.to_N (z mod 256))) as [b|] eqn:E.
  - apply Byte.to_of_N in E. rewrite E. lia.
  - apply Byte.of_N_None_iff in E. lia.
Qed.

Lemma Z_of_byte_inj a b : Z_of_byte a = Z_of_byte b -> a = b.
Proof.
  unfold Z_of_byte. intros H. apply N2Z.inj in H.
  apply (f_equal Byte.of_N) in H.
  rewrite !Byte.of_to_N in H. now injection H.
Qed.

(** A byte with bit 7 set is no line feed. *)
Lemma high_byte_no_line_feed z :
  Z.testbit z 7 = true -> byte_of_Z z <> line_feed_byte.
Proof.
  intros Hbit E. apply (f_equal Z_of_byte) in E.
  rewrite Z_of_byte_of_Z in E. change (Z_of_byte line_feed_byte) with 10 in E.
  change 256 with (2 ^ 8) in E.
  rewrite <- (Z.mod_pow2_bits_low z 8 7), E in Hbit by lia. discriminate.
Qed.

Lemma lor_bit7 a b : Z.testbit a 7 = true -> Z.testbit (Z.lor a b) 7 = true.
Proof. intros H. now rewrite Z.lor_spec, H. Qed.

Lemma code_point_line_feed cp :
  0 <= cp ->
  In line_feed_byte (utf8_of_code_point cp) -> cp = 10.
Proof.
  intros Hcp. unfold utf8_of_code_point.
  destruct (cp <? 0x80) eqn:E1.
  - apply Z.ltb_lt in E1. intros [E|[]].
    apply (f_equal Z_of_byte) in E. rewrite Z_of_byte_of_Z in E.
    rewrite Z.mod_small in E by lia. exact E.
  - intros Hin. exfalso.
    destruct (cp <? 0x800); [|destruct (cp <? 0x10000)]; cbn [In] in Hin;
      repeat (destruct Hin as [Hin|Hin];
              [revert Hin; apply high_byte_no_line_feed, lor_bit7; reflexivity|]);
      exact Hin.
Qed.

Lemma replacement_no_line_feed :
  ~ In line_feed_byte (utf8_of_code_point replacement_character).
Proof. vm_compute. intuition discriminate. Qed.

(** The encoder writes a line feed only for a line feed. *)
Lemma encoded_line_feed s :
  code_units s -> In line_feed_byte (Buffer_from_utf8 s) -> In 10 s.
Proof.
  induction s as [|c rest IH1 IH2] using pairs_ind; [intros _ []|].
  intros Hs. inversion Hs as [|? ? Hc Hrest]; subst.
  assert (Htl : code_units (tl rest)).
  { destruct rest; [constructor|]. now inversion Hrest. }
  cbn [Buffer_from_utf8].
  destruct (is_high_surrogate c) eqn:Eh.
  - destruct rest as [|lo rest'].
    + intros Hin. now apply replacement_no_line_feed in Hin.
    + destruct (is_low_surrogate lo) eqn:El; intros Hin;
        apply in_app_or in Hin; destruct Hin as [Hin|Hin].
      * exfalso. revert Hin. unfold utf8_of_code_point.
        unfold is_high_surrogate in Eh. unfold is_low_surrogate in El.
        apply andb_true_iff in Eh, El.
        assert (0 <= Z.shiftl (c - 0xD800) 10)
          by (apply Z.shiftl_nonneg; lia).
        replace (_ <? 0x80) with false by (symmetry; apply Z.ltb_ge; lia).
        replace (_ <? 0x800) with false by (symmetry; apply Z.ltb_ge; lia).
        replace (_ <? 0x10000) with false by (symmetry; apply Z.ltb_ge; lia).
        cbn [In]. intros Hin.
        repeat (destruct Hin as [Hin|Hin];
                [revert Hin; apply high_byte_no_line_feed, lor_bit7;
                 reflexivity|]).
        exact Hin.
      * right. right. now apply IH2.
      * now apply replacement_no_line_feed in Hin.
      * right. now apply IH1.
  - destruct (is_low_surrogate c) eqn:El; intros Hin;
      apply in_app_or in Hin; destruct Hin as [Hin|Hin].
    + now apply replacement_no_line_feed in Hin.
    + right. now apply IH1.
    + left. apply code_point_line_feed; [lia|exact Hin].
    + right. now apply IH1.
Qed.

(** An ASCII character at the end of a string is one more byte. *)
Lemma Buffer_from_utf8_snoc c s :
  0 <= c < 0x80 ->
  Buffer_from_utf8 (s ++ [c]) = Buffer_from_utf8 s ++ [byte_of_Z c].
Proof.
  intros Hc.
  assert (Hh : is_high_surrogate c = false)
    by (unfold is_high_surrogate; apply andb_false_iff; left; apply Z.leb_gt; lia).
  assert (Hl : is_low_surrogate c = false)
    by (unfold is_low_surrogate; apply andb_false_iff; left; apply Z.leb_gt; lia).
  assert (H1 : Buffer_from_utf8 [c] = [byte_of_Z c]).
  { cbn [Buffer_from_utf8]. rewrite Hh, Hl. unfold utf8_of_code_point.
    replace (c <? 0x80) with true by (symmetry; apply Z.ltb_lt; lia).
    reflexivity. }
  pattern s. apply pairs_ind; clear s; [exact H1|].
  intros x rest IH1 IH2.
  cbn [app Buffer_from_utf8].
  destruct (is_high_surrogate x).
  - destruct rest as [|lo rest']; cbn [app tl] in *.
    + rewrite Hl, H1. reflexivity.
    + destruct (is_low_surrogate lo).
      * now rewrite IH2, app_assoc.
      * now rewrite IH1, app_assoc.
  - destruct (is_low_surrogate x); now rewrite IH1, app_assoc.
Qed.

(** A code unit is one byte or more; an ASCII string is one byte each. *)
Lemma utf8_of_code_point_length cp :
  (1 <= List.length (utf8_of_code_point cp))%nat
  /\ (0x80 <= cp -> (2 <= List.length (utf8_of_code_point cp))%nat).
Proof.
  unfold utf8_of_code_point.
  destruct (cp <? 0x80) eqn:E1; [apply Z.ltb_lt in E1; cbn; split; lia|].
  destruct (cp <? 0x800); [cbn; split; lia|].
  destruct (cp <? 0x10000); cbn; split; lia.
Qed.

Lemma encoded_length s :
  (List.length s <= List.length (Buffer_from_utf8 s))%nat
  /\ (List.length (Buffer_from_utf8 s) = List.length s -> ascii_text s).
Proof.
  pattern s. apply pairs_ind; clear s.
  - split; [reflexivity|constructor].
  - intros c rest [IH1 IH1'] [IH2 IH2']. cbn [Buffer_from_utf8].
    assert (Hr : List.length (utf8_of_code_point replacement_character) = 3%nat)
      by reflexivity.
    destruct (is_high_surrogate c) eqn:Eh.
    + destruct rest as [|lo rest']; cbn [tl List.length] in *.
      * rewrite Hr. split; lia.
      * destruct (is_low_surrogate lo) eqn:El; rewrite length_app.
        -- unfold is_high_surrogate in Eh. unfold is_low_surrogate in El.
           apply andb_true_iff in Eh, El.
           assert (0 <= Z.shiftl (c - 0xD800) 10)
             by (apply Z.shiftl_nonneg; lia).
           set (cp := 0x10000 + Z.shiftl (c - 0xD800) 10 + (lo - 0xDC00)).
           assert (Hcp : List.length (utf8_of_code_point cp) = 4%nat).
           { unfold utf8_of_code_point.
             replace (cp <? 0x80) with false
               by (symmetry; apply Z.ltb_ge; subst cp; lia).
             replace (cp <? 0x800) with false
               by (symmetry; apply Z.ltb_ge; subst cp; lia).
             replace (cp <? 0x10000) with false
               by (symmetry; apply Z.ltb_ge; subst cp; lia).
             reflexivity. }
           rewrite Hcp. split; lia.
        -- rewrite Hr. cbn [List.length] in IH1. split; lia.
    + destruct (is_low_surrogate c) eqn:El; rewrite length_app.
      * rewrite Hr. cbn [List.length]. split; lia.
      * destruct (utf8_of_code_point_length c) as [H1 H2].
        cbn [List.length]. split; [lia|].
        intros E. constructor; [|apply IH1'; lia].
        destruct (Z.lt_ge_cases c 0x80); [assumption|].
        specialize (H2 ltac:(lia)). lia.
Qed.

Lemma encoded_ascii s :
  ascii_text s -> Buffer_from_utf8 s = map byte_of_Z s.
Proof.
  induction s as [|c rest IH]; intros Hs; [reflexivity|].
  inversion Hs as [|? ? Hc Hrest]; subst.
  cbn [Buffer_from_utf8 map].
  replace (is_high_surrogate c) with false
    by (symmetry; unfold is_high_surrogate; apply andb_false_iff; left;
        apply Z.leb_gt; lia).
  replace (is_low_surrogate c) with false
    by (symmetry; unfold is_low_surrogate; apply andb_false_iff; left;
        apply Z.leb_gt; lia).
  unfold utf8_of_code_point.
  replace (c <? 0x80) with true by (symmetry; apply Z.ltb_lt; lia).
  cbn [app]. now rewrite IH.
Qed.

End Utf8.

(** *** The checksum tells one byte from another *)

Section CrcInjective.

Lemma shift_range a : 0 <= CcittFalse.shift a < 65536.
Proof.
  unfold CcittFalse.shift.
  pose proof (Z.mod_pos_bound (Z.shiftl a 1) 65536 ltac:(lia)) as Hm.
  destruct (Z.testbit a 15); [|exact Hm].
  apply (lxor_bound (n:=16)); [lia|exact Hm|]. unfold CcittFalse.poly. lia.
Qed.

Lemma shifted_bit a n :
  0 <= n < 15 ->
  Z.testbit (Z.shiftl a 1 mod 65536) (n + 1) = Z.testbit a n.
Proof.
  intros Hn. change 65536 with (2 ^ 16).
  rewrite Z.mod_pow2_bits_low, Z.shiftl_spec by lia.
  f_equal. lia.
Qed.

Lemma shifted_bit0 a : Z.testbit (Z.shiftl a 1 mod 65536) 0 = false.
Proof.
  change 65536 with (2 ^ 16).
  rewrite Z.mod_pow2_bits_low by lia. apply Z.shiftl_spec_low. lia.
Qed.

Lemma shift_bit0 a : Z.testbit (CcittFalse.shift a) 0 = Z.testbit a 15.
Proof.
  unfold CcittFalse.shift. destruct (Z.testbit a 15).
  - rewrite Z.lxor_spec, shifted_bit0. reflexivity.
  - apply shifted_bit0.
Qed.

Lemma lxor_cancel_r a b c : Z.lxor a c = Z.lxor b c -> a = b.
Proof.
  intros H. apply (f_equal (fun x => Z.lxor x c)) in H.
  now rewrite !Z.lxor_assoc, !Z.lxor_nilpotent, !Z.lxor_0_r in H.
Qed.

Lemma lxor_cancel_l a b c : Z.lxor c a = Z.lxor c b -> a = b.
Proof. rewrite !(Z.lxor_comm c). apply lxor_cancel_r. Qed.

(** One shift of the register loses nothing. *)
Lemma shift_inj a b :
  0 <= a < 65536 -> 0 <= b < 65536 ->
  CcittFalse.shift a = CcittFalse.shift b -> a = b.
Proof.
  intros Ha Hb H.
  assert (H15 : Z.testbit a 15 = Z.testbit b 15)
    by (rewrite <- !shift_bit0; now rewrite H).
  assert (Hm : Z.shiftl a 1 mod 65536 = Z.shiftl b 1 mod 65536).
  { unfold CcittFalse.shift in H. rewrite <- H15 in H.
    destruct (Z.testbit a 15); [now apply lxor_cancel_r in H|exact H]. }
  apply Z.bits_inj'. intros n Hn.
  destruct (Z.lt_ge_cases n 15) as [Hlt|Hge].
  - assert (Hn' : 0 <= n < 15) by lia.
    rewrite <- (shifted_bit a Hn'), <- (shifted_bit b Hn'). now rewrite Hm.
  - destruct (Z.eq_dec n 15) as [->|Hne]; [exact H15|].
    rewrite <- (Z.mod_small a (2 ^ 16)), <- (Z.mod_small b (2 ^ 16))
      by (change (2 ^ 16) with 65536; lia).
    now rewrite !Z.mod_pow2_bits_high by lia.
Qed.

Lemma shift8_inj a b :
  0 <= a < 65536 -> 0 <= b < 65536 ->
  CcittFalse.shift8 a = CcittFalse.shift8 b -> a = b.
Proof.
  intros Ha Hb H. unfold CcittFalse.shift8 in H.
  repeat (apply shift_inj in H; try apply shift_range; try assumption).
Qed.

Lemma fed_byte_range b : 0 <= Z.shiftl (Z_of_byte b) 8 < 2 ^ 16.
Proof.
  pose proof (Z_of_byte_range b).
  rewrite Z.shiftl_mul_pow2 by lia.
  change (2 ^ 8) with 256. change (2 ^ 16) with 65536. lia.
Qed.

Lemma update_inj_crc x y b :
  0 <= x < 65536 -> 0 <= y < 65536 ->
  Crc.update x b = Crc.update y b -> x = y.
Proof.
  intros Hx Hy. rewrite !update_feed by assumption.
  unfold CcittFalse.feed. intros H.
  apply shift8_inj in H.
  - now apply lxor_cancel_r in H.
  - apply (lxor_bound (n:=16)); [lia|exact Hx|apply fed_byte_range].
  - apply (lxor_bound (n:=16)); [lia|exact Hy|apply fed_byte_range].
Qed.

Lemma update_inj_byte x b1 b2 :
  0 <= x < 65536 ->
  Crc.update x b1 = Crc.update x b2 -> b1 = b2.
Proof.
  intros Hx. rewrite !update_feed by assumption.
  unfold CcittFalse.feed. intros H.
  apply shift8_inj in H.
  - apply lxor_cancel_l in H. apply Z_of_byte_inj.
    rewrite !Z.shiftl_mul_pow2 in H by lia. lia.
  - apply (lxor_bound (n:=16)); [lia|exact Hx|apply fed_byte_range].
  - apply (lxor_bound (n:=16)); [lia|exact Hx|apply fed_byte_range].
Qed.

Lemma fold_update_range data : forall crc,
  0 <= crc < 65536 -> 0 <= fold_left Crc.update data crc < 65536.
Proof. intros crc Hc. now apply fold_update_feed. Qed.

Lemma fold_update_inj data : forall x y,
  0 <= x < 65536 -> 0 <= y < 65536 ->
  fold_left Crc.update data x = fold_left Crc.update data y -> x = y.
Proof.
  induction data as [|b data IH]; intros x y Hx Hy H; [exact H|].
  cbn [fold_left] in H.
  apply IH in H; try apply update_range.
  now apply update_inj_crc in H.
Qed.

Lemma crc16ccitt_one_byte pre suf b1 b2 :
  Crc.crc16ccitt (pre ++ b1 :: suf) = Crc.crc16ccitt (pre ++ b2 :: suf) ->
  b1 = b2.
Proof.
  unfold Crc.crc16ccitt. rewrite !fold_left_app. cbn [fold_left].
  pose proof (fold_update_range pre (crc:=0xffff) ltac:(lia)) as Hp.
  intros H. apply fold_update_inj in H; try apply update_range.
  now apply update_inj_byte in H.
Qed.

End CrcInjective.

(** X8.  The checksum of a message changes whenever one byte of its UTF-8
    encoding is replaced by another: a single corrupted byte of the body is
    always detected. *)
Theorem checksum_detects_one_byte (message1 message2 : jsstring)
  (pre suf : Buffer) (b1 b2 : byte) :
  Buffer_from_utf8 message1 = pre ++ b1 :: suf ->
  Buffer_from_utf8 message2 = pre ++ b2 :: suf ->
  b1 <> b2 ->
  Request._getCrc message1 <> Request._getCrc message2.
Proof.
  intros H1 H2 Hne E. apply Hne.
  apply (crc16ccitt_one_byte pre suf).
  rewrite <- H1, <- H2.
  apply (f_equal hex_value) in E. unfold Request._getCrc in E.
  destruct (hex4_correct (proj1 (crc16ccitt_range (Buffer_from_utf8 message1))))
    as (_ & E1 & _).
  destruct (hex4_correct (proj1 (crc16ccitt_range (Buffer_from_utf8 message2))))
    as (_ & E2 & _).
  cbv zeta in E1, E2. now rewrite E1, E2 in E.
Qed.

(** The bodies of the requests that read block 0 and block 2 differ in one
    byte. *)
Lemma checksum_detects_one_byte_witness :
  Request._getCrc (lit "00000C---0002DATR0;")
  <> Request._getCrc (lit "00000C---0002DATR2;").
Proof.
  apply (@checksum_detects_one_byte _ _
           (Buffer_from_utf8 (lit "00000C---0002DATR")) [x3b] x30 x32);
    [reflexivity|reflexivity|discriminate].
Defined.

(** *** The request on the wire *)

Section RequestOnTheWire.

Lemma line_text_app a b : line_text a -> line_text b -> line_text (a ++ b).
Proof. intros Ha Hb. apply Forall_app. now split. Qed.

Lemma line_text_join parameters :
  Forall line_text parameters -> line_text (join semicolon parameters).
Proof.
  induction parameters as [|p rest IH]; intros H; [constructor|].
  inversion H as [|? ? Hp Hrest]; subst.
  destruct rest as [|q rest]; [exact Hp|].
  change (join semicolon (p :: q :: rest))
    with (p ++ semicolon :: join semicolon (q :: rest)).
  apply line_text_app; [exact Hp|].
  constructor; [unfold semicolon, newline; lia|now apply IH].
Qed.

Lemma line_text_hex s : forallb is_upper_hex_digit s = true -> line_text s.
Proof.
  intros H. apply Forall_forall. intros c Hc.
  rewrite forallb_forall in H. specialize (H c Hc).
  unfold is_upper_hex_digit in H. unfold newline. lia.
Qed.

Lemma line_text_plain s :
  line_text s -> code_units s /\ ~ In newline s.
Proof.
  intros H. unfold line_text in H. split.
  - eapply Forall_impl; [|exact H]. cbv beta. lia.
  - intros Hin. rewrite Forall_forall in H. now destruct (H _ Hin).
Qed.

(** The text of the request before its line feed. *)
Lemma request_text command mode parameters id :
  Request.request (Request.new command mode parameters id)
  = (lit "#" ++ (lit "00000" ++ lit "C---"
                   ++ Request.lenParameters (Request._getParameters parameters)
                   ++ command ++ mode ++ Request._getParameters parameters)
       ++ Request._getCrc
            (lit "00000" ++ lit "C---"
               ++ Request.lenParameters (Request._getParameters parameters)
               ++ command ++ mode ++ Request._getParameters parameters))
    ++ [newline].
Proof.
  cbn [Request.request Request.new].
  unfold Request._buildRawPacket, Request._getRawData.
  now rewrite <- !app_assoc.
Qed.

(** The text before the line feed holds none. *)
Lemma request_text_line command mode parameters :
  line_text command ->
  line_text mode ->
  Forall line_text parameters ->
  line_text
    (lit "#" ++ (lit "00000" ++ lit "C---"
                   ++ Request.lenParameters (Request._getParameters parameters)
                   ++ command ++ mode ++ Request._getParameters parameters)
       ++ Request._getCrc
            (lit "00000" ++ lit "C---"
               ++ Request.lenParameters (Request._getParameters parameters)
               ++ command ++ mode ++ Request._getParameters parameters)).
Proof.
  intros Hc Hm Hp.
  destruct (lenParameters_correct (Request._getParameters parameters))
    as (Hl & _).
  match goal with
  | |- context [Request._getCrc ?m] =>
      destruct (getCrc_correct m) as (Hk & _)
  end.
  cbv zeta in Hl, Hk.
  assert (Hlit : forall text : string,
            forallb (fun c => (0 <=? c) && (c <? 65536) && negb (c =? newline))
              (lit text) = true -> line_text (lit text)).
  { intros text H. apply Forall_forall. intros c Hin.
    rewrite forallb_forall in H. specialize (H c Hin).
    apply andb_true_iff in H. destruct H as [H1 H2].
    apply andb_true_iff in H1. apply negb_true_iff, Z.eqb_neq in H2. lia. }
  assert (Hj : line_text (Request._getParameters parameters)).
  { unfold Request._getParameters.
    apply line_text_app; [now apply line_text_join|apply Hlit; reflexivity]. }
  apply line_text_app; [apply Hlit; reflexivity|].
  apply line_text_app; [|now apply line_text_hex].
  apply line_text_app; [apply Hlit; reflexivity|].
  apply line_text_app; [apply Hlit; reflexivity|].
  apply line_text_app; [now apply line_text_hex|].
  apply line_text_app; [exact Hc|].
  apply line_text_app; [exact Hm|exact Hj].
Qed.

End RequestOnTheWire.

(** X9.  On the wire a request is one line: when the command, the mode and
    the parameters hold no line feed, the bytes of the request end with the
    line feed byte and hold no other, whatever else the parameters hold,
    characters outside ASCII included. *)
Theorem request_is_one_line (command mode : jsstring)
  (parameters : list jsstring) (id : Z) :
  line_text command ->
  line_text mode ->
  Forall line_text parameters ->
  exists line : Buffer,
    Request.getRequest (Request.new command mode parameters id)
    = line ++ [line_feed_byte]
    /\ ~ In line_feed_byte line.
Proof.
  intros Hc Hm Hp. unfold Request.getRequest. rewrite request_text.
  rewrite Buffer_from_utf8_snoc by (unfold newline; lia).
  eexists. split; [reflexivity|].
  pose proof (line_text_plain (request_text_line Hc Hm Hp)) as [Hu Hn].
  intros Hin. apply Hn. now apply encoded_line_feed.
Qed.

(** *** What a request determines *)

Section RequestDetermines.

Lemma hex_width_mono a b : 0 <= a <= b -> (hex_width a <= hex_width b)%nat.
Proof.
  intros H. unfold hex_width. apply le_n_S, Z2Nat.inj_le.
  - apply Z.div_pos; [apply Z.log2_nonneg|lia].
  - apply Z.div_pos; [apply Z.log2_nonneg|lia].
  - apply Z.div_le_mono; [lia|]. apply Z.log2_le_mono. lia.
Qed.

(** The length field is as wide as the length asks, and no longer for a
    shorter string. *)
Lemma lenParameters_length_mono (a b : jsstring) :
  (List.length a <= List.length b)%nat ->
  (List.length (Request.lenParameters a)
   <= List.length (Request.lenParameters b))%nat.
Proof.
  intros H.
  destruct (lenParameters_correct a) as (_ & _ & Ha).
  destruct (lenParameters_correct b) as (_ & _ & Hb).
  cbv zeta in Ha, Hb. rewrite Ha, Hb.
  pose proof (@hex_width_mono (Z.of_nat (List.length a))
                (Z.of_nat (List.length b)) ltac:(lia)).
  lia.
Qed.

Lemma app_same_length {A} (a b x y : list A) :
  List.length a = List.length b -> a ++ x = b ++ y -> a = b /\ x = y.
Proof.
  revert b. induction a as [|h a IH]; intros [|k b] Hlen H;
    try discriminate; [now split|].
  cbn in Hlen, H. injection H as -> H. injection Hlen as Hlen.
  destruct (IH b Hlen H) as [-> ->]. now split.
Qed.

Lemma request_same_fields command1 mode1 parameters1 id1
  command2 mode2 parameters2 id2 :
  List.length command1 = List.length command2 ->
  List.length mode1 = List.length mode2 ->
  Request.request (Request.new command1 mode1 parameters1 id1)
  = Request.request (Request.new command2 mode2 parameters2 id2) ->
  command1 = command2 /\ mode1 = mode2
  /\ Request._getParameters parameters1 = Request._getParameters parameters2.
Proof.
  intros Hc Hm. rewrite !request_text. intros E.
  apply app_inj_tail in E. destruct E as [E _].
  apply app_inv_head in E.
  generalize dependent (Request._getParameters parameters1).
  generalize dependent (Request._getParameters parameters2).
  intros j2 j1 E.
  match type of E with
  | context [Request._getCrc ?m1] =>
      match type of E with
      | _ = _ ++ Request._getCrc ?m2 =>
          destruct (getCrc_correct m1) as (_ & _ & Hk1);
          destruct (getCrc_correct m2) as (_ & _ & Hk2);
          cbv zeta in Hk1, Hk2;
          generalize dependent (Request._getCrc m1);
          generalize dependent (Request._getCrc m2)
      end
  end.
  intros k2 Hk2 k1 E Hk1.
  rewrite <- !app_assoc in E.
  do 2 apply app_inv_head in E.
  (* the joined strings have the same length *)
  assert (Hlen : List.length j1 = List.length j2).
  { pose proof (f_equal (@List.length Z) E) as L.
    rewrite !length_app in L.
    destruct (Nat.lt_trichotomy (List.length j1) (List.length j2))
      as [Hlt|[Heq|Hgt]]; [|exact Heq|].
    - pose proof (@lenParameters_length_mono j1 j2 ltac:(lia)). lia.
    - pose proof (@lenParameters_length_mono j2 j1 ltac:(lia)). lia. }
  assert (Hfield : Request.lenParameters j1 = Request.lenParameters j2)
    by (unfold Request.lenParameters; now rewrite Hlen).
  rewrite Hfield in E. apply app_inv_head in E.
  apply app_same_length in E; [|exact Hc]. destruct E as [-> E].
  apply app_same_length in E; [|exact Hm]. destruct E as [-> E].
  apply app_same_length in E; [|exact Hlen]. destruct E as [-> _].
  repeat split.
Qed.

Lemma join_pair p q rest :
  join semicolon ((p ++ semicolon :: q) :: rest)
  = join semicolon (p :: q :: rest).
Proof.
  destruct rest as [|r rest]; cbn [join]; now rewrite <- ?app_assoc.
Qed.

End RequestDetermines.

(** X10.  Two requests whose commands are equally long and whose modes are
    equally long are the same text exactly when they have the same command,
    the same mode and the same joined parameters: nothing of the three is
    lost in the request, and nothing else goes into it, the socket id
    included. *)
Theorem request_determines_fields (command1 mode1 : jsstring)
  (parameters1 : list jsstring) (id1 : Z) (command2 mode2 : jsstring)
  (parameters2 : list jsstring) (id2 : Z) :
  List.length command1 = List.length command2 ->
  List.length mode1 = List.length mode2 ->
  Request.request (Request.new command1 mode1 parameters1 id1)
  = Request.request (Request.new command2 mode2 parameters2 id2)
  <-> command1 = command2 /\ mode1 = mode2
      /\ Request._getParameters parameters1
         = Request._getParameters parameters2.
Proof.
  intros Hc Hm. split; [now apply request_same_fields|].
  intros (-> & -> & E). rewrite !request_text. now rewrite E.
Qed.

Lemma request_determines_fields_witness :
  Request.request (Request.new (lit "DAT") CommandMode.READ [lit "0"] 0)
  <> Request.request (Request.new (lit "INF") CommandMode.READ [lit "0"] 0).
Proof.
  intros E.
  apply (proj1 (@request_determines_fields (lit "DAT") CommandMode.READ
                  [lit "0"] 0 (lit "INF") CommandMode.READ [lit "0"] 0
                  eq_refl eq_refl)) in E.
  destruct E as [E _]. discriminate E.
Defined.

(** X11.  Parameters without [";"] can be read back from the request: two
    non-empty lists of such parameters give the same request only if they
    are the same list.  A [";"] inside a parameter is not escaped: the
    request of one parameter ["p;q"] is the request of the two parameters
    ["p"] and ["q"]. *)
Theorem parameters_read_back (command mode : jsstring)
  (parameters1 parameters2 : list jsstring) (id : Z) :
  parameters1 <> [] ->
  parameters2 <> [] ->
  Forall (fun p => includes semicolon p = false) parameters1 ->
  Forall (fun p => includes semicolon p = false) parameters2 ->
  (Request.request (Request.new command mode parameters1 id)
   = Request.request (Request.new command mode parameters2 id)
   -> parameters1 = parameters2)
  /\ forall p q rest,
       Request.request
         (Request.new command mode ((p ++ semicolon :: q) :: rest) id)
       = Request.request (Request.new command mode (p :: q :: rest) id).
Proof.
  intros Hn1 Hn2 Hs1 Hs2. split.
  - intros E.
    apply request_same_fields in E; [|reflexivity|reflexivity].
    destruct E as (_ & _ & E).
    apply (f_equal (split semicolon)) in E.
    unfold Request._getParameters in E. rewrite lit_semicolon in E.
    rewrite !split_join_trailing in E by assumption.
    now apply app_inj_tail in E.
  - intros p q rest. rewrite !request_text.
    unfold Request._getParameters. now rewrite join_pair.
Qed.

Lemma parameters_read_back_witness :
  Request.request
    (Request.new (lit "DAT") CommandMode.WRITE [lit "5"; lit "1"] 0)
  <> Request.request
       (Request.new (lit "DAT") CommandMode.WRITE [lit "5"; lit "0"] 0).
Proof.
  intros E.
  apply (proj1 (@parameters_read_back (lit "DAT") CommandMode.WRITE
                  [lit "5"; lit "1"] [lit "5"; lit "0"] 0
                  ltac:(discriminate) ltac:(discriminate)
                  ltac:(repeat constructor) ltac:(repeat constructor))) in E.
  discriminate E.
Defined.

(** X12.  The length field counts UTF-16 code units, not bytes.  It never
    exceeds the number of bytes the joined parameters take on the wire, and
    it is that number exactly when every parameter is ASCII; one character
    outside ASCII makes the field smaller than the bytes sent. *)
Theorem length_field_counts_code_units (parameters : list jsstring) :
  let joined := Request._getParameters parameters in
  let sent := Buffer_from_utf8 joined in
  hex_value (Request.lenParameters joined) = Z.of_nat (List.length joined)
  /\ (List.length joined <= List.length sent)%nat
  /\ (List.length sent = List.length joined
      <-> Forall ascii_text parameters).
Proof.
  cbv zeta.
  destruct (lenParameters_correct (Request._getParameters parameters))
    as (_ & Hv & _).
  cbv zeta in Hv. split; [exact Hv|].
  destruct (encoded_length (Request._getParameters parameters)) as [Hle Heq].
  split; [exact Hle|]. split.
  - intros E. specialize (Heq E). unfold Request._getParameters in Heq.
    apply Forall_app in Heq. destruct Heq as [Hj _].
    clear -Hj. induction parameters as [|p rest IH]; [constructor|].
    destruct rest as [|q rest]; [repeat constructor; exact Hj|].
    change (join semicolon (p :: q :: rest))
      with (p ++ semicolon :: join semicolon (q :: rest)) in Hj.
    apply Forall_app in Hj. destruct Hj as [Hp Hrest].
    inversion Hrest; subst. constructor; [exact Hp|now apply IH].
  - intros Hall. rewrite encoded_ascii; [apply length_map|].
    unfold Request._getParameters. apply Forall_app. split.
    + clear -Hall. induction parameters as [|p rest IH]; [constructor|].
      inversion Hall as [|? ? Hp Hrest]; subst.
      destruct rest as [|q rest]; [exact Hp|].
      change (join semicolon (p :: q :: rest))
        with (p ++ semicolon :: join semicolon (q :: rest)).
      apply Forall_app. split; [exact Hp|].
      constructor; [unfold semicolon; lia|now apply IH].
    + repeat constructor.
Qed.

Lemma request_is_one_line_witness :
  exists line : Buffer,
    Request.getRequest (Request.new (lit "DAT") CommandMode.READ [lit "0"] 0)
    = line ++ [line_feed_byte]
    /\ ~ In line_feed_byte line.
Proof.
  apply request_is_one_line.
  - unfold line_text, newline. repeat constructor; cbn; lia.
  - unfold line_text, newline. repeat constructor; cbn; lia.
  - unfold line_text, newline. repeat constructor; cbn; lia.
Defined.

(** *** The fields of a response *)

Section Fields.

Lemma split_not_nil sep s : split sep s <> [].
Proof.
  destruct s as [|c s]; cbn [split]; [discriminate|].
  destruct (c =? sep); [discriminate|]. destruct (split sep s); discriminate.
Qed.

Lemma join_cons_head sep c h t :
  join sep ((c :: h) :: t) = c :: join sep (h :: t).
Proof. destruct t; reflexivity. Qed.

Lemma split_fields sep s :
  join sep (split sep s) = s
  /\ List.length (split sep s) = S (count_occ Z.eq_dec s sep)
  /\ Forall (fun field => includes sep field = false) (split sep s).
Proof.
  induction s as [|c s IH]; cbn [split count_occ].
  - repeat split. repeat constructor.
  - pose proof (split_not_nil sep s) as Hne.
    destruct (split sep s) as [|h t]; [contradiction|].
    destruct IH as (IHj & IHl & IHf).
    destruct (Z.eqb_spec c sep) as [->|Hc].
    + destruct (Z.eq_dec sep sep) as [_|]; [|contradiction].
      split; [|split].
      * change (join sep ([] :: h :: t)) with ([] ++ sep :: join sep (h :: t)).
        cbn [app]. f_equal. exact IHj.
      * cbn [List.length] in *. now rewrite IHl.
      * constructor; [reflexivity|exact IHf].
    + destruct (Z.eq_dec c sep) as [|_]; [contradiction|].
      split; [|split].
      * rewrite join_cons_head. f_equal. exact IHj.
      * exact IHl.
      * inversion IHf as [|? ? Hh Ht]; subst. constructor; [|exact Ht].
        cbn [includes existsb]. unfold includes in Hh. rewrite Hh.
        replace (sep =? c) with false
          by (symmetry; apply Z.eqb_neq; congruence).
        reflexivity.
Qed.

End Fields.

(** X13.  [_extractData] cuts a line at every [";"]: it gives one field more
    than the line has semicolons, so never an empty array, one empty string
    for the empty line; no field holds a [";"]; and the fields joined with
    [";"] are the line again. *)
Theorem extractData_fields (data : jsstring) :
  let fields := HottohRemoteClient._extractData data in
  List.length fields = S (count_occ Z.eq_dec data semicolon)
  /\ fields <> []
  /\ Forall (fun field => includes semicolon field = false) fields
  /\ join semicolon fields = data.
Proof.
  cbv zeta. unfold HottohRemoteClient._extractData.
  destruct (split_fields semicolon data) as (Hj & Hl & Hf).
  repeat split; try assumption. apply split_not_nil.
Qed.

(** ** More on the polling client *)

Section Connecting.
Import HottohRemoteClient.

#[local] Arguments Request.getRequest : simpl never.
#[local] Arguments Request.new : simpl never.
#[local] Arguments Buffer_toString_utf8 : simpl never.
#[local] Arguments includes : simpl never.
#[local] Arguments split : simpl never.
#[local] Arguments lit : simpl never.

Lemma connect_run outcome c :
  __connect outcome c
  = match outcome with
    | connecting =>
        (Normal tt, set_connectHandlers (S (connectHandlers c)) c,
         [socket_connect])
    | connect_throws code =>
        let c1 := set_connectHandlers (S (connectHandlers c)) c in
        if String.eqb code "EISCONN" then
          let '(res, c2, out) :=
            schedule_loop 1000 (set___isConnected true c1) in
          (res, c2, socket_connect :: out)
        else
          let '(res, c2, out) :=
            schedule_loop 5000 (set___isConnected false c1) in
          (res, c2, socket_connect :: out)
    end.
Proof.
  destruct outcome as [|code]; [reflexivity|].
  unfold __connect, try_catch, bind, this, assign, emit, throw.
  cbn -[schedule_loop String.eqb].
  destruct (String.eqb code "EISCONN"); reflexivity.
Qed.

(** [loop] on a client that is neither stopped nor connected. *)
Lemma loop_run_connecting outcome c :
  __isConnected c = false ->
  __endRequest c = false ->
  loop outcome c
  = let '(res, c', out) := __connect outcome (cleared c) in
    (res, c', cleared_output c ++ out).
Proof.
  intros Hc He. unfold loop, bind at 1. rewrite clear_loopTimeout_run.
  destruct (cleared_fields c) as (Hc' & He' & _).
  unfold bind, this. rewrite He', Hc', He, Hc. cbn -[__connect].
  destruct (__connect outcome (cleared c)) as [[res c1] o1]. reflexivity.
Qed.

Lemma start_run outcome c :
  step c (call_start outcome)
  = exec (loop outcome) (set___endRequest false c).
Proof.
  unfold step, exec, handle, start, bind, assign.
  destruct (loop outcome _) as [[res c1] o1]. reflexivity.
Qed.

Lemma cleared_loopTimers c :
  (List.length (loopTimers (cleared c)) <= List.length (loopTimers c))%nat
  /\ connectHandlers (cleared c) = connectHandlers c.
Proof.
  unfold cleared. destruct (_loopTimeout c); [|split; reflexivity].
  split; [|reflexivity]. cbn. unfold without_timer. apply filter_length_le.
Qed.

(** With no request in flight and no timer pending, nothing happens until
    [start] is called or the socket connects. *)
Lemma step_passive e c :
  passive e ->
  inFlight c = [] ->
  loopTimers c = [] ->
  let '(c', out) := step c e in
  inFlight c' = [] /\ loopTimers c' = []
  /\ connects out = 0%nat /\ writes out = [] /\ loop_delays out = [].
Proof.
  intros Hp Hf Ht. destruct e; try contradiction.
  - (* stop *)
    rewrite stop_run. unfold cleared, cleared_output.
    destruct c as [? ? ? ? ? ? ? ? [h|] ? ? ? ?]; cbn in *; subst; cbn;
      repeat split.
  - destruct c; cbn in *; subst. repeat split.
  - rewrite step_data_idle by exact Hf. repeat split; assumption.
  - unfold step, handle, bind, this. rewrite Hf.
    destruct c; cbn in *; subst. repeat split.
  - destruct c; cbn in *; subst. repeat split.
  - destruct c; cbn in *; subst. repeat split.
  - unfold step, handle, bind, this. rewrite Ht. cbn.
    repeat split; assumption.
  - unfold step, handle, bind, this. rewrite Hf. cbn.
    repeat split; assumption.
Qed.

Lemma run_passive events : forall c,
  Forall passive events ->
  inFlight c = [] ->
  loopTimers c = [] ->
  let '(c', out) := run c events in
  inFlight c' = [] /\ loopTimers c' = []
  /\ connects out = 0%nat /\ writes out = [] /\ loop_delays out = [].
Proof.
  induction events as [|e events IH]; intros c Hall Hf Ht.
  - cbn. repeat split; assumption.
  - inversion Hall as [|? ? He Hrest]; subst. cbn [run].
    pose proof (@step_passive e c He Hf Ht) as H1.
    destruct (step c e) as [c1 o1].
    destruct H1 as (Hf1 & Ht1 & Hn1 & Hw1 & Hd1).
    pose proof (IH c1 Hrest Hf1 Ht1) as H2.
    destruct (run c1 events) as [c2 o2].
    destruct H2 as (Hf2 & Ht2 & Hn2 & Hw2 & Hd2).
    rewrite connects_app, writes_app, loop_delays_app, Hn1, Hn2, Hw1, Hw2,
      Hd1, Hd2.
    repeat split; assumption.
Qed.

End Connecting.

(** X14.  A connection attempt that fails by an ['error'] event is not
    retried.  [start] on a disconnected client with nothing pending calls
    [socket.connect] once and sets no timer; the error that follows only
    clears [__isConnected]; and from then on no event, short of another call
    of [start] or a ['connect'] of the socket, makes the client connect,
    write or set a timer. *)
Theorem connect_error_is_not_retried (c : HottohRemoteClient.t)
  (e : error) (events : list HottohRemoteClient.event) :
  HottohRemoteClient.__isConnected c = false ->
  HottohRemoteClient.inFlight c = [] ->
  HottohRemoteClient.loopTimers c = [] ->
  Forall passive events ->
  let '(c1, out1) :=
    HottohRemoteClient.run c
      [HottohRemoteClient.call_start HottohRemoteClient.connecting;
       HottohRemoteClient.socket_on_error e] in
  HottohRemoteClient.connects out1 = 1%nat
  /\ HottohRemoteClient.writes out1 = []
  /\ HottohRemoteClient.loop_delays out1 = []
  /\ HottohRemoteClient.__isConnected c1 = false
  /\ HottohRemoteClient.loopTimers c1 = []
  /\ HottohRemoteClient.inFlight c1 = []
  /\ let '(c2, out2) := HottohRemoteClient.run c1 events in
     HottohRemoteClient.connects out2 = 0%nat
     /\ HottohRemoteClient.writes out2 = []
     /\ HottohRemoteClient.loop_delays out2 = [].
Proof.
  intros Hc Hf Ht Hall.
  cbn [HottohRemoteClient.run]. rewrite start_run. unfold exec.
  rewrite loop_run_connecting by (destruct c; assumption || reflexivity).
  rewrite connect_run.
  set (c0 := HottohRemoteClient.set_connectHandlers _ _).
  assert (Hf0 : HottohRemoteClient.inFlight c0 = []).
  { subst c0. unfold cleared.
    destruct c as [? ? ? ? ? ? ? ? [h|] ? ? ? ?]; exact Hf. }
  assert (Ht0 : HottohRemoteClient.loopTimers c0 = []).
  { subst c0. unfold cleared.
    destruct c as [? ? ? ? ? ? ? ? [h|] ? ? ? ?]; cbn in *; subst;
      reflexivity. }
  pose proof (@step_passive (HottohRemoteClient.socket_on_error e) c0 I Hf0 Ht0)
    as H1.
  assert (Hcon : HottohRemoteClient.__isConnected
                   (fst (HottohRemoteClient.step c0
                           (HottohRemoteClient.socket_on_error e))) = false).
  { unfold HottohRemoteClient.step, HottohRemoteClient.handle,
      HottohRemoteClient.bind, HottohRemoteClient.this.
    rewrite Hf0. reflexivity. }
  destruct (HottohRemoteClient.step c0 _) as [c1 o1].
  destruct H1 as (Hf1 & Ht1 & Hn1 & Hw1 & Hd1). cbn [fst] in Hcon.
  rewrite !app_nil_r.
  destruct (cleared_output_silent (HottohRemoteClient.set___endRequest false c))
    as (P1 & P2 & P3 & _).
  rewrite !connects_app, !writes_app, !loop_delays_app, P1, P2, P3, Hn1, Hw1,
    Hd1.
  repeat split; try assumption.
  pose proof (@run_passive events c1 Hall Hf1 Ht1) as H2.
  destruct (HottohRemoteClient.run c1 events) as [c2 o2].
  destruct H2 as (_ & _ & Hn2 & Hw2 & Hd2). repeat split; assumption.
Qed.

Lemma connect_error_is_not_retried_witness :
  let '(c1, out1) :=
    HottohRemoteClient.run HottohRemoteClient.new
      [HottohRemoteClient.call_start HottohRemoteClient.connecting;
       HottohRemoteClient.socket_on_error (SystemError "ECONNREFUSED")] in
  HottohRemoteClient.connects out1 = 1%nat
  /\ HottohRemoteClient.loop_delays out1 = []
  /\ let '(c2, out2) :=
       HottohRemoteClient.run c1
         [HottohRemoteClient.socket_on_close;
          HottohRemoteClient.loop_timer_fires 0 HottohRemoteClient.connecting;
          HottohRemoteClient.call_sendCommand [lit "5"; lit "1"]] in
     HottohRemoteClient.connects out2 = 0%nat
     /\ HottohRemoteClient.writes out2 = [].
Proof.
  pose proof (@connect_error_is_not_retried HottohRemoteClient.new
                (SystemError "ECONNREFUSED")
                [HottohRemoteClient.socket_on_close;
                 HottohRemoteClient.loop_timer_fires 0
                   HottohRemoteClient.connecting;
                 HottohRemoteClient.call_sendCommand [lit "5"; lit "1"]]
                eq_refl eq_refl eq_refl ltac:(repeat constructor)) as H.
  destruct (HottohRemoteClient.run HottohRemoteClient.new _) as [c1 out1].
  destruct H as (Hn & _ & Hd & _ & _ & _ & H).
  split; [exact Hn|]. split; [exact Hd|].
  destruct (HottohRemoteClient.run c1 _) as [c2 out2].
  destruct H as (Hn2 & Hw2 & _). split; assumption.
Defined.

Section ConnectThrows.
Import HottohRemoteClient.

#[local] Arguments Request.getRequest : simpl never.
#[local] Arguments Request.new : simpl never.
#[local] Arguments lit : simpl never.

Lemma existsb_timer_last h ms l :
  existsb (fun t : nat * Z => Nat.eqb (fst t) h) (l ++ [(h, ms)]) = true.
Proof.
  rewrite existsb_app. cbn. rewrite Nat.eqb_refl. apply orb_true_r.
Qed.

(** A [loop] timer that fires on a client that is connected and polling
    starts a cycle. *)
Lemma timer_starts_cycle h c :
  existsb (fun t : nat * Z => Nat.eqb (fst t) h) (loopTimers c) = true ->
  __isConnected c = true ->
  __endRequest c = false ->
  writes (snd (step c (loop_timer_fires h connecting)))
  = [frame INF CommandMode.READ [lit ""]].
Proof.
  intros Hh Hc He. unfold step, handle, bind at 1, this. rewrite Hh.
  unfold bind at 1, assign.
  rewrite loop_run_polling by (destruct c; assumption).
  rewrite dial_run
    by (destruct (cleared_fields
                    (set_loopTimers (without_timer h (loopTimers c)) c))
          as (E1 & E2 & _); rewrite ?E1, ?E2; destruct c; assumption).
  rewrite sendRequest_run. cbn [snd app].
  rewrite writes_app.
  destruct (cleared_output_silent
              (set_loopTimers (without_timer h (loopTimers c)) c))
    as (P1 & _).
  rewrite P1. reflexivity.
Qed.

(** A [loop] timer that fires on a client that is disconnected and polling
    calls [socket.connect]. *)
Lemma timer_connects h c :
  existsb (fun t : nat * Z => Nat.eqb (fst t) h) (loopTimers c) = true ->
  __isConnected c = false ->
  __endRequest c = false ->
  connects (snd (step c (loop_timer_fires h connecting))) = 1%nat.
Proof.
  intros Hh Hc He. unfold step, handle, bind at 1, this. rewrite Hh.
  unfold bind at 1, assign.
  rewrite loop_run_connecting by (destruct c; assumption).
  rewrite connect_run. cbn [snd app].
  rewrite connects_app.
  destruct (cleared_output_silent
              (set_loopTimers (without_timer h (loopTimers c)) c))
    as (_ & _ & P3 & _).
  rewrite P3. reflexivity.
Qed.

End ConnectThrows.

(** X15.  An exception of [socket.connect] does not leave [start]: it is
    caught in [__connect].  The code [EISCONN] marks the client connected and
    sets the [loop] timer to 1000 ms, and the cycle that timer starts writes
    the [INF] request without any ['connect'] event; every other exception
    leaves the client disconnected and sets the timer to 5000 ms, after which
    [socket.connect] is called again.  In both cases the handler of
    ['connect'] registered before the exception stays registered. *)
Theorem connect_exception_is_caught (c : HottohRemoteClient.t)
  (code : string) :
  HottohRemoteClient.__isConnected c = false ->
  let '(result, c1, out1) :=
    HottohRemoteClient.start (HottohRemoteClient.connect_throws code) c in
  let fires h :=
    snd (HottohRemoteClient.step c1
           (HottohRemoteClient.loop_timer_fires h
              HottohRemoteClient.connecting)) in
  result = Normal tt
  /\ HottohRemoteClient.connects out1 = 1%nat
  /\ HottohRemoteClient.writes out1 = []
  /\ HottohRemoteClient.rejections out1 = []
  /\ HottohRemoteClient.connectHandlers c1
     = S (HottohRemoteClient.connectHandlers c)
  /\ exists h,
       HottohRemoteClient._loopTimeout c1 = Some h
       /\ if String.eqb code "EISCONN"
          then HottohRemoteClient.__isConnected c1 = true
               /\ HottohRemoteClient.loop_delays out1 = [1000]
               /\ HottohRemoteClient.writes (fires h)
                  = [frame (lit "INF") CommandMode.READ [lit ""]]
          else HottohRemoteClient.__isConnected c1 = false
               /\ HottohRemoteClient.loop_delays out1 = [5000]
               /\ HottohRemoteClient.connects (fires h) = 1%nat.
Proof.
  intros Hc.
  unfold HottohRemoteClient.start, HottohRemoteClient.bind at 1,
    HottohRemoteClient.assign.
  rewrite loop_run_connecting by (destruct c; assumption || reflexivity).
  rewrite connect_run. cbv zeta.
  destruct (cleared_output_silent (HottohRemoteClient.set___endRequest false c))
    as (P1 & P2 & P3 & P4).
  destruct (cleared_loopTimers (HottohRemoteClient.set___endRequest false c))
    as (_ & Hh).
  destruct (cleared_fields (HottohRemoteClient.set___endRequest false c))
    as (_ & He & _ & _ & _ & _ & Hn).
  destruct (String.eqb code "EISCONN"); rewrite schedule_loop_run;
    cbn [app];
    rewrite connects_app, writes_app, rejections_app, loop_delays_app,
      P1, P2, P3, P4;
    (split; [reflexivity|]); (split; [reflexivity|]);
    (split; [reflexivity|]); (split; [reflexivity|]);
    (split; [exact (f_equal S Hh)|]);
    eexists; (split; [reflexivity|]);
    (split; [reflexivity|]); (split; [reflexivity|]).
  - apply timer_starts_cycle;
      [apply existsb_timer_last|reflexivity|exact He].
  - apply timer_connects;
      [apply existsb_timer_last|reflexivity|exact He].
Qed.

Lemma connect_exception_is_caught_witness :
  let '(result, c1, out1) :=
    HottohRemoteClient.start (HottohRemoteClient.connect_throws "EISCONN")
      HottohRemoteClient.new in
  result = Normal tt
  /\ HottohRemoteClient.__isConnected c1 = true
  /\ HottohRemoteClient.loop_delays out1 = [1000].
Proof.
  pose proof (@connect_exception_is_caught HottohRemoteClient.new "EISCONN"
                eq_refl) as H.
  destruct (HottohRemoteClient.start _ _) as [[result c1] out1].
  destruct H as (Hr & _ & _ & _ & _ & h & _ & Hc & Hd & _).
  split; [exact Hr|]. split; [exact Hc|exact Hd].
Defined.

(** X16.  [stop] can be undone: whatever the client was doing, and
    whatever [socket.connect] does, [stop] followed by [start] ends the
    socket, calls [socket.connect] once, writes nothing by itself, keeps the
    queue and leaves the client polling again, [__endRequest] cleared.  No
    timer is set when [socket.connect] returns; when it throws, the one timer
    of [__connect] is set, 1000 ms for [EISCONN], which also marks the client
    connected, and 5000 ms otherwise. *)
Theorem start_after_stop (c : HottohRemoteClient.t)
  (outcome : HottohRemoteClient.connect_call) :
  let '(c', out) :=
    HottohRemoteClient.run c
      [HottohRemoteClient.call_stop; HottohRemoteClient.call_start outcome] in
  HottohRemoteClient.connects out = 1%nat
  /\ HottohRemoteClient.writes out = []
  /\ HottohRemoteClient.rejections out = []
  /\ In HottohRemoteClient.socket_end out
  /\ HottohRemoteClient.__endRequest c' = false
  /\ HottohRemoteClient.connectHandlers c'
     = S (HottohRemoteClient.connectHandlers c)
  /\ HottohRemoteClient._writeParameters c'
     = HottohRemoteClient._writeParameters c
  /\ match outcome with
     | HottohRemoteClient.connecting =>
         HottohRemoteClient.loop_delays out = []
         /\ HottohRemoteClient.__isConnected c' = false
     | HottohRemoteClient.connect_throws code =>
         if String.eqb code "EISCONN"
         then HottohRemoteClient.loop_delays out = [1000]
              /\ HottohRemoteClient.__isConnected c' = true
         else HottohRemoteClient.loop_delays out = [5000]
              /\ HottohRemoteClient.__isConnected c' = false
     end.
Proof.
  destruct c as [? ? ? ? ? ? ? ? [h|] ? ? ? ?];
    destruct outcome as [|code];
    try (unfold HottohRemoteClient.run, HottohRemoteClient.step,
           HottohRemoteClient.handle, HottohRemoteClient.start,
           HottohRemoteClient.stop, HottohRemoteClient.loop,
           HottohRemoteClient.__connect, HottohRemoteClient.try_catch;
         cbn -[String.eqb HottohRemoteClient.without_timer];
         try destruct (String.eqb code "EISCONN");
         cbn -[HottohRemoteClient.without_timer];
         repeat split; auto 6).
Qed.

(** *** One thing at a time *)

Section OneAtATime.
Import HottohRemoteClient.

#[local] Arguments Request.getRequest : simpl never.
#[local] Arguments Request.new : simpl never.
#[local] Arguments Buffer_toString_utf8 : simpl never.
#[local] Arguments includes : simpl never.
#[local] Arguments split : simpl never.
#[local] Arguments text_before : simpl never.
#[local] Arguments lit : simpl never.

Lemma pending_cleared c : (pending (cleared c) <= pending c)%nat.
Proof.
  unfold pending.
  destruct (cleared_loopTimers c) as [H1 H2].
  destruct (cleared_fields c) as (_ & _ & H3 & _).
  rewrite H2, H3. lia.
Qed.

(** A request sent, a timer set: one thing more. *)
Lemma pending_sendRequest request awaited c :
  pending (fst (exec (_sendRequestAndWaitForResponse request awaited) c))
  = S (pending c).
Proof.
  unfold exec. rewrite sendRequest_run. unfold pending. cbn.
  rewrite length_app. cbn. lia.
Qed.

Lemma pending_schedule_loop ms c :
  pending (fst (exec (schedule_loop ms) c)) = S (pending c).
Proof.
  unfold exec. rewrite schedule_loop_run. unfold pending. cbn.
  rewrite length_app. cbn. lia.
Qed.

Lemma pending_dial_catch e c :
  (pending (fst (exec (__dial_catch e) c)) <= S (pending c))%nat.
Proof.
  unfold exec. rewrite dial_catch_run.
  destruct (__endRequest c); unfold pending; cbn; rewrite ?length_app; cbn; lia.
Qed.

Lemma pending_dial_while c :
  (pending (fst (exec __dial_while c)) <= S (pending c))%nat.
Proof.
  unfold exec.
  destruct (__endRequest c) eqn:He.
  - rewrite dial_while_stopped by exact He. unfold pending. cbn. lia.
  - destruct (_writeParameters c) as [|p q] eqn:Hq.
    + rewrite dial_while_done by assumption.
      unfold pending. cbn. rewrite length_app. cbn. lia.
    + rewrite (dial_while_send _ Hq He), sendRequest_run.
      unfold pending. cbn. rewrite length_app. cbn. lia.
Qed.

(** [__dial] resumed: at most one thing more. *)
Lemma pending_resume awaited s c :
  (pending (fst (exec (unawaited (__dial_resume awaited s)) c))
   <= S (pending c))%nat.
Proof.
  destruct s as [response|e].
  - destruct awaited.
    + unfold exec. rewrite dial_resume_info.
      pose proof (pending_sendRequest
                    (frame (lit "DAT") CommandMode.READ [lit "0"]) AwaitData
                    (set__info (Some response) c)) as H.
      unfold exec in H. rewrite H. unfold pending. cbn. lia.
    + unfold exec. rewrite dial_resume_data.
      pose proof (pending_sendRequest
                    (frame (lit "DAT") CommandMode.READ [lit "2"]) AwaitData2
                    (set__data (Some response) c)) as H.
      unfold exec in H. rewrite H. unfold pending. cbn. lia.
    + unfold exec. rewrite dial_resume_data2.
      pose proof (pending_dial_while (set__data2 (Some response) c)) as H.
      unfold exec in H. etransitivity; [exact H|]. unfold pending. cbn. lia.
    + unfold exec. rewrite dial_resume_set_data.
      pose proof (pending_dial_while
                    (set__writeParameters (tl (_writeParameters c)) c)) as H.
      unfold exec in H. etransitivity; [exact H|]. unfold pending. cbn. lia.
  - unfold exec. rewrite dial_resume_rejected. apply pending_dial_catch.
Qed.

(** [loop] when [socket.connect] does not throw: at most one thing more
    than what is left once the tracked timer is cleared. *)
Lemma pending_loop c :
  (pending (fst (exec (loop connecting) c)) <= S (pending c))%nat.
Proof.
  pose proof (pending_cleared c) as Hcl.
  destruct (cleared_fields c) as (Hc' & He' & _).
  unfold exec.
  destruct (__endRequest c) eqn:He.
  - rewrite loop_stopped by exact He. cbn [fst]. lia.
  - destruct (__isConnected c) eqn:Hc.
    + rewrite loop_run_polling by assumption.
      rewrite dial_run by congruence.
      pose proof (pending_sendRequest (frame INF CommandMode.READ [lit ""])
                    AwaitInfo (cleared c)) as H.
      unfold exec in H.
      destruct (_sendRequestAndWaitForResponse _ _ _) as [[res c1] o1].
      cbn [fst] in *. lia.
    + rewrite loop_run_connecting by assumption.
      rewrite connect_run. cbn [fst]. unfold pending in *. cbn. lia.
Qed.

Lemma without_request_other r h :
  Nat.eqb (timeout r) h = false -> without_request h [r] = [r].
Proof. intros H. unfold without_request. cbn. now rewrite H. Qed.

Lemma without_timer_single h ms : without_timer h [(h, ms)] = [].
Proof. unfold without_timer. cbn. now rewrite Nat.eqb_refl. Qed.

Lemma step_orderly e c :
  orderly e -> (pending c <= 1)%nat -> (pending (fst (step c e)) <= 1)%nat.
Proof.
  intros Ho Hp. destruct e as [o| |p| |data|err| | |h o|h]; try contradiction.
  - (* stop *)
    rewrite stop_run. cbn [fst].
    pose proof (pending_cleared (set___endRequest true c)) as H.
    unfold pending in *. cbn in *. lia.
  - (* sendCommand *)
    unfold pending in *. cbn. exact Hp.
  - (* 'connect' *)
    unfold step, handle, bind at 1, this, bind at 1, assign.
    destruct (connectHandlers c) as [|[|n]] eqn:Hn.
    + cbn. unfold pending in *. cbn. lia.
    + assert (Hf : inFlight c = [] /\ loopTimers c = []).
      { unfold pending in Hp. rewrite Hn in Hp.
        destruct (inFlight c), (loopTimers c); cbn in Hp; split;
          reflexivity || lia. }
      cbn [times]. unfold bind at 1, connectHandler, bind at 1, assign.
      pose proof (pending_loop
                    (set___isConnected true (set_connectHandlers 0 c))) as H.
      unfold exec in H.
      destruct (loop connecting _) as [[res c1] o1]. cbn [fst] in *.
      destruct res; cbn [fst];
        unfold pending in H |- *; cbn in H; destruct Hf as [-> ->] in H;
        cbn in H; exact H.
    + unfold pending in Hp. rewrite Hn in Hp. lia.
  - (* 'data' *)
    destruct (inFlight c) as [|r [|r' rest]] eqn:Hf.
    + rewrite step_data_idle by exact Hf. exact Hp.
    + destruct (includes newline
                  (_responseBuffer c ++ Buffer_toString_utf8 data)) eqn:Hin.
      * rewrite (@step_data_closed r data c Hf Hin).
        match goal with
        | |- context [exec ?m ?a] =>
            pose proof (pending_resume (awaited_at r)
                          (Fulfilled (_extractData
                             (text_before newline
                                (_responseBuffer c
                                   ++ Buffer_toString_utf8 data)))) a) as H;
            destruct (exec m a) as [c1 o1]
        end.
        cbn [fst] in *. unfold pending in Hp, H. rewrite Hf in Hp.
        cbn in Hp, H. unfold pending. lia.
      * rewrite (@step_data_open r data c Hf Hin). cbn [fst].
        unfold pending in *. cbn. exact Hp.
    + unfold pending in Hp. rewrite Hf in Hp. cbn in Hp. lia.
  - (* 'error' *)
    destruct (inFlight c) as [|r [|r' rest]] eqn:Hf.
    + unfold step, handle, bind, this. rewrite Hf. cbn.
      unfold pending in *. cbn. exact Hp.
    + rewrite (@step_error r err c Hf).
      match goal with
      | |- context [exec ?m ?a] =>
          pose proof (pending_dial_catch err a) as H;
          destruct (exec m a) as [c1 o1]
      end.
      cbn [fst] in *. unfold pending in Hp, H. rewrite Hf in Hp.
      cbn in Hp, H. unfold pending. lia.
    + unfold pending in Hp. rewrite Hf in Hp. cbn in Hp. lia.
  - unfold pending in *. cbn. exact Hp.
  - unfold pending in *. cbn. exact Hp.
  - (* a loop timer *)
    destruct o; [|contradiction].
    unfold step, handle, bind at 1, this.
    destruct (existsb _ (loopTimers c)) eqn:Hex; [|exact Hp].
    unfold bind at 1, assign.
    assert (Ht : exists ms, loopTimers c = [(h, ms)]
                            /\ connectHandlers c = 0%nat /\ inFlight c = []).
    { unfold pending in Hp.
      destruct (loopTimers c) as [|[h' ms] [|t' rest]]; [discriminate| |].
      - cbn in Hex. rewrite orb_false_r in Hex. apply Nat.eqb_eq in Hex.
        subst. exists ms. cbn in Hp.
        destruct (inFlight c); cbn in Hp; repeat split; lia || reflexivity.
      - cbn in Hp. lia. }
    destruct Ht as (ms & Ht & Hn & Hf).
    pose proof (pending_loop
                  (set_loopTimers (without_timer h (loopTimers c)) c)) as H.
    unfold exec in H.
    destruct (loop connecting _) as [[res c1] o1]. cbn [fst] in *.
    unfold pending in H. cbn in H. rewrite Ht, without_timer_single, Hn, Hf in H.
    exact H.
  - (* a request timer *)
    destruct (inFlight c) as [|r [|r' rest]] eqn:Hf.
    + unfold step, handle, bind, this. rewrite Hf. cbn. exact Hp.
    + destruct (Nat.eqb (timeout r) h) eqn:E.
      * apply Nat.eqb_eq in E. subst h.
        rewrite (@step_timeout r c Hf).
        match goal with
        | |- context [exec ?m ?a] =>
            pose proof (pending_dial_catch (Error "Socket timeout") a) as H;
            destruct (exec m a) as [c1 o1]
        end.
        cbn [fst] in *. unfold pending in Hp, H. rewrite Hf in Hp.
        cbn in Hp, H. unfold pending. lia.
      * unfold step, handle, bind, this. rewrite Hf. cbn [filter].
        rewrite E. cbn. exact Hp.
    + unfold pending in Hp. rewrite Hf in Hp. cbn in Hp. lia.
Qed.

Lemma run_orderly events : forall c,
  Forall orderly events ->
  (pending c <= 1)%nat ->
  (pending (fst (run c events)) <= 1)%nat.
Proof.
  induction events as [|e events IH]; intros c Hall Hp; [exact Hp|].
  inversion Hall as [|? ? He Hrest]; subst. cbn [run].
  pose proof (@step_orderly e c He Hp) as H1.
  destruct (step c e) as [c1 o1]. cbn [fst] in H1.
  specialize (IH c1 Hrest H1).
  destruct (run c1 events) as [c2 o2]. exact IH.
Qed.

End OneAtATime.

(** X17.  The client does one thing at a time.  As long as [start] is not
    called again and [socket.connect] does not throw, a client with at most
    one thing pending (a handler of ['connect'], a request in flight or a
    [loop] timer) never has more than one: never two requests in flight,
    never two timers, never a request and a timer together.  A fresh client
    that is started is such a client. *)
Theorem one_thing_at_a_time (c : HottohRemoteClient.t)
  (events : list HottohRemoteClient.event) :
  Forall orderly events ->
  ((pending c <= 1)%nat ->
   (pending (fst (HottohRemoteClient.run c events)) <= 1)%nat)
  /\ (pending
        (fst (HottohRemoteClient.run HottohRemoteClient.new
                (HottohRemoteClient.call_start HottohRemoteClient.connecting
                   :: events))) <= 1)%nat.
Proof.
  intros Hall. split; [now apply run_orderly|].
  cbn [HottohRemoteClient.run].
  pose proof (@run_orderly events
                (fst (HottohRemoteClient.step HottohRemoteClient.new
                        (HottohRemoteClient.call_start
                           HottohRemoteClient.connecting)))
                Hall ltac:(cbn; lia)) as H.
  destruct (HottohRemoteClient.step _ _) as [c1 o1]. cbn [fst] in H.
  destruct (HottohRemoteClient.run c1 events) as [c2 o2]. exact H.
Qed.

Lemma one_thing_at_a_time_witness :
  (pending
     (fst (HottohRemoteClient.run HottohRemoteClient.new
             [HottohRemoteClient.call_start HottohRemoteClient.connecting;
              HottohRemoteClient.socket_on_connect;
              HottohRemoteClient.socket_on_data (bytes ("a;b" ++ line_feed));
              HottohRemoteClient.socket_on_error (Error "ECONNRESET")]))
   <= 1)%nat.
Proof.
  refine (proj2 (@one_thing_at_a_time HottohRemoteClient.new
            [HottohRemoteClient.socket_on_connect;
             HottohRemoteClient.socket_on_data (bytes ("a;b" ++ line_feed));
             HottohRemoteClient.socket_on_error (Error "ECONNRESET")] _)).
  repeat constructor.
Defined.

(** *** [stop] while a request is in flight *)

Section Stopping.
Import HottohRemoteClient.

#[local] Arguments Request.getRequest : simpl never.
#[local] Arguments Request.new : simpl never.
#[local] Arguments Buffer_toString_utf8 : simpl never.
#[local] Arguments includes : simpl never.
#[local] Arguments split : simpl never.
#[local] Arguments text_before : simpl never.
#[local] Arguments lit : simpl never.






End Stopping.



(** *** Cycle after cycle *)

Section Polling.
Import HottohRemoteClient.

#[local] Arguments Request.getRequest : simpl never.
#[local] Arguments Request.new : simpl never.
#[local] Arguments Buffer_toString_utf8 : simpl never.
#[local] Arguments includes : simpl never.
#[local] Arguments split : simpl never.
#[local] Arguments text_before : simpl never.
#[local] Arguments lit : simpl never.
#[local] Arguments frame : simpl never.

(** A [loop] timer that fires is removed and [loop] runs. *)
Lemma run_timer h outcome events c :
  existsb (fun t : nat * Z => Nat.eqb (fst t) h) (loopTimers c) = true ->
  run c (loop_timer_fires h outcome :: events)
  = exec_then (loop outcome) events
      (set_loopTimers (without_timer h (loopTimers c)) c).
Proof.
  intros Hh. cbn [run]. unfold step, handle, bind at 1, this. rewrite Hh.
  unfold bind at 1, assign. unfold exec_then, exec.
  destruct (loop outcome _) as [[res c1] o1].
  destruct (run c1 events) as [c2 o2]. reflexivity.
Qed.

Lemma last_polled_cons s p cycles :
  last_polled s (p :: cycles) = last_polled (polled p) cycles.
Proof.
  unfold last_polled. cbn [rev].
  destruct (rev cycles) as [|q l]; reflexivity.
Qed.

(** The cycles from a call of [__dial]. *)
Lemma dial_cycles cycles : forall c,
  __isConnected c = true ->
  __endRequest c = false ->
  inFlight c = [] ->
  _responseBuffer c = [] ->
  _writeParameters c = [] ->
  Forall answered cycles ->
  let '(c', out) :=
    exec_then (unawaited __dial) (polling (nextTimer c) cycles) c in
  writes out
  = flat_map (fun _ => reads) cycles ++ [frame INF CommandMode.READ [lit ""]]
  /\ snapshots c' = last_polled (snapshots c) cycles
  /\ loop_delays out = map (fun _ => 1000) cycles
  /\ connects out = 0%nat
  /\ rejections out = []
  /\ _writeParameters c' = []
  /\ exists r, inFlight c' = [r] /\ awaited_at r = AwaitInfo.
Proof.
  induction cycles as [|p cycles IH]; intros c Hc He Hf Hb Hq Hall.
  - cbn [polling]. unfold exec_then, exec.
    rewrite dial_run by assumption. rewrite sendRequest_run.
    cbn [run]. cbn. rewrite Hf, Hq. repeat split.
    eexists. split; reflexivity.
  - inversion Hall as [|? ? (H1 & H2 & H3) Hrest]; subst.
    cbn [polling]. unfold arrives in H1, H2, H3.
    assert (H1' : delivers (_responseBuffer c) (exchange_chunks (poll_info p))
                    (exchange_line (poll_info p))) by (rewrite Hb; exact H1).
    rewrite (@read_phase c _ _ _ _ _ _ _ Hc He Hf H1' H2 H3). cbv zeta.
    set (n := nextTimer c).
    set (c3 := set__data2 _ _).
    unfold exec_then at 1, exec.
    rewrite dial_while_done
      by (subst c3; destruct c; cbn in *; assumption).
    set (c4 := set__loopTimeout _ _).
    replace (n + 3)%nat with (nextTimer c3)
      by (subst c3 n; destruct c; cbn; lia).
    rewrite run_timer
      by (subst c4; cbn [loopTimers set__loopTimeout set_loopTimers];
          apply existsb_timer_last).
    set (c5 := set_loopTimers _ c4).
    rewrite loop_then
      by (subst c5 c4 c3; destruct c; cbn in *; assumption).
    assert (Hn6 : nextTimer (cleared c5) = (n + 4)%nat).
    { destruct (cleared_fields c5) as (_ & _ & _ & _ & _ & _ & E).
      rewrite E. subst c5 c4 c3 n. destruct c; cbn. lia. }
    rewrite <- Hn6.
    destruct (cleared_fields c5) as (E1 & E2 & E3 & E4 & E5 & E6 & E7).
    specialize (IH (cleared c5)
      ltac:(rewrite E1; subst c5 c4 c3; destruct c; cbn in *; assumption)
      ltac:(rewrite E2; subst c5 c4 c3; destruct c; cbn in *; assumption)
      ltac:(rewrite E3; subst c5 c4 c3; destruct c; cbn in *; assumption)
      ltac:(rewrite E4; subst c5 c4 c3; destruct c; cbn in *; reflexivity)
      ltac:(rewrite E5; subst c5 c4 c3; destruct c; cbn in *; assumption)
      Hrest).
    destruct (exec_then (unawaited __dial) _ (cleared c5)) as [c' out].
    destruct IH as (Hw & Hs & Hd & Hn & Hr & Hq' & Hfl).
    destruct (cleared_output_silent c5) as (P1 & P2 & P3 & P4).
    rewrite last_polled_cons.
    cbn [flat_map map]. unfold reads at 1.
    cbn [app writes loop_delays connects rejections flat_map filter
         List.length].
    fold (writes (cleared_output c5 ++ out))
      (loop_delays (cleared_output c5 ++ out))
      (rejections (cleared_output c5 ++ out)).
    change (List.length
              (filter (fun a => match a with socket_connect => true
                                            | _ => false end)
                 (cleared_output c5 ++ out)))
      with (connects (cleared_output c5 ++ out)).
    rewrite writes_app, loop_delays_app, connects_app, rejections_app,
      P1, P2, P3, P4, Hw, Hd, Hn, Hr.
    repeat split; assumption.
Qed.

End Polling.

(** Polling goes on.  From a connected client with an empty queue,
    as long as every response arrives, each cycle writes its three reads
    and sets the 1000 ms timer, and the timer, when it fires, starts the next
    cycle: after any number of cycles the frames written are the three reads
    once per cycle, followed by the [INF] request of the cycle that has just
    begun; the snapshots are the responses of the last cycle completed; and
    the client has never called [socket.connect] again. *)
Theorem polling_goes_on (c : HottohRemoteClient.t)
  (outcome : HottohRemoteClient.connect_call) (cycles : list poll) :
  HottohRemoteClient.__isConnected c = true ->
  HottohRemoteClient.__endRequest c = false ->
  HottohRemoteClient.inFlight c = [] ->
  HottohRemoteClient._responseBuffer c = [] ->
  HottohRemoteClient._writeParameters c = [] ->
  Forall answered cycles ->
  let '(c', out) :=
    exec_then (HottohRemoteClient.loop outcome)
      (polling (HottohRemoteClient.nextTimer c) cycles) c in
  HottohRemoteClient.writes out
  = flat_map (fun _ => reads) cycles
    ++ [frame (lit "INF") CommandMode.READ [lit ""]]
  /\ snapshots c' = last_polled (snapshots c) cycles
  /\ HottohRemoteClient.loop_delays out = map (fun _ => 1000) cycles
  /\ HottohRemoteClient.connects out = 0%nat
  /\ HottohRemoteClient.rejections out = [].
Proof.
  intros Hc He Hf Hb Hq Hall.
  rewrite loop_then by assumption.
  destruct (cleared_fields c) as (E1 & E2 & E3 & E4 & E5 & E6 & E7).
  rewrite <- E7.
  pose proof (@dial_cycles cycles (cleared c)
                ltac:(now rewrite E1) ltac:(now rewrite E2)
                ltac:(now rewrite E3) ltac:(now rewrite E4)
                ltac:(now rewrite E5) Hall) as H.
  destruct (exec_then _ _ (cleared c)) as [c' out].
  destruct H as (Hw & Hs & Hd & Hn & Hr & _).
  destruct (cleared_output_silent c) as (P1 & P2 & P3 & P4).
  rewrite writes_app, loop_delays_app, connects_app, rejections_app,
    P1, P2, P3, P4, Hw, Hd, Hn, Hr, Hs, E6.
  repeat split.
Qed.

Section FromStart.
Import HottohRemoteClient.

#[local] Arguments Request.getRequest : simpl never.
#[local] Arguments Request.new : simpl never.
#[local] Arguments lit : simpl never.
#[local] Arguments frame : simpl never.

(** The one handler of ['connect'] marks the client connected and calls
    [loop]. *)
Lemma run_connect events c :
  connectHandlers c = 1%nat ->
  run c (socket_on_connect :: events)
  = exec_then (loop connecting) events
      (set___isConnected true (set_connectHandlers 0 c)).
Proof.
  intros Hn. cbn [run].
  unfold step, handle, bind at 1, this, bind at 1, assign. rewrite Hn.
  cbn [times]. unfold bind at 1, connectHandler, bind at 1, assign.
  unfold exec_then, exec.
  destruct (loop connecting _) as [[res c1] o1].
  destruct res; cbn; destruct (run c1 events) as [c2 o2];
    now rewrite ?app_nil_r.
Qed.

End FromStart.

(** X19.  A session from [start].  On a disconnected client with nothing
    pending, [start] calls [socket.connect] and writes nothing; the [INF]
    request is written when the socket reports ['connect']; and from then on
    the cycles follow one another as long as the responses arrive: one call
    of [socket.connect] in all, the three reads once per cycle and the
    [INF] request of the next cycle, the snapshots of the last cycle
    completed. *)
Theorem session_from_start (c : HottohRemoteClient.t) (cycles : list poll) :
  HottohRemoteClient.__isConnected c = false ->
  HottohRemoteClient.connectHandlers c = 0%nat ->
  HottohRemoteClient.inFlight c = [] ->
  HottohRemoteClient._responseBuffer c = [] ->
  HottohRemoteClient._writeParameters c = [] ->
  Forall answered cycles ->
  let start :=
    HottohRemoteClient.call_start HottohRemoteClient.connecting in
  let '(c', out) :=
    HottohRemoteClient.run c
      (start :: HottohRemoteClient.socket_on_connect
         :: polling (HottohRemoteClient.nextTimer c) cycles) in
  HottohRemoteClient.writes (snd (HottohRemoteClient.step c start)) = []
  /\ HottohRemoteClient.connects (snd (HottohRemoteClient.step c start))
     = 1%nat
  /\ HottohRemoteClient.connects out = 1%nat
  /\ HottohRemoteClient.writes out
     = flat_map (fun _ => reads) cycles
       ++ [frame (lit "INF") CommandMode.READ [lit ""]]
  /\ snapshots c' = last_polled (snapshots c) cycles
  /\ HottohRemoteClient.loop_delays out = map (fun _ => 1000) cycles
  /\ HottohRemoteClient.rejections out = [].
Proof.
  intros Hc Hh Hf Hb Hq Hall. cbv zeta.
  change (HottohRemoteClient.run c (?e :: ?rest))
    with (let '(c1, o1) := HottohRemoteClient.step c e in
          let '(c2, o2) := HottohRemoteClient.run c1 rest in
          (c2, o1 ++ o2)).
  rewrite start_run. unfold exec.
  rewrite loop_run_connecting by (destruct c; assumption || reflexivity).
  rewrite connect_run.
  set (c0 := HottohRemoteClient.set___endRequest false c).
  destruct (cleared_fields c0) as (E1 & E2 & E3 & E4 & E5 & E6 & E7).
  destruct (cleared_loopTimers c0) as (_ & E8).
  destruct (cleared_output_silent c0) as (P1 & P2 & P3 & P4).
  set (c1 := HottohRemoteClient.set_connectHandlers _ (cleared c0)).
  rewrite run_connect by (subst c1; cbn; rewrite E8; subst c0; cbn; now rewrite Hh).
  set (c2 := HottohRemoteClient.set___isConnected true _).
  rewrite loop_then
    by (subst c2 c1; cbn; rewrite ?E2; reflexivity).
  destruct (cleared_fields c2) as (F1 & F2 & F3 & F4 & F5 & F6 & F7).
  assert (Hn : HottohRemoteClient.nextTimer (cleared c2)
               = HottohRemoteClient.nextTimer c)
    by (rewrite F7; subst c2 c1; cbn; rewrite E7; reflexivity).
  rewrite <- Hn.
  pose proof (@dial_cycles cycles (cleared c2)
                ltac:(rewrite F1; reflexivity)
                ltac:(rewrite F2; subst c2 c1; cbn; rewrite E2; reflexivity)
                ltac:(rewrite F3; subst c2 c1; cbn; rewrite E3; exact Hf)
                ltac:(rewrite F4; subst c2 c1; cbn; rewrite E4; exact Hb)
                ltac:(rewrite F5; subst c2 c1; cbn; rewrite E5; exact Hq)
                Hall) as H.
  destruct (exec_then _ _ (cleared c2)) as [c' out].
  destruct H as (Hw & Hs & Hd & Hcn & Hr & _).
  destruct (cleared_output_silent c2) as (Q1 & Q2 & Q3 & Q4).
  cbn [snd].
  rewrite !writes_app, !connects_app, !loop_delays_app, !rejections_app,
    P1, P2, P3, P4, Q1, Q2, Q3, Q4, Hw, Hd, Hcn, Hr, Hs, F6.
  repeat split.
  subst c2 c1. unfold snapshots in *. cbn.
  unfold snapshots in E6. cbn in E6. inversion E6 as [[A B C]].
  now rewrite A, B, C.
Qed.

Lemma sample_poll_answered :
  answered {| poll_info := {| exchange_chunks := sample_info;
                         exchange_line := lit "HOTTOH;1.7;42" |};
              poll_data := {| exchange_chunks := sample_data;
                              exchange_line := lit "0;1;2" |};
              poll_data2 := {| exchange_chunks := sample_data2;
                               exchange_line := lit "2;0;0" |} |}.
Proof.
  repeat split; try reflexivity.
Qed.

Lemma session_from_start_witness :
  let p := {| poll_info := {| exchange_chunks := sample_info;
                         exchange_line := lit "HOTTOH;1.7;42" |};
              poll_data := {| exchange_chunks := sample_data;
                              exchange_line := lit "0;1;2" |};
              poll_data2 := {| exchange_chunks := sample_data2;
                               exchange_line := lit "2;0;0" |} |} in
  let '(c', out) :=
    HottohRemoteClient.run HottohRemoteClient.new
      (HottohRemoteClient.call_start HottohRemoteClient.connecting
         :: HottohRemoteClient.socket_on_connect :: polling 0 [p; p]) in
  HottohRemoteClient.connects out = 1%nat
  /\ HottohRemoteClient.writes out
     = reads ++ reads ++ [frame (lit "INF") CommandMode.READ [lit ""]]
  /\ HottohRemoteClient._info c' = Some [lit "HOTTOH"; lit "1.7"; lit "42"].
Proof.
  intros p.
  pose proof (@session_from_start HottohRemoteClient.new [p; p]
                eq_refl eq_refl eq_refl eq_refl eq_refl
                (Forall_cons _ sample_poll_answered
                   (Forall_cons _ sample_poll_answered (Forall_nil _)))) as H.
  cbv zeta in H. change (HottohRemoteClient.nextTimer HottohRemoteClient.new)
    with 0%nat in H.
  destruct (HottohRemoteClient.run _ _) as [c' out].
  destruct H as (_ & _ & Hn & Hw & Hs & _).
  split; [exact Hn|]. split; [exact Hw|].
  unfold snapshots in Hs. now inversion Hs.
Defined.

Lemma polling_goes_on_witness :
  let p := {| poll_info := {| exchange_chunks := sample_info;
                         exchange_line := lit "HOTTOH;1.7;42" |};
              poll_data := {| exchange_chunks := sample_data;
                              exchange_line := lit "0;1;2" |};
              poll_data2 := {| exchange_chunks := sample_data2;
                               exchange_line := lit "2;0;0" |} |} in
  let c := HottohRemoteClient.set___isConnected true HottohRemoteClient.new in
  let '(c', out) :=
    exec_then (HottohRemoteClient.loop HottohRemoteClient.connecting)
      (polling 0 [p]) c in
  HottohRemoteClient.writes out
  = reads ++ [frame (lit "INF") CommandMode.READ [lit ""]]
  /\ HottohRemoteClient.loop_delays out = [1000].
Proof.
  intros p c.
  pose proof (@polling_goes_on c HottohRemoteClient.connecting [p]
                eq_refl eq_refl eq_refl eq_refl eq_refl
                (Forall_cons _ sample_poll_answered (Forall_nil _))) as H.
  change (HottohRemoteClient.nextTimer c) with 0%nat in H.
  destruct (exec_then _ _ c) as [c' out].
  destruct H as (Hw & _ & Hd & _).
  split; [exact Hw|exact Hd].
Defined.

(** *** What stays in the response buffer *)

Lemma text_before_app c a b :
  includes c a = false -> text_before c (a ++ b) = a ++ text_before c b.
Proof.
  induction a as [|x a IH]; intros H; [reflexivity|].
  cbn [includes existsb] in H. apply orb_false_iff in H. destruct H as [Hx Ha].
  cbn [app text_before]. rewrite Z.eqb_sym, Hx. f_equal. now apply IH.
Qed.

Section Leftover.
Import HottohRemoteClient.

#[local] Arguments Request.getRequest : simpl never.
#[local] Arguments Request.new : simpl never.
#[local] Arguments Buffer_toString_utf8 : simpl never.
#[local] Arguments includes : simpl never.
#[local] Arguments split : simpl never.
#[local] Arguments text_before : simpl never.
#[local] Arguments lit : simpl never.
#[local] Arguments frame : simpl never.

(** A request that fails leaves the buffer as it is. *)
Lemma failure_keeps_buffer r failure c :
  inFlight c = [r] ->
  fails r failure ->
  _responseBuffer (fst (step c failure)) = _responseBuffer c.
Proof.
  intros Hr [->|[e ->]].
  - rewrite (@step_timeout r c Hr). unfold exec. rewrite dial_catch_run.
    destruct c as [? ? ? ? ? ? [|] ? ? ? ? ? ?]; reflexivity.
  - rewrite (@step_error r e c Hr). unfold exec. rewrite dial_catch_run.
    destruct c as [? ? ? ? ? ? [|] ? ? ? ? ? ?]; reflexivity.
Qed.

(** The state a failed request leaves on a client that is polling. *)
Lemma failure_run r failure c :
  inFlight c = [r] ->
  fails r failure ->
  __endRequest c = false ->
  step c failure
  = (set__loopTimeout (Some (nextTimer c))
       (set_loopTimers (loopTimers c ++ [(nextTimer c, 5000)])
          (set_nextTimer (S (nextTimer c))
             (set___isConnected false (set_inFlight [] c)))),
     [clearTimeout (timeout r); setTimeout_loop (nextTimer c) 5000]).
Proof.
  intros Hr [->|[e ->]] He.
  - rewrite (@step_timeout r c Hr). unfold exec. rewrite dial_catch_run.
    destruct c; cbn in *. subst. reflexivity.
  - rewrite (@step_error r e c Hr). unfold exec. rewrite dial_catch_run.
    destruct c; cbn in *. subst. reflexivity.
Qed.

End Leftover.

Section LeftoverRun.
Import HottohRemoteClient.

#[local] Arguments Request.getRequest : simpl never.
#[local] Arguments Request.new : simpl never.
#[local] Arguments Buffer_toString_utf8 : simpl never.
#[local] Arguments includes : simpl never.
#[local] Arguments split : simpl never.
#[local] Arguments text_before : simpl never.
#[local] Arguments lit : simpl never.
#[local] Arguments frame : simpl never.
#[local] Arguments received : simpl never.
#[local] Arguments _extractData : simpl never.

Lemma cleared_isConnected c : __isConnected (cleared c) = __isConnected c.
Proof. apply cleared_fields. Qed.
Lemma cleared_endRequest c : __endRequest (cleared c) = __endRequest c.
Proof. apply cleared_fields. Qed.
Lemma cleared_inFlight c : inFlight (cleared c) = inFlight c.
Proof. apply cleared_fields. Qed.
Lemma cleared_responseBuffer c : _responseBuffer (cleared c) = _responseBuffer c.
Proof. apply cleared_fields. Qed.
Lemma cleared_connectHandlers c : connectHandlers (cleared c) = connectHandlers c.
Proof. apply cleared_loopTimers. Qed.
Lemma cleared_nextTimer c : nextTimer (cleared c) = nextTimer c.
Proof. apply cleared_fields. Qed.

Ltac through_cleared :=
  repeat (cbn [__isConnected __endRequest inFlight _responseBuffer
               connectHandlers nextTimer loopTimers
               set__info set__data set__data2 set__writeRequest
               set__writeParameters set___isConnected set___endRequest
               set__responseBuffer set__loopTimeout set_connectHandlers
               set_inFlight set_loopTimers set_nextTimer];
          rewrite ?cleared_isConnected, ?cleared_endRequest,
            ?cleared_inFlight, ?cleared_responseBuffer,
            ?cleared_connectHandlers, ?cleared_nextTimer).

(** After a failure: the 5000 ms timer, the connection, and the first
    response of the next cycle. *)
Lemma reconnect_and_read c d line :
  __isConnected c = false ->
  __endRequest c = false ->
  inFlight c = [] ->
  connectHandlers c = 0%nat ->
  delivers (_responseBuffer c) d line ->
  let h := nextTimer c in
  let c1 :=
    set__loopTimeout (Some h)
      (set_loopTimers (loopTimers c ++ [(h, 5000)])
         (set_nextTimer (S h) c)) in
  let '(c2, out2) :=
    run c1 ([loop_timer_fires h connecting; socket_on_connect]
              ++ map socket_on_data (chunks d)) in
  _info c2 = Some (_extractData line)
  /\ writes out2
     = [frame INF CommandMode.READ [lit ""];
        frame DAT CommandMode.READ [lit "0"]]
  /\ connects out2 = 1%nat.
Proof.
  intros Hc He Hf Hh Hd. cbv zeta.
  set (h := nextTimer c).
  cbn [app].
  rewrite run_timer
    by (cbn [loopTimers set__loopTimeout set_loopTimers];
        apply existsb_timer_last).
  set (c1 := set_loopTimers _ _).
  assert (K1 : __isConnected c1 = false /\ __endRequest c1 = false
               /\ inFlight c1 = [] /\ connectHandlers c1 = 0%nat
               /\ _responseBuffer c1 = _responseBuffer c)
    by (subst c1; through_cleared; repeat split; assumption).
  destruct K1 as (K1 & K2 & K3 & K4 & K5). clearbody c1.
  unfold exec_then at 1, exec.
  rewrite loop_run_connecting by assumption.
  rewrite connect_run.
  set (c2 := set_connectHandlers _ _).
  rewrite (@run_connect _ c2)
    by (subst c2; through_cleared; now rewrite K4).
  set (c3 := set___isConnected true _).
  rewrite loop_then
    by (subst c3 c2; through_cleared; reflexivity || assumption).
  assert (K : __isConnected (cleared c3) = true
              /\ __endRequest (cleared c3) = false
              /\ inFlight (cleared c3) = []
              /\ _responseBuffer (cleared c3) = _responseBuffer c)
    by (subst c3 c2; through_cleared; repeat split; assumption).
  destruct K as (L1 & L2 & L3 & L4).
  destruct (cleared_output_silent c1) as (P1 & _ & P3 & _).
  destruct (cleared_output_silent c3) as (Q1 & _ & Q3 & _).
  generalize dependent (cleared c3). intros c4 L1 L2 L3 L4.
  assert (ext : forall (m m' : M unit) evs a a',
             m a = m' a' -> exec_then m evs a = exec_then m' evs a').
  { intros m m' evs a a' E. apply exec_then_ext. unfold exec. now rewrite E. }
  rewrite (ext _ _ _ _ _ (@dial_run c4 L1 L2)).
  rewrite <- (app_nil_r (map socket_on_data (chunks d))).
  rewrite (@exchange_then _ AwaitInfo c4 d line [] L3
             ltac:(rewrite L4; exact Hd)).
  unfold exec_then, exec. rewrite dial_resume_info, sendRequest_run.
  cbn [run]. rewrite !app_nil_r.
  rewrite !writes_app, !connects_app, P1, P3, Q1, Q3.
  cbn. repeat split.
Qed.

End LeftoverRun.

(** X20.  A response cut short by a failure is not discarded.  When a
    request fails, by its timer or by an error of the socket, the text
    received for it stays in [_responseBuffer]; the client reconnects after
    5000 ms, and the first response of the next cycle is read behind that
    text: [_info] is the leftover followed by the new line, split on [";"]. *)
Theorem partial_response_survives_failure (c : HottohRemoteClient.t)
  (r : HottohRemoteClient.request_in_flight) (partial : list Buffer)
  (failure : HottohRemoteClient.event) (d : delivery) (line : jsstring) :
  HottohRemoteClient.inFlight c = [r] ->
  HottohRemoteClient.connectHandlers c = 0%nat ->
  HottohRemoteClient.__endRequest c = false ->
  let leftover := received (HottohRemoteClient._responseBuffer c) partial in
  includes newline leftover = false ->
  fails r failure ->
  delivers leftover d line ->
  let '(c1, out1) :=
    HottohRemoteClient.run c
      (map HottohRemoteClient.socket_on_data partial ++ [failure]) in
  let '(c2, out2) :=
    HottohRemoteClient.run c1
      ([HottohRemoteClient.loop_timer_fires (HottohRemoteClient.nextTimer c)
          HottohRemoteClient.connecting;
        HottohRemoteClient.socket_on_connect]
         ++ map HottohRemoteClient.socket_on_data (chunks d)) in
  HottohRemoteClient._responseBuffer c1 = leftover
  /\ HottohRemoteClient.loop_delays out1 = [5000]
  /\ line
     = leftover
       ++ text_before newline (flat_map Buffer_toString_utf8 (chunks d))
  /\ HottohRemoteClient._info c2
     = Some (HottohRemoteClient._extractData line)
  /\ HottohRemoteClient.writes out2
     = [frame (lit "INF") CommandMode.READ [lit ""];
        frame (lit "DAT") CommandMode.READ [lit "0"]].
Proof.
  intros Hr Hh He leftover Hopen Hfail Hd.
  rewrite run_app.
  rewrite (@run_open r partial c Hr Hopen). fold leftover.
  set (c0 := HottohRemoteClient.set__responseBuffer leftover c).
  cbn [HottohRemoteClient.run].
  rewrite (@failure_run r failure c0 ltac:(subst c0; destruct c; exact Hr)
             Hfail ltac:(subst c0; destruct c; exact He)).
  set (c00 := HottohRemoteClient.set___isConnected false
                (HottohRemoteClient.set_inFlight [] c0)).
  pose proof (@reconnect_and_read c00 d line
                ltac:(reflexivity)
                ltac:(subst c00 c0; destruct c; exact He)
                ltac:(reflexivity)
                ltac:(subst c00 c0; destruct c; exact Hh)
                ltac:(subst c00 c0; destruct c; exact Hd)) as H.
  cbv zeta in H.
  change (HottohRemoteClient.nextTimer c00)
    with (HottohRemoteClient.nextTimer c0) in H.
  change (HottohRemoteClient.loopTimers c00)
    with (HottohRemoteClient.loopTimers c0) in H.
  change (HottohRemoteClient.set_nextTimer
            (S (HottohRemoteClient.nextTimer c0)) c00)
    with (HottohRemoteClient.set_nextTimer
            (S (HottohRemoteClient.nextTimer c0))
            (HottohRemoteClient.set___isConnected false
               (HottohRemoteClient.set_inFlight [] c0))) in H.
  change (HottohRemoteClient.nextTimer c)
    with (HottohRemoteClient.nextTimer c0).
  destruct (HottohRemoteClient.run _ _) as [c2 out2].
  destruct H as (Hi & Hw & _).
  split; [subst c0; destruct c; reflexivity|].
  split; [reflexivity|]. split; [|split; assumption].
  destruct Hd as (_ & _ & ->). unfold received.
  now rewrite text_before_app.
Qed.

(** The request for [_data] times out after ["0;1"] has come; the [INF]
    response of the next cycle is read as ["0;1HOTTOH;1.7;42"]. *)
Lemma partial_response_survives_failure_witness :
  let r := {| HottohRemoteClient.timeout := 1;
              HottohRemoteClient.awaited_at := HottohRemoteClient.AwaitData |} in
  let '(c1, out1) :=
    HottohRemoteClient.run sample_reading
      (map HottohRemoteClient.socket_on_data [bytes "0;1"]
         ++ [HottohRemoteClient.request_timer_fires 1]) in
  let '(c2, out2) :=
    HottohRemoteClient.run c1
      ([HottohRemoteClient.loop_timer_fires 2 HottohRemoteClient.connecting;
        HottohRemoteClient.socket_on_connect]
         ++ map HottohRemoteClient.socket_on_data (chunks sample_info)) in
  HottohRemoteClient._responseBuffer c1 = lit "0;1"
  /\ HottohRemoteClient._info c2
     = Some [lit "0"; lit "1HOTTOH"; lit "1.7"; lit "42"].
Proof.
  cbv zeta.
  pose proof (@partial_response_survives_failure sample_reading
                {| HottohRemoteClient.timeout := 1;
                   HottohRemoteClient.awaited_at :=
                     HottohRemoteClient.AwaitData |}
                [bytes "0;1"] (HottohRemoteClient.request_timer_fires 1)
                sample_info (lit "0;1HOTTOH;1.7;42")
                eq_refl eq_refl eq_refl eq_refl (or_introl eq_refl)
                ltac:(repeat split)) as H.
  cbv zeta in H.
  change (HottohRemoteClient.nextTimer sample_reading) with 2%nat in H.
  destruct (HottohRemoteClient.run sample_reading _) as [c1 out1].
  destruct (HottohRemoteClient.run c1 _) as [c2 out2].
  destruct H as (Hb & _ & _ & Hi & _).
  split; [exact Hb|exact Hi].
Defined.

(** *** ASCII responses and their chunks *)

Section Chunks.
Import HottohRemoteClient.

Lemma utf8_decode_ascii bs :
  Forall (fun b => Z_of_byte b < 0x80) bs ->
  utf8_decode utf8_idle bs = map Z_of_byte bs.
Proof.
  induction bs as [|b bs IH]; intros H; [reflexivity|].
  inversion H as [|? ? Hb Hrest]; subst.
  cbn [utf8_decode map]. unfold utf8_step. cbn [remaining utf8_idle].
  unfold utf8_lead.
  replace (Z_of_byte b <=? 0x7F) with true by (symmetry; apply Z.leb_le; lia).
  cbn [app]. now rewrite IH.
Qed.

Lemma Buffer_toString_ascii bs :
  Forall (fun b => Z_of_byte b < 0x80) bs ->
  Buffer_toString_utf8 bs = map Z_of_byte bs.
Proof.
  intros H. unfold Buffer_toString_utf8. rewrite (utf8_decode_ascii H).
  clear H. induction bs as [|b bs IH]; [reflexivity|].
  cbn [map flat_map]. rewrite IH. unfold utf16_of_code_point.
  pose proof (Z_of_byte_range b).
  replace (Z_of_byte b <? 0x10000) with true by (symmetry; apply Z.ltb_lt; lia).
  reflexivity.
Qed.

Lemma received_ascii chunks :
  Forall (fun b => Z_of_byte b < 0x80) (List.concat chunks) ->
  received [] chunks = map Z_of_byte (List.concat chunks).
Proof.
  unfold received. cbn [app].
  induction chunks as [|data chunks IH]; intros H; [reflexivity|].
  cbn [List.concat flat_map] in *. apply Forall_app in H. destruct H as [Hd Hc].
  now rewrite map_app, IH, Buffer_toString_ascii.
Qed.

Lemma includes_line_feed bs :
  includes newline (map Z_of_byte bs) = true <-> In line_feed_byte bs.
Proof.
  unfold includes. rewrite existsb_exists. split.
  - intros (x & Hin & Hx). apply in_map_iff in Hin.
    destruct Hin as (b & <- & Hb). apply Z.eqb_eq in Hx.
    replace b with line_feed_byte in Hb; [exact Hb|].
    apply Z_of_byte_inj. now rewrite <- Hx.
  - intros Hin. exists newline. split; [|apply Z.eqb_refl].
    apply in_map_iff. now exists line_feed_byte.
Qed.

End Chunks.

(** X21.  An ASCII response is read the same however the socket cuts it
    into chunks.  When the response buffer holds no line feed (it is empty,
    or holds the text left by a request that failed), the bytes received
    are ASCII and the first line feed is in the last chunk, the promise of
    the request is fulfilled with the text of the buffer followed by the
    text of the bytes before that line feed, split on [";"]: the result
    depends on the buffer and the bytes only, not on where the chunks begin
    and end. *)
Theorem ascii_response_any_chunking (c : HottohRemoteClient.t)
  (r : HottohRemoteClient.request_in_flight) (d : delivery) :
  includes newline (HottohRemoteClient._responseBuffer c) = false ->
  Forall (fun b => Z_of_byte b < 0x80) (List.concat (chunks d)) ->
  ~ In line_feed_byte (List.concat (before d)) ->
  In line_feed_byte (last d) ->
  fst (fst (listen r (chunks d) c))
  = Normal (Some (HottohRemoteClient._extractData
                    (HottohRemoteClient._responseBuffer c
                       ++ text_before newline
                            (map Z_of_byte (List.concat (chunks d)))))).
Proof.
  intros Hb Hascii Hopen Hclosed.
  assert (Hbefore : Forall (fun b => Z_of_byte b < 0x80) (List.concat (before d))).
  { unfold chunks in Hascii. rewrite concat_app in Hascii.
    now apply Forall_app in Hascii. }
  assert (R : forall l,
             received (HottohRemoteClient._responseBuffer c) l
             = HottohRemoteClient._responseBuffer c ++ received [] l)
    by reflexivity.
  rewrite (@listen_delivery r d c
             (HottohRemoteClient._responseBuffer c
                ++ text_before newline
                     (map Z_of_byte (List.concat (chunks d)))));
    [reflexivity|].
  unfold delivers.
  rewrite !R, (received_ascii _ Hascii), (received_ascii _ Hbefore).
  rewrite !includes_app, Hb. cbn [orb].
  split; [|split; [|symmetry; now apply text_before_app]].
  - destruct (includes newline (map Z_of_byte (List.concat (before d)))) eqn:E;
      [|reflexivity].
    apply includes_line_feed in E. contradiction.
  - apply includes_line_feed. unfold chunks. rewrite concat_app.
    apply in_or_app. right. cbn. rewrite app_nil_r. exact Hclosed.
Qed.

(** The same bytes in one chunk and in two, and behind a leftover. *)
Lemma ascii_response_any_chunking_witness :
  let r := {| HottohRemoteClient.timeout := 0;
              HottohRemoteClient.awaited_at := HottohRemoteClient.AwaitInfo |} in
  let c := HottohRemoteClient.new in
  let whole := {| before := []; last := bytes ("a;b" ++ line_feed) |} in
  let halves := {| before := [bytes "a;"]; last := bytes ("b" ++ line_feed) |} in
  fst (fst (listen r (chunks whole) c)) = Normal (Some [lit "a"; lit "b"])
  /\ fst (fst (listen r (chunks halves) c)) = Normal (Some [lit "a"; lit "b"])
  /\ fst (fst (listen r (chunks whole)
                 (HottohRemoteClient.set__responseBuffer (lit "0;1") c)))
     = Normal (Some [lit "0"; lit "1a"; lit "b"]).
Proof.
  cbv zeta. split; [|split].
  - apply (@ascii_response_any_chunking HottohRemoteClient.new _
             {| before := []; last := bytes ("a;b" ++ line_feed) |} eq_refl).
    + repeat constructor.
    + intros [].
    + vm_compute. tauto.
  - apply (@ascii_response_any_chunking HottohRemoteClient.new _
             {| before := [bytes "a;"]; last := bytes ("b" ++ line_feed) |}
             eq_refl).
    + repeat constructor.
    + vm_compute. intuition discriminate.
    + vm_compute. tauto.
  - apply (@ascii_response_any_chunking
             (HottohRemoteClient.set__responseBuffer (lit "0;1")
                HottohRemoteClient.new) _
             {| before := []; last := bytes ("a;b" ++ line_feed) |} eq_refl).
    + repeat constructor.
    + intros [].
    + vm_compute. tauto.
Defined.

(** ** The setters of [Hottoh] *)

Section SetterProperties.
Import HottohRemoteClient.

Variable String_of_command : HottohCommands.StoveCommands -> jsstring.
Variable double : Type.
Variable times_ten : double -> double.
Variable String_of_number : double -> jsstring.

#[local] Abbreviation call :=
  (@HottohCommands.call String_of_command double times_ten String_of_number).
#[local] Abbreviation calls :=
  (@HottohCommands.calls String_of_command double times_ten String_of_number).
#[local] Abbreviation queued :=
  (@queued String_of_command double times_ten String_of_number).
#[local] Abbreviation setTemperature :=
  (@HottohCommands.setTemperature String_of_command double times_ten
     String_of_number).

Lemma call_run s c :
  call s c
  = (Normal true,
     set__writeParameters (_writeParameters c ++ [queued s])
       (set__writeRequest true c),
     []).
Proof. destruct s; reflexivity. Qed.

Lemma calls_run l : forall c,
  exists c',
    calls l c = (Normal tt, c', [])
    /\ _writeParameters c' = _writeParameters c ++ map queued l
    /\ __isConnected c' = __isConnected c
    /\ __endRequest c' = __endRequest c
    /\ inFlight c' = inFlight c
    /\ _responseBuffer c' = _responseBuffer c
    /\ snapshots c' = snapshots c
    /\ _loopTimeout c' = _loopTimeout c
    /\ loopTimers c' = loopTimers c.
Proof.
  induction l as [|s l IH]; intros c.
  - exists c. cbn. rewrite app_nil_r. repeat split.
  - cbn [HottohCommands.calls]. unfold bind. rewrite call_run.
    destruct (IH (set__writeParameters (_writeParameters c ++ [queued s])
                    (set__writeRequest true c)))
      as (c' & E & Hq & H1 & H2 & H3 & H4 & H5 & H6 & H7).
    rewrite E. exists c'. split; [reflexivity|].
    rewrite Hq, H1, H2, H3, H4, H5, H6, H7. cbn.
    rewrite <- app_assoc. repeat split.
Qed.

(** A setter of [Hottoh] only queues.  Each of the twelve setters
    returns [true] ([setTemperature] a promise resolved with [true]), never
    throws, touches neither the socket nor a timer, and leaves the client as
    it was but for one command appended to the queue: the register of the
    setter and the value, as text. *)
Theorem setters_only_queue (s : HottohCommands.setter double) (c : t) :
  call s c
  = (Normal true,
     set__writeParameters (_writeParameters c ++ [queued s])
       (set__writeRequest true c),
     [])
  /\ List.length (queued s) = 2%nat
  /\ forall value,
       fst (fst (setTemperature value c))
       = Normal (HottohCommands.resolved true).
Proof.
  split; [apply call_run|]. split; [destruct s; reflexivity|reflexivity].
Qed.

(** X22.  What the setters queue goes out with the next cycle.  On a
    client that is connected, not stopped and has no request in flight,
    after any calls of the setters, the cycle that [loop] starts writes the
    three reads and then one [DAT] write request for every command in the
    queue (those that were queued before, then one per call, in the order
    of the calls), provided the responses arrive; the queue is empty
    afterwards and the next cycle is set 1000 ms later. *)
Theorem commands_reach_the_wire (c : t) (outcome : connect_call)
  (l : list (HottohCommands.setter double)) (d1 d2 d3 : delivery)
  (l1 l2 l3 : jsstring) (ds : list delivery) (ls : list jsstring) :
  __isConnected c = true ->
  __endRequest c = false ->
  inFlight c = [] ->
  delivers (_responseBuffer c) d1 l1 ->
  delivers [] d2 l2 ->
  delivers [] d3 l3 ->
  Forall2 (delivers []) ds ls ->
  List.length ds = List.length (_writeParameters c ++ map queued l) ->
  let '(c', out) :=
    exec_then (bind (calls l) (fun _ => loop outcome))
      (data_events (d1 :: d2 :: d3 :: ds)) c in
  writes out
  = frame (lit "INF") CommandMode.READ [lit ""]
    :: frame (lit "DAT") CommandMode.READ [lit "0"]
    :: frame (lit "DAT") CommandMode.READ [lit "2"]
    :: map (frame (lit "DAT") CommandMode.WRITE)
         (_writeParameters c ++ map queued l)
  /\ _writeParameters c' = []
  /\ loop_delays out = [1000]
  /\ connects out = 0%nat
  /\ rejections out = [].
Proof.
  intros Hc He Hf H1 H2 H3 Hds Hlen.
  destruct (calls_run l c) as (cq & E & Hq & K1 & K2 & K3 & K4 & K5 & K6 & K7).
  assert (Hexec : forall events,
            exec_then (bind (calls l) (fun _ => loop outcome)) events c
            = exec_then (loop outcome) events cq).
  { intros events. unfold exec_then, exec, bind. rewrite E.
    destruct (loop outcome cq) as [[res c1] o1]. reflexivity. }
  rewrite Hexec.
  rewrite loop_then by congruence.
  destruct (cleared_fields cq) as (E1 & E2 & E3 & E4 & E5 & E6 & E7).
  pose proof (@dial_cycle (cleared cq) d1 d2 d3 l1 l2 l3 ds ls
                ltac:(congruence) ltac:(congruence) ltac:(congruence)
                ltac:(rewrite E4, K4; exact H1) H2 H3 Hds
                ltac:(rewrite E5, Hq; exact Hlen)) as H.
  cbv beta zeta in H.
  destruct (exec_then (unawaited __dial)
              (data_events (d1 :: d2 :: d3 :: ds)) (cleared cq))
    as [c' out].
  destruct H as (Hw & _ & _ & _ & _ & Hq' & _ & _ & Hd & _ & Hn & Hr).
  destruct (cleared_output_silent cq) as (P1 & P2 & P3 & P4).
  rewrite writes_app, loop_delays_app, connects_app, rejections_app,
    P1, P2, P3, P4, Hw, Hd, Hn, Hr, E5, Hq.
  repeat split. exact Hq'.
Qed.

End SetterProperties.

(** [setOn] and [setPowerLevel(3)] on a connected client, then a cycle. *)
Lemma commands_reach_the_wire_witness :
  let c := HottohRemoteClient.set___isConnected true HottohRemoteClient.new in
  let l := [HottohCommands.call_setOn;
            HottohCommands.call_setPowerLevel (lit "3")] in
  let '(c', out) :=
    exec_then
      (HottohRemoteClient.bind
         (HottohCommands.calls sample_commands (fun v => v) (fun v => v) l)
         (fun _ => HottohRemoteClient.loop HottohRemoteClient.connecting))
      (data_events [sample_info; sample_data; sample_data2; sample_ack;
                    sample_ack]) c in
  HottohRemoteClient.writes out
  = [frame (lit "INF") CommandMode.READ [lit ""];
     frame (lit "DAT") CommandMode.READ [lit "0"];
     frame (lit "DAT") CommandMode.READ [lit "2"];
     frame (lit "DAT") CommandMode.WRITE [lit "0"; lit "1"];
     frame (lit "DAT") CommandMode.WRITE [lit "2"; lit "3"]]
  /\ HottohRemoteClient._writeParameters c' = [].
Proof.
  intros c l.
  pose proof (@commands_reach_the_wire sample_commands jsstring
                (fun v => v) (fun v => v) c HottohRemoteClient.connecting l
                sample_info sample_data sample_data2
                (lit "HOTTOH;1.7;42") (lit "0;1;2") (lit "2;0;0")
                [sample_ack; sample_ack] [lit "OK"; lit "OK"]
                eq_refl eq_refl eq_refl
                sample_info_delivers sample_data_delivers
                sample_data2_delivers
                ltac:(repeat constructor) eq_refl) as H.
  destruct (exec_then _ _ c) as [c' out].
  destruct H as (Hw & Hq & _). split; [exact Hw|exact Hq].
Defined.

(** ** The earlier client *)

Section EarlierFrame.
Import HottohRemoteClient.

Lemma framed_ret A (a : A) : framed (ret a).
Proof. intro c. reflexivity. Qed.

Lemma framed_throw A (e : error) : framed (@throw A e).
Proof. intro c. reflexivity. Qed.

Lemma framed_emit (a : action) : framed (emit a).
Proof. intro c. reflexivity. Qed.

Lemma framed_assign (f : t -> t) :
  (forall c, f (set___endRequest true c) = set___endRequest true (f c)) ->
  framed (assign f).
Proof. intros H c. unfold assign. now rewrite H. Qed.

Lemma framed_bind A B (m : M A) (f : A -> M B) :
  framed m -> (forall a, framed (f a)) -> framed (bind m f).
Proof.
  intros Hm Hf c. unfold bind. rewrite Hm.
  destruct (m c) as [[[a|e] c1] o1]; [|reflexivity].
  rewrite Hf. now destruct (f a c1) as [[r c2] o2].
Qed.

Lemma framed_this A (k : t -> M A) :
  (forall c c0, k (set___endRequest true c) c0 = k c c0) ->
  (forall c, framed (k c)) ->
  framed (bind this k).
Proof.
  intros Hk Hf c. unfold bind, this. rewrite Hk, Hf.
  now destruct (k c c) as [[r c2] o2].
Qed.

Lemma framed_try A (body : M A) (handler : error -> M A) :
  framed body -> (forall e, framed (handler e)) ->
  framed (try_catch body handler).
Proof.
  intros Hb Hh c. unfold try_catch. rewrite Hb.
  destruct (body c) as [[[a|e] c1] o1]; [reflexivity|].
  rewrite Hh. now destruct (handler e c1) as [[r c2] o2].
Qed.

Lemma framed_newTimer : framed newTimer.
Proof. intro c. reflexivity. Qed.

Lemma framed_setTimeout_of_loop ms : framed (LegacyClient.setTimeout_of_loop ms).
Proof. intro c. reflexivity. Qed.

Lemma framed_await r : framed (await r).
Proof. destruct r; intro c; reflexivity. Qed.

Lemma framed_sendCommand p : framed (sendCommand p).
Proof. intro c. reflexivity. Qed.

End EarlierFrame.

Section EarlierRespects.
Import HottohRemoteClient LegacyClient.

Lemma respects_unit A (a : A) : respects (unit_L a).
Proof. intro s. reflexivity. Qed.

Lemma respects_throw A (e : error) : respects (@throw_L A e).
Proof. intro s. reflexivity. Qed.

Lemma respects_lift A (m : M A) : framed m -> respects (lift m).
Proof.
  intros Hm s. unfold lift. cbn [ended client errorListeners].
  rewrite Hm. now destruct (m (client s)) as [[r c'] o].
Qed.

Lemma respects_bind A B (m : L A) (f : A -> L B) :
  respects m -> (forall a, respects (f a)) -> respects (bind_L m f).
Proof.
  intros Hm Hf s. unfold bind_L. rewrite Hm.
  destruct (m s) as [[[a|e] s1] o1]; [|reflexivity].
  rewrite Hf. now destruct (f a s1) as [[r s2] o2].
Qed.

Lemma respects_self A (k : LegacyClient.t -> L A) :
  (forall s s0, k (ended s) s0 = k s s0) ->
  (forall s, respects (k s)) ->
  respects (bind_L self k).
Proof.
  intros Hk Hf s. unfold bind_L, self. rewrite Hk, Hf.
  now destruct (k s s) as [[r s2] o2].
Qed.

Lemma respects_try A (body : L A) (handler : error -> L A) :
  respects body -> (forall e, respects (handler e)) ->
  respects (try_catch_L body handler).
Proof.
  intros Hb Hh s. unfold try_catch_L. rewrite Hb.
  destruct (body s) as [[[a|e] s1] o1]; [reflexivity|].
  rewrite Hh. now destruct (handler e s1) as [[r s2] o2].
Qed.

Lemma respects_forEach A (l : list A) (f : A -> L unit) :
  (forall a, respects (f a)) -> respects (forEach_L l f).
Proof.
  intro Hf. induction l as [|x l IH]; cbn [forEach_L].
  - apply respects_unit.
  - apply respects_bind; [apply Hf | intro; exact IH].
Qed.

Lemma respects_times n (m : L unit) : respects m -> respects (times_L n m).
Proof.
  intro Hm. induction n as [|n IH]; cbn [times_L].
  - apply respects_unit.
  - apply respects_bind; [exact Hm | intro; exact IH].
Qed.

Lemma respects_set_errorListeners v : respects (set_errorListeners v).
Proof. intro s. reflexivity. Qed.

Ltac framing :=
  repeat first
    [ apply respects_unit | apply respects_throw
    | apply respects_set_errorListeners
    | apply respects_self; [intros; reflexivity | intro]
    | apply respects_bind; [| intro]
    | apply respects_try; [| intro]
    | apply respects_lift
    | apply framed_ret | apply framed_throw | apply framed_emit
    | apply framed_newTimer | apply framed_setTimeout_of_loop
    | apply framed_await | apply framed_sendCommand
    | apply framed_assign; intro; reflexivity
    | apply framed_this; [intros; reflexivity | intro]
    | apply framed_bind; [| intro]
    | apply framed_try; [| intro] ].

Lemma respects_sendRequest request awaited :
  respects (_sendRequestAndWaitForResponse request awaited).
Proof. unfold _sendRequestAndWaitForResponse, on_error. framing. Qed.

Lemma respects_dial_catch e : respects (__dial_catch e).
Proof. unfold __dial_catch. framing. Qed.

Lemma respects_dial_while : respects __dial_while.
Proof.
  unfold __dial_while. apply respects_self; [intros; reflexivity | intro s].
  destruct (0 <? _)%nat.
  - destruct (nth_error _ 0); [apply respects_sendRequest | framing].
  - framing.
Qed.

Lemma respects_dial : respects __dial.
Proof.
  unfold __dial. apply respects_self; [intros; reflexivity | intro s].
  destruct (negb _); [framing|].
  apply respects_try; [apply respects_sendRequest | apply respects_dial_catch].
Qed.

Lemma respects_dial_resume awaited r : respects (__dial_resume awaited r).
Proof.
  unfold __dial_resume.
  apply respects_try; [| apply respects_dial_catch].
  apply respects_bind; [framing | intro response].
  destruct awaited.
  - apply respects_bind; [framing | intro; apply respects_sendRequest].
  - apply respects_bind; [framing | intro; apply respects_sendRequest].
  - apply respects_bind; [framing | intro; apply respects_dial_while].
  - apply respects_self; [intros; reflexivity | intro s].
    apply respects_bind; [framing | intro; apply respects_dial_while].
Qed.

Lemma respects_unawaited m : respects m -> respects (unawaited_L m).
Proof. intro H. unfold unawaited_L. apply respects_try; [exact H | intro; framing]. Qed.

Lemma respects_connect outcome : respects (__connect outcome).
Proof.
  unfold __connect, on_error.
  apply respects_bind; [| intro; framing].
  apply respects_lift, framed_try.
  - apply framed_this; [intros; reflexivity | intro c].
    apply framed_bind; [framing | intro].
    apply framed_bind; [framing | intro].
    destruct outcome; framing.
  - intro e. apply framed_bind; [framing | intro].
    apply framed_bind; [| intro; framing].
    destruct e; try apply framed_ret.
    destruct (String.eqb _ _); framing.
Qed.

Lemma respects_loop outcome : respects (loop outcome).
Proof.
  unfold loop. apply respects_self; [intros; reflexivity | intro s].
  destruct (__isConnected _).
  - apply respects_unawaited, respects_dial.
  - apply respects_connect.
Qed.

Lemma respects_cleanup handle : respects (cleanup handle).
Proof. unfold cleanup, removeListener_error. framing. Qed.

Lemma respects_onData r data : respects (onData r data).
Proof.
  unfold onData. apply respects_self; [intros; reflexivity | intro s].
  apply respects_bind; [framing | intro].
  apply respects_self; [intros; reflexivity | intro s'].
  destruct (includes _ _); [| framing].
  apply respects_bind; [framing | intro].
  apply respects_bind; [apply respects_cleanup | intro; framing].
Qed.

Lemma respects_emit_data listeners data : respects (emit_data listeners data).
Proof.
  induction listeners as [|r rest IH]; cbn [emit_data]; [framing|].
  apply respects_bind; [apply respects_onData | intro].
  apply respects_bind; [exact IH | intro; framing].
Qed.

Lemma respects_emit_error listeners requests :
  respects (emit_error listeners requests).
Proof.
  induction listeners as [|[|h] rest IH]; cbn [emit_error]; [framing| |].
  - apply respects_bind; [unfold retryListener; framing | intro; exact IH].
  - apply respects_bind; [apply respects_cleanup | intro].
    apply respects_bind; [exact IH | intro; framing].
Qed.

Lemma respects_handle e : is_start e = false -> respects (handle e).
Proof.
  destruct e as [o| |p| |data|e| | |h o|h]; cbn [is_start handle];
    intro H; try discriminate.
  - unfold stop. apply respects_bind; [| intro; framing].
    intro s. unfold lift, assign. cbn [ended client errorListeners].
    unfold ended. cbn [client errorListeners].
    now destruct (client s).
  - unfold LegacyClient.sendCommand. framing.
  - apply respects_self; [intros; reflexivity | intro s].
    apply respects_bind; [framing | intro].
    apply respects_times. unfold connectHandler.
    apply respects_bind; [framing | intro; apply respects_loop].
  - apply respects_self; [intros; reflexivity | intro s].
    apply respects_bind; [apply respects_emit_data | intro fulfilled].
    apply respects_forEach. intro p.
    apply respects_unawaited, respects_dial_resume.
  - apply respects_self; [intros; reflexivity | intro s].
    destruct (errorListeners s) as [|l ls]; [framing|].
    apply respects_bind; [apply respects_emit_error | intro rejected].
    apply respects_forEach. intro a.
    apply respects_unawaited, respects_dial_resume.
  - framing.
  - framing.
  - apply respects_self; [intros; reflexivity | intro s].
    destruct (existsb _ _); [| framing].
    apply respects_bind; [framing | intro; apply respects_loop].
  - apply respects_self; [intros; reflexivity | intro s].
    apply respects_forEach. intro r.
    apply respects_bind; [apply respects_cleanup | intro].
    apply respects_unawaited, respects_dial_resume.
Qed.

Lemma step_ended e s :
  is_start e = false ->
  LegacyClient.step (ended s) e
  = let '(s', o) := LegacyClient.step s e in (ended s', o).
Proof.
  intro H. unfold LegacyClient.step. rewrite (@respects_handle e H).
  now destruct (handle e s) as [[r s'] o].
Qed.

Lemma step_ended_start o s :
  LegacyClient.step (ended s) (call_start o) = (ended s, []).
Proof. reflexivity. Qed.

Lemma run_ended events : forall s,
  LegacyClient.run (ended s) events
  = let '(s', o) := LegacyClient.run s (without_start events) in (ended s', o).
Proof.
  induction events as [|e events IH]; intro s; [reflexivity|].
  cbn [LegacyClient.run without_start filter].
  destruct (is_start e) eqn:E; cbn [negb].
  - destruct e; try discriminate. rewrite step_ended_start.
    rewrite IH. fold (without_start events).
    now destruct (LegacyClient.run s (without_start events)).
  - rewrite (@step_ended e s E). cbn [LegacyClient.run].
    destruct (LegacyClient.step s e) as [s1 o1].
    rewrite IH. fold (without_start events).
    now destruct (LegacyClient.run s1 (without_start events)).
Qed.

Lemma step_stop s : LegacyClient.step s call_stop = (ended s, [socket_end]).
Proof. reflexivity. Qed.

End EarlierRespects.

(** X23.  In the earlier text of the client, [stop()] only sets the flag
    that [start()] reads and ends the socket: after it, every call of
    [start()] does nothing, and every other event (a timer of [loop] that
    fires, a response, an error, a command queued) does exactly what it
    would have done had [stop()] not been called -- polling goes on. *)
Theorem earlier_stop_only_blocks_start
  (s : LegacyClient.t) (events : list HottohRemoteClient.event) :
  LegacyClient.run s (HottohRemoteClient.call_stop :: events)
  = let '(s', out) := LegacyClient.run s (without_start events) in
    (ended s', HottohRemoteClient.socket_end :: out).
Proof.
  change (LegacyClient.run s (HottohRemoteClient.call_stop :: events))
    with (let '(s1, o1) := LegacyClient.step s HottohRemoteClient.call_stop in
          let '(s2, o2) := LegacyClient.run s1 events in (s2, o1 ++ o2)).
  rewrite step_stop, run_ended.
  now destruct (LegacyClient.run s (without_start events)).
Qed.

Section EarlierRetries.
Import HottohRemoteClient LegacyClient.

Lemma run_app_legacy (a b : list event) : forall s,
  LegacyClient.run s (a ++ b)
  = let '(s1, o1) := LegacyClient.run s a in
    let '(s2, o2) := LegacyClient.run s1 b in (s2, o1 ++ o2).
Proof.
  induction a as [|e a IH]; intro s; cbn [app LegacyClient.run].
  - now destruct (LegacyClient.run s b).
  - destruct (LegacyClient.step s e) as [s1 o1]. rewrite IH.
    destruct (LegacyClient.run s1 a) as [s2 o2].
    destruct (LegacyClient.run s2 b) as [s3 o3].
    now rewrite app_assoc.
Qed.

Lemma retry_listeners_run k requests : forall s,
  exists s',
    emit_error (repeat retry k) requests s
    = (Normal [], s',
       map (fun i => setTimeout_loop i 5000) (seq (nextTimer (client s)) k))
    /\ errorListeners s' = errorListeners s
    /\ inFlight (client s') = inFlight (client s)
    /\ loopTimers (client s')
       = loopTimers (client s) ++ timers_from (nextTimer (client s)) k
    /\ nextTimer (client s') = (nextTimer (client s) + k)%nat
    /\ connectHandlers (client s') = connectHandlers (client s)
    /\ ((0 < k)%nat -> __isConnected (client s') = false).
Proof.
  induction k as [|k IH]; intro s.
  - exists s. cbn. rewrite app_nil_r, Nat.add_0_r.
    repeat split; try reflexivity. intro H. inversion H.
  - destruct s as [c ls]. cbn [repeat emit_error].
    set (s1 := {| client :=
                    set_loopTimers (loopTimers c ++ [(nextTimer c, 5000)])
                      (set_nextTimer (S (nextTimer c))
                         (set___isConnected false c));
                  errorListeners := ls |}).
    assert (E1 : retryListener {| client := c; errorListeners := ls |}
                 = (Normal tt, s1, [setTimeout_loop (nextTimer c) 5000]))
      by reflexivity.
    destruct (IH s1) as (s' & E & Hl & Hf & Ht & Hn & Hc & Hb).
    exists s'. unfold bind_L at 1. rewrite E1, E. cbn [client errorListeners].
    cbn [client errorListeners s1 nextTimer loopTimers inFlight
           connectHandlers set_loopTimers set_nextTimer set___isConnected]
      in Hl, Hf, Ht, Hn, Hc.
    repeat split.
    + exact Hl.
    + exact Hf.
    + rewrite Ht, <- app_assoc. reflexivity.
    + rewrite Hn. lia.
    + exact Hc.
    + intros _. destruct k as [|k'].
      * cbn in E. injection E as <-. reflexivity.
      * apply Hb. lia.
Qed.

Lemma without_first_timer h k :
  without_timer h (timers_from h (S k)) = timers_from (S h) k.
Proof.
  unfold without_timer, timers_from. cbn [seq map filter fst].
  rewrite Nat.eqb_refl. cbn [negb].
  apply forallb_filter_id. rewrite forallb_forall.
  intros [i ms] Hin. apply in_map_iff in Hin as (j & [= <- <-] & Hj).
  apply in_seq in Hj. cbn [fst].
  destruct (Nat.eqb_spec j h); [lia | reflexivity].
Qed.

Lemma timers_fire k : forall s j h m,
  retrying s j (timers_from h k) (h + k) m ->
  __isConnected (client s) = false ->
  exists s',
    LegacyClient.run s (map (fun i => loop_timer_fires i connecting) (seq h k))
    = (s', repeat socket_connect k)
    /\ retrying s' (j + k) [] (h + k) (m + k)
    /\ __isConnected (client s') = false.
Proof.
  induction k as [|k IH]; intros s j h m Hs Hb.
  - exists s. unfold retrying, timers_from in *. cbn [seq map LegacyClient.run repeat] in *.
    rewrite !Nat.add_0_r in *. now repeat split.
  - destruct Hs as (Hl & Hf & Ht & Hn & Hc).
    destruct s as [c ls]. cbn [client errorListeners] in *.
    cbn [seq map LegacyClient.run].
    set (s1 := {| client :=
                    set_connectHandlers (S m)
                      (set_loopTimers (timers_from (S h) k) c);
                  errorListeners := ls ++ [retry] |}).
    assert (E1 : LegacyClient.step {| client := c; errorListeners := ls |}
                   (loop_timer_fires h connecting)
                 = (s1, [socket_connect])).
    { unfold LegacyClient.step, handle, bind_L at 1, self.
      cbn [client]. rewrite Ht.
      assert (Ex : existsb (fun t => Nat.eqb (fst t) h) (timers_from h (S k))
                   = true).
      { cbn. now rewrite Nat.eqb_refl. }
      rewrite Ex, without_first_timer.
      destruct c. cbn in Hb, Hc. subst. reflexivity. }
    rewrite E1.
    destruct (IH s1 (S j) (S h) (S m)) as (s' & E & Hs' & Hb').
    { unfold retrying, s1. cbn [client errorListeners].
      destruct c; cbn in *. subst.
      repeat split; try reflexivity.
      - now rewrite <- repeat_cons.
      - lia. }
    { unfold s1. cbn [client]. now destruct c. }
    exists s'. rewrite E. split; [reflexivity|]. split.
    + unfold retrying in *.
      replace (j + S k)%nat with (S j + k)%nat by lia.
      replace (h + S k)%nat with (S h + k)%nat by lia.
      replace (m + S k)%nat with (S m + k)%nat by lia.
      exact Hs'.
    + exact Hb'.
Qed.

Lemma connects_timers k : forall h,
  connects (map (fun i => setTimeout_loop i 5000) (seq h k)) = 0%nat.
Proof. induction k as [|k IH]; intro h; [reflexivity | exact (IH (S h))]. Qed.

Lemma connects_repeat k : connects (repeat socket_connect k) = k.
Proof.
  induction k as [|k IH]; [reflexivity|].
  change (S (connects (repeat socket_connect k)) = S k). now rewrite IH.
Qed.

Lemma loop_delays_timers k : forall h,
  loop_delays (map (fun i => setTimeout_loop i 5000) (seq h k))
  = repeat 5000 k.
Proof.
  induction k as [|k IH]; intro h; [reflexivity|].
  change (5000 :: loop_delays (map (fun i => setTimeout_loop i 5000)
                                 (seq (S h) k)) = 5000 :: repeat 5000 k).
  now rewrite IH.
Qed.

Lemma loop_delays_repeat k : loop_delays (repeat socket_connect k) = [].
Proof. induction k as [|k IH]; [reflexivity | exact IH]. Qed.

Lemma writes_timers k : forall h,
  writes (map (fun i => setTimeout_loop i 5000) (seq h k)) = [].
Proof. induction k as [|k IH]; intro h; [reflexivity | exact (IH (S h))]. Qed.

Lemma writes_repeat k : writes (repeat socket_connect k) = [].
Proof. induction k as [|k IH]; [reflexivity | exact IH]. Qed.

Lemma failures_run errors : forall s k h m,
  (0 < k)%nat ->
  retrying s k [] h m ->
  exists s',
    LegacyClient.run s (failures errors h k)
    = (s', snd (LegacyClient.run s (failures errors h k)))
    /\ errorListeners s' = repeat retry (k * 2 ^ List.length errors)
    /\ connectHandlers (client s')
       = (m + (k * 2 ^ List.length errors - k))%nat
    /\ connects (snd (LegacyClient.run s (failures errors h k)))
       = (k * 2 ^ List.length errors - k)%nat
    /\ loop_delays (snd (LegacyClient.run s (failures errors h k)))
       = repeat 5000 (k * 2 ^ List.length errors - k)
    /\ writes (snd (LegacyClient.run s (failures errors h k))) = [].
Proof.
  induction errors as [|e errors IH]; intros s k h m Hk Hs.
  - exists s. cbn [failures LegacyClient.run List.length Nat.pow snd].
    destruct Hs as (Hl & Hf & Ht & Hn & Hc).
    replace (k * 1 - k)%nat with 0%nat by lia.
    rewrite Nat.mul_1_r, Nat.add_0_r. now repeat split.
  - destruct Hs as (Hl & Hf & Ht & Hn & Hc).
    cbn [failures LegacyClient.run].
    (* the ['error'] event *)
    destruct (retry_listeners_run k (inFlight (client s)) s)
      as (s1 & E1 & Hl1 & Hf1 & Ht1 & Hn1 & Hc1 & Hb1).
    assert (Es : LegacyClient.step s (socket_on_error e)
                 = (s1, map (fun i => setTimeout_loop i 5000) (seq h k))).
    { unfold LegacyClient.step, handle, bind_L at 1, self.
      rewrite Hl. destruct k as [|k']; [lia|].
      cbn [repeat]. change (retry :: repeat retry k') with (repeat retry (S k')).
      unfold bind_L. rewrite E1, Hn. cbn [forEach_L unit_L].
      now rewrite app_nil_r. }
    rewrite Es.
    (* the timers *)
    destruct (@timers_fire k s1 k h m) as (s2 & E2 & Hs2 & Hb2).
    { unfold retrying. rewrite Hl1, Hf1, Ht1, Hn1, Hc1, Hl, Hf, Ht, Hn, Hc.
      now repeat split. }
    { apply Hb1, Hk. }
    destruct (IH s2 (2 * k)%nat (h + k)%nat (m + k)%nat) as
      (s3 & E3 & Hl3 & Hc3 & Hcon & Hdel & Hwr).
    { lia. }
    { replace (2 * k)%nat with (k + k)%nat by lia. exact Hs2. }
    rewrite run_app_legacy, E2.
    destruct (LegacyClient.run s2 (failures errors (h + k) (2 * k)))
      as [s3' o3] eqn:E. cbn [snd] in *. injection E3 as E3. subst s3'.
    exists s3.
    assert (P : (2 * k * 2 ^ List.length errors
                 = k * 2 ^ List.length (e :: errors))%nat).
    { cbn [List.length]. rewrite Nat.pow_succ_r'. lia. }
    assert (Q : (k <= k * 2 ^ List.length errors)%nat).
    { pose proof (Nat.pow_nonzero 2 (List.length errors)). nia. }
    rewrite <- P.
    repeat split.
    + exact Hl3.
    + rewrite Hc3. lia.
    + rewrite !connects_app, Hcon, connects_timers, connects_repeat. lia.
    + rewrite !loop_delays_app, Hdel, loop_delays_timers, loop_delays_repeat.
      cbn [app]. rewrite <- repeat_app. f_equal. lia.
    + now rewrite !writes_app, Hwr, writes_timers, writes_repeat.
Qed.

Lemma connectHandler_run s :
  exists s',
    connectHandler s
    = (Normal tt, s',
       [socket_write (Request.getRequest
                        (Request.new (lit "INF") CommandMode.READ [lit ""] 0));
        setTimeout_request (nextTimer (client s)) 60000]).
Proof. destruct s as [c ls]. eexists. reflexivity. Qed.

Lemma connectHandlers_run m : forall s,
  exists s' out,
    times_L m connectHandler s = (Normal tt, s', out)
    /\ writes out
       = repeat (Request.getRequest
                   (Request.new (lit "INF") CommandMode.READ [lit ""] 0)) m.
Proof.
  induction m as [|m IH]; intro s.
  - exists s, []. now split.
  - destruct (connectHandler_run s) as (s1 & E1).
    destruct (IH s1) as (s2 & out & E2 & Hw).
    exists s2. eexists. cbn [times_L]. unfold bind_L. rewrite E1, E2.
    split; [reflexivity|].
    rewrite writes_app, Hw. reflexivity.
Qed.

End EarlierRetries.

(** X24.  In the earlier text of the client every call of [__connect]
    attaches an ['error'] listener that is never removed, and each listener
    sets a timer of its own: when attempts fail one after the other (an
    ['error'] event, then the timers it has set fire), the calls of
    [socket.connect] double at every failure.  After [n] failures there
    have been [2^n] calls and [2^n - 1] timers of 5 s, [2^n] listeners are
    attached, and the ['connect'] event then starts [2^n] cycles at once,
    each writing its own [INF] request. *)
Theorem earlier_retries_double (errors : list error) :
  let '(s, out) :=
    LegacyClient.run LegacyClient.new
      (HottohRemoteClient.call_start HottohRemoteClient.connecting
       :: failures errors 0 1) in
  HottohRemoteClient.connects out = (2 ^ List.length errors)%nat /\
  HottohRemoteClient.loop_delays out
  = repeat 5000 (2 ^ List.length errors - 1) /\
  HottohRemoteClient.writes out = [] /\
  LegacyClient.errorListeners s
  = repeat LegacyClient.retry (2 ^ List.length errors) /\
  HottohRemoteClient.writes
    (snd (LegacyClient.step s HottohRemoteClient.socket_on_connect))
  = repeat (Request.getRequest
              (Request.new (lit "INF") CommandMode.READ [lit ""] 0))
      (2 ^ List.length errors).
Proof.
  cbn [LegacyClient.run].
  set (s0 := {| LegacyClient.client :=
                  HottohRemoteClient.set_connectHandlers 1
                    HottohRemoteClient.new;
                LegacyClient.errorListeners := [LegacyClient.retry] |}).
  change (LegacyClient.step LegacyClient.new
            (HottohRemoteClient.call_start HottohRemoteClient.connecting))
    with (s0, [HottohRemoteClient.socket_connect]).
  destruct (@failures_run errors s0 1%nat 0%nat 1%nat)
    as (s' & E & Hl & Hc & Hcon & Hdel & Hwr).
  { lia. }
  { now repeat split. }
  destruct (LegacyClient.run s0 (failures errors 0 1)) as [s1 out] eqn:Er.
  cbn [snd] in *. injection E as E. subst s1.
  assert (P : (1 <= 2 ^ List.length errors)%nat).
  { pose proof (Nat.pow_nonzero 2 (List.length errors)). lia. }
  rewrite Nat.mul_1_l in *.
  repeat split.
  - change (S (HottohRemoteClient.connects out) = (2 ^ List.length errors)%nat).
    rewrite Hcon. lia.
  - exact Hdel.
  - exact Hwr.
  - exact Hl.
  - unfold LegacyClient.step, LegacyClient.handle, LegacyClient.bind_L at 1,
      LegacyClient.self.
    set (s2 := {| LegacyClient.client :=
                    HottohRemoteClient.set_connectHandlers 0
                      (LegacyClient.client s');
                  LegacyClient.errorListeners :=
                    LegacyClient.errorListeners s' |}).
    change (LegacyClient.bind_L _ _ s')
      with (let '(r, s3, o3) :=
              LegacyClient.times_L
                (HottohRemoteClient.connectHandlers (LegacyClient.client s'))
                LegacyClient.connectHandler s2 in (r, s3, [] ++ o3)).
    destruct (@connectHandlers_run
                (HottohRemoteClient.connectHandlers (LegacyClient.client s'))
                s2) as (s3 & o3 & E3 & Hw3).
    rewrite E3. cbn [snd app]. rewrite Hw3, Hc. f_equal. lia.
Qed.


(** ** [dispose] *)

Section Disposing.
Import HottohRemoteClient Disposal.

Lemma lift_bind A B (m : M A) (f : A -> M B) s :
  lift (bind m f) s = bind_D (lift m) (fun a => lift (f a)) s.
Proof.
  unfold lift, bind_D, bind.
  destruct (m (client s)) as [[[a|e] c1] o1]; cbn [client _socket_null orphans].
  - destruct (f a c1) as [[r c2] o2]. now rewrite map_app.
  - reflexivity.
Qed.

Lemma lift_try A (body : M A) (handler : error -> M A) s :
  lift (try_catch body handler) s
  = try_catch_D (lift body) (fun e => lift (handler e)) s.
Proof.
  unfold lift, try_catch_D, try_catch.
  destruct (body (client s)) as [[[a|e] c1] o1]; cbn [client _socket_null orphans].
  - reflexivity.
  - destruct (handler e c1) as [[r c2] o2]. now rewrite map_app.
Qed.

Lemma lift_keeps A (m : M A) s :
  _socket_null (snd (fst (lift m s))) = _socket_null s
  /\ orphans (snd (fst (lift m s))) = orphans s.
Proof. unfold lift. now destruct (m (client s)) as [[r c] o]. Qed.

Lemma bind_D_lift_ext A B (m : M A) (f g : A -> D B) s :
  (forall a s', _socket_null s' = _socket_null s -> orphans s' = orphans s ->
                f a s' = g a s') ->
  bind_D (lift m) f s = bind_D (lift m) g s.
Proof.
  intro H. unfold bind_D. destruct (lift_keeps m s) as [H1 H2].
  destruct (lift m s) as [[[a|e] s1] o1]; [|reflexivity].
  cbn [fst snd] in H1, H2. now rewrite (H a s1 H1 H2).
Qed.

Lemma lift_ret A (a : A) s : lift (ret a) s = unit_D a s.
Proof. now destruct s. Qed.

Lemma self_is_lift A (k : HottohRemoteClient.t -> M A) s :
  lift (bind this k) s = lift (k (client s)) s.
Proof.
  unfold lift, bind, this. now destruct (k (client s) (client s)) as [[r c] o].
Qed.

Lemma dial_lift s :
  _socket_null s = false -> Disposal.__dial s = lift HottohRemoteClient.__dial s.
Proof.
  intro H. unfold Disposal.__dial, bind_D, self. rewrite H.
  destruct (lift HottohRemoteClient.__dial s) as [[r s'] o]. cbn.
  now destruct r.
Qed.

Lemma connect_lift outcome s :
  _socket_null s = false ->
  Disposal.__connect outcome s = lift (HottohRemoteClient.__connect outcome) s.
Proof.
  intro H. unfold Disposal.__connect, bind_D, self. rewrite H.
  destruct (lift (HottohRemoteClient.__connect outcome) s) as [[r s'] o]. cbn.
  now destruct r.
Qed.

Lemma loop_lift outcome s :
  _socket_null s = false ->
  Disposal.loop outcome s = lift (HottohRemoteClient.loop outcome) s.
Proof.
  intro H. unfold Disposal.loop, HottohRemoteClient.loop.
  rewrite lift_bind. apply bind_D_lift_ext. intros _ s' H1 _.
  rewrite H in H1. rewrite self_is_lift.
  unfold bind_D at 1, self.
  assert (E : forall X : D unit,
             (let '(r, s2, o2) := X s' in (r, s2, [] ++ o2)) = X s').
  { intro X. now destruct (X s') as [[r s2] o2]. }
  rewrite E.
  destruct (__endRequest (client s')); [now rewrite lift_ret|].
  destruct (__isConnected (client s')).
  - unfold unawaited. rewrite lift_try. unfold try_catch_D.
    now rewrite (@dial_lift s' H1).
  - apply (@connect_lift outcome s' H1).
Qed.

Lemma stop_lift s :
  _socket_null s = false -> Disposal.stop s = lift HottohRemoteClient.stop s.
Proof.
  intro H. unfold Disposal.stop, HottohRemoteClient.stop.
  rewrite lift_bind. apply bind_D_lift_ext. intros _ s1 H1 _.
  rewrite lift_bind. apply bind_D_lift_ext. intros _ s2 H2 _.
  rewrite H1, H in H2.
  unfold Disposal.__disconnect, HottohRemoteClient.__disconnect.
  rewrite lift_bind. apply bind_D_lift_ext. intros _ s3 H3 _.
  rewrite H2 in H3. rewrite lift_try.
  unfold try_catch_D, the_socket, bind_D, self. rewrite H3.
  destruct s3; reflexivity.
Qed.

(** Until [dispose] is called the model with [dispose] is the model of the
    client. *)
Lemma until_dispose (s : Disposal.t) (e : HottohRemoteClient.event) :
  _socket_null s = false ->
  orphans s = [] ->
  Disposal.handle (of_session e) s
  = lift (HottohRemoteClient.handle e) s.
Proof.
  intros H Ho.
  assert (E : forall X : D unit,
             (let '(r, s2, o2) := X s in (r, s2, [] ++ o2)) = X s).
  { intro X. now destruct (X s) as [[r s2] o2]. }
  unfold Disposal.handle, bind_D at 1, self. rewrite E.
  destruct e as [o| |p| |data|err| | |h o|h]; try (rewrite H; reflexivity).
  - (* start *)
    unfold Disposal.start, HottohRemoteClient.handle, HottohRemoteClient.start.
    rewrite lift_bind. apply bind_D_lift_ext. intros _ s1 H1 _.
    rewrite H in H1. apply (@loop_lift _ s1 H1).
  - (* stop *) apply (@stop_lift s H).
  - (* sendCommand *)
    cbn [HottohRemoteClient.handle]. rewrite lift_bind. reflexivity.
  - (* the timer of [loop] *)
    cbn [HottohRemoteClient.handle]. rewrite self_is_lift.
    destruct (existsb _ _); [|now rewrite lift_ret].
    rewrite lift_bind. apply bind_D_lift_ext. intros _ s1 H1 _.
    rewrite H in H1. apply (@loop_lift _ s1 H1).
  - (* the timer of a request *)
    rewrite Ho. cbn [filter forEach_D].
    unfold bind_D.
    destruct (lift (HottohRemoteClient.handle (request_timer_fires h)) s)
      as [[[[]|e] s1] o1]; [|reflexivity].
    cbn. now rewrite app_nil_r.
Qed.

End Disposing.

Section AfterDispose.
Import HottohRemoteClient Disposal.

Lemma timer_last h ms l :
  existsb (fun t : nat * Z => Nat.eqb (fst t) h) (l ++ [(h, ms)]) = true.
Proof.
  rewrite existsb_app. cbn. rewrite Nat.eqb_refl. apply orb_true_r.
Qed.

Lemma dispose_nulls s :
  _socket_null (fst (Disposal.step s call_dispose)) = true
  /\ __isConnected (client (fst (Disposal.step s call_dispose))) = false
  /\ inFlight (client (fst (Disposal.step s call_dispose)))
     = (if _socket_null s then inFlight (client s) else [])
  /\ nextTimer (client (fst (Disposal.step s call_dispose)))
     = nextTimer (client s)
  /\ uncaught (snd (Disposal.step s call_dispose)) = [].
Proof.
  destruct s as [c [|] os];
    destruct c as [? ? ? ? ? ? ? ? [h|] ? ? ? ?]; cbn; now repeat split.
Qed.

Lemma start_without_socket s o :
  _socket_null s = true ->
  exists s',
    Disposal.step s (of_session (call_start o))
    = (s', map of_client
             (match _loopTimeout (client s) with
              | Some h => [clearTimeout h]
              | None => []
              end ++ [setTimeout_loop (nextTimer (client s)) 5000]))
    /\ waits_without_socket s' (nextTimer (client s)).
Proof.
  destruct s as [c b os]. cbn [_socket_null client]. intros ->.
  destruct c as [? ? ? ? ? [|] ? ? [h|] ? ? ? ?]; eexists;
    (split; [reflexivity|]);
    unfold waits_without_socket; cbn; repeat split; eexists; reflexivity.
Qed.

Lemma retry_without_socket s h o :
  waits_without_socket s h ->
  exists s',
    Disposal.step s (of_session (loop_timer_fires h o))
    = (s', [of_client (clearTimeout h);
            of_client (setTimeout_loop (S h) 5000)])
    /\ waits_without_socket s' (S h).
Proof.
  intros (Hn & He & Hc & Ht & (l & Hl) & Hh).
  destruct s as [c b os]. cbn [_socket_null client] in *. subst b.
  destruct c as [? ? ? ? ? ? ? ? ? ? ? ? ?]. cbn in He, Hc, Ht, Hl, Hh. subst.
  unfold Disposal.step, try_catch_D, Disposal.handle, bind_D at 1, self.
  cbn [client loopTimers]. rewrite timer_last.
  eexists. split; [reflexivity|].
  unfold waits_without_socket; cbn; repeat split. eexists; reflexivity.
Qed.

Lemma retries_without_socket outcomes : forall s h,
  waits_without_socket s h ->
  exists s',
    Disposal.run s (retries_from h outcomes)
    = (s', snd (Disposal.run s (retries_from h outcomes)))
    /\ waits_without_socket s' (h + List.length outcomes)
    /\ connects (of_the_client (snd (Disposal.run s (retries_from h outcomes))))
       = 0%nat
    /\ writes (of_the_client (snd (Disposal.run s (retries_from h outcomes))))
       = []
    /\ loop_delays
         (of_the_client (snd (Disposal.run s (retries_from h outcomes))))
       = repeat 5000 (List.length outcomes)
    /\ uncaught (snd (Disposal.run s (retries_from h outcomes))) = [].
Proof.
  induction outcomes as [|o outcomes IH]; intros s h Hs.
  - exists s. cbn. rewrite Nat.add_0_r.
    split; [reflexivity|]. split; [exact Hs|]. now repeat split.
  - destruct (retry_without_socket o Hs) as (s1 & E1 & Hs1).
    destruct (IH s1 (S h) Hs1) as (s2 & E2 & Hs2 & P1 & P2 & P3 & P4).
    cbn [retries_from Disposal.run List.length]. rewrite E1.
    destruct (Disposal.run s1 (retries_from (S h) outcomes)) as [s2' o2].
    cbn [snd] in *. injection E2 as E2. subst s2'.
    exists s2. split; [reflexivity|].
    replace (h + S (List.length outcomes))%nat
      with (S h + List.length outcomes)%nat by lia.
    split; [exact Hs2|].
    cbn [app of_the_client flat_map uncaught].
    fold (of_the_client o2). fold (uncaught o2).
    cbn [app connects writes loop_delays flat_map filter List.length repeat].
    fold (connects (of_the_client o2)). fold (writes (of_the_client o2)).
    fold (loop_delays (of_the_client o2)).
    rewrite P1, P2, P3, P4. now repeat split.
Qed.

End AfterDispose.

Section OrphanTimers.
Import HottohRemoteClient Disposal.

Lemma dispose_orphans s :
  _socket_null s = false ->
  orphans (fst (Disposal.step s call_dispose))
  = orphans s ++ inFlight (client s)
  /\ of_the_client (snd (Disposal.step s call_dispose))
     = match _loopTimeout (client s) with
       | Some h => [clearTimeout h]
       | None => []
       end ++ [socket_end]
  /\ snapshots (client (fst (Disposal.step s call_dispose)))
     = (None, None, None)
  /\ _writeParameters (client (fst (Disposal.step s call_dispose))) = [].
Proof.
  destruct s as [c b os]. cbn [_socket_null]. intros ->.
  destruct c as [? ? ? ? ? ? ? ? [h|] ? ? ? ?]; cbn; now repeat split.
Qed.

Lemma orphan_timer s r0 rest h :
  _socket_null s = true ->
  inFlight (client s) = [] ->
  filter (fun r => Nat.eqb (timeout r) h) (orphans s) = r0 :: rest ->
  Disposal.step s (of_session (request_timer_fires h))
  = ({| client := client s; _socket_null := true;
        orphans := without_request (timeout r0) (orphans s) |},
     [of_client (clearTimeout (timeout r0)); uncaughtException TypeError]).
Proof.
  destruct s as [c b os]. cbn [_socket_null client orphans]. intros -> Hf Ho.
  destruct c. cbn in Hf. subst.
  unfold Disposal.step, try_catch_D, Disposal.handle, bind_D at 1, self.
  cbn [orphans]. rewrite Ho. reflexivity.
Qed.

Lemma filter_finds (r : request_in_flight) l :
  In r l ->
  exists r0 rest,
    filter (fun x => Nat.eqb (timeout x) (timeout r)) l = r0 :: rest
    /\ timeout r0 = timeout r.
Proof.
  intro H.
  assert (Hin : In r (filter (fun x => Nat.eqb (timeout x) (timeout r)) l)).
  { apply filter_In. split; [exact H | apply Nat.eqb_refl]. }
  destruct (filter (fun x => Nat.eqb (timeout x) (timeout r)) l)
    as [|r0 rest] eqn:E; [contradiction|].
  exists r0, rest. split; [reflexivity|].
  assert (H0 : In r0 (filter (fun x => Nat.eqb (timeout x) (timeout r)) l))
    by (rewrite E; now left).
  apply filter_In in H0 as [_ H0]. now apply Nat.eqb_eq in H0.
Qed.

End OrphanTimers.

(** X25.  [dispose] does not clear the timers of the requests in flight.
    Called while a request waits for its response it ends the socket, takes
    the listeners away and destroys the socket, but the 60 s timer of the
    request stays; when it fires, [cleanup] uses [this._socket], which is
    [null] by then: a [TypeError] leaves the timer callback uncaught, and the
    promise of the request is never settled, so nothing is written and no
    timer is set. *)
Theorem dispose_leaves_request_timer (s : Disposal.t)
  (r : HottohRemoteClient.request_in_flight) :
  Disposal._socket_null s = false ->
  Disposal.orphans s = [] ->
  In r (HottohRemoteClient.inFlight (Disposal.client s)) ->
  let '(s1, out1) := Disposal.step s Disposal.call_dispose in
  let '(s2, out2) :=
    Disposal.step s1
      (Disposal.of_session
         (HottohRemoteClient.request_timer_fires
            (HottohRemoteClient.timeout r))) in
  Disposal.of_the_client out1
  = match HottohRemoteClient._loopTimeout (Disposal.client s) with
    | Some h => [HottohRemoteClient.clearTimeout h]
    | None => []
    end ++ [HottohRemoteClient.socket_end]
  /\ Disposal.uncaught out1 = []
  /\ out2
     = [Disposal.of_client
          (HottohRemoteClient.clearTimeout (HottohRemoteClient.timeout r));
        Disposal.uncaughtException TypeError]
  /\ snapshots (Disposal.client s2) = (None, None, None).
Proof.
  intros Hn Ho Hr.
  destruct (@dispose_orphans s Hn) as (E1 & E2 & E3 & _).
  destruct (dispose_nulls s) as (N1 & _ & N3 & _ & N5).
  rewrite Hn in N3. rewrite Ho in E1. cbn [app] in E1.
  destruct (Disposal.step s Disposal.call_dispose) as [s1 out1].
  cbn [fst snd] in *.
  destruct (@filter_finds r (Disposal.orphans s1)) as (r0 & rest & Hf & Ht).
  { now rewrite E1. }
  rewrite (@orphan_timer s1 r0 rest _ N1 N3 Hf), Ht.
  cbn [Disposal.client]. now repeat split.
Qed.

(** X26.  After [dispose] the client cannot connect again.  [start] then
    finds [this._socket] [null]: the [TypeError] is caught in [__connect],
    which sets the 5000 ms timer, and every time the timer fires the same
    happens again.  [socket.connect] is never called, nothing is written and
    no exception escapes: the client retries every 5 s for ever. *)
Theorem start_after_dispose_never_connects (s : Disposal.t)
  (o : HottohRemoteClient.connect_call)
  (outcomes : list HottohRemoteClient.connect_call) :
  let s1 := fst (Disposal.step s Disposal.call_dispose) in
  let '(s2, out) :=
    Disposal.run s1
      (Disposal.of_session (HottohRemoteClient.call_start o)
       :: retries_from
            (HottohRemoteClient.nextTimer (Disposal.client s)) outcomes) in
  HottohRemoteClient.connects (Disposal.of_the_client out) = 0%nat
  /\ HottohRemoteClient.writes (Disposal.of_the_client out) = []
  /\ HottohRemoteClient.loop_delays (Disposal.of_the_client out)
     = repeat 5000 (S (List.length outcomes))
  /\ Disposal.uncaught out = []
  /\ waits_without_socket s2
       (HottohRemoteClient.nextTimer (Disposal.client s)
        + List.length outcomes).
Proof.
  intro s1.
  destruct (dispose_nulls s) as (N1 & _ & _ & N4 & _). fold s1 in N1, N4.
  destruct (@start_without_socket s1 o N1) as (s' & E & Hw).
  rewrite N4 in E, Hw.
  destruct (@retries_without_socket outcomes s' _ Hw)
    as (s2 & E2 & Hw2 & P1 & P2 & P3 & P4).
  cbn [Disposal.run]. rewrite E.
  destruct (Disposal.run s'
              (retries_from
                 (HottohRemoteClient.nextTimer (Disposal.client s))
                 outcomes)) as [s2' out2].
  cbn [snd] in *. injection E2 as E2. subst s2'.
  assert (Q : forall l : list HottohRemoteClient.action,
             Disposal.of_the_client (map Disposal.of_client l) = l).
  { induction l as [|a l IH]; [reflexivity|]. cbn. now f_equal. }
  assert (U : forall l : list HottohRemoteClient.action,
             Disposal.uncaught (map Disposal.of_client l) = []).
  { induction l as [|a l IH]; [reflexivity | exact IH]. }
  assert (A : forall a b,
             Disposal.of_the_client (a ++ b)
             = Disposal.of_the_client a ++ Disposal.of_the_client b).
  { intros a b. unfold Disposal.of_the_client. apply flat_map_app. }
  assert (B : forall a b,
             Disposal.uncaught (a ++ b)
             = Disposal.uncaught a ++ Disposal.uncaught b).
  { intros a b. unfold Disposal.uncaught. apply flat_map_app. }
  rewrite A, B, Q, U, connects_app, writes_app, loop_delays_app,
    P1, P2, P3, P4.
  destruct (HottohRemoteClient._loopTimeout (Disposal.client s1));
    cbn; (split; [reflexivity|]); (split; [reflexivity|]);
    (split; [reflexivity|]); (split; [reflexivity | exact Hw2]).
Qed.

(** ** [check] *)

Section Checking.
Import HottohRemoteClient CheckCall.

#[local] Arguments Request.getRequest : simpl never.
#[local] Arguments Request.new : simpl never.
#[local] Arguments Buffer_toString_utf8 : simpl never.
#[local] Arguments includes : simpl never.
#[local] Arguments split : simpl never.
#[local] Arguments lit : simpl never.

Lemma check_data_open h data c l :
  includes newline (_responseBuffer c ++ Buffer_toString_utf8 data) = false ->
  CheckCall.step {| client := c; connectListeners := l;
                reached := AwaitResponse h |} (CheckCall.socket_on_data data)
  = ({| client := set__responseBuffer
                    (_responseBuffer c ++ Buffer_toString_utf8 data) c;
        connectListeners := l; reached := AwaitResponse h |}, []).
Proof.
  intro H. unfold CheckCall.step, CheckCall.handle, bind_C at 1, self.
  cbn [reached]. unfold CheckCall.onData, bind_C at 1, self. cbn [client].
  unfold bind_C at 1, lift, assign. cbn [client connectListeners reached map].
  unfold bind_C at 1, self. cbn [client].
  destruct c; cbn [_responseBuffer set__responseBuffer] in *.
  rewrite H. reflexivity.
Qed.

Lemma check_data_closed h data c l :
  includes newline (_responseBuffer c ++ Buffer_toString_utf8 data) = true ->
  CheckCall.step {| client := c; connectListeners := l;
                reached := AwaitResponse h |} (CheckCall.socket_on_data data)
  = ({| client := set__responseBuffer [] c;
        connectListeners := l; reached := Returned true |},
     [of_client (clearTimeout h); of_client socket_end]).
Proof.
  intro H. unfold CheckCall.step, CheckCall.handle, bind_C at 1, self.
  cbn [reached]. unfold CheckCall.onData, bind_C at 1, self. cbn [client].
  unfold bind_C at 1, lift, assign. cbn [client connectListeners reached map].
  unfold bind_C at 1, self. cbn [client].
  destruct c; cbn [_responseBuffer set__responseBuffer] in *.
  rewrite H.
  match goal with
  | |- context [_extractData ?x] =>
      pose proof (@split_not_nil semicolon x) as Hne;
      unfold check_answered; fold (_extractData x) in Hne;
      destruct (_extractData x) as [|f fs] eqn:E; [congruence|]
  end.
  reflexivity.
Qed.

Lemma check_data_chunks h l bef : forall c lst,
  includes newline (received (_responseBuffer c) bef) = false ->
  includes newline (received (_responseBuffer c) (bef ++ [lst])) = true ->
  CheckCall.run {| client := c; connectListeners := l;
               reached := AwaitResponse h |}
    (map CheckCall.socket_on_data (bef ++ [lst]))
  = ({| client := set__responseBuffer [] c;
        connectListeners := l; reached := Returned true |},
     [of_client (clearTimeout h); of_client socket_end]).
Proof.
  induction bef as [|data bef IH]; intros c lst Hopen Hclosed.
  - cbn [app] in *. cbn [map CheckCall.run].
    unfold received in Hclosed. cbn [flat_map] in Hclosed.
    rewrite app_nil_r in Hclosed.
    rewrite (check_data_closed h lst c l Hclosed). reflexivity.
  - cbn [app] in *. cbn [map CheckCall.run].
    rewrite (check_data_open h data c l (includes_received_cons _ _ _ Hopen)).
    rewrite received_cons in Hopen.
    rewrite (received_cons _ data (bef ++ [lst])) in Hclosed.
    rewrite (IH (set__responseBuffer
                   (_responseBuffer c ++ Buffer_toString_utf8 data) c) lst).
    + destruct c; reflexivity.
    + destruct c; exact Hopen.
    + destruct c; exact Hclosed.
Qed.

Lemma returned_is_final b events : forall s,
  reached s = Returned b ->
  reached (fst (CheckCall.run s events)) = Returned b
  /\ snd (CheckCall.run s events) = [].
Proof.
  induction events as [|e events IH]; intros s H; [now split|].
  cbn [CheckCall.run].
  assert (E : exists s1, CheckCall.step s e = (s1, []) /\ reached s1 = Returned b).
  { destruct s as [c l p]. cbn [reached] in H. subst p.
    destruct e as [|data|err| | |h]; destruct l; destruct c;
      eexists; (split; [reflexivity|]); reflexivity. }
  destruct E as (s1 & -> & H1).
  destruct (IH s1 H1) as [R O].
  destruct (CheckCall.run s1 events) as [s2 o2]. cbn [fst snd] in *.
  now subst.
Qed.

Lemma check_data_partial h l partial : forall c,
  includes newline (received (_responseBuffer c) partial) = false ->
  CheckCall.run {| client := c; connectListeners := l;
               reached := AwaitResponse h |}
    (map CheckCall.socket_on_data partial)
  = ({| client := set__responseBuffer (received (_responseBuffer c) partial) c;
        connectListeners := l; reached := AwaitResponse h |}, []).
Proof.
  induction partial as [|data partial IH]; intros c Hopen.
  - cbn [map CheckCall.run]. rewrite received_nil. now destruct c.
  - cbn [map CheckCall.run].
    rewrite (check_data_open h data c l (includes_received_cons _ _ _ Hopen)).
    rewrite received_cons in Hopen |- *.
    rewrite (IH (set__responseBuffer
                   (_responseBuffer c ++ Buffer_toString_utf8 data) c)).
    + destruct c; reflexivity.
    + destruct c; exact Hopen.
Qed.

Lemma check_run_app (a b : list CheckCall.event) : forall s,
  CheckCall.run s (a ++ b)
  = let '(s1, o1) := CheckCall.run s a in
    let '(s2, o2) := CheckCall.run s1 b in (s2, o1 ++ o2).
Proof.
  induction a as [|e a IH]; intro s; cbn [app CheckCall.run].
  - now destruct (CheckCall.run s b).
  - destruct (CheckCall.step s e) as [s1 o1]. rewrite IH.
    destruct (CheckCall.run s1 a) as [s2 o2].
    destruct (CheckCall.run s2 b) as [s3 o3].
    now rewrite app_assoc.
Qed.

(** [check] up to the request: the call and the ['connect'] event. *)
Lemma check_connects c :
  exists out,
    CheckCall.session connecting [CheckCall.socket_on_connect] c
    = ({| client := set_nextTimer (S (nextTimer c))
                      (set___isConnected true c);
          connectListeners := false;
          reached := AwaitResponse (nextTimer c) |}, out)
    /\ of_the_client out
       = [socket_connect;
          socket_write (frame (lit "DAT") CommandMode.READ [lit "0"]);
          setTimeout_request (nextTimer c) 60000].
Proof.
  destruct c as [? ? ? ? ? [|] ? ? ? ? ? ? ?]; eexists;
    (split; reflexivity).
Qed.

Lemma session_app outcome (a b : list CheckCall.event) c :
  CheckCall.session outcome (a ++ b) c
  = let '(s1, o1) := CheckCall.session outcome a c in
    let '(s2, o2) := CheckCall.run s1 b in (s2, o1 ++ o2).
Proof.
  unfold CheckCall.session.
  destruct (CheckCall.check outcome (called_on c)) as [[r s0] o0].
  rewrite check_run_app.
  destruct (CheckCall.run s0 a) as [s1 o1].
  destruct (CheckCall.run s1 b) as [s2 o2].
  now rewrite app_assoc.
Qed.

Lemma of_the_client_app a b :
  of_the_client (a ++ b) = of_the_client a ++ of_the_client b.
Proof. unfold of_the_client. apply flat_map_app. Qed.

End Checking.

(** X27.  [check] answers [true] for any response.  On a client that is
    not polling, once the socket has connected and a line has arrived,
    whatever the line holds, the empty line included, [check] has written
    one [DAT 0] read, ended the socket and returned [true]: the array
    [_extractData] gives is never empty, so the test [data.length > 0]
    cannot fail.  No later event changes the answer. *)
Theorem check_answers_true_for_any_line (c : HottohRemoteClient.t)
  (d : delivery) (line : jsstring) (later : list CheckCall.event) :
  at_rest c ->
  delivers (HottohRemoteClient._responseBuffer c) d line ->
  let '(s, out) :=
    CheckCall.session HottohRemoteClient.connecting
      ([CheckCall.socket_on_connect]
         ++ map CheckCall.socket_on_data (chunks d) ++ later) c in
  CheckCall.reached s = CheckCall.Returned true
  /\ HottohRemoteClient.writes (CheckCall.of_the_client out)
     = [frame (lit "DAT") CommandMode.READ [lit "0"]]
  /\ HottohRemoteClient.connects (CheckCall.of_the_client out) = 1%nat
  /\ In HottohRemoteClient.socket_end (CheckCall.of_the_client out).
Proof.
  intros _ (Hopen & Hclosed & _).
  rewrite session_app.
  destruct (check_connects c) as (out0 & -> & Hw).
  rewrite check_run_app. unfold chunks in *.
  rewrite check_data_chunks
    by (destruct c; cbn [HottohRemoteClient._responseBuffer
                         HottohRemoteClient.set_nextTimer
                         HottohRemoteClient.set___isConnected] in *;
        assumption).
  match goal with
  | |- context [CheckCall.run ?s later] =>
      destruct (@returned_is_final true later s eq_refl) as [R O];
      destruct (CheckCall.run s later) as [s2 o2]
  end.
  cbn [fst snd] in R, O. subst o2.
  rewrite !of_the_client_app, Hw.
  split; [exact R|]. split; [reflexivity|]. split; [reflexivity|].
  apply in_or_app. right. cbn. auto.
Qed.

(** X28.  On a client that is not polling, [check] answers [false] on
    every failure and never throws: when [socket.connect] throws, when the
    socket reports an error before it has connected, and when, after the
    request has been written, an error or the 60 s timer comes before a
    complete line.  No later event changes the answer. *)
Theorem check_answers_false_on_failure (c : HottohRemoteClient.t)
  (later : list CheckCall.event) :
  at_rest c ->
  (forall code,
     CheckCall.reached
       (fst (CheckCall.session (HottohRemoteClient.connect_throws code)
               later c))
     = CheckCall.Returned false)
  /\ (forall e,
        CheckCall.reached
          (fst (CheckCall.session HottohRemoteClient.connecting
                  (CheckCall.socket_on_error e :: later) c))
        = CheckCall.Returned false)
  /\ forall partial failure,
       includes newline
         (received (HottohRemoteClient._responseBuffer c) partial) = false ->
       (failure
        = CheckCall.request_timer_fires (HottohRemoteClient.nextTimer c)
        \/ exists e, failure = CheckCall.socket_on_error e) ->
       let '(s, out) :=
         CheckCall.session HottohRemoteClient.connecting
           ([CheckCall.socket_on_connect]
              ++ map CheckCall.socket_on_data partial
              ++ failure :: later) c in
       CheckCall.reached s = CheckCall.Returned false
       /\ HottohRemoteClient.writes (CheckCall.of_the_client out)
          = [frame (lit "DAT") CommandMode.READ [lit "0"]]
       /\ ~ In HottohRemoteClient.socket_end (CheckCall.of_the_client out).
Proof.
  intros _. split; [|split].
  - intro code. unfold CheckCall.session.
    assert (E : exists s0 o0,
               CheckCall.check (HottohRemoteClient.connect_throws code)
                 (CheckCall.called_on c) = (Normal tt, s0, o0)
               /\ CheckCall.reached s0 = CheckCall.Returned false).
    { destruct c as [? ? ? ? ? [|] ? ? ? ? ? ? ?]; do 2 eexists;
        (split; [reflexivity|]); reflexivity. }
    destruct E as (s0 & o0 & -> & H0).
    destruct (@returned_is_final false later s0 H0) as [R _].
    now destruct (CheckCall.run s0 later).
  - intro e. unfold CheckCall.session.
    assert (E : exists s0 o0 s1 o1,
               CheckCall.check HottohRemoteClient.connecting (CheckCall.called_on c)
               = (Normal tt, s0, o0)
               /\ CheckCall.step s0 (CheckCall.socket_on_error e) = (s1, o1)
               /\ CheckCall.reached s1 = CheckCall.Returned false).
    { destruct c as [? ? ? ? ? [|] ? ? ? ? ? ? ?]; do 4 eexists;
        (split; [reflexivity|]); (split; [reflexivity|]); reflexivity. }
    destruct E as (s0 & o0 & s1 & o1 & -> & E1 & H1).
    cbn [CheckCall.run]. rewrite E1.
    destruct (@returned_is_final false later s1 H1) as [R _].
    now destruct (CheckCall.run s1 later).
  - intros partial failure Hopen Hf.
    rewrite session_app.
    destruct (check_connects c) as (out0 & -> & Hw).
    rewrite check_run_app.
    rewrite check_data_partial
      by (destruct c; cbn [HottohRemoteClient._responseBuffer
                           HottohRemoteClient.set_nextTimer
                           HottohRemoteClient.set___isConnected] in *;
          assumption).
    cbn [CheckCall.run].
    match goal with
    | |- context [CheckCall.step ?s failure] =>
        assert (E : exists s1,
                   CheckCall.step s failure
                   = (s1, [CheckCall.of_client
                             (HottohRemoteClient.clearTimeout
                                (HottohRemoteClient.nextTimer c))])
                   /\ CheckCall.reached s1 = CheckCall.Returned false)
    end.
    { destruct Hf as [-> | [e ->]].
      - unfold CheckCall.step, CheckCall.handle, CheckCall.bind_C at 1, CheckCall.self.
        cbn [CheckCall.reached]. rewrite Nat.eqb_refl.
        eexists. split; reflexivity.
      - eexists. split; reflexivity. }
    destruct E as (s1 & -> & H1).
    destruct (@returned_is_final false later s1 H1) as [R O].
    destruct (CheckCall.run s1 later) as [s2 o2]. cbn [fst snd] in R, O. subst o2.
    rewrite !of_the_client_app, Hw.
    split; [exact R|]. split; [reflexivity|].
    cbn. intros [H|[H|[H|[H|[]]]]]; discriminate.
Qed.

(** *** Examples *)

Lemma dispose_leaves_request_timer_witness :
  let '(s1, out1) := Disposal.step sample_in_use Disposal.call_dispose in
  snd (Disposal.step s1
         (Disposal.of_session (HottohRemoteClient.request_timer_fires 1)))
  = [Disposal.of_client (HottohRemoteClient.clearTimeout 1);
     Disposal.uncaughtException TypeError].
Proof.
  pose proof (@dispose_leaves_request_timer sample_in_use
                {| HottohRemoteClient.timeout := 1;
                   HottohRemoteClient.awaited_at :=
                     HottohRemoteClient.AwaitData |}
                eq_refl eq_refl (or_introl eq_refl)) as H.
  destruct (Disposal.step sample_in_use Disposal.call_dispose) as [s1 out1].
  cbn [HottohRemoteClient.timeout] in H.
  destruct (Disposal.step s1 _) as [s2 out2].
  destruct H as (_ & _ & H & _). exact H.
Defined.

Lemma check_answers_true_for_any_line_witness :
  CheckCall.reached
    (fst (CheckCall.session HottohRemoteClient.connecting
            [CheckCall.socket_on_connect;
             CheckCall.socket_on_data (bytes line_feed)]
            HottohRemoteClient.new))
  = CheckCall.Returned true.
Proof.
  assert (D : delivers [] sample_empty_line []) by (vm_compute; auto).
  pose proof (@check_answers_true_for_any_line HottohRemoteClient.new
                sample_empty_line [] []
                (conj eq_refl (conj eq_refl eq_refl)) D) as H.
  cbn [chunks sample_empty_line before last app map] in H.
  destruct (CheckCall.session _ _ _) as [s out].
  destruct H as (H & _). exact H.
Defined.

Lemma check_answers_false_on_failure_witness :
  CheckCall.reached
    (fst (CheckCall.session HottohRemoteClient.connecting
            [CheckCall.socket_on_connect;
             CheckCall.socket_on_data (bytes "0;1");
             CheckCall.request_timer_fires 0]
            HottohRemoteClient.new))
  = CheckCall.Returned false.
Proof.
  pose proof (@check_answers_false_on_failure HottohRemoteClient.new []
                (conj eq_refl (conj eq_refl eq_refl))) as (_ & _ & H).
  specialize (H [bytes "0;1"] (CheckCall.request_timer_fires 0)).
  cbn [map app] in H.
  destruct (CheckCall.session _ _ _) as [s out].
  apply H; [vm_compute; reflexivity | left; reflexivity].
Defined.
